(* ===== verification/_CoqProject ===== *)
-Q . S2P
Prelude.v
GoStrings.v
Regex.v
Fault.v
Lifecycle.v
Secureboot.v
Machine.v
Encoding.v
GoParse.v
StringFacts.v
Artifact.v
Installation.v
Assignment.v
Boot.v
Debian13.v
DebianRelease.v
Identity.v
Telemetry.v
Boottrust.v
Event.v
Op.v
Schema.v
Sessions.v
Db.v
Progress.v
StoreTelemetry.v
StoreMachines.v
StoreInstallations.v
StoreTrust.v
StoreUsers.v
StoreDeletion.v
Store.v
Http.v
HttpDiscovery.v
HttpProvisioning.v
HttpTelemetry.v
Netip.v
TrustedProxy.v
Passkeys.v
LogBuffer.v
Console.v
StudioAuth.v
StudioPages.v
Invariant.v
Reachable.v
Evolution.v
BootAssets.v
System.v
Studio.v
Startup.v
ReporterHost.v
ReporterClient.v
Reporter.v
ReporterFinalizer.v
Programs.v
Handoff.v
Limiter.v
Answers.v
HttpFacts.v
Sample.v
Debian13Theorems.v
DebianReleaseTheorems.v
SampleServer.v
StudioLogic.v
StudioRules.v
StudioTrace.v
Scripts.v
TelemetryTheorems.v
InstallationTheorems.v
TrustTheorems.v
IdentityTheorems.v
SystemTheorems.v
StudioTheorems.v
ReporterProtocol.v
ReporterSafety.v
ReporterTheorems.v
Delivery.v
Enrollment.v
StudioSample.v
ReporterSample.v
