(* ===== verification/Prelude.v ===== *)
(** * AegisPXE: a verification development

    AegisPXE is a server that boots machines over the network, decides from its
    store whether a machine may be provisioned, hands out the material of one
    installation exactly once, and follows the installation through telemetry
    the installer signs.  Operators decide through a web interface behind a
    trusted proxy or a loopback listener.  This library translates the Go code
    under [src/internal] and [src/cmd] to executable definitions and proves what
    the parts promise, alone and together.  A comment before a definition names
    the file, the lines and the symbol it translates.

    ** The program and its model

    _Values_ (pure functions, one file per Go package):
    - [Lifecycle] (internal/lifecycle), [Secureboot] (policy.go), [Machine],
      [Artifact] (with the loader), [Installation] (internal/profile and
      internal/installation), [Assignment], [Boot] (internal/boot,
      internal/trust), [Identity], [Telemetry] (with internal/telemetryauth),
      [Boottrust], [Event], [Fault].  Validators return [result unit] with the
      error the code returns; Go's multiple results are pairs.
    - [Debian13] renders boot parameters and preseeds, [DebianRelease] resolves
      the installer artifacts from the signed release files
      (internal/drivers/debian13, internal/driver).
    - [GoStrings], [Encoding], [GoParse], [Netip], [Regex]: the functions of Go's
      standard library these parts use, on byte strings ([string]); integers are
      [Z] with their width written where the code can reach it (the sequence
      numbers of the log, rowids, [uint16] ports).

    _The store_ (internal/store): [Db] is the database, one map or list per table
    with the constraints of schema.go checked by each insertion and deletion;
    [Op] is the monad of its operations, which reads an [ambient] (the clock,
    the outcome of each [rand.Read], and whether the engine executes each
    statement) and has the committed database and the working copy of the open
    transaction as its state.  [StoreMachines], [StoreInstallations],
    [StoreTelemetry], [StoreTrust], [StoreUsers] and [StoreDeletion] have one
    definition per method; [Store.step] is one operation under any ambient, and
    [Store.reachable] its closure from the empty store.  [Schema] is the
    transaction that brings a database file of any version up to date when it
    is opened.

    _The boot server_ (internal/httpapi): [Http], [HttpDiscovery],
    [HttpProvisioning], [HttpTelemetry].  A handler is a finite program of store
    calls; [System.sys_step] lets requests arrive, run one call at a time in any
    order and be answered, while other processes use the store.

    _The operator interface_ (internal/operatorui, operator, operatorpasskey,
    observability): [Sessions], [Passkeys], [TrustedProxy], [LogBuffer] keep the
    state outside the store; [Console] is the signature of the calls a handler
    makes on all of them; [StudioAuth] and [StudioPages] are the handlers,
    [Studio] the routes, the middleware and the concurrent system, whose trace
    records every call with its answer.

    _The reporter_ (internal/reporter, cmd/aegispxe-reporter) is the program in
    the installer that signs and sends the telemetry: [ReporterHost] has the
    calls to the operating system, the TPM and the network and what they do to
    the files and locks processes share, [ReporterClient] the configuration, the
    TPM key and the requests, [Reporter] the event queue, the evidence in the
    installer's log and the daemon, [ReporterFinalizer] the hand-over to the
    installed system and its first boot, and the interleaving of its processes.
    No listener of the server serves the reporter's requests today
    ([SystemTheorems.listeners_expose]); the reporter is kept for a later
    release.  Where the reporter talks to the server ([Delivery], [Enrollment]),
    the paths the listener passes on are a parameter.

    _The process_ (cmd/aegispxe-server, internal/secureboot/assets.go):
    [BootAssets] validates the signed iPXE files, [Startup] reads the
    configuration, checks it in the order of the code and decides which
    listeners there are.

    ** What is proved

    - The store: every reachable database is well formed ([Invariant],
      [Reachable]); records of an installation only evolve forward
      ([Evolution]); an operation that returns an error has changed nothing;
      the histories and the logs of the telemetry ([TelemetryTheorems],
      where the append is also refined to an abstract operation), the life of
      an assignment ([InstallationTheorems]), the release of credentials
      ([TrustTheorems]), users and machines ([IdentityTheorems]).
    - The boot server under any interleaving: one-shot hand-over, typed answers,
      termination, the bounds of the discovery limiter, and that the whole
      refines the store; and for each request served alone, the authorisation of
      boot material and of telemetry and the lines of the scripts
      ([SystemTheorems], by [Programs], [Handoff], [Limiter], [Answers],
      [Scripts]).
    - The operator interface under any interleaving: [StudioLogic] says what a
      call needs to have been preceded by, [StudioRules] proves it of each
      handler, [StudioTrace] lifts it to the trace, and [StudioTheorems] states
      who may change what, how sessions come to be and that tokens are used up.
    - The drivers: rendered preseeds contain exactly the planned lines,
      arguments are quoted, and artifacts are bound to the signed release
      ([Debian13Theorems], [DebianReleaseTheorems]).
    - The log buffer holds the newest lines of the stream and cleaned records
      carry no sensitive value ([LogBuffer]).
    - The reporter neither loses nor reorders the events of its queue under any
      interleaving of its processes ([ReporterProtocol], [ReporterTheorems]),
      unless a write to the queue arrives in part or its rewriting is cut off
      ([ReporterFinalizer.tears_queue] and [ReporterFinalizer.HostEnd] say which
      steps are excluded); its TPM signs only challenges of its own installation,
      and a first boot reports success only for a system that passed its
      validation ([ReporterSafety]); together with the server's handlers, over a
      network that loses requests and answers, each event of the queue is
      recorded once and in order, and the first turn in which nothing fails
      delivers all that is left of a queue whose events the server can accept
      ([Delivery.deliverable]).  A reporter whose TPM key the operator approved
      gets its credential by enrolment, challenge and proof, and delivers its
      queue with it ([Enrollment]); an answer lost at the wrong moment costs it
      the credential ([ReporterSample.lost_release_is_final]).
    - A server that starts has been checked ([Startup]): its Secure Boot files
      are the pinned ones, its operator listener is not open to the network
      without trusted proxies, and it finds its recovery key again.
    - Upgrading a database file loses nothing, gives the tables of every earlier
      version the columns they lack, and is done once ([Schema]).
    - [Sample], [SampleServer], [StudioSample] and [ReporterSample] are concrete
      runs, evaluated by the kernel, at which the theorems with hypotheses are applied.

    ** Parameters

    Code outside the repository is an argument: [Artifact.Crypto] (SHA-256,
    HMAC, RSA and PEM), [Http.Decoders] (encoding/json and time.Parse),
    [ReporterClient.ReporterCodec] (the same on the client), [Passkeys.WebAuthn],
    [BootAssets.ManifestDecoder], the answers of HTTP sources ([fetch], [outside]),
    of gpgv and of the file system.
    [Artifact.CryptoLaws] (lengths of digests) and
    [ReporterProtocol.ReporterCodecLaws] (a marshalled event is one line that can
    be read back) are the laws assumed of them, with
    [Enrollment.TrustCodecLaws] (each side reads what the other wrote during the
    enrolment) and [Enrollment.holds] (a TPM key signs and decrypts what its
    public key verifies and encrypts); the theorems that need more state
    it.  All are applied at concrete instances.

    ** Fuel and bounds

    Recursion on strings is structural, or has the length of the string as fuel;
    the lemmas of each theorem show that this fuel is enough (for instance
    [LogBuffer.write_loop_feed]).  Handlers are finite trees, so that no fuel
    is needed to run them; [SystemTheorems.server_quiesces] bounds their calls.
    The loops of the reporter that wait take the number of their turns, and
    [None] is that they go on; the theorems hold for every number.

    ** Not modelled

    HTML templates, style sheets and scripts (an answer has the value its
    template shows), the text of log records the code writes, sockets and
    signals, the version flag.
*)

From Stdlib Require Export ZArith Ascii Lia.
From stdpp Require Export base gmap strings fin_maps option list.

#[global] Set Warnings "-clear-no-such-hyp,-unused-intro-pattern".
#[global] Set Default Goal Selector "!".
#[global] Open Scope stdpp_scope.
#[global] Arguments String.append !_ _ / : simpl nomatch.

(** ** Automation shared by the development *)

Create HintDb aegis discriminated.

(** Splits boolean conjunctions, disjunctions and negations found in the
    hypotheses, and turns boolean comparisons into propositions. *)
Ltac bool_inv :=
  repeat match goal with
  | H : (_ && _)%bool = true |- _ => apply andb_true_iff in H; destruct H
  | H : (_ || _)%bool = false |- _ => apply orb_false_iff in H; destruct H
  | H : (_ || _)%bool = true |- _ => apply orb_true_iff in H
  | H : (_ && _)%bool = false |- _ => apply andb_false_iff in H
  | H : negb _ = true |- _ => apply negb_true_iff in H
  | H : negb _ = false |- _ => apply negb_false_iff in H
  | H : bool_decide _ = true |- _ => apply bool_decide_eq_true in H
  | H : bool_decide _ = false |- _ => apply bool_decide_eq_false in H
  | H : (_ =? _)%string = true |- _ => apply String.eqb_eq in H
  | H : (_ =? _)%string = false |- _ => apply String.eqb_neq in H
  | H : (_ <? _)%Z = true |- _ => apply Z.ltb_lt in H
  | H : (_ <? _)%Z = false |- _ => apply Z.ltb_ge in H
  | H : (_ <=? _)%Z = true |- _ => apply Z.leb_le in H
  | H : (_ <=? _)%Z = false |- _ => apply Z.leb_gt in H
  | H : (_ =? _)%Z = true |- _ => apply Z.eqb_eq in H
  | H : (_ =? _)%Z = false |- _ => apply Z.eqb_neq in H
  end.

(** Case analysis on every [if] of a hypothesis, discarding the branches the
    hypothesis rules out. *)
Ltac if_inv H :=
  repeat match type of H with
  | context [if ?b then _ else _] => let E := fresh "E" in destruct b eqn:E; try discriminate H
  end.

(** Proves a decidable closed goal by evaluation. *)
Ltac by_decide :=
  lazymatch goal with
  | |- ?P => refine (bool_decide_eq_true_1 P _); vm_compute; reflexivity
  end.

(** ** Instants and durations

    Go's [time.Time] is modelled as an instant: the number of nanoseconds
    since the zero time (January 1, year 1, 00:00:00 UTC), so that
    [t.IsZero()] is [t = 0]; [UTC()] does not change the instant.  Durations
    are nanoseconds too. *)
Definition time := Z.
Definition zeroTime : time := 0%Z.
Definition IsZero (t : time) : bool := (t =? zeroTime)%Z.
Definition Second : Z := 1000000000.
Definition Minute : Z := (60 * Second)%Z.
Definition Hour : Z := (60 * Minute)%Z.

(** [t.After(u)] and [t.Before(u)]. *)
Definition After (t u : time) : bool := (u <? t)%Z.
Definition Before (t u : time) : bool := (t <? u)%Z.

(** A timestamp column: the empty text is [None], the RFC 3339 text of an
    instant is [Some].  Reading the column back gives the zero time for the
    empty text. *)
Definition stamp_time (s : option time) : time := default zeroTime s.

(** ** Lists *)

Lemma list_find_Some_elem {A} (P : A → Prop) `{!∀ x, Decision (P x)} (l : list A) i x :
  list_find P l = Some (i, x) → x ∈ l ∧ P x.
Proof.
  intros (Hl & HP & _)%list_find_Some.
  split; [by eapply list_elem_of_lookup_2|done].
Qed.

Lemma list_find_None_elem {A} (P : A → Prop) `{!∀ x, Decision (P x)} (l : list A) x :
  list_find P l = None → x ∈ l → ¬ P x.
Proof. intros Hf%list_find_None Hx. rewrite Forall_forall in Hf. exact (Hf x Hx). Qed.

Lemma filter_all {A} (P : A → Prop) `{!∀ x, Decision (P x)} (l : list A) :
  (∀ x, x ∈ l → P x) → filter P l = l.
Proof.
  induction l as [|x l IH]; intros Hall; [done|].
  rewrite filter_cons_True by (apply Hall; left).
  f_equal. apply IH. intros y Hy. apply Hall. by right.
Qed.

(** The last element of a list, with its membership. *)
Lemma last_elem_of {A} (l : list A) x : last l = Some x → x ∈ l.
Proof.
  intros [l' ->]%last_Some. apply elem_of_app. right. by left.
Qed.
