(* ===== verification/GoStrings.v ===== *)
(** * The string functions of Go's standard library used by the program

    Go strings are byte sequences; here they are [string], one [ascii] per
    byte.  [TrimSpace] and [Fields] recognise the UTF-8 encodings of every
    Unicode white-space code point; [ToLower] is exact on the ASCII content of
    its result (see its comment). *)

From S2P Require Import Prelude.

(** [len(s)], as a Go [int]. *)
Definition len (s : string) : Z := Z.of_nat (String.length s).

Definition byte_of (n : nat) : ascii := Ascii.ascii_of_nat n.
Definition byte_nat (c : ascii) : nat := Ascii.nat_of_ascii c.

Definition in_range (lo hi : nat) (c : ascii) : bool :=
  (lo <=? byte_nat c)%nat && (byte_nat c <=? hi)%nat.

Definition byte_is (n : nat) (c : ascii) : bool := (byte_nat c =? n)%nat.

Definition is_upper (c : ascii) : bool := in_range 65 90 c.
Definition is_lower (c : ascii) : bool := in_range 97 122 c.
Definition is_digit (c : ascii) : bool := in_range 48 57 c.
Definition is_alnum (c : ascii) : bool := is_upper c || is_lower c || is_digit c.

(** The line feed, as a one-byte string. *)
Definition nl : string := String (byte_of 10) "".
Definition nul : string := String (byte_of 0) "".

(** ** Prefixes, searching and replacing *)

Definition HasPrefix (s p : string) : bool := String.prefix p s.

Fixpoint drop_bytes (n : nat) (s : string) : string :=
  match n, s with
  | O, _ => s
  | S _, "" => ""
  | S k, String _ t => drop_bytes k t
  end.

Definition TrimPrefix (s p : string) : string :=
  if HasPrefix s p then drop_bytes (String.length p) s else s.

Fixpoint Contains (s sub : string) : bool :=
  HasPrefix s sub || match s with "" => false | String _ t => Contains t sub end.

(** [strings.ContainsAny] for a set of ASCII bytes. *)
Fixpoint byte_in (c : ascii) (set : string) : bool :=
  match set with
  | "" => false
  | String d t => Ascii.eqb c d || byte_in c t
  end.

Fixpoint ContainsAny (s chars : string) : bool :=
  match s with
  | "" => false
  | String c t => byte_in c chars || ContainsAny t chars
  end.

(** [strings.ReplaceAll] for a non-empty [old]: left to right, not
    overlapping; [skip] counts the bytes of a match still to be dropped. *)
Fixpoint replace_go (old new : string) (skip : nat) (s : string) : string :=
  match s with
  | "" => ""
  | String c t =>
    match skip with
    | S k => replace_go old new k t
    | O => if HasPrefix s old
           then new +:+ replace_go old new (pred (String.length old)) t
           else String c (replace_go old new 0 t)
    end
  end.

Definition ReplaceAll (s old new : string) : string := replace_go old new 0 s.

(** [strings.Split] for a one-byte separator. *)
Fixpoint split_byte (sep : ascii) (s : string) : list string :=
  match s with
  | "" => [""]
  | String c t =>
    if Ascii.eqb c sep then "" :: split_byte sep t
    else match split_byte sep t with
         | [] => [String c ""]
         | x :: xs => String c x :: xs
         end
  end.

(** [strings.Join]. *)
Definition Join (l : list string) (sep : string) : string := String.concat sep l.

(** ** White space *)

(** The length in bytes of the white-space code point [s] starts with, 0 when
    it starts with none: the ASCII ones, U+0085, U+00A0, U+1680,
    U+2000-U+200A, U+2028, U+2029, U+202F, U+205F and U+3000. *)
Definition ws_prefix (s : string) : nat :=
  match s with
  | "" => 0
  | String a s1 =>
    if in_range 9 13 a || byte_is 32 a then 1 else
    match s1 with
    | "" => 0
    | String b s2 =>
      if byte_is 194 a && (byte_is 133 b || byte_is 160 b) then 2 else
      match s2 with
      | "" => 0
      | String c _ =>
        if (byte_is 225 a && byte_is 154 b && byte_is 128 c)
           || (byte_is 226 a && byte_is 128 b &&
               (in_range 128 138 c || byte_is 168 c || byte_is 169 c || byte_is 175 c))
           || (byte_is 226 a && byte_is 129 b && byte_is 159 c)
           || (byte_is 227 a && byte_is 128 b && byte_is 128 c)
        then 3 else 0
      end
    end
  end.

Fixpoint trim_left_go (skip : nat) (s : string) : string :=
  match s with
  | "" => ""
  | String _ t =>
    match skip with
    | S k => trim_left_go k t
    | O => match ws_prefix s with O => s | S k => trim_left_go k t end
    end
  end.

Definition trim_left (s : string) : string := trim_left_go 0 s.

(** [s] is a sequence of white-space code points. *)
Definition all_space (s : string) : bool := (trim_left s =? "")%string.

(** The longest white-space suffix is dropped. *)
Fixpoint trim_right (s : string) : string :=
  match s with
  | "" => ""
  | String c t => if all_space s then "" else String c (trim_right t)
  end.

Definition TrimSpace (s : string) : string := trim_right (trim_left s).

(** [strings.TrimSpace(s) == ""]. *)
Definition blank (s : string) : bool := (TrimSpace s =? "")%string.

(** [strings.Fields]: [cur] is the field being read. *)
Definition emit_field (cur : string) (rest : list string) : list string :=
  if (cur =? "")%string then rest else cur :: rest.

Fixpoint fields_go (skip : nat) (cur : string) (s : string) : list string :=
  match s with
  | "" => emit_field cur []
  | String c t =>
    match skip with
    | S k => fields_go k cur t
    | O => match ws_prefix s with
           | O => fields_go 0 (cur +:+ String c "") t
           | S k => emit_field cur (fields_go k "" t)
           end
    end
  end.

Definition Fields (s : string) : list string := fields_go 0 "" s.

(** ** Case

    [strings.ToLower] maps runes.  ASCII letters are lowered; the two other
    code points whose lower case is an ASCII letter (U+212A KELVIN SIGN to
    [k], U+0130 to [i]) are replaced by it; every other byte is kept.  The
    result has the same ASCII bytes, at the same place among the non-ASCII
    ones, as Go's, and the program only compares it with, or searches it for,
    ASCII texts. *)
Definition lower_byte (c : ascii) : ascii :=
  if is_upper c then byte_of (byte_nat c + 32) else c.

Fixpoint lower_go (skip : nat) (s : string) : string :=
  match s with
  | "" => ""
  | String a s1 =>
    match skip with
    | S k => lower_go k s1
    | O =>
      match s1 with
      | String b s2 =>
        if byte_is 196 a && byte_is 176 b then String "i" (lower_go 1 s1) else
        match s2 with
        | String c _ =>
          if byte_is 226 a && byte_is 132 b && byte_is 170 c then String "k" (lower_go 2 s1)
          else String (lower_byte a) (lower_go 0 s1)
        | "" => String (lower_byte a) (lower_go 0 s1)
        end
      | "" => String (lower_byte a) (lower_go 0 s1)
      end
    end
  end.

Definition ToLower (s : string) : string := lower_go 0 s.

(** ** Hexadecimal *)

Definition hex_digit (n : nat) : ascii :=
  if (n <? 10)%nat then byte_of (48 + n) else byte_of (87 + n).

Fixpoint hex_encode (s : string) : string :=
  match s with
  | "" => ""
  | String c t =>
    String (hex_digit (byte_nat c / 16)) (String (hex_digit (byte_nat c mod 16)) (hex_encode t))
  end.

(** The value of a hexadecimal digit, either case. *)
Definition hex_value (c : ascii) : option nat :=
  if is_digit c then Some (byte_nat c - 48)
  else if in_range 97 102 c then Some (byte_nat c - 87)
  else if in_range 65 70 c then Some (byte_nat c - 55)
  else None.

(** [hex.DecodeString]: [None] is its error. *)
Fixpoint hex_decode (s : string) : option string :=
  match s with
  | "" => Some ""
  | String _ "" => None
  | String a (String b t) =>
    match hex_value a, hex_value b, hex_decode t with
    | Some x, Some y, Some r => Some (String (byte_of (16 * x + y)) r)
    | _, _, _ => None
    end
  end.

(** Any string of a predicate's bytes. *)
Fixpoint all_bytes (p : ascii → bool) (s : string) : bool :=
  match s with
  | "" => true
  | String c t => p c && all_bytes p t
  end.

(** ** Runes

    [rune_width s] is the width of the UTF-8 encoding [s] starts with; an
    invalid byte is a rune of width 1, as in Go's [range] loops. *)
Definition is_cont (c : ascii) : bool := in_range 128 191 c.

Definition nth_byte (n : nat) (s : string) : option ascii := String.get n s.
Definition byte_at (n : nat) (p : ascii → bool) (s : string) : bool :=
  match nth_byte n s with Some c => p c | None => false end.

Definition rune_width (s : string) : nat :=
  match s with
  | "" => 0
  | String a _ =>
    if in_range 194 223 a && byte_at 1 is_cont s then 2
    else if ((byte_is 224 a && byte_at 1 (in_range 160 191) s)
             || ((in_range 225 236 a || in_range 238 239 a) && byte_at 1 is_cont s)
             || (byte_is 237 a && byte_at 1 (in_range 128 159) s))
            && byte_at 2 is_cont s then 3
    else if ((byte_is 240 a && byte_at 1 (in_range 144 191) s)
             || (in_range 241 243 a && byte_at 1 is_cont s)
             || (byte_is 244 a && byte_at 1 (in_range 128 143) s))
            && byte_at 2 is_cont s && byte_at 3 is_cont s then 4
    else 1
  end.

(** The encodings of the runes of [s], in order. *)
Fixpoint runes_go (skip : nat) (cur : string) (s : string) : list string :=
  match s with
  | "" => emit_field cur []
  | String c t =>
    match skip with
    | S k => runes_go k (cur +:+ String c "") t
    | O => emit_field cur (runes_go (pred (rune_width s)) (String c "") t)
    end
  end.

Definition runes (s : string) : list string := runes_go 0 "" s.

(** [unicode.IsControl]: U+0000-U+001F and U+007F-U+009F. *)
Definition rune_IsControl (r : string) : bool :=
  match r with
  | String a "" => (byte_nat a <? 32)%nat || byte_is 127 a
  | String a (String b "") => byte_is 194 a && in_range 128 159 b
  | _ => false
  end.

(** [r < 0x20 || r == 0x7f], the test three packages write by hand. *)
Definition ascii_control (c : ascii) : bool := (byte_nat c <? 32)%nat || byte_is 127 c.

Fixpoint has_ascii_control (s : string) : bool :=
  match s with
  | "" => false
  | String c t => ascii_control c || has_ascii_control t
  end.
