(* ===== verification/Regex.v ===== *)
(** * Regular expressions

    The anchored patterns the program compiles with [regexp.MustCompile] are
    written as values of [regex] and matched with derivatives.  [re_match_iff]
    relates the matcher to the language of the pattern.  All the classes are
    sets of bytes; the patterns are anchored at both ends, so matching is
    membership of the whole text. *)

From S2P Require Import Prelude GoStrings.

Inductive regex :=
| Empty
| Eps
| Chr (p : ascii → bool)
| Cat (r1 r2 : regex)
| Alt (r1 r2 : regex)
| Star (r : regex).

(** ** The language of a pattern *)

Inductive matches : regex → string → Prop :=
| matches_eps : matches Eps ""
| matches_chr p c : p c = true → matches (Chr p) (String c "")
| matches_cat r1 r2 s1 s2 : matches r1 s1 → matches r2 s2 → matches (Cat r1 r2) (s1 +:+ s2)
| matches_alt_l r1 r2 s : matches r1 s → matches (Alt r1 r2) s
| matches_alt_r r1 r2 s : matches r2 s → matches (Alt r1 r2) s
| matches_star_nil r : matches (Star r) ""
| matches_star_app r s1 s2 : matches r s1 → matches (Star r) s2 → matches (Star r) (s1 +:+ s2).

#[export] Hint Constructors matches : aegis.

(** ** The matcher *)

Fixpoint nullable (r : regex) : bool :=
  match r with
  | Empty | Chr _ => false
  | Eps | Star _ => true
  | Cat r1 r2 => nullable r1 && nullable r2
  | Alt r1 r2 => nullable r1 || nullable r2
  end.

Definition cat (r1 r2 : regex) : regex :=
  match r1 with Empty => Empty | Eps => r2 | _ => Cat r1 r2 end.

Definition alt (r1 r2 : regex) : regex :=
  match r1, r2 with Empty, _ => r2 | _, Empty => r1 | _, _ => Alt r1 r2 end.

Fixpoint deriv (c : ascii) (r : regex) : regex :=
  match r with
  | Empty | Eps => Empty
  | Chr p => if p c then Eps else Empty
  | Cat r1 r2 => alt (cat (deriv c r1) r2) (if nullable r1 then deriv c r2 else Empty)
  | Alt r1 r2 => alt (deriv c r1) (deriv c r2)
  | Star r => cat (deriv c r) (Star r)
  end.

Fixpoint re_match (r : regex) (s : string) : bool :=
  match s with
  | "" => nullable r
  | String c t => re_match (deriv c r) t
  end.

(** ** Derived forms *)

Definition Opt (r : regex) : regex := Alt Eps r.
Definition Plus (r : regex) : regex := Cat r (Star r).
Definition Byte (n : nat) : regex := Chr (byte_is n).

(** A literal text. *)
Fixpoint Lit (s : string) : regex :=
  match s with
  | "" => Eps
  | String c t => Cat (Chr (Ascii.eqb c)) (Lit t)
  end.

(** [r{n}]: exactly [n] repetitions. *)
Fixpoint Times (n : nat) (r : regex) : regex :=
  match n with
  | O => Eps
  | S k => Cat r (Times k r)
  end.

(** [r{0,n}]: at most [n] repetitions. *)
Fixpoint UpTo (n : nat) (r : regex) : regex :=
  match n with
  | O => Eps
  | S k => Opt (Cat r (UpTo k r))
  end.

(** A class of bytes: letters, digits or one of the listed ones. *)
Definition alnum_or (extra : string) : regex := Chr (λ c, is_alnum c || byte_in c extra).
Definition lower_digit_or (extra : string) : regex :=
  Chr (λ c, is_lower c || is_digit c || byte_in c extra).

(** ** The matcher decides the language *)

Lemma nullable_iff r : nullable r = true ↔ matches r "".
Proof.
  split.
  - induction r; simpl; intros H; try discriminate; auto with aegis.
    + apply andb_true_iff in H as [H1 H2].
      apply (matches_cat _ _ "" ""); auto.
    + apply orb_true_iff in H as [H|H]; auto with aegis.
  - intros H. remember "" as s eqn:Es. induction H; simpl; try discriminate; auto.
    + destruct s1; [|discriminate]. simpl in Es. subst. by rewrite IHmatches1, IHmatches2.
    + by rewrite IHmatches.
    + by rewrite IHmatches, orb_true_r.
Qed.

Lemma matches_Empty s : ¬ matches Empty s.
Proof. intros H. inversion H. Qed.

Lemma matches_cat_smart r1 r2 s : matches (cat r1 r2) s ↔ matches (Cat r1 r2) s.
Proof.
  destruct r1; simpl; try reflexivity.
  - split; intros H; [by apply matches_Empty in H|].
    inversion H; subst. exfalso. by eapply matches_Empty.
  - split; intros H; [by apply (matches_cat Eps r2 "" s); auto with aegis|].
    inversion H as [| |? ? ? ? H1 H2| | | |]; subst. by inversion H1.
Qed.

Lemma matches_alt_iff r1 r2 s : matches (Alt r1 r2) s ↔ matches r1 s ∨ matches r2 s.
Proof.
  split; [intros H; inversion H; subst; auto|intros [H|H]; auto with aegis].
Qed.

Lemma matches_alt_smart r1 r2 s : matches (alt r1 r2) s ↔ matches r1 s ∨ matches r2 s.
Proof.
  pose proof (matches_Empty s).
  destruct r1, r2; simpl; rewrite ?matches_alt_iff; tauto.
Qed.

Lemma matches_cat_inv r1 r2 s :
  matches (Cat r1 r2) s ↔ ∃ s1 s2, s = s1 +:+ s2 ∧ matches r1 s1 ∧ matches r2 s2.
Proof.
  split.
  - intros H. inversion H; subst. eauto.
  - intros (s1 & s2 & -> & H1 & H2). auto with aegis.
Qed.

(** A non-empty text of a starred pattern begins with a non-empty text of it. *)
Lemma matches_star_cons r c t :
  matches (Star r) (String c t) →
  ∃ s1 s2, t = s1 +:+ s2 ∧ matches r (String c s1) ∧ matches (Star r) s2.
Proof.
  intros H. remember (Star r) as q eqn:Eq. remember (String c t) as s eqn:Es.
  induction H as [| | | | | |r0 s1 s2 H1 _ H2 IH2];
    try discriminate Eq; try discriminate Es.
  injection Eq as ->. destruct s1 as [|a s1]; simpl in Es.
  - by apply IH2.
  - injection Es as -> <-. by exists s1, s2.
Qed.

Lemma deriv_iff c r s : matches (deriv c r) s ↔ matches r (String c s).
Proof.
  revert s. induction r as [| |p|r1 IH1 r2 IH2|r1 IH1 r2 IH2|r IH]; intros s; simpl.
  - split; intros H; inversion H.
  - split; intros H; inversion H.
  - destruct (p c) eqn:Ep; split; intros H; inversion H; subst; auto with aegis.
    congruence.
  - rewrite matches_alt_smart, matches_cat_smart, !matches_cat_inv. split.
    + intros [(s1 & s2 & -> & H1 & H2)|H].
      * exists (String c s1), s2. split; [done|]. by rewrite <- IH1.
      * destruct (nullable r1) eqn:En; [|by apply matches_Empty in H].
        exists "", (String c s). split; [done|]. by rewrite <- nullable_iff, <- IH2.
    + intros (s1 & s2 & Es & H1 & H2). destruct s1 as [|a s1]; simpl in Es.
      * subst. right. apply nullable_iff in H1 as ->. by apply IH2.
      * injection Es as <- ->. left. exists s1, s2. split; [done|]. by rewrite IH1.
  - by rewrite matches_alt_smart, matches_alt_iff, IH1, IH2.
  - rewrite matches_cat_smart, matches_cat_inv. split.
    + intros (s1 & s2 & -> & H1 & H2). apply IH in H1.
      by apply (matches_star_app r (String c s1) s2).
    + intros (s1 & s2 & -> & H1 & H2)%matches_star_cons.
      exists s1, s2. by rewrite IH.
Qed.

Lemma re_match_iff r s : re_match r s = true ↔ matches r s.
Proof.
  revert r. induction s as [|c s IH]; intros r; simpl.
  - apply nullable_iff.
  - by rewrite IH, deriv_iff.
Qed.

(** ** Consequences used by the validators *)

(** The bytes a pattern can use. *)
Fixpoint re_bytes (p : ascii → bool) (r : regex) : Prop :=
  match r with
  | Empty | Eps => True
  | Chr q => ∀ c, q c = true → p c = true
  | Cat r1 r2 | Alt r1 r2 => re_bytes p r1 ∧ re_bytes p r2
  | Star r => re_bytes p r
  end.

Lemma all_bytes_app p s1 s2 : all_bytes p (s1 +:+ s2) = all_bytes p s1 && all_bytes p s2.
Proof. induction s1 as [|c s1 IH]; simpl; [done|]. by rewrite IH, andb_assoc. Qed.

Lemma matches_all_bytes p r s : re_bytes p r → matches r s → all_bytes p s = true.
Proof.
  intros Hr H. induction H; simpl in *; try done.
  - by rewrite (Hr _ H).
  - rewrite all_bytes_app. destruct Hr. by rewrite IHmatches1, IHmatches2.
  - destruct Hr; auto.
  - destruct Hr; auto.
  - rewrite all_bytes_app. by rewrite IHmatches1, IHmatches2.
Qed.

Lemma re_bytes_Times p n r : re_bytes p r → re_bytes p (Times n r).
Proof. intros H. induction n; simpl; auto. Qed.

Lemma re_bytes_UpTo p n r : re_bytes p r → re_bytes p (UpTo n r).
Proof. intros H. induction n; simpl; auto. Qed.

#[export] Hint Resolve re_bytes_Times re_bytes_UpTo : aegis.

(** The same, decided by evaluation over the 256 bytes. *)
Definition bytes_imply (q p : ascii → bool) : bool :=
  forallb (λ n, implb (q (Ascii.ascii_of_nat n)) (p (Ascii.ascii_of_nat n))) (seq 0 256).

Lemma bytes_imply_sound q p c : bytes_imply q p = true → q c = true → p c = true.
Proof.
  unfold bytes_imply. intros Hd Hc. rewrite forallb_forall in Hd. specialize (Hd (Ascii.nat_of_ascii c)).
  rewrite Ascii.ascii_nat_embedding, Hc in Hd. apply Hd, in_seq. pose proof (Ascii.nat_ascii_bounded c). lia.
Qed.

Fixpoint re_bytes_dec (p : ascii → bool) (r : regex) : bool :=
  match r with
  | Empty | Eps => true
  | Chr q => bytes_imply q p
  | Cat r1 r2 | Alt r1 r2 => re_bytes_dec p r1 && re_bytes_dec p r2
  | Star r => re_bytes_dec p r
  end.

Lemma re_bytes_dec_sound p r : re_bytes_dec p r = true → re_bytes p r.
Proof.
  induction r as [| |q|r1 IH1 r2 IH2|r1 IH1 r2 IH2|r IH]; cbn [re_bytes re_bytes_dec]; intros Hd.
  - exact I.
  - exact I.
  - intros c Hc. exact (bytes_imply_sound _ _ c Hd Hc).
  - apply andb_true_iff in Hd as [? ?]. auto.
  - apply andb_true_iff in Hd as [? ?]. auto.
  - auto.
Qed.

Lemma re_match_bytes p r s : re_bytes_dec p r = true → re_match r s = true → all_bytes p s = true.
Proof. intros Hd%re_bytes_dec_sound Hm%re_match_iff. by eapply matches_all_bytes. Qed.
