(* ===== verification/Fault.v ===== *)
(** * Errors (internal/fault) and results

    [error] has the error values of the program: the coded faults of
    internal/fault, plain and wrapped errors, and the errors of database/sql.
    [result] is a Go pair of a value and an error, of which one is meaningful. *)

From S2P Require Import Prelude GoStrings.

(* internal/fault/fault.go:54-58 Error *)
#[warnings="-register-all"]
Inductive error :=
| Plain (msg : string)                                 (* errors.New *)
| Wrapped (msg : string) (err : error)                 (* fmt.Errorf("...: %w", err) *)
| FaultError (Code Message : string) (Err : option error) (* fault.Error *)
| ErrNoRows                                            (* sql.ErrNoRows *)
| SQLError.                                            (* any other driver error *)

(* internal/fault/fault.go:69-71 New *)
Definition New (code message : string) (err : option error) : error := FaultError code message err.

(* internal/fault/fault.go:73-79 Code *)
Fixpoint Code (e : error) : string :=
  match e with
  | FaultError c _ _ => c
  | Wrapped _ e => Code e
  | Plain _ | ErrNoRows | SQLError => ""
  end.

(** [err.Error()]; the texts of the errors of other packages are abbreviated. *)
(* internal/fault/fault.go:60-65 Error.Error *)
Fixpoint Error (e : error) : string :=
  match e with
  | Plain msg => msg
  | Wrapped msg e => msg +:+ ": " +:+ Error e
  | FaultError code message _ => if negb (message =? "")%string then message else code
  | ErrNoRows => "sql: no rows in result set"
  | SQLError => "SQL error"
  end.

(** [errors.Is(err, sql.ErrNoRows)]. *)
Fixpoint IsNoRows (e : error) : bool :=
  match e with
  | ErrNoRows => true
  | Wrapped _ e => IsNoRows e
  | FaultError _ _ (Some e) => IsNoRows e
  | FaultError _ _ None | Plain _ | SQLError => false
  end.

(** ** Codes *)
(* internal/fault/fault.go:6-6 DiscoveryRateLimited *)
Definition DiscoveryRateLimited : string := "PXE001_DISCOVERY_RATE_LIMITED".
(* internal/fault/fault.go:7-7 MachineIdentityConflict *)
Definition MachineIdentityConflict : string := "MAC001_MACHINE_IDENTITY_CONFLICT".
(* internal/fault/fault.go:8-8 MachineIdentityInvalid *)
Definition MachineIdentityInvalid : string := "MAC002_MACHINE_IDENTITY_INVALID".
(* internal/fault/fault.go:9-9 MachineNotFound *)
Definition MachineNotFound : string := "MAC003_MACHINE_NOT_FOUND".
(* internal/fault/fault.go:10-10 MachinePolicyInvalid *)
Definition MachinePolicyInvalid : string := "MAC004_MACHINE_POLICY_INVALID".
(* internal/fault/fault.go:11-11 MachineDeleteConflict *)
Definition MachineDeleteConflict : string := "MAC005_MACHINE_DELETE_CONFLICT".
(* internal/fault/fault.go:12-12 ArtifactTrustFailed *)
Definition ArtifactTrustFailed : string := "ART001_ARTIFACT_TRUST_FAILED".
(* internal/fault/fault.go:13-13 ArtifactHashMismatch *)
Definition ArtifactHashMismatch : string := "ART002_ARTIFACT_HASH_MISMATCH".
(* internal/fault/fault.go:14-14 ArtifactFetchFailed *)
Definition ArtifactFetchFailed : string := "ART003_ARTIFACT_FETCH_FAILED".
(* internal/fault/fault.go:15-15 DriverSpecUnsupported *)
Definition DriverSpecUnsupported : string := "DRV001_DRIVER_SPEC_UNSUPPORTED".
(* internal/fault/fault.go:16-16 DriverRenderFailed *)
Definition DriverRenderFailed : string := "DRV002_DRIVER_RENDER_FAILED".
(* internal/fault/fault.go:17-17 InstallationSpecInvalid *)
Definition InstallationSpecInvalid : string := "INS001_INSTALLATION_SPEC_INVALID".
(* internal/fault/fault.go:18-18 InstallationNotFound *)
Definition InstallationNotFound : string := "INS002_INSTALLATION_NOT_FOUND".
(* internal/fault/fault.go:19-19 InstallationAssignmentInvalid *)
Definition InstallationAssignmentInvalid : string := "INS003_INSTALLATION_ASSIGNMENT_INVALID".
(* internal/fault/fault.go:20-20 InstallationAssignmentConflict *)
Definition InstallationAssignmentConflict : string := "INS004_INSTALLATION_ASSIGNMENT_CONFLICT".
(* internal/fault/fault.go:21-21 InstallationAssignmentNotFound *)
Definition InstallationAssignmentNotFound : string := "INS005_INSTALLATION_ASSIGNMENT_NOT_FOUND".
(* internal/fault/fault.go:22-22 InstallerTelemetryInvalid *)
Definition InstallerTelemetryInvalid : string := "INS006_INSTALLER_TELEMETRY_INVALID".
(* internal/fault/fault.go:23-23 InstallerTelemetryConflict *)
Definition InstallerTelemetryConflict : string := "INS007_INSTALLER_TELEMETRY_CONFLICT".
(* internal/fault/fault.go:24-24 InstallerLogLimitExceeded *)
Definition InstallerLogLimitExceeded : string := "INS008_INSTALLER_LOG_LIMIT_EXCEEDED".
(* internal/fault/fault.go:25-25 InstallationDeleteConflict *)
Definition InstallationDeleteConflict : string := "INS009_INSTALLATION_DELETE_CONFLICT".
(* internal/fault/fault.go:26-26 CryptographicBootTrustRequired *)
Definition CryptographicBootTrustRequired : string := "SEC001_CRYPTOGRAPHIC_BOOT_TRUST_REQUIRED".
(* internal/fault/fault.go:27-27 OperatorAuthenticationFailed *)
Definition OperatorAuthenticationFailed : string := "SEC002_OPERATOR_AUTHENTICATION_FAILED".
(* internal/fault/fault.go:28-28 OperatorAuthRateLimited *)
Definition OperatorAuthRateLimited : string := "SEC003_OPERATOR_AUTH_RATE_LIMITED".
(* internal/fault/fault.go:29-29 OperatorSessionRequired *)
Definition OperatorSessionRequired : string := "SEC004_OPERATOR_SESSION_REQUIRED".
(* internal/fault/fault.go:30-30 OperatorCSRFInvalid *)
Definition OperatorCSRFInvalid : string := "SEC005_OPERATOR_CSRF_INVALID".
(* internal/fault/fault.go:31-31 OperatorSecureTransportRequired *)
Definition OperatorSecureTransportRequired : string := "SEC006_SECURE_OPERATOR_TRANSPORT_REQUIRED".
(* internal/fault/fault.go:32-32 OperatorUserPending *)
Definition OperatorUserPending : string := "SEC007_OPERATOR_USER_PENDING_REVIEW".
(* internal/fault/fault.go:33-33 OperatorUserBlocked *)
Definition OperatorUserBlocked : string := "SEC008_OPERATOR_USER_BLOCKED".
(* internal/fault/fault.go:34-34 OperatorUserNotFound *)
Definition OperatorUserNotFound : string := "SEC009_OPERATOR_USER_NOT_FOUND".
(* internal/fault/fault.go:35-35 OperatorPasskeyRequired *)
Definition OperatorPasskeyRequired : string := "SEC010_OPERATOR_PASSKEY_REQUIRED".
(* internal/fault/fault.go:36-36 OperatorPasskeyFailed *)
Definition OperatorPasskeyFailed : string := "SEC011_OPERATOR_PASSKEY_FAILED".
(* internal/fault/fault.go:37-37 OperatorAuthorizationDenied *)
Definition OperatorAuthorizationDenied : string := "SEC012_OPERATOR_AUTHORIZATION_DENIED".
(* internal/fault/fault.go:38-38 OperatorRecoveryFailed *)
Definition OperatorRecoveryFailed : string := "SEC013_OPERATOR_RECOVERY_FAILED".
(* internal/fault/fault.go:39-39 OperatorWebAuthnNotConfigured *)
Definition OperatorWebAuthnNotConfigured : string := "SEC014_OPERATOR_WEBAUTHN_NOT_CONFIGURED".
(* internal/fault/fault.go:40-40 InstallerCredentialRequired *)
Definition InstallerCredentialRequired : string := "SEC015_INSTALLER_CREDENTIAL_REQUIRED".
(* internal/fault/fault.go:41-41 InstallerCredentialInvalid *)
Definition InstallerCredentialInvalid : string := "SEC016_INSTALLER_CREDENTIAL_INVALID".
(* internal/fault/fault.go:42-42 InstallerCredentialExpired *)
Definition InstallerCredentialExpired : string := "SEC017_INSTALLER_CREDENTIAL_EXPIRED".
(* internal/fault/fault.go:43-43 BootTrustEnrollmentRequired *)
Definition BootTrustEnrollmentRequired : string := "SEC018_BOOT_TRUST_ENROLLMENT_REQUIRED".
(* internal/fault/fault.go:44-44 BootTrustKeyInvalid *)
Definition BootTrustKeyInvalid : string := "SEC019_BOOT_TRUST_KEY_INVALID".
(* internal/fault/fault.go:45-45 BootTrustProofInvalid *)
Definition BootTrustProofInvalid : string := "SEC020_BOOT_TRUST_PROOF_INVALID".
(* internal/fault/fault.go:46-46 BootTrustChallengeExpired *)
Definition BootTrustChallengeExpired : string := "SEC021_BOOT_TRUST_CHALLENGE_EXPIRED".
(* internal/fault/fault.go:47-47 BootTrustReplayRejected *)
Definition BootTrustReplayRejected : string := "SEC022_BOOT_TRUST_REPLAY_REJECTED".
(* internal/fault/fault.go:48-48 SecureBootRequired *)
Definition SecureBootRequired : string := "SEC023_SECURE_BOOT_REQUIRED".
(* internal/fault/fault.go:49-49 SecureBootEvidenceInvalid *)
Definition SecureBootEvidenceInvalid : string := "SEC024_SECURE_BOOT_EVIDENCE_INVALID".
(* internal/fault/fault.go:50-50 SecureBootAssetsInvalid *)
Definition SecureBootAssetsInvalid : string := "SEC025_SECURE_BOOT_ASSETS_INVALID".
(* internal/fault/fault.go:51-51 StorageFailure *)
Definition StorageFailure : string := "SYS001_STORAGE_FAILURE".

(** ** Results *)

Inductive result (A : Type) :=
| Ok (a : A)
| Err (e : error).
Arguments Ok {_} _.
Arguments Err {_} _.

#[global] Instance result_ret : MRet result := @Ok.
#[global] Instance result_bind : MBind result :=
  λ A B f m, match m with Ok a => f a | Err e => Err e end.

#[global] Instance result_fmap : FMap result :=
  λ A B f m, match m with Ok a => Ok (f a) | Err e => Err e end.

(** [if err := m; err != nil { return wrap(err) }]. *)
Definition or_fail {A} (m : result A) (wrap : error → error) : result A :=
  match m with Ok a => Ok a | Err e => Err (wrap e) end.

(** [if b { return err }]. *)
Definition fail_if (b : bool) (e : error) : result unit := if b then Err e else Ok tt.

Definition is_ok {A} (m : result A) : bool := match m with Ok _ => true | Err _ => false end.

(** Runs a check on every item, stopping at the first error. *)
Fixpoint check_all {A} (f : A → result unit) (l : list A) : result unit :=
  match l with
  | [] => Ok tt
  | x :: l => _ ← f x; check_all f l
  end.

Lemma Ok_inj {A} (a b : A) : Ok a = Ok b → a = b.
Proof. by intros [= ->]. Qed.

Lemma bind_Ok {A B} (m : result A) (f : A → result B) b :
  m ≫= f = Ok b ↔ ∃ a, m = Ok a ∧ f a = Ok b.
Proof.
  split; [destruct m; simpl; [eauto|discriminate]|]. by intros (a & -> & H).
Qed.

Lemma fail_if_Ok b e u : fail_if b e = Ok u ↔ b = false.
Proof. destruct b, u; simpl; split; congruence. Qed.

Lemma or_fail_Ok {A} (m : result A) w a : or_fail m w = Ok a ↔ m = Ok a.
Proof. destruct m; simpl; split; congruence. Qed.

Lemma check_all_Ok {A} (f : A → result unit) l u :
  check_all f l = Ok u ↔ ∀ x, x ∈ l → f x = Ok tt.
Proof.
  destruct u. induction l as [|y l IH]; simpl.
  - split; [intros _ x Hx; by apply elem_of_nil in Hx|done].
  - rewrite bind_Ok. setoid_rewrite elem_of_cons. split.
    + intros ([] & Hf & Hl) x [->|Hx]; [done|]. by apply IH.
    + intros H. exists tt. split; [by apply H; left|]. apply IH. intros x Hx. apply H. by right.
Qed.

(** Inverts a successful run of a checker written with these combinators. *)
Ltac ok_inv :=
  repeat match goal with
  | H : _ ≫= _ = Ok _ |- _ => apply bind_Ok in H; destruct H as (? & ? & H)
  | H : fail_if _ _ = Ok _ |- _ => apply fail_if_Ok in H
  | H : or_fail _ _ = Ok _ |- _ => apply or_fail_Ok in H
  | H : Ok _ = Ok _ |- _ => injection H as H
  | H : Err _ = Ok _ |- _ => discriminate H
  end; repeat match goal with x : unit |- _ => destruct x end; simplify_eq.
