(* ===== verification/Lifecycle.v ===== *)
(** * The installation lifecycle (internal/lifecycle)

    Stages and sources are Go strings: a report read from the network can hold
    any text.  [CanAdvance] is the transition function of the lifecycle state
    machine, the empty stage being "no event yet"; [chain] is the abstract
    specification of an installation's accepted history. *)

From Stdlib Require Import Sorting.Sorted.
From S2P Require Import Prelude GoStrings Regex Fault.

Abbreviation Stage := string (only parsing).
Abbreviation Source := string (only parsing).

(* internal/lifecycle/model.go:15-15 StageCreated *)
Definition StageCreated : Stage := "CREATED".
(* internal/lifecycle/model.go:16-16 StageQueued *)
Definition StageQueued : Stage := "QUEUED".
(* internal/lifecycle/model.go:17-17 StagePXEBooted *)
Definition StagePXEBooted : Stage := "PXE_BOOTED".
(* internal/lifecycle/model.go:18-18 StageInstallerStarted *)
Definition StageInstallerStarted : Stage := "INSTALLER_STARTED".
(* internal/lifecycle/model.go:19-19 StageDiskPreparation *)
Definition StageDiskPreparation : Stage := "DISK_PREPARATION".
(* internal/lifecycle/model.go:20-20 StageOSInstalling *)
Definition StageOSInstalling : Stage := "OS_INSTALLING".
(* internal/lifecycle/model.go:21-21 StageProfileApplying *)
Definition StageProfileApplying : Stage := "PROFILE_APPLYING".
(* internal/lifecycle/model.go:22-22 StageHardening *)
Definition StageHardening : Stage := "HARDENING".
(* internal/lifecycle/model.go:23-23 StageFirstBoot *)
Definition StageFirstBoot : Stage := "FIRST_BOOT".
(* internal/lifecycle/model.go:24-24 StageValidating *)
Definition StageValidating : Stage := "VALIDATING".
(* internal/lifecycle/model.go:25-25 StageSuccess *)
Definition StageSuccess : Stage := "SUCCESS".
(* internal/lifecycle/model.go:26-26 StageFailed *)
Definition StageFailed : Stage := "FAILED".

(* internal/lifecycle/model.go:30-30 SourceServer *)
Definition SourceServer : Source := "server".
(* internal/lifecycle/model.go:31-31 SourceInstaller *)
Definition SourceInstaller : Source := "installer".
(* internal/lifecycle/model.go:32-32 SourceFinalizer *)
Definition SourceFinalizer : Source := "finalizer".
(* internal/lifecycle/model.go:33-33 SourceValidator *)
Definition SourceValidator : Source := "validator".

(** [^[A-Za-z0-9][A-Za-z0-9._:-]{0,127}$] *)
(* internal/lifecycle/model.go:36-36 idempotencyPattern *)
Definition idempotencyPattern : regex := Cat (Chr is_alnum) (UpTo 127 (alnum_or "._:-")).

(** Metadata is a map: a nil map and an empty one are both [∅]. *)
(* internal/lifecycle/model.go:38-50 Event *)
Record Event := mkEvent {
  Sequence : Z;
  InstallationID : string;
  Event_Stage : Stage;
  Event_Source : Source;
  ReceivedAt : time;
  ClientAt : time;
  RequestID : string;
  IdempotencyKey : string;
  Message : string;
  ErrorCode : string;
  Metadata : gmap string string }.

(* internal/lifecycle/model.go:52-61 Report *)
Record Report := mkReport {
  r_InstallationID : string;
  r_Stage : Stage;
  r_Source : Source;
  r_ClientAt : time;
  r_IdempotencyKey : string;
  r_Message : string;
  r_ErrorCode : string;
  r_Metadata : gmap string string }.

(** The members of a Go [switch] over constants. *)
Definition one_of (x : string) (l : list string) : bool := existsb (String.eqb x) l.

(* internal/lifecycle/model.go:63-72 Stage.Valid *)
Definition Stage_Valid (s : Stage) : bool :=
  one_of s [StageCreated; StageQueued; StagePXEBooted; StageInstallerStarted; StageDiskPreparation;
            StageOSInstalling; StageProfileApplying; StageHardening; StageFirstBoot; StageValidating;
            StageSuccess; StageFailed].

(* internal/lifecycle/model.go:74-76 Stage.Terminal *)
Definition Terminal (s : Stage) : bool := (s =? StageSuccess)%string || (s =? StageFailed)%string.

(* internal/lifecycle/model.go:78-85 Source.Valid *)
Definition Source_Valid (s : Source) : bool :=
  one_of s [SourceServer; SourceInstaller; SourceFinalizer; SourceValidator].

(* internal/lifecycle/model.go:87-92 ValidateIdempotencyKey *)
Definition ValidateIdempotencyKey (value : string) : result unit :=
  fail_if (negb (value =? TrimSpace value)%string || negb (re_match idempotencyPattern value))
    (Plain "idempotency key is invalid").

(* internal/lifecycle/model.go:134-149 SourceAllowed *)
Definition SourceAllowed (stage : Stage) (source : Source) : bool :=
  if one_of stage [StageCreated; StageQueued; StagePXEBooted] then (source =? SourceServer)%string
  else if one_of stage [StageInstallerStarted; StageDiskPreparation; StageOSInstalling;
                        StageProfileApplying; StageHardening] then (source =? SourceInstaller)%string
  else if one_of stage [StageFirstBoot] then (source =? SourceFinalizer)%string
  else if one_of stage [StageValidating; StageSuccess] then
    (source =? SourceValidator)%string || (source =? SourceFinalizer)%string
  else if one_of stage [StageFailed] then
    (source =? SourceInstaller)%string || (source =? SourceFinalizer)%string
    || (source =? SourceValidator)%string
  else false.

(* internal/lifecycle/model.go:151-196 CanAdvance *)
Definition CanAdvance (current next : Stage) : bool :=
  if negb (Stage_Valid next) then false
  else if (current =? "")%string then one_of next [StageCreated; StageQueued; StagePXEBooted]
  else if Terminal current then false
  else if (next =? StageFailed)%string then
    one_of current [StagePXEBooted; StageInstallerStarted; StageDiskPreparation; StageOSInstalling;
                    StageProfileApplying; StageHardening; StageFirstBoot; StageValidating]
  else if (current =? next)%string then false
  else if (current =? StageCreated)%string then one_of next [StageQueued; StagePXEBooted]
  else if (current =? StageQueued)%string then (next =? StagePXEBooted)%string
  else if (current =? StagePXEBooted)%string then (next =? StageInstallerStarted)%string
  else if (current =? StageInstallerStarted)%string then (next =? StageDiskPreparation)%string
  else if (current =? StageDiskPreparation)%string then (next =? StageOSInstalling)%string
  else if (current =? StageOSInstalling)%string then (next =? StageProfileApplying)%string
  else if (current =? StageProfileApplying)%string then (next =? StageHardening)%string
  else if (current =? StageHardening)%string then one_of next [StageFirstBoot; StageValidating]
  else if (current =? StageFirstBoot)%string then (next =? StageValidating)%string
  else if (current =? StageValidating)%string then (next =? StageSuccess)%string
  else false.

(* internal/lifecycle/model.go:198-206 sensitiveMetadataKey *)
Definition sensitiveMetadataKey (key : string) : bool :=
  let value := ToLower (ReplaceAll (ReplaceAll key "-" "_") "." "_") in
  existsb (Contains value)
    ["token"; "password"; "secret"; "authorization"; "cookie"; "credential"; "recovery_key"; "private_key"].

(** One round of the metadata loop of [Report.Validate]. *)
(* internal/lifecycle/model.go:119-127 Report.Validate *)
Definition check_metadata_entry (entry : string * string) : result unit :=
  let key := TrimSpace entry.1 in
  _ ← fail_if ((key =? "")%string || (64 <? len key)%Z || (512 <? len entry.2)%Z)
        (Plain "lifecycle metadata exceeds size limit");
  fail_if (sensitiveMetadataKey key) (Plain "lifecycle metadata contains a sensitive key").

(** Go ranges over the metadata in an unspecified order; which entry's error
    is reported depends on it, whether there is one does not. *)
(* internal/lifecycle/model.go:94-132 Report.Validate *)
Definition Report_Validate (r : Report) : result unit :=
  _ ← fail_if (TrimSpace (r_InstallationID r) =? "")%string (Plain "installation ID is required");
  _ ← fail_if (negb (Stage_Valid (r_Stage r))) (Plain "lifecycle stage is invalid");
  _ ← fail_if (negb (Source_Valid (r_Source r))) (Plain "lifecycle source is invalid");
  _ ← ValidateIdempotencyKey (r_IdempotencyKey r);
  _ ← fail_if ((1024 <? len (r_Message r))%Z || (128 <? len (r_ErrorCode r))%Z)
        (Plain "lifecycle event text exceeds size limit");
  _ ← fail_if ((r_Stage r =? StageFailed)%string && (TrimSpace (r_ErrorCode r) =? "")%string)
        (Plain "failed lifecycle event requires an error code");
  _ ← fail_if (negb (r_Stage r =? StageFailed)%string && negb (TrimSpace (r_ErrorCode r) =? "")%string)
        (Plain "non-failed lifecycle event cannot carry an error code");
  _ ← fail_if (32 <? Z.of_nat (size (r_Metadata r)))%Z (Plain "too many lifecycle metadata fields");
  _ ← check_all check_metadata_entry (map_to_list (r_Metadata r));
  fail_if (negb (SourceAllowed (r_Stage r) (r_Source r)))
    (Plain "lifecycle source is not authorized for stage").

(** ** The lifecycle diagram

    [edges] is the canonical lifecycle of LIFECYCLE.md, drawn as the list of
    its arrows; the empty stage is the start. *)
Definition happy_edges : list (Stage * Stage) :=
  [("", StageCreated); ("", StageQueued); ("", StagePXEBooted);
   (StageCreated, StageQueued); (StageCreated, StagePXEBooted); (StageQueued, StagePXEBooted);
   (StagePXEBooted, StageInstallerStarted); (StageInstallerStarted, StageDiskPreparation);
   (StageDiskPreparation, StageOSInstalling); (StageOSInstalling, StageProfileApplying);
   (StageProfileApplying, StageHardening); (StageHardening, StageFirstBoot);
   (StageHardening, StageValidating); (StageFirstBoot, StageValidating);
   (StageValidating, StageSuccess)].

Definition failure_edges : list (Stage * Stage) :=
  (λ s, (s, StageFailed)) <$>
    [StagePXEBooted; StageInstallerStarted; StageDiskPreparation; StageOSInstalling;
     StageProfileApplying; StageHardening; StageFirstBoot; StageValidating].

Definition edges : list (Stage * Stage) := happy_edges ++ failure_edges.

(** The position of a stage in the lifecycle. *)
Definition rank (s : Stage) : Z :=
  match list_find (s =.) ["" : string; StageCreated; StageQueued; StagePXEBooted; StageInstallerStarted;
                          StageDiskPreparation; StageOSInstalling; StageProfileApplying;
                          StageHardening; StageFirstBoot; StageValidating; StageSuccess; StageFailed] with
  | Some (i, _) => Z.of_nat i
  | None => 13
  end.

(** A history of accepted stages that starts after [cur]. *)
Fixpoint chain (cur : Stage) (l : list Stage) : Prop :=
  match l with
  | [] => True
  | s :: l => CanAdvance cur s = true ∧ chain s l
  end.

(** The stages no successful installation can do without. *)
Definition mandatory : list Stage :=
  [StagePXEBooted; StageInstallerStarted; StageDiskPreparation; StageOSInstalling;
   StageProfileApplying; StageHardening; StageValidating].

(** ** Lemmas *)

Lemma one_of_elem x l : one_of x l = true ↔ x ∈ l.
Proof.
  unfold one_of. rewrite existsb_exists. setoid_rewrite String.eqb_eq.
  setoid_rewrite <- list_elem_of_In. split; [by intros (y & Hy & ->)|eauto].
Qed.

(** [x ∈ [a; ...; z]] by cases. *)
Ltac elem_cases H :=
  repeat (rewrite elem_of_cons in H; destruct H as [H|H]; [try subst|]);
  try (by apply elem_of_nil in H).

Definition stages : list Stage :=
  [""; StageCreated; StageQueued; StagePXEBooted; StageInstallerStarted; StageDiskPreparation;
   StageOSInstalling; StageProfileApplying; StageHardening; StageFirstBoot; StageValidating;
   StageSuccess; StageFailed].

Lemma CanAdvance_known c n : CanAdvance c n = true → c ∈ stages ∧ n ∈ stages.
Proof.
  intros H. split.
  - apply dec_stable. intros Hc. apply not_true_iff_false in H; [done|].
    assert (∀ k, k ∈ stages → (c =? k)%string = false) as Hk.
    { intros k Hk. apply String.eqb_neq. by intros ->. }
    unfold CanAdvance, Terminal, one_of. simpl.
    repeat match goal with
    | |- context [(c =? ?k)%string] => rewrite (Hk k) by by_decide
    end.
    simpl. by repeat case_match.
  - unfold CanAdvance in H. destruct (Stage_Valid n) eqn:Hn; [|discriminate].
    apply one_of_elem in Hn. by right.
Qed.

Lemma CanAdvance_edges c n : CanAdvance c n = true ↔ (c, n) ∈ edges.
Proof.
  split.
  - intros H. destruct (CanAdvance_known _ _ H) as [Hc Hn].
    unfold stages in Hc, Hn. elem_cases Hc; elem_cases Hn;
      first [discriminate H | by_decide].
  - intros H. unfold edges in H. rewrite elem_of_app in H.
    destruct H as [H|H]; unfold happy_edges, failure_edges in H; cbn in H;
      elem_cases H; simplify_eq; reflexivity.
Qed.

Lemma edge_rank c n : (c, n) ∈ edges → (rank c < rank n)%Z.
Proof.
  intros H. assert (Forall (λ e, rank e.1 < rank e.2)%Z edges) as Hall by by_decide.
  rewrite Forall_forall in Hall. exact (Hall _ H).
Qed.

Lemma CanAdvance_rank c n : CanAdvance c n = true → (rank c < rank n)%Z.
Proof. rewrite CanAdvance_edges. apply edge_rank. Qed.

Lemma CanAdvance_Terminal c n : CanAdvance c n = true → Terminal c = false.
Proof.
  rewrite CanAdvance_edges. intros H.
  assert (Forall (λ e, Terminal e.1 = false) edges) as Hall by by_decide.
  rewrite Forall_forall in Hall. exact (Hall _ H).
Qed.

Lemma CanAdvance_Valid c n : CanAdvance c n = true → Stage_Valid n = true.
Proof. unfold CanAdvance. by destruct (Stage_Valid n). Qed.

#[export] Hint Resolve CanAdvance_rank CanAdvance_Terminal CanAdvance_Valid : aegis.

Lemma rank_bounds s : s ∈ stages → (0 ≤ rank s ≤ 12)%Z.
Proof.
  intros H. assert (Forall (λ s, 0 ≤ rank s ≤ 12)%Z stages) as Hall by by_decide.
  rewrite Forall_forall in Hall. exact (Hall _ H).
Qed.

Lemma rank_inj s t : s ∈ stages → t ∈ stages → rank s = rank t → s = t.
Proof.
  intros Hs Ht.
  assert (Forall (λ s, Forall (λ t, rank s = rank t → s = t) stages) stages) as Hall by by_decide.
  rewrite Forall_forall in Hall. specialize (Hall _ Hs).
  rewrite Forall_forall in Hall. exact (Hall _ Ht).
Qed.

(** No arrow between two stages jumps over a mandatory one, except into
    [StageFailed]. *)
Lemma edge_no_skip c n m :
  (c, n) ∈ edges → n ≠ StageFailed → m ∈ mandatory →
  (rank c < rank m)%Z → (rank n ≤ rank m)%Z.
Proof.
  intros H Hn Hm.
  assert (Forall (λ e, e.2 ≠ StageFailed →
            Forall (λ m, rank e.1 < rank m → rank e.2 ≤ rank m)%Z mandatory) edges) as Hall
    by by_decide.
  rewrite Forall_forall in Hall. specialize (Hall _ H Hn).
  rewrite Forall_forall in Hall. exact (Hall _ Hm).
Qed.

(** A history stays above its start, strictly increasing. *)
Lemma chain_above c l s : chain c l → s ∈ l → (rank c < rank s)%Z ∧ s ∈ stages.
Proof.
  revert c. induction l as [|x l IH]; intros c Hc Hs; [by apply elem_of_nil in Hs|].
  destruct Hc as [Hx Hl]. apply elem_of_cons in Hs as [->|Hs].
  - split; [by apply CanAdvance_rank|by apply CanAdvance_known in Hx as [_ ?]].
  - destruct (IH _ Hl Hs) as [Hr ?]. split; [|done].
    etrans; [by apply CanAdvance_rank|done].
Qed.

Lemma chain_sorted c l : chain c l → StronglySorted (λ s t, rank s < rank t)%Z l.
Proof.
  revert c. induction l as [|x l IH]; intros c Hc; constructor.
  - destruct Hc as [_ Hl]. by eapply IH.
  - destruct Hc as [_ Hl]. apply Forall_forall. intros y Hy. by eapply chain_above.
Qed.

Lemma chain_length c l : chain c l → (Z.of_nat (length l) + rank c ≤ 12)%Z ∨ l = [].
Proof.
  revert c. induction l as [|x l IH]; intros c Hc; [by right|left].
  destruct Hc as [Hx Hl]. pose proof (CanAdvance_rank _ _ Hx).
  destruct (IH _ Hl) as [Hlen| ->]; simpl in *; [lia|].
  apply CanAdvance_known in Hx as [_ Hx]. pose proof (rank_bounds _ Hx). lia.
Qed.

Lemma chain_terminal c l s : chain c l → s ∈ l → Terminal s = true → last l = Some s.
Proof.
  revert c. induction l as [|x l IH]; intros c Hc Hs Ht; [by apply elem_of_nil in Hs|].
  destruct Hc as [Hx Hl]. destruct l as [|y l].
  - apply elem_of_cons in Hs as [->|Hs]; [done|by apply elem_of_nil in Hs].
  - apply elem_of_cons in Hs as [->|Hs].
    + destruct Hl as [Hy _]. apply CanAdvance_Terminal in Hy. congruence.
    + rewrite last_cons_cons. by eapply IH.
Qed.

(** Each stage of a history follows the one before it; a terminal one is the last. *)
Lemma chain_lookup c l i s :
  chain c l → l !! i = Some s → CanAdvance (match i with 0 => c | S j => default "" (l !! j) end) s = true.
Proof.
  revert c i. induction l as [|x l IH]; intros c i Hc Hs; [done|]. destruct Hc as [Hx Hl].
  destruct i as [|i]; [by simplify_eq/=|]. specialize (IH _ i Hl Hs). by destruct i.
Qed.

Lemma chain_terminal_end c l i s : chain c l → l !! i = Some s → Terminal s = true → S i = length l.
Proof.
  intros Hc Hs Ht. pose proof (lookup_lt_Some _ _ _ Hs). destruct (l !! S i) as [y|] eqn:Hy; [|apply lookup_ge_None in Hy; lia].
  pose proof (chain_lookup _ _ _ _ Hc Hy) as Hadv. cbn in Hadv. rewrite Hs in Hadv. apply CanAdvance_Terminal in Hadv. cbn in Hadv. congruence.
Qed.

Lemma chain_mandatory c l m :
  chain c l → StageSuccess ∈ l → m ∈ mandatory → (rank c < rank m)%Z → m ∈ l.
Proof.
  revert c. induction l as [|x l IH]; intros c Hc Hs Hm Hr; [by apply elem_of_nil in Hs|].
  pose proof (chain_terminal _ _ _ Hc Hs eq_refl) as Hlast.
  destruct Hc as [Hx Hl]. destruct (decide (m = x)) as [->|Hne]; [by left|right].
  assert (x ≠ StageFailed) as Hf.
  { intros ->. destruct l as [|y l]; [discriminate|].
    destruct Hl as [Hy _]. by apply CanAdvance_Terminal in Hy. }
  pose proof (CanAdvance_known _ _ Hx) as [_ Hxs].
  assert (m ∈ stages) as Hms.
  { assert (Forall (λ m, m ∈ stages) mandatory) as Hall by by_decide.
    rewrite Forall_forall in Hall. by apply Hall. }
  apply CanAdvance_edges in Hx.
  pose proof (edge_no_skip _ _ _ Hx Hf Hm Hr) as Hle.
  assert (rank x ≠ rank m) by (intros E; apply Hne, rank_inj; auto).
  assert (rank x < rank m)%Z as Hlt by lia.
  apply (IH x); try done.
  apply elem_of_cons in Hs as [Hs|Hs]; [|done]. subst x.
  assert (Forall (λ m, rank m ≤ rank StageSuccess)%Z mandatory) as Hall by by_decide.
  rewrite Forall_forall in Hall. specialize (Hall _ Hm). simpl in Hall. lia.
Qed.

Lemma chain_snoc c l s :
  chain c (l ++ [s]) ↔ chain c l ∧ CanAdvance (default c (last l)) s = true.
Proof.
  revert c. induction l as [|x l IH]; intros c; simpl.
  - tauto.
  - rewrite IH. destruct l as [|y l]; [simpl; tauto|].
    rewrite last_cons_cons.
    assert (∀ d, default d (last (y :: l)) = default c (last (y :: l))) as Hd.
    { intros d. destruct (last (y :: l)) eqn:E; [done|]. by apply last_None in E. }
    rewrite (Hd x). tauto.
Qed.

Lemma Report_Validate_Ok r u :
  Report_Validate r = Ok u →
  TrimSpace (r_InstallationID r) ≠ "" ∧ Stage_Valid (r_Stage r) = true ∧
  SourceAllowed (r_Stage r) (r_Source r) = true ∧
  ValidateIdempotencyKey (r_IdempotencyKey r) = Ok tt ∧
  (len (r_Message r) ≤ 1024)%Z ∧ (len (r_ErrorCode r) ≤ 128)%Z ∧
  (r_Stage r = StageFailed ↔ TrimSpace (r_ErrorCode r) ≠ "") ∧
  (∀ k v, r_Metadata r !! k = Some v → check_metadata_entry (k, v) = Ok tt).
Proof.
  unfold Report_Validate. intros H. ok_inv. bool_inv.
  split_and!; try done.
  - rewrite ?negb_false_iff, ?String.eqb_eq, ?String.eqb_neq in *. tauto.
  - intros k v Hk. match goal with Hc : check_all _ _ = _ |- _ => rewrite check_all_Ok in Hc; apply Hc end.
    by apply elem_of_map_to_list.
Qed.

Lemma sorted_rank_NoDup (l : list Stage) : StronglySorted (λ s t, rank s < rank t)%Z l → NoDup l.
Proof.
  induction 1 as [|x l Hs IH Hx]; constructor; [|done].
  intros Hin. rewrite Forall_forall in Hx. specialize (Hx _ Hin). simpl in Hx. lia.
Qed.

(** ** Properties *)

(** Every history the transition function accepts is strictly increasing
    in the canonical order, so that no stage is repeated or revisited; it has
    at most 12 stages, and nothing follows a terminal one. *)
Theorem history_monotone l :
  chain "" l →
  StronglySorted (λ s t, rank s < rank t)%Z l ∧ NoDup l ∧ length l ≤ 12 ∧
  (∀ s, s ∈ l → Terminal s = true → last l = Some s).
Proof.
  intros H. pose proof (chain_sorted _ _ H) as Hs. split_and!; [done| | |].
  - by apply sorted_rank_NoDup.
  - destruct (chain_length _ _ H) as [Hl| ->]; [|simpl; lia].
    change (rank "") with 0%Z in Hl. lia.
  - intros s. by apply chain_terminal with (c := "").
Qed.

Definition full_history : list Stage :=
  [StageCreated; StageQueued; StagePXEBooted; StageInstallerStarted; StageDiskPreparation;
   StageOSInstalling; StageProfileApplying; StageHardening; StageFirstBoot; StageValidating;
   StageSuccess].

Lemma history_monotone_witness :
  chain "" full_history ∧ NoDup full_history.
Proof.
  assert (chain "" full_history) as H by (repeat split).
  split; [exact H|]. exact (proj1 (proj2 (history_monotone _ H))).
Defined.

(** An installation whose history reports SUCCESS has reported every
    mandatory stage before it: success is never inferred by skipping. *)
Theorem success_history_complete l :
  chain "" l → StageSuccess ∈ l →
  ∃ h, l = h ++ [StageSuccess] ∧ ∀ m, m ∈ mandatory → m ∈ h.
Proof.
  intros H Hs. pose proof (chain_terminal _ _ _ H Hs eq_refl) as Hl.
  apply last_Some in Hl as [h ->]. exists h. split; [done|]. intros m Hm.
  assert (Forall (λ m, rank "" < rank m ∧ m ≠ StageSuccess)%Z mandatory) as Hall by by_decide.
  rewrite Forall_forall in Hall. destruct (Hall _ Hm) as [Hr Hne].
  pose proof (chain_mandatory _ _ _ H Hs Hm Hr) as Hin.
  apply elem_of_app in Hin as [Hin|Hin]; [done|]. by apply list_elem_of_singleton in Hin.
Qed.

Lemma success_history_complete_witness :
  chain "" full_history ∧ StageSuccess ∈ full_history ∧
  ∃ h, full_history = h ++ [StageSuccess] ∧ ∀ m, m ∈ mandatory → m ∈ h.
Proof.
  assert (chain "" full_history) as H by (repeat split).
  assert (StageSuccess ∈ full_history) as Hs by by_decide.
  split; [exact H|]. split; [exact Hs|]. exact (success_history_complete _ H Hs).
Defined.

(** [CanAdvance] accepts exactly the arrows of the lifecycle diagram. *)
Theorem CanAdvance_diagram c n : CanAdvance c n = true ↔ (c, n) ∈ edges.
Proof. apply CanAdvance_edges. Qed.
