(* ===== verification/Secureboot.v ===== *)
(** * UEFI Secure Boot evidence and policy (internal/secureboot/policy.go) *)

From S2P Require Import Prelude GoStrings Fault.

Abbreviation State := string (only parsing).
Abbreviation Policy := string (only parsing).

(* internal/secureboot/policy.go:13-13 StateUnknown *)
Definition StateUnknown : State := "unknown".
(* internal/secureboot/policy.go:14-14 StateEnabled *)
Definition StateEnabled : State := "enabled".
(* internal/secureboot/policy.go:15-15 StateDisabled *)
Definition StateDisabled : State := "disabled".
(* internal/secureboot/policy.go:16-16 StateSetupMode *)
Definition StateSetupMode : State := "setup_mode".
(* internal/secureboot/policy.go:17-17 StateUnsupported *)
Definition StateUnsupported : State := "unsupported".
(* internal/secureboot/policy.go:19-19 PolicyRequired *)
Definition PolicyRequired : Policy := "required".
(* internal/secureboot/policy.go:20-20 PolicyAudit *)
Definition PolicyAudit : Policy := "audit".
(* internal/secureboot/policy.go:21-21 PolicyDisabled *)
Definition PolicyDisabled : Policy := "disabled".

(* internal/secureboot/policy.go:24-32 ParsePolicy *)
Definition ParsePolicy (value : string) : result Policy :=
  let policy := ToLower (TrimSpace value) in
  if (policy =? PolicyRequired)%string || (policy =? PolicyAudit)%string || (policy =? PolicyDisabled)%string
  then Ok policy
  else Err (Plain "secure boot policy must be required, audit, or disabled").

(* internal/secureboot/policy.go:76-87 normalizeByte *)
Definition normalizeByte (value : string) : string :=
  let value := TrimPrefix (ToLower (TrimSpace value)) "0x" in
  if (value =? "0")%string then "00" else if (value =? "1")%string then "01" else value.

(* internal/secureboot/policy.go:89-91 validFlag *)
Definition validFlag (value : string) : bool := (value =? "00")%string || (value =? "01")%string.

(** The first component is the state returned together with the error. *)
(* internal/secureboot/policy.go:34-59 Observe *)
Definition Observe (firmware secureBootHex setupModeHex : string) : State * option error :=
  let firmware := ToLower (TrimSpace firmware) in
  let secureBootHex := normalizeByte secureBootHex in
  let setupModeHex := normalizeByte setupModeHex in
  if negb (firmware =? "efi")%string then (StateUnsupported, None)
  else if (secureBootHex =? "")%string || (setupModeHex =? "")%string then (StateUnknown, None)
  else if negb (validFlag secureBootHex) || negb (validFlag setupModeHex) then
    (StateUnknown, Some (Plain "invalid UEFI SecureBoot or SetupMode value"))
  else if (setupModeHex =? "01")%string then (StateSetupMode, None)
  else if (secureBootHex =? "01")%string then (StateEnabled, None)
  else (StateDisabled, None).

(* internal/secureboot/policy.go:61-70 Policy.AllowsProvision *)
Definition AllowsProvision (p : Policy) (state : State) : bool :=
  if (p =? PolicyDisabled)%string || (p =? PolicyAudit)%string then true
  else if (p =? PolicyRequired)%string then (state =? StateEnabled)%string
  else false.

(* internal/secureboot/policy.go:72-74 Policy.RequiresSecureBoot *)
Definition RequiresSecureBoot (p : Policy) : bool := (p =? PolicyRequired)%string.

(** ** Lemmas *)

Lemma Observe_enabled fw sb sm e :
  Observe fw sb sm = (StateEnabled, e) ↔
  e = None ∧ ToLower (TrimSpace fw) = "efi" ∧ normalizeByte sb = "01" ∧ normalizeByte sm = "00".
Proof.
  unfold Observe, validFlag. split.
  - intros H.
    destruct (_ =? "efi")%string eqn:E1; simpl in H; [|discriminate].
    destruct (_ || _) eqn:E2 in H; [discriminate|].
    destruct (_ || _) eqn:E3 in H; [discriminate|].
    destruct (normalizeByte sm =? "01")%string eqn:E4 in H; [discriminate|].
    destruct (normalizeByte sb =? "01")%string eqn:E5 in H; [|discriminate].
    rewrite E4, E5, orb_false_r in E3. bool_inv. by simplify_eq.
  - intros (-> & -> & -> & ->). reflexivity.
Qed.

Lemma Observe_states fw sb sm st e :
  Observe fw sb sm = (st, e) →
  st ∈ [StateUnknown; StateEnabled; StateDisabled; StateSetupMode; StateUnsupported].
Proof. unfold Observe. intros H. repeat case_match; simplify_eq; by_decide. Qed.

Lemma AllowsProvision_required state :
  AllowsProvision PolicyRequired state = true → state = StateEnabled.
Proof. cbn. intros H. by apply String.eqb_eq. Qed.

(** ** Property *)

(** Under the required policy a machine is allowed to provision only on
    complete evidence of enforcement: UEFI firmware, SecureBoot=1 and
    SetupMode=0, without an evidence error.  Partial or missing variables never
    count as enabled. *)
Theorem required_policy_needs_full_evidence fw sb sm :
  AllowsProvision PolicyRequired (Observe fw sb sm).1 = true ↔
  ToLower (TrimSpace fw) = "efi" ∧ normalizeByte sb = "01" ∧ normalizeByte sm = "00" ∧
  (Observe fw sb sm).2 = None.
Proof.
  destruct (Observe fw sb sm) as [st e] eqn:H. simpl. split.
  - intros Ha. apply AllowsProvision_required in Ha as ->.
    by apply Observe_enabled in H as (-> & ? & ? & ?).
  - intros (Hf & Hb & Hm & ->).
    assert (Observe fw sb sm = (StateEnabled, None)) as H' by (by apply Observe_enabled).
    rewrite H in H'. by injection H' as ->.
Qed.
