(* ===== verification/Machine.v ===== *)
(** * Machines: identity, observations, policies (internal/machine) *)

From S2P Require Import Prelude GoStrings Regex Fault Secureboot.

Abbreviation Policy := string (only parsing).

(* internal/machine/model.go:17-17 PolicyPending *)
Definition PolicyPending : Policy := "pending".
(* internal/machine/model.go:18-18 PolicyLocal *)
Definition PolicyLocal : Policy := "local".
(* internal/machine/model.go:19-19 PolicyProvision *)
Definition PolicyProvision : Policy := "provision".
(* internal/machine/model.go:20-20 PolicyBlocked *)
Definition PolicyBlocked : Policy := "blocked".
(* internal/machine/model.go:21-21 MaxNicknameRunes *)
Definition MaxNicknameRunes : nat := 80.

(* internal/machine/model.go:27-27 IdentifierMAC *)
Definition IdentifierMAC : string := "mac".
(* internal/machine/model.go:28-28 IdentifierSMBIOSUUID *)
Definition IdentifierSMBIOSUUID : string := "smbios_uuid".

(* internal/machine/model.go:31-34 Identifier *)
Record Identifier := mkIdentifier { Kind : string; Value : string }.

(* internal/machine/model.go:36-43 Observation *)
Record Observation := mkObservation {
  MAC : string;
  SMBIOSUUID : string;
  obs_Architecture : string;
  obs_Firmware : string;
  obs_SecureBoot : string;
  obs_SetupMode : string }.

(* internal/machine/model.go:45-55 Machine *)
Record Machine := mkMachine {
  ID : string;
  Nickname : string;
  m_Policy : Policy;
  Architecture : string;
  Firmware : string;
  SecureBootState : Secureboot.State;
  SecureBootObserved : time;
  FirstSeen : time;
  LastSeen : time }.

Definition hex_lower : regex := Chr (λ c, is_digit c || in_range 97 102 c).

(** [^[0-9a-f]{8}-[0-9a-f]{4}-[0-9a-f]{4}-[0-9a-f]{4}-[0-9a-f]{12}$] *)
(* internal/machine/model.go:57-57 smbiosUUID *)
Definition smbiosUUID : regex :=
  Cat (Times 8 hex_lower) (Cat (Lit "-") (Cat (Times 4 hex_lower) (Cat (Lit "-")
    (Cat (Times 4 hex_lower) (Cat (Lit "-") (Cat (Times 4 hex_lower) (Cat (Lit "-")
    (Times 12 hex_lower)))))))).

(* internal/machine/model.go:59-70 NormalizeNickname *)
Definition NormalizeNickname (value : string) : result string :=
  let value := TrimSpace value in
  if (MaxNicknameRunes <? length (runes value))%nat then Err (Plain "machine nickname is too long")
  else if existsb rune_IsControl (runes value) then
    Err (Plain "machine nickname contains control characters")
  else Ok value.

(** ** [net.ParseMAC], [HardwareAddr.String]

    Pairs of hexadecimal digits separated by [sep] (the third byte of the
    text, [:] or [-]), or groups of four digits separated by dots; 6, 8 or 20
    bytes. *)
Fixpoint mac_pairs (sep : ascii) (s : string) : option string :=
  match s with
  | String a (String b t) =>
    match hex_value a, hex_value b with
    | Some x, Some y =>
      match t with
      | "" => Some (String (byte_of (16 * x + y)) "")
      | String c t' => if Ascii.eqb c sep
                       then String (byte_of (16 * x + y)) <$> mac_pairs sep t' else None
      end
    | _, _ => None
    end
  | _ => None
  end.

Fixpoint mac_quads (s : string) : option string :=
  match s with
  | String a (String b (String c (String d t))) =>
    match hex_value a, hex_value b, hex_value c, hex_value d with
    | Some x, Some y, Some z, Some w =>
      let hi := byte_of (16 * x + y) in
      let lo := byte_of (16 * z + w) in
      match t with
      | "" => Some (String hi (String lo ""))
      | String e t' => if Ascii.eqb e "." then (λ r, String hi (String lo r)) <$> mac_quads t' else None
      end
    | _, _, _, _ => None
    end
  | _ => None
  end.

Definition mac_size_ok (hw : string) : bool :=
  let n := String.length hw in (n =? 6)%nat || (n =? 8)%nat || (n =? 20)%nat.

Definition ParseMAC (s : string) : option string :=
  if (len s <? 14)%Z then None
  else if byte_at 2 (λ c, Ascii.eqb c ":" || Ascii.eqb c "-") s then
    hw ← mac_pairs (default ":"%char (nth_byte 2 s)) s; if mac_size_ok hw then Some hw else None
  else if byte_at 4 (Ascii.eqb ".") s then
    hw ← mac_quads s; if mac_size_ok hw then Some hw else None
  else None.

Fixpoint HardwareAddr_String (hw : string) : string :=
  match hw with
  | "" => ""
  | String c "" => hex_encode (String c "")
  | String c t => hex_encode (String c "") +:+ ":" +:+ HardwareAddr_String t
  end.

(** ** Observations *)

(* internal/machine/model.go:72-74 Observation.SecureBootState *)
Definition Observation_SecureBootState (o : Observation) : Secureboot.State * option error :=
  Observe (obs_Firmware o) (obs_SecureBoot o) (obs_SetupMode o).

(* internal/machine/model.go:76-96 Observation.Identifiers *)
Definition Identifiers (o : Observation) : result (list Identifier) :=
  out ← (if (TrimSpace (MAC o) =? "")%string then Ok []
         else match ParseMAC (MAC o) with
              | Some hw => if (String.length hw =? 6)%nat
                           then Ok [mkIdentifier IdentifierMAC (ToLower (HardwareAddr_String hw))]
                           else Err (Plain "invalid MAC address")
              | None => Err (Plain "invalid MAC address")
              end);
  out ← (if (TrimSpace (SMBIOSUUID o) =? "")%string then Ok out
         else let value := ToLower (TrimSpace (SMBIOSUUID o)) in
              if re_match smbiosUUID value
              then Ok (out ++ [mkIdentifier IdentifierSMBIOSUUID value])
              else Err (Plain "invalid SMBIOS UUID"));
  if (length out =? 0)%nat then Err (Plain "at least one machine identifier is required") else Ok out.

Example Identifiers_example :
  Identifiers (mkObservation "52-54-00-AB-cd-01" " 4C4C4544-0031-1234-8051-B4C04F4E3132 " "x86_64" "efi" "1" "0")
  = Ok [mkIdentifier "mac" "52:54:00:ab:cd:01";
        mkIdentifier "smbios_uuid" "4c4c4544-0031-1234-8051-b4c04f4e3132"].
Proof. vm_compute. reflexivity. Qed.

Example Identifiers_dotted :
  Identifiers (mkObservation "5254.00ab.CD01" "" "" "" "" "") = Ok [mkIdentifier "mac" "52:54:00:ab:cd:01"].
Proof. vm_compute. reflexivity. Qed.

Example Identifiers_none :
  is_ok (Identifiers (mkObservation " " "" "" "" "" "")) = false.
Proof. reflexivity. Qed.
