(* ===== verification/Encoding.v ===== *)
(** * Encodings of Go's standard library: base64, net/url

    Executable models of [base64.StdEncoding] and [base64.RawURLEncoding],
    [url.Parse], [URL.EscapedPath] and [url.PathEscape], and the hexadecimal
    round trip. *)

From S2P Require Import Prelude GoStrings.

(** ** Hexadecimal round trip *)

Lemma byte_nat_bound c : (byte_nat c < 256)%nat.
Proof. apply Ascii.nat_ascii_bounded. Qed.

Lemma byte_of_nat c : byte_of (byte_nat c) = c.
Proof. apply Ascii.ascii_nat_embedding. Qed.

Lemma byte_nat_of n : (n < 256)%nat → byte_nat (byte_of n) = n.
Proof. apply Ascii.nat_ascii_embedding. Qed.

Lemma hex_value_digit n : (n < 16)%nat → hex_value (hex_digit n) = Some n.
Proof. intros H. do 16 (destruct n as [|n]; [reflexivity|]). lia. Qed.

Lemma hex_byte c :
  hex_value (hex_digit (byte_nat c / 16)) = Some (byte_nat c / 16) ∧
  hex_value (hex_digit (byte_nat c mod 16)) = Some (byte_nat c mod 16) ∧
  byte_of (16 * (byte_nat c / 16) + byte_nat c mod 16) = c.
Proof.
  pose proof (byte_nat_bound c). split_and!.
  - apply hex_value_digit. apply Nat.Div0.div_lt_upper_bound. lia.
  - apply hex_value_digit. apply Nat.mod_upper_bound. lia.
  - rewrite <- Nat.div_mod_eq. apply byte_of_nat.
Qed.

Lemma hex_decode_encode s : hex_decode (hex_encode s) = Some s.
Proof.
  induction s as [|c s IH]; [done|]. cbn [hex_encode hex_decode].
  destruct (hex_byte c) as (-> & -> & H). by rewrite IH, H.
Qed.

Lemma hex_encode_inj s t : hex_encode s = hex_encode t → s = t.
Proof. intros H. apply (f_equal hex_decode) in H. rewrite !hex_decode_encode in H. by simplify_eq. Qed.

Lemma hex_encode_length s : String.length (hex_encode s) = 2 * String.length s.
Proof. induction s as [|c s IH]; [done|]. cbn [hex_encode String.length]. lia. Qed.

(** ** Base64 *)

(** The value of a letter; [url] selects the URL alphabet. *)
Definition b64_value (url : bool) (c : ascii) : option nat :=
  if is_upper c then Some (byte_nat c - 65)
  else if is_lower c then Some (byte_nat c - 71)
  else if is_digit c then Some (byte_nat c + 4)
  else if Ascii.eqb c (if url then "-" else "+") then Some 62
  else if Ascii.eqb c (if url then "_" else "/") then Some 63
  else None.

Definition b64_digit (url : bool) (n : nat) : ascii :=
  if (n <? 26)%nat then byte_of (65 + n)
  else if (n <? 52)%nat then byte_of (71 + n)
  else if (n <? 62)%nat then byte_of (n - 4)
  else if (n =? 62)%nat then (if url then "-" else "+")%char
  else (if url then "_" else "/")%char.

(** The decoder skips line breaks anywhere. *)
Fixpoint drop_breaks (s : string) : string :=
  match s with
  | "" => ""
  | String c t => if byte_is 10 c || byte_is 13 c then drop_breaks t else String c (drop_breaks t)
  end.

Definition b64_3 (x y z w : nat) : string :=
  String (byte_of (4 * x + y / 16))
    (String (byte_of (16 * (y mod 16) + z / 4)) (String (byte_of (64 * (z mod 4) + w)) "")).
Definition b64_2 (x y z : nat) : string :=
  String (byte_of (4 * x + y / 16)) (String (byte_of (16 * (y mod 16) + z / 4)) "").
Definition b64_1 (x y : nat) : string := String (byte_of (4 * x + y / 16)) "".

(** [StdEncoding] without line breaks: groups of four letters, the last one
    padded with [=]; trailing bits are not checked. *)
Fixpoint b64_std (s : string) : option string :=
  match s with
  | "" => Some ""
  | String a (String b (String c (String d t))) =>
    x ← b64_value false a; y ← b64_value false b;
    match b64_value false c with
    | None => if Ascii.eqb c "=" && Ascii.eqb d "=" && (t =? "")%string then Some (b64_1 x y) else None
    | Some z =>
      match b64_value false d with
      | None => if Ascii.eqb d "=" && (t =? "")%string then Some (b64_2 x y z) else None
      | Some w => r ← b64_std t; Some (b64_3 x y z w +:+ r)
      end
    end
  | _ => None
  end.

Definition StdEncoding_DecodeString (s : string) : option string := b64_std (drop_breaks s).

(** [RawURLEncoding]: no padding. *)
Fixpoint b64_raw (s : string) : option string :=
  match s with
  | "" => Some ""
  | String a (String b "") => x ← b64_value true a; y ← b64_value true b; Some (b64_1 x y)
  | String a (String b (String c "")) =>
    x ← b64_value true a; y ← b64_value true b; z ← b64_value true c; Some (b64_2 x y z)
  | String a (String b (String c (String d t))) =>
    x ← b64_value true a; y ← b64_value true b; z ← b64_value true c; w ← b64_value true d;
    r ← b64_raw t; Some (b64_3 x y z w +:+ r)
  | String _ "" => None
  end.

Definition RawURLEncoding_DecodeString (s : string) : option string := b64_raw (drop_breaks s).

Fixpoint RawURLEncoding_EncodeToString (s : string) : string :=
  let d n := b64_digit true n in
  match s with
  | "" => ""
  | String a "" => String (d (byte_nat a / 4)) (String (d (16 * (byte_nat a mod 4))) "")
  | String a (String b "") =>
    String (d (byte_nat a / 4)) (String (d (16 * (byte_nat a mod 4) + byte_nat b / 16))
      (String (d (4 * (byte_nat b mod 16))) ""))
  | String a (String b (String c t)) =>
    String (d (byte_nat a / 4)) (String (d (16 * (byte_nat a mod 4) + byte_nat b / 16))
      (String (d (4 * (byte_nat b mod 16) + byte_nat c / 64))
        (String (d (byte_nat c mod 64)) (RawURLEncoding_EncodeToString t))))
  end.

Example b64_examples :
  StdEncoding_DecodeString "aGVsbG8=" = Some "hello" ∧
  RawURLEncoding_EncodeToString "hello?>" = "aGVsbG8_Pg" ∧
  RawURLEncoding_DecodeString "aGVsbG8_Pg" = Some "hello?>".
Proof. by vm_compute. Qed.

(** ** URLs *)

(** [Index] of a byte: the text before and after its first occurrence. *)
Fixpoint cut_byte (sep : ascii) (s : string) : option (string * string) :=
  match s with
  | "" => None
  | String c t =>
    if Ascii.eqb c sep then Some ("", t)
    else (λ p, (String c p.1, p.2)) <$> cut_byte sep t
  end.

(** The same for its last occurrence. *)
Fixpoint cut_last (sep : ascii) (s : string) : option (string * string) :=
  match s with
  | "" => None
  | String c t =>
    match cut_last sep t with
    | Some (a, b) => Some (String c a, b)
    | None => if Ascii.eqb c sep then Some ("", t) else None
    end
  end.

Record URL := mkURL {
  Scheme : string;
  Opaque : string;
  has_User : bool;
  Host : string;
  Path : string;
  RawPath : string;
  RawQuery : string;
  Fragment : string }.

Inductive url_mode := encodePath | encodePathSegment | encodeHost | encodeZone | encodeFragment.

(** [shouldEscape]. *)
Definition shouldEscape (mode : url_mode) (c : ascii) : bool :=
  if is_alnum c then false
  else if match mode with
          | encodeHost | encodeZone => byte_in c "!$&'()*+,;=:[]<>" || byte_is 34 c
          | _ => false
          end then false
  else if byte_in c "-_.~" then false
  else if byte_in c "$&+,/:;=?@" then
    match mode with
    | encodePath => Ascii.eqb c "?"
    | encodePathSegment => byte_in c "/;,?"
    | encodeFragment => false
    | _ => true
    end
  else match mode with encodeFragment => negb (byte_in c "!()*") | _ => true end.

Definition upper_hex (n : nat) : ascii := if (n <? 10)%nat then byte_of (48 + n) else byte_of (55 + n).

Fixpoint escape (mode : url_mode) (s : string) : string :=
  match s with
  | "" => ""
  | String c t =>
    if shouldEscape mode c
    then String "%" (String (upper_hex (byte_nat c / 16)) (String (upper_hex (byte_nat c mod 16)) (escape mode t)))
    else String c (escape mode t)
  end.

Definition PathEscape (s : string) : string := escape encodePathSegment s.

(** [unescape]: percent sequences are decoded; hosts and zones restrict which
    ones, and which plain bytes, are allowed. *)
Fixpoint unescape (mode : url_mode) (s : string) : option string :=
  match s with
  | "" => Some ""
  | String c t =>
    if Ascii.eqb c "%" then
      match t with
      | String a (String b u) =>
        x ← hex_value a; y ← hex_value b;
        let v := byte_of (16 * x + y) in
        let is25 := Ascii.eqb a "2" && Ascii.eqb b "5" in
        if match mode with
           | encodeHost => (x <? 8)%nat && negb is25
           | encodeZone => negb is25 && negb (byte_is 32 v) && shouldEscape encodeHost v
           | _ => false
           end then None
        else String v <$> unescape mode u
      | _ => None
      end
    else if match mode with
            | encodeHost | encodeZone => (byte_nat c <? 128)%nat && shouldEscape mode c
            | _ => false
            end then None
    else String c <$> unescape mode t
  end.

(** [validOptionalPort]. *)
Definition validOptionalPort (port : string) : bool :=
  match port with
  | "" => true
  | String c t => Ascii.eqb c ":" && all_bytes is_digit t
  end.

Definition valid_port_of (host : string) : bool :=
  match cut_last ":" host with
  | Some (_, p) => all_bytes is_digit p
  | None => true
  end.

(** The text before the first occurrence of [sub], and the rest from it. *)
Fixpoint cut_at (sub s : string) : option (string * string) :=
  if HasPrefix s sub then Some ("", s) else
  match s with
  | "" => None
  | String c t => (λ p, (String c p.1, p.2)) <$> cut_at sub t
  end.

Definition parseHost (host : string) : option string :=
  if HasPrefix host "[" then
    match cut_last "]" host with
    | None => None
    | Some (inside, colonPort) =>
      if negb (validOptionalPort colonPort) then None else
      match cut_at "%25" inside with
      | Some (h1, h2) =>
        a ← unescape encodeHost h1; b ← unescape encodeZone h2;
        c ← unescape encodeHost (String "]" colonPort); Some (a +:+ b +:+ c)
      | None => unescape encodeHost host
      end
    end
  else if valid_port_of host then unescape encodeHost host else None.

(** [validUserinfo]. *)
Definition validUserinfo (s : string) : bool :=
  all_bytes (λ c, is_alnum c || byte_in c "-._:~!$&'()*+,;=%@") s.

(** User info and host of an authority. *)
Definition parseAuthority (authority : string) : option (bool * string) :=
  match cut_last "@" authority with
  | None => h ← parseHost authority; Some (false, h)
  | Some (userinfo, h) =>
    h ← parseHost h;
    if negb (validUserinfo userinfo) then None else
    match cut_byte ":" userinfo with
    | None => _ ← unescape encodePathSegment userinfo; Some (true, h)
    | Some (u, p) => _ ← unescape encodePathSegment u; _ ← unescape encodePathSegment p; Some (true, h)
    end
  end.

(** [getScheme]: [None] is its error. *)
Fixpoint getScheme_go (first : bool) (acc : string) (whole s : string) : option (string * string) :=
  match s with
  | "" => Some ("", whole)
  | String c t =>
    if is_upper c || is_lower c then getScheme_go false (acc +:+ String c "") whole t
    else if is_digit c || byte_in c "+-." then
      if first then Some ("", whole) else getScheme_go false (acc +:+ String c "") whole t
    else if Ascii.eqb c ":" then if first then None else Some (acc, t)
    else Some ("", whole)
  end.

Definition getScheme (s : string) : option (string * string) := getScheme_go true "" s s.

(** [setPath]: the path and, when it is not the default encoding, the raw one. *)
Definition setPath (p : string) : option (string * string) :=
  path ← unescape encodePath p;
  Some (path, if (p =? escape encodePath path)%string then "" else p).

Definition split_query (rest : string) : string * string :=
  match cut_byte "?" rest with Some (r, q) => (r, q) | None => (rest, "") end.

Definition parse_noscheme (scheme rest : string) : option URL :=
  let '(rest, query) := split_query rest in
  if negb (HasPrefix rest "/") && negb (scheme =? "")%string then
    Some (mkURL scheme rest false "" "" "" query "")
  else if negb (HasPrefix rest "/") && Contains (default (rest, "") (cut_byte "/" rest)).1 ":" then None
  else
    '(user, host, rest) ←
      (if (negb (scheme =? "")%string || negb (HasPrefix rest "///")) && HasPrefix rest "//" then
         let authority := drop_bytes 2 rest in
         let '(a, r) := match cut_byte "/" authority with
                        | Some (a, r) => (a, String "/" r)
                        | None => (authority, "")
                        end in
         '(u, h) ← parseAuthority a; Some (u, h, r)
       else Some (false, "", rest));
    '(path, raw) ← setPath rest;
    Some (mkURL scheme "" user host path raw query "").

(** [url.Parse]: [None] is its error. *)
Definition url_Parse (rawURL : string) : option URL :=
  let '(u, frag) := match cut_byte "#" rawURL with Some p => p | None => (rawURL, "") end in
  if has_ascii_control u then None
  else
    url ← (if (u =? "*")%string then Some (mkURL "" "" false "" "*" "" "" "")
           else '(scheme, rest) ← getScheme u; parse_noscheme (ToLower scheme) rest);
    frag ← unescape encodeFragment frag;
    Some (mkURL (Scheme url) (Opaque url) (has_User url) (Host url) (Path url) (RawPath url) (RawQuery url) frag).

(** [validEncoded] for paths. *)
Definition validEncoded (s : string) : bool :=
  all_bytes (λ c, byte_in c "!$&'()*+,;=:@[]%" || negb (shouldEscape encodePath c)) s.

(** [URL.EscapedPath]. *)
Definition EscapedPath (u : URL) : string :=
  if negb (RawPath u =? "")%string && validEncoded (RawPath u)
     && bool_decide (unescape encodePath (RawPath u) = Some (Path u))
  then RawPath u
  else if (Path u =? "*")%string then "*" else escape encodePath (Path u).

Example url_examples :
  (λ u, (Scheme u, Host u, Path u, has_User u, RawQuery u)) <$> url_Parse "https://deb.debian.org/debian/a%20b?x=1#f"
    = Some ("https", "deb.debian.org", "/debian/a b", false, "x=1") ∧
  has_User <$> url_Parse "https://u:p@h.example/" = Some true ∧
  Host <$> url_Parse "http://[::1]:80/x" = Some "[::1]:80" ∧
  url_Parse "http://a b/" = None ∧ url_Parse ":x" = None ∧ url_Parse "1:2" = None.
Proof. by vm_compute. Qed.
