(* ===== verification/GoParse.v ===== *)
(** * Parsers of Go's standard library: strconv, net, and paths: path/filepath on Unix *)

From S2P Require Import Prelude GoStrings Encoding.

(** [strconv.ParseInt(s, 10, 64)]; [None] is its error. *)
Fixpoint digits_go (acc : Z) (s : string) : Z :=
  match s with
  | "" => acc
  | String c t => digits_go (10 * acc + (Z.of_nat (byte_nat c) - 48))%Z t
  end.

Definition digits_value (s : string) : option Z :=
  if (s =? "")%string || negb (all_bytes is_digit s) then None else Some (digits_go 0 s).

Definition ParseInt (s : string) : option Z :=
  let '(neg, digits) := match s with
                        | String c t => if Ascii.eqb c "+" then (false, t) else if Ascii.eqb c "-" then (true, t) else (false, s)
                        | "" => (false, s)
                        end in
  un ← digits_value digits;
  if neg then (if (2 ^ 63 <? un)%Z then None else Some (- un)%Z)
  else (if (2 ^ 63 <=? un)%Z then None else Some un).

Example ParseInt_examples :
  ParseInt <$> ["42"; "-7"; "+3"; ""; "-"; "1_0"; "9223372036854775807"; "9223372036854775808"; "-9223372036854775808"]
  = [Some 42; Some (-7); Some 3; None; None; None; Some (2 ^ 63 - 1); None; Some (- 2 ^ 63)]%Z.
Proof. by vm_compute. Qed.

(** [net.SplitHostPort]: host and port; [None] is its error. *)
Definition has_byte (c : ascii) (s : string) : bool := match cut_byte c s with Some _ => true | None => false end.

Definition SplitHostPort (hostport : string) : option (string * string) :=
  match hostport with
  | String "[" inside =>
    match cut_byte "]" inside with
    | None => None
    | Some (host, rest) =>
      match rest with
      | String ":" port =>
        if has_byte ":" port || has_byte "[" inside || has_byte "]" rest then None else Some (host, port)
      | _ => None
      end
    end
  | _ =>
    match cut_last ":" hostport with
    | None => None
    | Some (host, port) =>
      if has_byte ":" host || has_byte "[" hostport || has_byte "]" hostport then None else Some (host, port)
    end
  end.

Example SplitHostPort_examples :
  SplitHostPort <$> ["10.0.0.1:80"; "[::1]:8080"; "::1"; "host"; ":80"; "[::1]"; "[a]b:1"]
  = [Some ("10.0.0.1", "80"); Some ("::1", "8080"); None; None; Some ("", "80"); None; None].
Proof. by vm_compute. Qed.

(** ** Paths *)

(** [filepath.Clean] on Unix: empty and dot segments go, a parent segment takes
    the segment before it along. *)
Fixpoint clean_segments (rooted : bool) (stack segments : list string) : list string :=
  match segments with
  | [] => rev stack
  | x :: segments =>
    if (x =? "")%string || (x =? ".")%string then clean_segments rooted stack segments
    else if (x =? "..")%string then
      match stack with
      | y :: stack' => if (y =? "..")%string then clean_segments rooted (x :: stack) segments else clean_segments rooted stack' segments
      | [] => clean_segments rooted (if rooted then [] else [x]) segments
      end
    else clean_segments rooted (x :: stack) segments
  end.

Definition IsAbs (path : string) : bool := HasPrefix path "/".

Definition Clean (path : string) : string :=
  let cleaned := Join (clean_segments (IsAbs path) [] (split_byte "/" path)) "/" in
  if IsAbs path then "/" +:+ cleaned else if (cleaned =? "")%string then "." else cleaned.

Example Clean_examples :
  Clean <$> ["/target/"; "/a/../../b"; "a//./b"; ""; ".."; "/"; "../x/.."; "/target/../"]
  = ["/target"; "/b"; "a/b"; "."; ".."; "/"; ".."; "/"].
Proof. by vm_compute. Qed.

(** [filepath.Join] of two elements that are not empty. *)
Definition Join_path (directory name : string) : string := Clean (directory +:+ "/" +:+ name).

Example Join_path_examples :
  [Join_path "/usr/lib" "a.efi"; Join_path "/" "a.efi"] = ["/usr/lib/a.efi"; "/a.efi"].
Proof. by vm_compute. Qed.
