(* ===== verification/StringFacts.v ===== *)
(** * Lemmas about Go's string functions *)

From stdpp Require Import pretty.
From S2P Require Import Prelude GoStrings Regex Encoding GoParse.

(** ** Append, prefixes *)

Lemma app_assoc_s (a b c : string) : (a +:+ b) +:+ c = a +:+ (b +:+ c).
Proof. induction a as [|x a IH]; simpl; [done|]. by rewrite IH. Qed.

Lemma app_nil_r_s (a : string) : a +:+ "" = a.
Proof. induction a as [|x a IH]; simpl; [done|]. by rewrite IH. Qed.

Lemma length_app_s (a b : string) : String.length (a +:+ b) = String.length a + String.length b.
Proof. induction a as [|x a IH]; simpl; [done|]. by rewrite IH. Qed.

Lemma app_inv_head_s (a b c : string) : a +:+ b = a +:+ c → b = c.
Proof. induction a as [|x a IH]; simpl; [done|]. intros [=]. auto. Qed.

Lemma len_nonneg s : (0 ≤ len s)%Z.
Proof. unfold len. lia. Qed.

Lemma HasPrefix_iff s p : HasPrefix s p = true ↔ ∃ r, s = p +:+ r.
Proof.
  unfold HasPrefix. revert s. induction p as [|c p IH]; intros s; simpl.
  - split; [intros _; by exists s|]. intros _. by destruct s.
  - destruct s as [|d s]; simpl; [split; [done|by intros (r & ?)]|].
    destruct (ascii_dec c d) as [->|Hne].
    + rewrite IH. split; intros (r & Hr); exists r; [by rewrite Hr|by injection Hr].
    + split; [done|]. intros (r & Hr). congruence.
Qed.

Lemma HasPrefix_self p r : HasPrefix (p +:+ r) p = true.
Proof. apply HasPrefix_iff. by exists r. Qed.

Lemma HasPrefix_TrimPrefix s p : HasPrefix s p = true → s = p +:+ TrimPrefix s p.
Proof.
  intros H. unfold TrimPrefix. rewrite H. apply HasPrefix_iff in H as [r ->].
  f_equal. induction p as [|c p IH]; [done|exact IH].
Qed.

Lemma TrimPrefix_app p s : TrimPrefix (p +:+ s) p = s.
Proof. apply (app_inv_head_s p). symmetry. apply HasPrefix_TrimPrefix, HasPrefix_self. Qed.

(** ** Predicates on all bytes *)

Lemma all_bytes_impl (p q : ascii → bool) s :
  (∀ c, p c = true → q c = true) → all_bytes p s = true → all_bytes q s = true.
Proof.
  intros Hpq. induction s as [|c s IH]; simpl; [done|]. intros H. bool_inv.
  rewrite Hpq by done. auto.
Qed.

Definition byte_free (c : ascii) (s : string) : bool := all_bytes (λ d, negb (Ascii.eqb d c)) s.

Lemma byte_free_app c s t : byte_free c (s +:+ t) = byte_free c s && byte_free c t.
Proof. apply all_bytes_app. Qed.

(** Visible ASCII. *)
Definition is_graph (c : ascii) : bool := in_range 33 126 c.

Lemma is_graph_nospace c t : is_graph c = true → ws_prefix (String c t) = 0.
Proof.
  unfold is_graph, in_range. intros H. bool_inv.
  repeat match goal with Hl : (_ <=? _)%nat = true |- _ => apply Nat.leb_le in Hl end.
  unfold ws_prefix, in_range, byte_is.
  assert ((9 <=? byte_nat c)%nat && (byte_nat c <=? 13)%nat = false) as -> by
    (apply andb_false_iff; rewrite !Nat.leb_gt; lia).
  assert (∀ n, (n < 33 ∨ 126 < n)%nat → (byte_nat c =? n)%nat = false) as Hn
    by (intros n Hn; apply Nat.eqb_neq; lia).
  rewrite !(Hn 32), !(Hn 194), !(Hn 225), !(Hn 226), !(Hn 227) by lia. simpl.
  by destruct t as [|b [|d t]].
Qed.

Lemma trim_left_graph s : all_bytes is_graph s = true → trim_left s = s.
Proof.
  destruct s as [|c s]; [done|]. cbn [all_bytes]. intros H. bool_inv.
  unfold trim_left. cbn [trim_left_go]. by rewrite is_graph_nospace.
Qed.

Lemma trim_right_graph s : all_bytes is_graph s = true → trim_right s = s.
Proof.
  induction s as [|c s IH]; [done|]. intros H. pose proof (trim_left_graph _ H) as Ht.
  cbn [all_bytes] in H. bool_inv. cbn [trim_right]. unfold all_space. rewrite Ht. simpl.
  by rewrite IH.
Qed.

Lemma TrimSpace_graph s : all_bytes is_graph s = true → TrimSpace s = s.
Proof. intros H. unfold TrimSpace. by rewrite trim_left_graph, trim_right_graph. Qed.

#[export] Hint Resolve TrimSpace_graph : aegis.

(** A visible text after a blank keeps its ends. *)
Lemma trim_right_cons c s : is_graph c = true → trim_right (String c s) = String c (trim_right s).
Proof.
  intros Hc. cbn [trim_right]. unfold all_space, trim_left. cbn [trim_left_go]. by rewrite is_graph_nospace.
Qed.

Lemma trim_right_blank v : all_bytes is_graph v = true → v ≠ "" → trim_right (String " " v) = String " " v.
Proof.
  intros Hv Hne. cbn [trim_right]. rewrite trim_right_graph by done. unfold all_space.
  destruct v as [|c v]; [done|]. replace (trim_left (String " " (String c v))) with (String c v); [done|].
  symmetry. apply (trim_left_graph _ Hv).
Qed.

Lemma TrimSpace_words u v :
  all_bytes is_graph u = true → u ≠ "" → all_bytes is_graph v = true → v ≠ "" → TrimSpace (u +:+ " " +:+ v) = u +:+ " " +:+ v.
Proof.
  intros Hu Hu0 Hv Hv0. unfold TrimSpace.
  assert (∀ s, trim_left (u +:+ s) = u +:+ s) as ->.
  { intros s. destruct u as [|c u]; [done|]. cbn [all_bytes] in Hu. bool_inv. unfold trim_left.
    cbn [String.append trim_left_go]. by rewrite is_graph_nospace. }
  clear Hu0. induction u as [|c u IH]; [by apply trim_right_blank|]. cbn [all_bytes] in Hu. bool_inv.
  cbn [String.append] in *. by rewrite trim_right_cons, IH.
Qed.

(** ** [ToLower] *)

(** ASCII without upper-case letters. *)
Definition is_low (c : ascii) : bool := (byte_nat c <? 128)%nat && negb (is_upper c).

Lemma is_low_spec c :
  is_low c = true →
  lower_byte c = c ∧ byte_is 196 c = false ∧ byte_is 226 c = false.
Proof.
  unfold is_low, lower_byte, byte_is. intros H. bool_inv.
  match goal with Hu : is_upper c = false |- _ => rewrite Hu end.
  match goal with Hl : (_ <? _)%nat = true |- _ => apply Nat.ltb_lt in Hl end.
  split_and!; [done| |]; apply Nat.eqb_neq; lia.
Qed.

Lemma ToLower_low s : all_bytes is_low s = true → ToLower s = s.
Proof.
  unfold ToLower. induction s as [|c s IH]; [done|]. intros H. cbn [all_bytes] in H. bool_inv.
  destruct (is_low_spec c) as (Hc & H1 & H2); [done|].
  cbn [lower_go]. rewrite H1, H2, Hc. simpl.
  destruct s as [|b [|d s]]; rewrite ?IH by done; done.
Qed.

(** ** Splitting and joining on a byte *)

Lemma split_byte_free c s : byte_free c s = true → split_byte c s = [s].
Proof.
  induction s as [|d s IH]; [done|]. unfold byte_free. cbn [all_bytes]. intros H. bool_inv.
  cbn [split_byte]. match goal with Hd : Ascii.eqb d c = false |- _ => rewrite Hd end.
  by rewrite IH.
Qed.

Lemma split_byte_app c s t :
  byte_free c s = true → split_byte c (s +:+ String c t) = s :: split_byte c t.
Proof.
  induction s as [|d s IH]; [by cbn; rewrite Ascii.eqb_refl|].
  unfold byte_free. cbn [all_bytes]. intros H. bool_inv.
  cbn [split_byte String.append]. match goal with Hd : Ascii.eqb d c = false |- _ => rewrite Hd end.
  by rewrite IH.
Qed.

Lemma split_byte_nonempty c s : split_byte c s ≠ [].
Proof. destruct s as [|d s]; simpl; [done|]. by repeat case_match. Qed.

Lemma split_byte_all_free c s l : l ∈ split_byte c s → byte_free c l = true.
Proof.
  revert l. induction s as [|d s IH]; intros l Hl; simpl in Hl.
  - apply list_elem_of_singleton in Hl as ->. done.
  - destruct (Ascii.eqb d c) eqn:E.
    + apply elem_of_cons in Hl as [->|Hl]; [done|auto].
    + destruct (split_byte c s) as [|x xs] eqn:Es; [by destruct (split_byte_nonempty c s)|].
      apply elem_of_cons in Hl as [->|Hl].
      * unfold byte_free. cbn [all_bytes]. rewrite E. apply IH. by left.
      * apply IH. by right.
Qed.

Lemma split_join c l :
  l ≠ [] → (∀ x, x ∈ l → byte_free c x = true) → split_byte c (Join l (String c "")) = l.
Proof.
  induction l as [|x l IH]; [done|]. intros _ Hf.
  destruct l as [|y l].
  - simpl. apply split_byte_free, Hf. by left.
  - change (Join (x :: y :: l) (String c "")) with (x +:+ String c (Join (y :: l) (String c ""))).
    rewrite split_byte_app by (apply Hf; by left). f_equal.
    apply IH; [done|]. intros z Hz. apply Hf. by right.
Qed.

Lemma join_split c s : Join (split_byte c s) (String c "") = s.
Proof.
  induction s as [|d s IH]; [done|]. cbn [split_byte].
  destruct (split_byte c s) as [|x xs] eqn:Es; [by destruct (split_byte_nonempty c s)|].
  destruct (Ascii.eqb_spec d c) as [->|].
  - change (Join ("" :: x :: xs) (String c "")) with (String c (Join (x :: xs) (String c ""))).
    by rewrite IH.
  - rewrite <- IH. by destruct xs.
Qed.

(** Lists of texts free of the separator are determined by their join. *)
Lemma join_inj c l1 l2 :
  l1 ≠ [] → l2 ≠ [] → (∀ x, x ∈ l1 → byte_free c x = true) → (∀ x, x ∈ l2 → byte_free c x = true) →
  Join l1 (String c "") = Join l2 (String c "") → l1 = l2.
Proof. intros N1 N2 H1 H2 E. by rewrite <- (split_join c l1), <- (split_join c l2), E. Qed.

(** ** Removing a byte *)

Lemma prefix_nil s : String.prefix "" s = true.
Proof. by destruct s. Qed.

Lemma ReplaceAll_byte_free c s : byte_free c (ReplaceAll s (String c "") "") = true.
Proof.
  unfold ReplaceAll. induction s as [|d s IH]; [done|]. cbn [replace_go].
  unfold HasPrefix. simpl. rewrite prefix_nil.
  destruct (ascii_dec c d) as [->|Hne]; simpl; [apply IH|].
  unfold byte_free. cbn [all_bytes]. rewrite (proj2 (Ascii.eqb_neq d c)) by done. apply IH.
Qed.

Lemma ReplaceAll_free_id c s : byte_free c s = true → ReplaceAll s (String c "") "" = s.
Proof.
  unfold ReplaceAll, byte_free. induction s as [|d s IH]; [done|].
  cbn [all_bytes replace_go]. intros H. bool_inv. unfold HasPrefix. simpl. rewrite prefix_nil.
  destruct (ascii_dec c d) as [->|Hne]; [by rewrite Ascii.eqb_refl in *|]. by rewrite IH.
Qed.

Lemma Join_byte_free c sep l :
  byte_free c sep = true → (∀ x, x ∈ l → byte_free c x = true) → byte_free c (Join l sep) = true.
Proof.
  intros Hs. induction l as [|x l IH]; [done|]. intros Hf. destruct l as [|y l].
  - simpl. apply Hf. by left.
  - change (Join (x :: y :: l) sep) with (x +:+ sep +:+ Join (y :: l) sep).
    rewrite !byte_free_app, Hs, Hf by (by left). simpl. apply IH. intros z Hz. apply Hf. by right.
Qed.

Lemma Join_byte_free_inv c sep l x :
  byte_free c (Join l sep) = true → x ∈ l → byte_free c x = true.
Proof.
  revert x. induction l as [|y l IH]; intros x Hj Hx; [by apply elem_of_nil in Hx|].
  destruct l as [|z l].
  - apply list_elem_of_singleton in Hx as ->. done.
  - change (Join (y :: z :: l) sep) with (y +:+ sep +:+ Join (z :: l) sep) in Hj.
    rewrite !byte_free_app in Hj. bool_inv. apply elem_of_cons in Hx as [->|Hx]; [done|auto].
Qed.

(** ** Base64 round trip *)

Lemma b64_value_digit n : (n < 64)%nat → b64_value true (b64_digit true n) = Some n.
Proof. intros H. do 64 (destruct n as [|n]; [reflexivity|]). lia. Qed.

Lemma b64_digit_graph n : (n < 64)%nat → is_graph (b64_digit true n) = true.
Proof. intros H. do 64 (destruct n as [|n]; [reflexivity|]). lia. Qed.

(** The quotient and remainder of a byte, as facts [lia] can use. *)
Ltac byte_arith c :=
  pose proof (byte_nat_bound c);
  pose proof (Nat.div_mod_eq (byte_nat c) 4); pose proof (Nat.mod_upper_bound (byte_nat c) 4);
  pose proof (Nat.div_mod_eq (byte_nat c) 16); pose proof (Nat.mod_upper_bound (byte_nat c) 16);
  pose proof (Nat.div_mod_eq (byte_nat c) 64); pose proof (Nat.mod_upper_bound (byte_nat c) 64).

Lemma divmod_mul_add k q r : (r < k)%nat → (k * q + r) / k = q ∧ (k * q + r) mod k = r.
Proof.
  intros Hr. pose proof (Nat.div_unique (k * q + r) k q r Hr eq_refl).
  pose proof (Nat.mod_unique (k * q + r) k q r Hr eq_refl). by split.
Qed.

Lemma b64_pieces a b c :
  byte_of (4 * (byte_nat a / 4) + (16 * (byte_nat a mod 4) + byte_nat b / 16) / 16) = a ∧
  byte_of (16 * ((16 * (byte_nat a mod 4) + byte_nat b / 16) mod 16) +
           (4 * (byte_nat b mod 16) + byte_nat c / 64) / 4) = b ∧
  byte_of (64 * ((4 * (byte_nat b mod 16) + byte_nat c / 64) mod 4) + byte_nat c mod 64) = c.
Proof.
  byte_arith a. byte_arith b. byte_arith c.
  destruct (divmod_mul_add 16 (byte_nat a mod 4) (byte_nat b / 16)) as [-> ->]; [lia|].
  destruct (divmod_mul_add 4 (byte_nat b mod 16) (byte_nat c / 64)) as [-> ->]; [lia|].
  rewrite <- !Nat.div_mod_eq. by rewrite !byte_of_nat.
Qed.

Lemma b64_pieces_2 a b :
  byte_of (4 * (byte_nat a / 4) + (16 * (byte_nat a mod 4) + byte_nat b / 16) / 16) = a ∧
  byte_of (16 * ((16 * (byte_nat a mod 4) + byte_nat b / 16) mod 16) + 4 * (byte_nat b mod 16) / 4) = b.
Proof.
  destruct (b64_pieces a b (byte_of 0)) as (Ha & Hb & _).
  change (byte_nat (byte_of 0) / 64) with 0 in Hb. rewrite Nat.add_0_r in Hb. by split.
Qed.

Lemma b64_pieces_1 a :
  byte_of (4 * (byte_nat a / 4) + 16 * (byte_nat a mod 4) / 16) = a.
Proof.
  destruct (b64_pieces_2 a (byte_of 0)) as (Ha & _).
  change (byte_nat (byte_of 0) / 16) with 0 in Ha. by rewrite Nat.add_0_r in Ha.
Qed.

(** Induction three bytes at a time. *)
Lemma string_ind3 (P : string → Prop) :
  P "" → (∀ a, P (String a "")) → (∀ a b, P (String a (String b ""))) →
  (∀ a b c s, P s → P (String a (String b (String c s)))) → ∀ s, P s.
Proof.
  intros H0 H1 H2 H3.
  assert (∀ n s, (String.length s ≤ n)%nat → P s) as Hn; [|intros s; by apply (Hn (String.length s))].
  intros n. induction n as [|n IH]; intros [|a [|b [|c s]]] Hl; simpl in Hl; auto; try lia.
  apply H3, IH. lia.
Qed.

Lemma b64_raw_encode s : b64_raw (RawURLEncoding_EncodeToString s) = Some s.
Proof.
  induction s as [|a|a b|a b c s IH] using string_ind3; [done| | |];
    cbn [RawURLEncoding_EncodeToString b64_raw].
  - byte_arith a. rewrite !b64_value_digit by lia. cbn [mbind option_bind]. unfold b64_1. by rewrite b64_pieces_1.
  - byte_arith a. byte_arith b. rewrite !b64_value_digit by lia. cbn [mbind option_bind]. unfold b64_2.
    destruct (b64_pieces_2 a b) as [-> ->]. done.
  - byte_arith a. byte_arith b. byte_arith c. rewrite !b64_value_digit by lia. cbn [mbind option_bind].
    rewrite IH. cbn [mbind option_bind]. unfold b64_3.
    destruct (b64_pieces a b c) as (-> & -> & ->). done.
Qed.

Lemma b64_encode_graph s : all_bytes is_graph (RawURLEncoding_EncodeToString s) = true.
Proof.
  induction s as [|a|a b|a b c s IH] using string_ind3; [done| | |];
    cbn [RawURLEncoding_EncodeToString all_bytes]; byte_arith a; [..|byte_arith b|byte_arith b; byte_arith c];
    rewrite !b64_digit_graph by lia; done.
Qed.

Lemma drop_breaks_graph s : all_bytes is_graph s = true → drop_breaks s = s.
Proof.
  induction s as [|c s IH]; [done|]. cbn [all_bytes drop_breaks]. intros H. bool_inv.
  unfold is_graph, in_range in *. bool_inv.
  repeat match goal with Hl : (_ <=? _)%nat = true |- _ => apply Nat.leb_le in Hl end.
  unfold byte_is. rewrite !(proj2 (Nat.eqb_neq (byte_nat c) _)) by lia. simpl. by rewrite IH.
Qed.

Lemma RawURL_roundtrip s : RawURLEncoding_DecodeString (RawURLEncoding_EncodeToString s) = Some s.
Proof.
  unfold RawURLEncoding_DecodeString. rewrite drop_breaks_graph by apply b64_encode_graph.
  apply b64_raw_encode.
Qed.

Lemma RawURL_inj s t : RawURLEncoding_EncodeToString s = RawURLEncoding_EncodeToString t → s = t.
Proof. intros H%(f_equal RawURLEncoding_DecodeString). rewrite !RawURL_roundtrip in H. by simplify_eq. Qed.

(** A text of visible ASCII has no line feed. *)
Lemma graph_byte_free s : all_bytes is_graph s = true → byte_free (byte_of 10) s = true.
Proof.
  apply all_bytes_impl. intros c H. unfold is_graph, in_range in H. bool_inv.
  apply negb_true_iff, Ascii.eqb_neq. intros ->. discriminate.
Qed.

(** ** Decimal numbers: [strconv.FormatInt(n, 10)] *)

Definition FormatInt (n : Z) : string := pretty n.

Lemma FormatInt_inj n m : FormatInt n = FormatInt m → n = m.
Proof. apply pretty_Z_inj. Qed.

Lemma pretty_N_char_graph n : is_graph (pretty_N_char n) = true.
Proof. destruct n as [|p]; [done|]. by do 4 (destruct p as [p|p|]; try done). Qed.

Lemma pretty_N_graph x s : all_bytes is_graph s = true → all_bytes is_graph (pretty_N_go x s) = true.
Proof.
  revert s. induction (N.lt_wf_0 x) as [x _ IH]. intros s Hs.
  destruct (decide (0 < x)%N) as [Hx|Hx].
  - rewrite pretty_N_go_step by done. apply IH; [by apply N.div_lt|].
    cbn [all_bytes]. by rewrite Hs, pretty_N_char_graph.
  - assert (x = 0%N) as -> by lia. by rewrite pretty_N_go_0.
Qed.

Lemma pretty_graph (x : N) : all_bytes is_graph (pretty x) = true.
Proof.
  unfold pretty, pretty_N. destruct (decide (x = 0%N)); [done|]. by apply pretty_N_graph.
Qed.

Lemma FormatInt_graph n : all_bytes is_graph (FormatInt n) = true.
Proof.
  unfold FormatInt. destruct n as [|p|p]; [done|apply (pretty_graph (Npos p))|].
  change (pretty (Zneg p)) with ("-" +:+ pretty (Npos p)).
  unfold is_graph. rewrite all_bytes_app. apply pretty_graph.
Qed.

Lemma pretty_N_char_digit n : (n < 10)%N → is_digit (pretty_N_char n) = true ∧ byte_nat (pretty_N_char n) = 48 + N.to_nat n.
Proof. intros Hn. destruct n as [|p]; [done|]. by do 4 (destruct p as [p|p|]; try done). Qed.

(** The digits of a number are read back, in front of whatever follows. *)
Lemma digits_go_pretty x : ∀ s,
  all_bytes is_digit s = true →
  all_bytes is_digit (pretty_N_go x s) = true ∧ digits_go 0 (pretty_N_go x s) = digits_go (Z.of_N x) s.
Proof.
  induction (N.lt_wf_0 x) as [x _ IH]. intros s Hs. destruct (decide (0 < x)%N) as [Hx|Hx].
  - rewrite pretty_N_go_step by done.
    assert (x `mod` 10 < 10)%N as Hm by (by apply N.mod_lt). destruct (pretty_N_char_digit _ Hm) as [Hd Hv].
    destruct (IH (x / 10)%N ltac:(by apply N.div_lt) (String (pretty_N_char (x `mod` 10)) s)) as [Ha Hg];
      [cbn [all_bytes]; by rewrite Hd, Hs|].
    split; [done|]. rewrite Hg. cbn [digits_go]. rewrite Hv. f_equal.
    pose proof (N.div_mod x 10 ltac:(done)). lia.
  - assert (x = 0%N) as -> by lia. by rewrite pretty_N_go_0.
Qed.

(** A positive number of 63 bits is read back. *)
Lemma ParseInt_FormatInt n : (0 < n < 2 ^ 63)%Z → ParseInt (FormatInt n) = Some n.
Proof.
  intros Hn. destruct n as [|p|p]; [lia| |lia]. unfold FormatInt. change (pretty (Zpos p)) with (pretty_N_go (Npos p) "").
  destruct (digits_go_pretty (Npos p) "" eq_refl) as [Ha Hg]. cbn [digits_go] in Hg.
  destruct (pretty_N_go (Npos p) "") as [|c t]; [done|]. unfold ParseInt, digits_value.
  assert (is_digit c = true) as Hc by (cbn [all_bytes] in Ha; by bool_inv).
  rewrite (proj2 (Ascii.eqb_neq c "+")), (proj2 (Ascii.eqb_neq c "-")) by (intros ->; done).
  rewrite Ha. cbn [String.eqb negb orb]. rewrite Hg. cbn [mbind option_bind].
  rewrite (proj2 (Z.leb_gt _ _)) by lia. done.
Qed.

Lemma hex_digit_graph n : (n < 16)%nat → is_graph (hex_digit n) = true.
Proof. intros H. do 16 (destruct n as [|n]; [reflexivity|]). lia. Qed.

Lemma hex_encode_graph s : all_bytes is_graph (hex_encode s) = true.
Proof.
  induction s as [|c s IH]; [done|]. cbn [hex_encode all_bytes]. byte_arith c.
  rewrite !hex_digit_graph; [done|lia|]. lia.
Qed.

#[export] Hint Resolve FormatInt_graph hex_encode_graph b64_encode_graph graph_byte_free : aegis.

(** A common suffix can be dropped. *)
Lemma app_inv_tail_s (a b c : string) : a +:+ c = b +:+ c → a = b.
Proof.
  intros Hab. assert (String.length a = String.length b) as Hl
    by (apply (f_equal String.length) in Hab; rewrite !length_app_s in Hab; lia).
  revert b Hab Hl. induction a as [|x a IH]; intros [|y b]; simpl; try done; intros; simplify_eq; f_equal; auto.
Qed.

(** ** [TrimSpace] is idempotent *)

Lemma ws_prefix_length s : ws_prefix s ≤ String.length s.
Proof.
  destruct s as [|a [|b [|c s]]]; simpl; [lia|..]; repeat case_match; simpl; lia.
Qed.

(** The white space a text starts with is seen in any extension of it. *)
Lemma ws_prefix_app s u : ws_prefix s ≠ 0 → ws_prefix (s +:+ u) = ws_prefix s.
Proof.
  destruct s as [|a [|b [|c s]]]; [done|..]; cbn [String.append ws_prefix]; intros H.
  - destruct (in_range 9 13 a || byte_is 32 a); done.
  - destruct (in_range 9 13 a || byte_is 32 a); [done|].
    destruct (byte_is 194 a && (byte_is 133 b || byte_is 160 b)); done.
  - done.
Qed.

Lemma trim_left_go_app u s : ∀ k,
  k ≤ String.length s → trim_left_go k s = "" → trim_left_go k (s +:+ u) = trim_left_go 0 u.
Proof.
  induction s as [|c s IH]; intros k Hk; cbn [String.length] in Hk.
  - by assert (k = 0) as -> by lia.
  - destruct k as [|k]; cbn [String.append trim_left_go]; [|intros H; apply IH; [lia|done]].
    pose proof (ws_prefix_length (String c s)) as Hl. cbn [String.length] in Hl.
    pose proof (ws_prefix_app (String c s) u) as Ha. cbn [String.append] in Ha.
    destruct (ws_prefix (String c s)) as [|m]; [done|]. rewrite Ha by done. intros H. apply IH; [lia|done].
Qed.

Lemma all_space_app s u : all_space s = true → all_space u = true → all_space (s +:+ u) = true.
Proof.
  unfold all_space, trim_left. rewrite !String.eqb_eq. intros Hs Hu.
  rewrite trim_left_go_app by (lia || done). done.
Qed.

Lemma trim_right_split s : ∃ u, s = trim_right s +:+ u ∧ all_space u = true.
Proof.
  induction s as [|c s (u & IH & Hu)]; [by exists ""|]. cbn [trim_right].
  destruct (all_space (String c s)) eqn:E; [by exists (String c s)|].
  exists u. split; [|done]. cbn [String.append]. by rewrite <- IH.
Qed.

Lemma trim_right_idem s : trim_right (trim_right s) = trim_right s.
Proof.
  induction s as [|c s IH]; [done|]. cbn [trim_right].
  destruct (all_space (String c s)) eqn:E; [done|]. cbn [trim_right].
  destruct (all_space (String c (trim_right s))) eqn:E2; [|by rewrite IH].
  destruct (trim_right_split s) as (u & Hs & Hu).
  pose proof (all_space_app _ _ E2 Hu) as H3. cbn [String.append] in H3. rewrite <- Hs in H3. congruence.
Qed.

(** [trim_left] stops at a text that does not start with white space. *)
Lemma trim_left_go_fixed s : ∀ k, ws_prefix (trim_left_go k s) = 0.
Proof.
  induction s as [|c s IH]; intros k; [done|]. cbn [trim_left_go]. destruct k as [|k]; [|apply IH].
  destruct (ws_prefix (String c s)) as [|m] eqn:E; [done|apply IH].
Qed.

Lemma TrimSpace_idem s : TrimSpace (TrimSpace s) = TrimSpace s.
Proof.
  unfold TrimSpace. set (l := trim_left s).
  assert (trim_left (trim_right l) = trim_right l) as ->; [|apply trim_right_idem].
  destruct (trim_right_split l) as (u & Hl & _).
  assert (ws_prefix l = 0) as Hw by apply trim_left_go_fixed.
  destruct (trim_right l) as [|c r] eqn:E; [done|]. unfold trim_left. cbn [trim_left_go].
  destruct (ws_prefix (String c r)) as [|m] eqn:Em; [done|].
  pose proof (ws_prefix_app (String c r) u) as Ha. rewrite <- Hl, Hw, Em in Ha. by specialize (Ha ltac:(done)).
Qed.
