(* ===== verification/Artifact.v ===== *)
(** * Verified boot artifacts (internal/artifact)

    SHA-256 is an operation of [Crypto], the interface to Go's crypto packages
    that the components using them share. *)

From S2P Require Import Prelude GoStrings Fault Encoding.

(** ** The interface to crypto/sha256, crypto/hmac and crypto/rsa

    [pem_Decode] gives the type, the bytes and the rest of the first PEM block;
    [ParsePKIXPublicKey] the public key of a DER block, [None] inside when it is
    not an RSA key; [rsa_verify] is [rsa.VerifyPKCS1v15] on a SHA-256 digest;
    [rsa_encrypt key random message label] is [rsa.EncryptOAEP] with SHA-256. *)
Record rsa_PublicKey := mkRSA { rsa_N : Z; rsa_E : Z }.

Class Crypto := {
  sha256 : string → string;
  hmac_sha256 : string → string → string;
  pem_Decode : string → option (string * string * string);
  ParsePKIXPublicKey : string → option (option rsa_PublicKey);
  rsa_verify : rsa_PublicKey → string → string → bool;
  rsa_encrypt : rsa_PublicKey → string → string → string → option string;
}.

(** The documented sizes of the digests. *)
Class CryptoLaws (C : Crypto) := {
  sha256_length m : String.length (sha256 m) = 32;
  hmac_length k m : String.length (hmac_sha256 k m) = 32;
}.

(** A concrete instance, on which the theorems are evaluated: digests are
    padded prefixes, a PEM text is its own block and holds one fixed key, the
    signature of a digest is the digest, and the ciphertext is the message. *)
Definition sample_digest (m : string) : string :=
  String.substring 0 32 (m +:+ "................................").

Definition sample_key : rsa_PublicKey := mkRSA (2 ^ 2047)%Z 65537.

Definition sample_crypto : Crypto := {|
  sha256 := sample_digest;
  hmac_sha256 k m := sample_digest (m +:+ k);
  pem_Decode s := Some ("PUBLIC KEY", s, "");
  ParsePKIXPublicKey _ := Some (Some sample_key);
  rsa_verify _ d s := (d =? s)%string;
  rsa_encrypt _ _ m _ := Some m;
|}.

Lemma sample_digest_length m : String.length (sample_digest m) = 32.
Proof.
  unfold sample_digest.
  do 32 (destruct m as [|? m]; [reflexivity|]). cbn. do 32 f_equal. by destruct m.
Qed.

Lemma sample_crypto_laws : CryptoLaws sample_crypto.
Proof. split; intros; apply sample_digest_length. Qed.

(* internal/artifact/model.go:14-22 Descriptor *)
Record Descriptor := mkDescriptor {
  ID : string;
  Name : string;
  SourceURL : string;
  Version : string;
  Digest : string;
  Size : Z;
  Provenance : string }.

(* internal/artifact/model.go:24-27 Verified *)
Record Verified := mkVerified { v_Descriptor : Descriptor; v_Content : string }.

(* internal/artifact/model.go:75-86 ValidSHA256 *)
Definition ValidSHA256 (value : string) : bool :=
  if negb (HasPrefix value "sha256:") then false
  else
    let raw := TrimPrefix value "sha256:" in
    if negb (String.length raw =? 64)%nat || negb (ToLower raw =? raw)%string then false
    else match hex_decode raw with Some _ => true | None => false end.

(** The required fields; Go ranges over them in an unspecified order. *)
Definition required_fields (l : list (string * string)) : result unit :=
  check_all (λ f : string * string, fail_if (TrimSpace f.2 =? "")%string (Plain (f.1 +:+ " is required"))) l.

(** Scheme, host and user of the source URL. *)
Definition source_url_ok (raw : string) : bool :=
  match url_Parse raw with
  | None => false
  | Some u => (Scheme u =? "https")%string && negb (Host u =? "")%string && negb (has_User u)
  end.

(* internal/artifact/model.go:29-55 Descriptor.Validate *)
Definition Validate (d : Descriptor) : result unit :=
  _ ← required_fields
        [("artifact ID", ID d); ("artifact name", Name d); ("artifact source URL", SourceURL d);
         ("artifact version", Version d); ("artifact provenance", Provenance d)];
  _ ← fail_if ((128 <? len (ID d))%Z || (128 <? len (Name d))%Z || (128 <? len (Version d))%Z
               || (256 <? len (Provenance d))%Z || (2048 <? len (SourceURL d))%Z)
        (Plain "artifact metadata exceeds size limit");
  _ ← fail_if (negb (source_url_ok (SourceURL d)))
        (Plain "artifact source URL must be an absolute HTTPS URL without user info");
  _ ← fail_if (negb (ValidSHA256 (Digest d))) (Plain "artifact digest must be canonical sha256");
  fail_if (Size d <=? 0)%Z (Plain "artifact size must be positive").

Section Content.
Context `{Crypto}.

(* internal/artifact/model.go:70-73 SHA256 *)
Definition SHA256 (content : string) : string := "sha256:" +:+ hex_encode (sha256 content).

Definition ErrIntegrityMismatch : error := Plain "artifact integrity mismatch".

(* internal/artifact/model.go:57-68 VerifyContent *)
Definition VerifyContent (d : Descriptor) (content : string) : result unit :=
  _ ← Validate d;
  _ ← fail_if (negb (len content =? Size d)%Z) (Wrapped "size mismatch" ErrIntegrityMismatch);
  fail_if (negb (SHA256 content =? Digest d)%string) (Wrapped "sha256 mismatch" ErrIntegrityMismatch).

(* internal/artifact/loader.go:18-18 maxServedArtifactBytes *)
Definition maxServedArtifactBytes : Z := Z.shiftl 256 20.

(** The HTTP exchange of [Load] is the argument [fetch]: the outcome of
    [client.Do] on the descriptor's URL (redirects followed under the client's
    policy), as the status code and the body; the body is read up to [Size+1]
    bytes.  The logger is always configured. *)
(* internal/artifact/loader.go:36-102 HTTPLoader.Load *)
Definition Load (fetch : string → result (Z * result string)) (d : Descriptor)
    (requestID installationID : string) : result string :=
  _ ← fail_if (blank requestID || blank installationID)
        (New ArtifactFetchFailed "artifact load correlation identifiers are required" None);
  _ ← or_fail (Validate d) (λ e, New ArtifactFetchFailed "artifact descriptor is invalid" (Some e));
  _ ← fail_if (maxServedArtifactBytes <? Size d)%Z
        (New ArtifactFetchFailed "artifact exceeds serving size limit" None);
  resp ← or_fail (fetch (SourceURL d)) (λ e, New ArtifactFetchFailed "could not fetch pinned artifact" (Some e));
  _ ← fail_if (negb (resp.1 =? 200)%Z)
        (New ArtifactFetchFailed "pinned artifact source returned an unexpected HTTP status" (Some (Plain "unexpected HTTP status")));
  body ← or_fail resp.2 (λ e, New ArtifactFetchFailed "could not read pinned artifact" (Some e));
  let content := String.substring 0 (Z.to_nat (Size d + 1)) body in
  _ ← fail_if (negb (len content =? Size d)%Z)
        (New ArtifactHashMismatch "artifact size does not match pinned descriptor" None);
  _ ← or_fail (VerifyContent d content)
        (λ e, New ArtifactHashMismatch "artifact content does not match pinned digest" (Some e));
  Ok content.

(** ** Lemmas *)

Lemma VerifyContent_Ok d content u :
  VerifyContent d content = Ok u ↔
  Validate d = Ok tt ∧ len content = Size d ∧ SHA256 content = Digest d.
Proof.
  destruct u. unfold VerifyContent. split.
  - intros Hv. ok_inv. bool_inv.
    done.
  - intros (-> & -> & ->). by rewrite Z.eqb_refl, String.eqb_refl.
Qed.

Lemma substring_prefix n s : String.prefix (String.substring 0 n s) s = true.
Proof.
  revert n. induction s as [|c s IH]; intros [|n]; simpl; try done.
  destruct (ascii_dec c c); [apply IH|done].
Qed.

(** ** Property *)

(** C36. Whatever the origin answers, a loaded artifact is the pinned one: the
    descriptor is valid, the content is the beginning of the body the pinned
    URL served with status 200, and it has exactly the pinned size (at most
    256 MiB) and the pinned SHA-256 digest. *)
Theorem Load_serves_pinned_content fetch d requestID installationID content :
  Load fetch d requestID installationID = Ok content →
  Validate d = Ok tt ∧ len content = Size d ∧ (Size d ≤ 268435456)%Z ∧ SHA256 content = Digest d ∧
  ∃ body, fetch (SourceURL d) = Ok (200%Z, Ok body) ∧ HasPrefix body content = true.
Proof.
  unfold Load. intros H0. ok_inv. bool_inv.
  match goal with Hv : VerifyContent _ _ = _ |- _ => apply VerifyContent_Ok in Hv as (_ & Hl & Hd) end.
  match goal with Hf : fetch _ = Ok ?r, Hb : ?r.2 = Ok ?b |- _ =>
    destruct r as [st bd]; simpl in *; subst st bd; rename b into body
  end.
  split_and!; try done.
  exists body. split; [done|]. apply substring_prefix.
Qed.
End Content.

Definition sample_content : string := "linux".
Definition sample_pinned : Descriptor :=
  mkDescriptor "kernel-1" "kernel" "https://deb.example/linux" "13.1" (@SHA256 sample_crypto sample_content) 5 "manifest".

(** An origin that serves one byte too many is refused; the pinned content is
    loaded. *)
Lemma Load_serves_pinned_content_witness :
  is_ok (@Load sample_crypto (λ _, Ok (200%Z, Ok "linux!")) sample_pinned "req-1" "i_1") = false ∧
  @SHA256 sample_crypto sample_content = Digest sample_pinned.
Proof.
  split; [by vm_compute|].
  assert (@Load sample_crypto (λ _, Ok (200%Z, Ok sample_content)) sample_pinned "req-1" "i_1" = Ok sample_content) as Hl
    by (vm_compute; reflexivity).
  pose proof (@Load_serves_pinned_content sample_crypto _ _ _ _ _ Hl) as (_ & _ & _ & Hd & _). exact Hd.
Defined.
