(* ===== verification/Installation.v ===== *)
(** * Installation specifications (internal/profile, internal/installation)

    The immutable specification of one installation attempt: the resolved
    profile snapshot, the pinned artifacts and the storage and security
    settings, with their validation. *)

From S2P Require Import Prelude GoStrings Regex Fault Encoding Artifact.

(** ** Profiles *)

(* internal/profile/model.go:10-10 SchemaVersion *)
Definition SchemaVersion : Z := 1.

Definition lower_digit : regex := Chr (λ c, is_lower c || is_digit c).

(** [^[a-z0-9](?:[a-z0-9-]{0,61}[a-z0-9])?$] *)
(* internal/profile/model.go:13-13 hostnamePattern *)
Definition hostnamePattern : regex :=
  Cat lower_digit (Opt (Cat (UpTo 61 (lower_digit_or "-")) lower_digit)).
(** [^[a-z_][a-z0-9_-]{0,31}$] *)
(* internal/profile/model.go:14-14 usernamePattern *)
Definition usernamePattern : regex :=
  Cat (Chr (λ c, is_lower c || Ascii.eqb c "_")) (UpTo 31 (lower_digit_or "_-")).
(** [^[A-Za-z0-9_.@-]{1,64}$] *)
(* internal/profile/model.go:15-15 localePattern *)
Definition localePattern : regex := Cat (alnum_or "_.@-") (UpTo 63 (alnum_or "_.@-")).
(** [^[A-Za-z0-9_.+-]{1,64}$] *)
(* internal/profile/model.go:16-16 keymapPattern *)
Definition keymapPattern : regex := Cat (alnum_or "_.+-") (UpTo 63 (alnum_or "_.+-")).
(** [^[A-Za-z0-9_+.-]+(?:/[A-Za-z0-9_+.-]+)*$] *)
(* internal/profile/model.go:17-17 timezonePattern *)
Definition timezonePattern : regex :=
  Cat (Plus (alnum_or "_+.-")) (Star (Cat (Lit "/") (Plus (alnum_or "_+.-")))).
(** [^[a-z0-9][a-z0-9+.-]{0,127}$] *)
(* internal/profile/model.go:18-18 packagePattern *)
Definition packagePattern : regex := Cat lower_digit (UpTo 127 (lower_digit_or "+.-")).

(* internal/profile/model.go:31-36 Admin *)
Record Admin := mkAdmin {
  Username : string;
  FullName : string;
  AuthorizedSSHKeys : list string;
  PasswordlessSudo : bool }.

(* internal/profile/model.go:21-29 Snapshot *)
Record Snapshot := mkSnapshot {
  snap_SchemaVersion : Z;
  Hostname : string;
  Locale : string;
  Keyboard : string;
  Timezone : string;
  snap_Admin : Admin;
  Packages : list string }.

Definition crlf : string := String (byte_of 13) nl.

Definition ssh_key_types : list string :=
  ["ssh-ed25519"; "ssh-rsa"; "ecdsa-sha2-nistp256"; "ecdsa-sha2-nistp384"; "ecdsa-sha2-nistp521";
   "sk-ssh-ed25519@openssh.com"; "sk-ecdsa-sha2-nistp256@openssh.com"].

(* internal/profile/model.go:91-109 validateAuthorizedKey *)
Definition validateAuthorizedKey (value : string) : result unit :=
  _ ← fail_if ((len value =? 0)%Z || (8192 <? len value)%Z || ContainsAny value crlf)
        (Plain "profile SSH public key is invalid");
  match Fields value with
  | kind :: payload :: _ =>
    _ ← fail_if (negb (bool_decide (kind ∈ ssh_key_types))) (Plain "profile SSH public key type is unsupported");
    match StdEncoding_DecodeString payload with
    | None => Err (Plain "profile SSH public key payload is invalid")
    | Some raw => fail_if ((len raw <? 32)%Z || (16384 <? len raw)%Z)
                    (Plain "profile SSH public key payload is invalid")
    end
  | _ => Err (Plain "profile SSH public key is invalid")
  end.

(** The package loop: [seen] holds the names already read. *)
(* internal/profile/model.go:72-81 Snapshot.Validate *)
Fixpoint check_packages (seen : gset string) (l : list string) : result unit :=
  match l with
  | [] => Ok tt
  | name :: l =>
    _ ← fail_if (negb (re_match packagePattern name)) (Plain "profile package name is invalid");
    _ ← fail_if (bool_decide (name ∈ seen)) (Plain "profile contains duplicate package names");
    check_packages ({[name]} ∪ seen) l
  end.

(* internal/profile/model.go:38-82 Snapshot.Validate *)
Definition Snapshot_Validate (s : Snapshot) : result unit :=
  _ ← fail_if (negb (snap_SchemaVersion s =? SchemaVersion)%Z) (Plain "unsupported profile snapshot schema version");
  _ ← fail_if (negb (re_match hostnamePattern (Hostname s))) (Plain "profile hostname is invalid");
  _ ← fail_if (negb (re_match localePattern (Locale s))) (Plain "profile locale is invalid");
  _ ← fail_if (negb (re_match keymapPattern (Keyboard s))) (Plain "profile keyboard layout is invalid");
  _ ← fail_if ((128 <? len (Timezone s))%Z || negb (re_match timezonePattern (Timezone s)) || Contains (Timezone s) "..")
        (Plain "profile timezone is invalid");
  _ ← fail_if (negb (re_match usernamePattern (Username (snap_Admin s)))) (Plain "profile admin username is invalid");
  _ ← (let name := TrimSpace (FullName (snap_Admin s)) in
       fail_if ((name =? "")%string || (128 <? len name)%Z || ContainsAny name crlf)
         (Plain "profile admin full name is invalid"));
  let keys := AuthorizedSSHKeys (snap_Admin s) in
  _ ← fail_if ((length keys =? 0)%nat || (8 <? length keys)%nat)
        (Plain "profile requires between one and eight SSH public keys");
  _ ← check_all validateAuthorizedKey keys;
  _ ← fail_if (64 <? length (Packages s))%nat (Plain "profile requests too many packages");
  check_packages ∅ (Packages s).

(** ** Specifications *)

(** [^/dev/(?:sd[a-z]|vd[a-z]|xvd[a-z]|nvme[0-9]+n[0-9]+|mmcblk[0-9]+)$] *)
(* internal/installation/model.go:14-14 targetDiskPattern *)
Definition targetDiskPattern : regex :=
  Cat (Lit "/dev/")
    (Alt (Cat (Lit "sd") (Chr is_lower)) (Alt (Cat (Lit "vd") (Chr is_lower))
      (Alt (Cat (Lit "xvd") (Chr is_lower))
        (Alt (Cat (Lit "nvme") (Cat (Plus (Chr is_digit)) (Cat (Lit "n") (Plus (Chr is_digit)))))
          (Cat (Lit "mmcblk") (Plus (Chr is_digit))))))).

(* internal/installation/model.go:18-24 Storage *)
Record Storage := mkStorage {
  Mode : string; Filesystem : string; TargetDisk : string; Encrypted : bool; TPM2 : bool }.

(* internal/installation/model.go:26-30 Security *)
Record Security := mkSecurity {
  SSHPasswordAuthentication : bool; RootLogin : bool; AutomaticSecurityUpdates : bool }.

(* internal/installation/model.go:32-48 Spec *)
Record Spec := mkSpec {
  spec_ID : string;
  MachineID : string;
  DriverID : string;
  DriverVersion : string;
  OSRelease : string;
  spec_Architecture : string;
  ProfileID : string;
  ProfileRevision : string;
  Profile : Snapshot;
  Artifacts : list Descriptor;
  spec_Storage : Storage;
  spec_Security : Security;
  LifecycleCredentialID : string;
  CreatedAt : time;
  CreatedBy : string }.

(* internal/installation/model.go:50-55 ValidateTargetDisk *)
Definition ValidateTargetDisk (value : string) : result unit :=
  fail_if (negb (re_match targetDiskPattern value))
    (Plain "storage target disk is invalid or refers to a partition").

(** The artifact loop: [seenIDs] and [seenNames] hold what was read. *)
(* internal/installation/model.go:88-102 Spec.Validate *)
Fixpoint check_artifacts (seenIDs seenNames : gset string) (l : list Descriptor) : result unit :=
  match l with
  | [] => Ok tt
  | item :: l =>
    _ ← or_fail (Artifact.Validate item) (Wrapped "invalid installation artifact");
    _ ← fail_if (bool_decide (ID item ∈ seenIDs)) (Plain "installation artifacts must have unique IDs");
    _ ← fail_if (bool_decide (Name item ∈ seenNames)) (Plain "installation artifacts must have unique names");
    check_artifacts ({[ID item]} ∪ seenIDs) ({[Name item]} ∪ seenNames) l
  end.

(* internal/installation/model.go:57-116 Spec.Validate *)
Definition Spec_Validate (s : Spec) : result unit :=
  _ ← required_fields
        [("machine ID", MachineID s); ("driver ID", DriverID s); ("driver version", DriverVersion s);
         ("OS release", OSRelease s); ("architecture", spec_Architecture s); ("profile ID", ProfileID s);
         ("profile revision", ProfileRevision s); ("lifecycle credential ID", LifecycleCredentialID s);
         ("created by", CreatedBy s)];
  _ ← fail_if ((64 <? len (DriverID s))%Z || (64 <? len (DriverVersion s))%Z || (64 <? len (OSRelease s))%Z
               || (64 <? len (spec_Architecture s))%Z)
        (Plain "installation target metadata exceeds size limit");
  _ ← fail_if ((128 <? len (ProfileID s))%Z || (128 <? len (ProfileRevision s))%Z
               || (128 <? len (LifecycleCredentialID s))%Z || (128 <? len (CreatedBy s))%Z)
        (Plain "installation metadata exceeds size limit");
  _ ← or_fail (Snapshot_Validate (Profile s)) (Wrapped "invalid profile snapshot");
  _ ← fail_if (length (Artifacts s) =? 0)%nat (Plain "at least one verified artifact is required");
  _ ← fail_if (16 <? length (Artifacts s))%nat (Plain "too many installation artifacts");
  _ ← check_artifacts ∅ ∅ (Artifacts s);
  let st := spec_Storage s in
  _ ← fail_if ((TrimSpace (Mode st) =? "")%string || (TrimSpace (Filesystem st) =? "")%string)
        (Plain "storage mode and filesystem are required");
  _ ← fail_if ((64 <? len (Mode st))%Z || (64 <? len (Filesystem st))%Z)
        (Plain "storage metadata exceeds size limit");
  _ ← ValidateTargetDisk (TargetDisk st);
  fail_if (TPM2 st && negb (Encrypted st)) (Plain "TPM2 enrollment requires encrypted storage").

(** ** Lemmas *)

Lemma check_packages_Ok seen l u :
  check_packages seen l = Ok u ↔
  NoDup l ∧ (∀ n, n ∈ l → n ∉ seen ∧ re_match packagePattern n = true).
Proof.
  destruct u. revert seen. induction l as [|x l IH]; intros seen; simpl.
  - split; [intros _; split; [constructor|]|done]. intros n Hn. by apply elem_of_nil in Hn.
  - split.
    + intros H. ok_inv. bool_inv. apply IH in H as [Hd Hall]. split.
      * constructor; [|done]. intros Hx. destruct (Hall _ Hx) as [Hs _]. set_solver.
      * intros n [->|Hn]%elem_of_cons; [done|]. destruct (Hall _ Hn). set_solver.
    + intros [Hd Hall]. apply NoDup_cons in Hd as [Hx Hd].
      destruct (Hall x) as [Hs Hp]; [by left|].
      rewrite Hp, bool_decide_false by done. simpl. apply IH. split; [done|].
      intros n Hn. destruct (Hall n) as [Hs' ?]; [by right|]. split; [|done].
      intros [->%elem_of_singleton|]%elem_of_union; done.
Qed.

Lemma check_artifacts_Ok si sn l u :
  check_artifacts si sn l = Ok u →
  NoDup (ID <$> l) ∧ NoDup (Name <$> l) ∧
  (∀ a, a ∈ l → Artifact.Validate a = Ok tt ∧ ID a ∉ si ∧ Name a ∉ sn).
Proof.
  revert si sn. induction l as [|x l IH]; intros si sn; simpl.
  - intros _. split_and!; [constructor|constructor|]. intros a Ha. by apply elem_of_nil in Ha.
  - intros H. ok_inv. bool_inv. apply IH in H as (Hi & Hn & Hall). split_and!.
    + apply NoDup_cons. split; [|done]. intros Hy. apply list_elem_of_fmap in Hy as (y & Hy & Hin).
      destruct (Hall _ Hin) as (_ & Hs & _). rewrite <- Hy in Hs. set_solver.
    + apply NoDup_cons. split; [|done]. intros Hy. apply list_elem_of_fmap in Hy as (y & Hy & Hin).
      destruct (Hall _ Hin) as (_ & _ & Hs). rewrite <- Hy in Hs. set_solver.
    + intros a [->|Ha]%elem_of_cons; [done|]. destruct (Hall _ Ha) as (? & ? & ?). set_solver.
Qed.

(** What a valid specification guarantees to the components that use it. *)
Record spec_ok (s : Spec) : Prop := {
  ok_profile : Snapshot_Validate (Profile s) = Ok tt;
  ok_artifacts : ∀ a, a ∈ Artifacts s → Artifact.Validate a = Ok tt;
  ok_ids : NoDup (ID <$> Artifacts s);
  ok_names : NoDup (Name <$> Artifacts s);
  ok_count : (1 ≤ length (Artifacts s)) ∧ (length (Artifacts s) ≤ 16);
  ok_disk : re_match targetDiskPattern (TargetDisk (spec_Storage s)) = true;
  ok_tpm : TPM2 (spec_Storage s) = true → Encrypted (spec_Storage s) = true;
  ok_machine : TrimSpace (MachineID s) ≠ "";
}.

Lemma Spec_Validate_ok s u : Spec_Validate s = Ok u → spec_ok s.
Proof.
  unfold Spec_Validate, ValidateTargetDisk. intros H0. ok_inv. bool_inv.
  match goal with Hc : check_artifacts _ _ _ = _ |- _ => apply check_artifacts_Ok in Hc as (? & ? & Hall) end.
  match goal with Hr : required_fields _ = _ |- _ => apply check_all_Ok with (x := ("machine ID", MachineID s)) in Hr; [|by left] end.
  ok_inv. bool_inv. constructor; try done.
  - intros a Ha. by apply Hall.
  - match goal with Hz : (length _ =? 0)%nat = false |- _ => apply Nat.eqb_neq in Hz end.
    match goal with Hz : (16 <? length _)%nat = false |- _ => apply Nat.ltb_ge in Hz end. lia.
  - intros Ht. rewrite Ht in *. destruct (Encrypted (spec_Storage s)); [done|].
    repeat match goal with Hz : _ ∨ _ |- _ => destruct Hz end; discriminate.
Qed.

(** The first artifact of a name. *)
Definition artifact_named (name : string) (l : list Descriptor) : option Descriptor :=
  snd <$> list_find (λ a, Name a = name) l.

Lemma NoDup_name_unique (l : list Descriptor) a b :
  NoDup (Name <$> l) → a ∈ l → b ∈ l → Name a = Name b → a = b.
Proof.
  induction l as [|x l IH]; intros Hd Ha Hb E; [by apply elem_of_nil in Ha|].
  apply NoDup_cons in Hd as [Hx Hd].
  apply elem_of_cons in Ha as [->|Ha], Hb as [->|Hb]; try done.
  - destruct Hx. rewrite E. by apply list_elem_of_fmap_2.
  - destruct Hx. rewrite <- E. by apply list_elem_of_fmap_2.
  - by apply IH.
Qed.

(** ** Property *)

(** A valid specification pins one descriptor per artifact role: it has
    between 1 and 16 valid artifacts with distinct identifiers and distinct
    names, its target is a whole disk, and TPM enrolment implies encryption. *)
Theorem Spec_Validate_sound s :
  Spec_Validate s = Ok tt →
  (1 ≤ length (Artifacts s)) ∧ (length (Artifacts s) ≤ 16) ∧
  (∀ a, a ∈ Artifacts s → Artifact.Validate a = Ok tt) ∧
  (∀ a b, a ∈ Artifacts s → b ∈ Artifacts s → Name a = Name b → a = b) ∧
  matches targetDiskPattern (TargetDisk (spec_Storage s)) ∧
  (TPM2 (spec_Storage s) = true → Encrypted (spec_Storage s) = true).
Proof.
  intros H. apply Spec_Validate_ok in H as [Hp Ha Hi Hn Hc Hd Ht Hm].
  split_and!; try done; [by apply Hc|by apply Hc| |by apply re_match_iff].
  intros a b. by apply NoDup_name_unique.
Qed.
