(* ===== verification/Assignment.v ===== *)
(** * Installation assignments (internal/assignment) *)

From S2P Require Import Prelude GoStrings Fault.

Abbreviation State := string (only parsing).

(* internal/assignment/model.go:12-12 StateArmed *)
Definition StateArmed : State := "armed".
(* internal/assignment/model.go:13-13 StateConsumed *)
Definition StateConsumed : State := "consumed".
(* internal/assignment/model.go:14-14 StateCancelled *)
Definition StateCancelled : State := "cancelled".
(* internal/assignment/model.go:17-17 TrustRequirementCryptographic *)
Definition TrustRequirementCryptographic : string := "cryptographic".

(* internal/assignment/model.go:19-29 Assignment *)
Record Assignment := mkAssignment {
  ID : string;
  MachineID : string;
  InstallationID : string;
  a_State : State;
  TrustRequirement : string;
  ArmedAt : time;
  ArmedBy : string;
  ConsumedAt : time;
  CancelledAt : time }.

(* internal/assignment/model.go:31-55 Assignment.Validate *)
Definition Validate (a : Assignment) : result unit :=
  _ ← fail_if ((TrimSpace (MachineID a) =? "")%string || (TrimSpace (InstallationID a) =? "")%string)
        (Plain "assignment machine and installation IDs are required");
  _ ← fail_if (negb (TrustRequirement a =? TrustRequirementCryptographic)%string)
        (Plain "assignment requires unsupported boot trust");
  if (a_State a =? StateArmed)%string then
    fail_if (IsZero (ArmedAt a) || (TrimSpace (ArmedBy a) =? "")%string
             || negb (IsZero (ConsumedAt a)) || negb (IsZero (CancelledAt a)))
      (Plain "armed assignment metadata is invalid")
  else if (a_State a =? StateConsumed)%string then
    fail_if (IsZero (ArmedAt a) || IsZero (ConsumedAt a) || negb (IsZero (CancelledAt a)))
      (Plain "consumed assignment metadata is invalid")
  else if (a_State a =? StateCancelled)%string then
    fail_if (IsZero (ArmedAt a) || IsZero (CancelledAt a) || negb (IsZero (ConsumedAt a)))
      (Plain "cancelled assignment metadata is invalid")
  else Err (Plain "assignment state is invalid").
