(* ===== verification/Boot.v ===== *)
(** * Boot decisions, the trust gate and boot specifications
    (internal/boot, internal/trust) *)

From S2P Require Import Prelude GoStrings Regex Fault Artifact.
From S2P Require Machine.

(* internal/boot/decision.go:8-8 ActionLocal *)
Definition ActionLocal : string := "local".
(* internal/boot/decision.go:9-9 ActionBlocked *)
Definition ActionBlocked : string := "blocked".
(* internal/boot/decision.go:10-10 ActionProvision *)
Definition ActionProvision : string := "provision".

(* internal/boot/decision.go:13-16 Decision *)
Record Decision := mkDecision { Action : string; Reason : string }.

(* internal/boot/decision.go:18-31 Decide *)
Definition Decide (policy : string) : Decision :=
  if (policy =? Machine.PolicyBlocked)%string then mkDecision ActionBlocked "machine_blocked"
  else if (policy =? Machine.PolicyLocal)%string then mkDecision ActionLocal "local_policy"
  else if (policy =? Machine.PolicyProvision)%string then mkDecision ActionLocal "installation_not_armed"
  else mkDecision ActionLocal "pending_approval".

(** ** The trust gate *)

(* internal/trust/gate.go:5-12 Gate *)
Record Gate := mkGate {
  OperatorApproved : bool;
  AssignmentArmed : bool;
  CryptographicVerified : bool;
  PublicBootAllowed : bool;
  SecretReleaseAllowed : bool;
  gate_Reason : string }.

(* internal/trust/gate.go:14-36 Evaluate *)
Definition Evaluate (policy : string) (assignmentArmed cryptographicVerified : bool) : Gate :=
  let approved := (policy =? Machine.PolicyProvision)%string in
  let gate := mkGate approved assignmentArmed cryptographicVerified in
  if negb approved then gate false false "operator_approval_required"
  else if negb assignmentArmed then gate false false "assignment_required"
  else if negb cryptographicVerified then gate true false "cryptographic_boot_trust_required"
  else gate true true "trusted".

(** ** Boot specifications *)

(* internal/boot/spec.go:13-17 ArtifactRef *)
Record ArtifactRef := mkArtifactRef { ref_ID : string; ref_Name : string; ref_Digest : string }.
(* internal/boot/spec.go:19-22 Argument *)
Record Argument := mkArgument { Key : string; Value : string }.
(* internal/boot/spec.go:24-32 Spec *)
Record Spec := mkSpec {
  InstallationID : string;
  DriverID : string;
  DriverVersion : string;
  Kernel : ArtifactRef;
  Initrds : list ArtifactRef;
  Arguments : list Argument;
  SeedRef : string }.

(** [^[A-Za-z0-9_.\/-]{1,128}$] *)
(* internal/boot/spec.go:11-11 argumentKeyPattern *)
Definition argumentKeyPattern : regex := Cat (alnum_or "_./-") (UpTo 127 (alnum_or "_./-")).

(* internal/boot/spec.go:90-101 validateArtifactRef *)
Definition validateArtifactRef (ref : ArtifactRef) : result unit :=
  _ ← fail_if ((TrimSpace (ref_ID ref) =? "")%string || (TrimSpace (ref_Name ref) =? "")%string)
        (Plain "artifact ID and name are required");
  _ ← fail_if ((128 <? len (ref_ID ref))%Z || (128 <? len (ref_Name ref))%Z)
        (Plain "artifact reference exceeds size limit");
  fail_if (negb (ValidSHA256 (ref_Digest ref))) (Plain "artifact digest must be canonical sha256").

Definition crlf_nul : string := String (byte_of 13) (String (byte_of 10) (String (byte_of 0) "")).

(* internal/boot/spec.go:48-56 Spec.Validate *)
Fixpoint check_initrds (seen : gset string) (l : list ArtifactRef) : result unit :=
  match l with
  | [] => Ok tt
  | item :: l =>
    _ ← or_fail (validateArtifactRef item) (Wrapped "boot spec initrd is invalid");
    _ ← fail_if (bool_decide (ref_ID item ∈ seen)) (Plain "boot spec contains duplicate artifact reference");
    check_initrds ({[ref_ID item]} ∪ seen) l
  end.

(* internal/boot/spec.go:60-76 Spec.Validate *)
Fixpoint check_arguments (seen : gset string) (l : list Argument) : result unit :=
  match l with
  | [] => Ok tt
  | arg :: l =>
    _ ← fail_if (negb (re_match argumentKeyPattern (Key arg))) (Plain "boot spec kernel argument key is invalid");
    _ ← fail_if ((512 <? len (Value arg))%Z || ContainsAny (Value arg) crlf_nul)
          (Plain "boot spec kernel argument value is invalid");
    let lower := ToLower (Key arg) in
    _ ← fail_if (Contains lower "password" || Contains lower "secret" || Contains lower "token"
                 || Contains lower "credential")
          (Plain "boot spec kernel arguments may not carry secrets");
    _ ← fail_if (bool_decide (Key arg ∈ seen)) (Plain "boot spec contains duplicate kernel argument");
    check_arguments ({[Key arg]} ∪ seen) l
  end.

(* internal/boot/spec.go:34-81 Spec.Validate *)
Definition Validate (s : Spec) : result unit :=
  _ ← fail_if ((TrimSpace (InstallationID s) =? "")%string || (TrimSpace (DriverID s) =? "")%string
               || (TrimSpace (DriverVersion s) =? "")%string)
        (Plain "boot spec identity is incomplete");
  _ ← fail_if ((128 <? len (InstallationID s))%Z || (64 <? len (DriverID s))%Z || (64 <? len (DriverVersion s))%Z)
        (Plain "boot spec identity exceeds size limit");
  _ ← or_fail (validateArtifactRef (Kernel s)) (Wrapped "boot spec kernel is invalid");
  _ ← fail_if ((length (Initrds s) =? 0)%nat || (4 <? length (Initrds s))%nat)
        (Plain "boot spec must contain between one and four initrds");
  _ ← check_initrds {[ref_ID (Kernel s)]} (Initrds s);
  _ ← fail_if (32 <? length (Arguments s))%nat (Plain "boot spec contains too many kernel arguments");
  _ ← check_arguments ∅ (Arguments s);
  fail_if ((TrimSpace (SeedRef s) =? "")%string || (256 <? len (SeedRef s))%Z
           || ContainsAny (SeedRef s) (crlf_nul +:+ "?#") || Contains (SeedRef s) "://")
    (Plain "boot spec seed reference is invalid").

(** ** Lemmas *)

Lemma Evaluate_public policy armed verified :
  PublicBootAllowed (Evaluate policy armed verified) = true ↔
  policy = Machine.PolicyProvision ∧ armed = true.
Proof.
  unfold Evaluate. destruct (String.eqb_spec policy Machine.PolicyProvision), armed, verified; simpl; naive_solver.
Qed.

Lemma Decide_never_provisions policy : Action (Decide policy) ≠ ActionProvision.
Proof. unfold Decide. by repeat case_match. Qed.

#[export] Hint Resolve Decide_never_provisions : aegis.

(** ** Property *)

(** The trust gate opens in layers: public boot material needs operator
    approval and an armed assignment, secrets need cryptographic proof on top;
    the reason names the first layer that is missing. *)
Theorem trust_gate_layers policy armed verified :
  let g := Evaluate policy armed verified in
  (PublicBootAllowed g = true ↔ policy = Machine.PolicyProvision ∧ armed = true) ∧
  (SecretReleaseAllowed g = true ↔ PublicBootAllowed g = true ∧ verified = true) ∧
  (gate_Reason g = "trusted" ↔ SecretReleaseAllowed g = true).
Proof.
  cbv zeta. rewrite Evaluate_public. unfold Evaluate.
  destruct (String.eqb_spec policy Machine.PolicyProvision), armed, verified; simpl; naive_solver.
Qed.
