(* ===== verification/Debian13.v ===== *)
(** * The Debian 13 driver: validation, boot parameters and the preseed
    (internal/drivers/debian13, internal/driver)

    The installer runs unattended with what this driver renders: the kernel
    arguments and one preseed text, whose late command configures the installed
    system.  Logging is left out; the logger is always configured. *)

From stdpp Require Import sorting.
From S2P Require Import Prelude GoStrings Regex Encoding StringFacts Fault Artifact Installation.
From S2P Require Boot.

(* internal/drivers/debian13/driver.go:4-4 DriverID *)
Definition DriverID : string := "debian13".
(* internal/drivers/debian13/driver.go:5-5 DriverVersion *)
Definition DriverVersion : string := "2".
(* internal/drivers/debian13/driver.go:6-6 LegacyDriverVersion *)
Definition LegacyDriverVersion : string := "1".

(* internal/drivers/debian13/artifacts.go:25-25 debianBaseURL *)
Definition debianBaseURL : string := "https://deb.debian.org/debian".
(* internal/drivers/debian13/artifacts.go:26-26 debianHost *)
Definition debianHost : string := "deb.debian.org".
(* internal/drivers/debian13/artifacts.go:27-27 debianSuite *)
Definition debianSuite : string := "trixie".
(* internal/drivers/debian13/artifacts.go:28-28 debianArch *)
Definition debianArch : string := "amd64".

(** ** Validation *)

(** [found] is the last artifact of the name, [count] their number. *)
(* internal/drivers/debian13/boot.go:127-143 requiredArtifact *)
Definition requiredArtifact (spec : Spec) (name : string) : result Descriptor :=
  let named := filter (λ a, Artifact.Name a = name) (Artifacts spec) in
  match last named with
  | Some found =>
    if negb (length named =? 1)%nat
    then Err (Plain ("installation spec must contain exactly one " +:+ name +:+ " artifact"))
    else if negb (HasPrefix (Provenance found) "debian:trixie:")
    then Err (Plain (name +:+ " artifact is not trusted Debian trixie provenance"))
    else Ok found
  | None => Err (Plain ("installation spec must contain exactly one " +:+ name +:+ " artifact"))
  end.

(* internal/drivers/debian13/boot.go:145-158 validateDebianArtifactSource *)
Definition validateDebianArtifactSource (item : Descriptor) (suffix : string) : result unit :=
  match url_Parse (SourceURL item) with
  | None => Err (Plain "parse source URL")
  | Some u =>
    _ ← fail_if (negb (Scheme u =? "https")%string || negb (Host u =? debianHost)%string || has_User u
                 || negb (RawQuery u =? "")%string || negb (Fragment u =? "")%string)
          (Plain "source must be the trusted Debian HTTPS origin without query or fragment");
    let expected := "/debian/dists/trixie/main/installer-amd64/" +:+ Version item +:+ "/images/" +:+ suffix in
    fail_if (negb (EscapedPath u =? expected)%string && negb (Path u =? expected)%string)
      (Plain "source path does not match pinned installer version and artifact role")
  end.

(** The third artifact of the Secure Boot contract. *)
(* internal/drivers/debian13/boot.go:65-77 ValidateSpec *)
Definition check_shim (spec : Spec) (kernel : Descriptor) : result unit :=
  if (Installation.DriverVersion spec =? DriverVersion)%string then
    shim ← requiredArtifact spec "bootnetx64.efi";
    _ ← fail_if (negb (Version kernel =? Version shim)%string || negb (Provenance kernel =? Provenance shim)%string)
          (Plain "Debian Secure Boot shim is pinned to different installer provenance");
    or_fail (validateDebianArtifactSource shim "netboot/debian-installer/amd64/bootnetx64.efi")
      (Wrapped "Secure Boot shim artifact source is invalid")
  else Ok tt.

(* internal/drivers/debian13/boot.go:13-78 ValidateSpec *)
Definition ValidateSpec (spec : Spec) : result unit :=
  _ ← or_fail (Spec_Validate spec) (Wrapped "invalid installation spec");
  _ ← fail_if (negb (Installation.DriverID spec =? DriverID)%string)
        (Plain "installation spec is assigned to a different driver");
  let secure := (Installation.DriverVersion spec =? DriverVersion)%string in
  _ ← fail_if (negb (Installation.DriverVersion spec =? LegacyDriverVersion)%string && negb secure)
        (Plain "installation spec requires an unsupported Debian driver contract version");
  _ ← fail_if (negb (OSRelease spec =? "13")%string || negb (spec_Architecture spec =? debianArch)%string)
        (Plain "installation target is not Debian 13 amd64");
  let st := spec_Storage spec in
  _ ← fail_if (negb (Mode st =? "whole-disk")%string || negb (Filesystem st =? "ext4")%string || Encrypted st || TPM2 st)
        (Plain "Debian 13 driver supports only unencrypted whole-disk ext4 storage");
  let se := spec_Security spec in
  _ ← fail_if (RootLogin se || SSHPasswordAuthentication se || negb (AutomaticSecurityUpdates se))
        (Plain "Debian 13 Standard requires root login disabled, SSH password authentication disabled, and automatic security updates enabled");
  _ ← fail_if (negb (PasswordlessSudo (snap_Admin (Profile spec))))
        (Plain "Debian 13 Standard requires passwordless sudo for the key-only administrator");
  _ ← fail_if (negb (length (Artifacts spec) =? (if secure then 3 else 2))%nat)
        (Plain (if secure then "Debian 13 Secure Boot driver requires exactly kernel, initrd and signed shim artifacts"
                else "legacy Debian 13 driver requires exactly kernel and initrd artifacts"));
  kernel ← requiredArtifact spec "linux";
  initrd ← requiredArtifact spec "initrd.gz";
  _ ← fail_if (negb (Version kernel =? Version initrd)%string || negb (Provenance kernel =? Provenance initrd)%string)
        (Plain "Debian kernel and initrd are pinned to different installer provenance");
  _ ← or_fail (validateDebianArtifactSource kernel "netboot/debian-installer/amd64/linux")
        (Wrapped "kernel artifact source is invalid");
  _ ← or_fail (validateDebianArtifactSource initrd "netboot/debian-installer/amd64/initrd.gz")
        (Wrapped "initrd artifact source is invalid");
  check_shim spec kernel.

(* internal/drivers/debian13/boot.go:80-91 validateRenderableSpec *)
Definition validateRenderableSpec (spec : Spec) : result unit :=
  _ ← ValidateSpec spec;
  _ ← fail_if (negb (Installation.DriverVersion spec =? DriverVersion)%string)
        (Plain "legacy Debian driver contract is retained for audit and cleanup but cannot be rendered for a new boot");
  fail_if (blank (spec_ID spec)) (Plain "installation spec must have a server-assigned ID before driver rendering").

(** ** Boot parameters *)

(* internal/drivers/debian13/boot.go:104-108 RenderBoot *)
Definition artifact_ref (a : Descriptor) : Boot.ArtifactRef := Boot.mkArtifactRef (ID a) (Artifact.Name a) (Digest a).

(** [Clone] copies; values are not shared here. *)
(* internal/drivers/debian13/boot.go:93-125 RenderBoot *)
Definition RenderBoot (spec : Spec) : result Boot.Spec :=
  _ ← validateRenderableSpec spec;
  kernel ← requiredArtifact spec "linux";
  initrd ← requiredArtifact spec "initrd.gz";
  let result := Boot.mkSpec (spec_ID spec) (Installation.DriverID spec) (Installation.DriverVersion spec)
    (artifact_ref kernel) [artifact_ref initrd]
    [Boot.mkArgument "auto" "true"; Boot.mkArgument "priority" "critical"; Boot.mkArgument "interface" "auto"]
    "preseed.cfg" in
  _ ← or_fail (Boot.Validate result) (Wrapped "rendered boot spec is invalid");
  Ok result.

(** ** Seed bundles *)

(* internal/driver/seed.go:8-8 maxSeedBytes *)
Definition maxSeedBytes : Z := Z.shiftl 256 10.

(* internal/driver/seed.go:10-14 SeedBundle *)
Record SeedBundle := mkSeedBundle { Filename : string; MediaType : string; Content : string }.

(* internal/driver/seed.go:16-27 SeedBundle.Validate *)
Definition SeedBundle_Validate (s : SeedBundle) : result unit :=
  _ ← fail_if (blank (Filename s) || (128 <? len (Filename s))%Z || ContainsAny (Filename s) ("/\" +:+ crlf))
        (Plain "seed filename is invalid");
  _ ← fail_if (blank (MediaType s) || (128 <? len (MediaType s))%Z || ContainsAny (MediaType s) crlf)
        (Plain "seed media type is invalid");
  fail_if ((len (Content s) =? 0)%Z || (maxSeedBytes <? len (Content s))%Z)
    (Plain "seed content size is invalid").

(** ** The late command *)

Definition quote : string := "'".
Definition dquote : string := String (byte_of 34) "".

(* internal/drivers/debian13/preseed.go:199-201 shellQuote *)
Definition shellQuote (value : string) : string :=
  quote +:+ ReplaceAll value quote (quote +:+ dquote +:+ quote +:+ dquote +:+ quote) +:+ quote.

(* internal/drivers/debian13/preseed.go:138-140 renderLateCommand *)
Definition writeLine (path value : string) : string :=
  "echo " +:+ shellQuote value +:+ " > " +:+ shellQuote path.
(* internal/drivers/debian13/preseed.go:141-143 renderLateCommand *)
Definition appendLine (path value : string) : string :=
  "echo " +:+ shellQuote value +:+ " >> " +:+ shellQuote path.

Definition logPath : string := "/target/var/log/aegispxe-installer.log".

(* internal/drivers/debian13/preseed.go:144-146 renderLateCommand *)
Definition marker (step outcome : string) : string :=
  appendLine logPath ("component=aegispxe step=" +:+ step +:+ " result=" +:+ outcome).

(** The type and payload of an authorized key; comments are dropped. *)
(* internal/drivers/debian13/preseed.go:128-135 renderLateCommand *)
Definition authorized_key (value : string) : result string :=
  match Fields value with
  | kind :: payload :: _ => Ok (kind +:+ " " +:+ payload)
  | _ => Err (Plain "validated SSH public key became unparsable")
  end.

Fixpoint authorized_keys (l : list string) : result (list string) :=
  match l with
  | [] => Ok []
  | x :: l => k ← authorized_key x; ks ← authorized_keys l; Ok (k :: ks)
  end.

Definition sshd_conf : string := "/target/etc/ssh/sshd_config.d/90-aegispxe.conf".
Definition auto_upgrades : string := "/target/etc/apt/apt.conf.d/20auto-upgrades".

(* internal/drivers/debian13/preseed.go:148-195 renderLateCommand *)
Definition late_commands (username : string) (keys : list string) : list string :=
  let authorizedKeysPath := "/target/home/" +:+ username +:+ "/.ssh/authorized_keys" in
  [ "set -e";
    "install -d -m 0755 /target/var/log";
    marker "late_command" "started";
    marker "authorized_keys" "started";
    "in-target install -d -m 0700 -o " +:+ username +:+ " -g " +:+ username +:+ " /home/" +:+ username +:+ "/.ssh";
    ": > " +:+ shellQuote authorizedKeysPath ]
  ++ (appendLine authorizedKeysPath <$> keys) ++
  [ "in-target chown " +:+ username +:+ ":" +:+ username +:+ " /home/" +:+ username +:+ "/.ssh/authorized_keys";
    "in-target chmod 0600 /home/" +:+ username +:+ "/.ssh/authorized_keys";
    marker "authorized_keys" "success";
    marker "sudo" "started";
    "in-target usermod -aG sudo " +:+ username;
    writeLine "/target/etc/sudoers.d/90-aegispxe-admin" (username +:+ " ALL=(ALL:ALL) NOPASSWD: ALL");
    "chmod 0440 /target/etc/sudoers.d/90-aegispxe-admin";
    marker "sudo" "success";
    marker "validate_sudoers" "started";
    "in-target visudo -cf /etc/sudoers.d/90-aegispxe-admin";
    marker "validate_sudoers" "success";
    marker "sshd_config" "started";
    "mkdir -p /target/etc/ssh/sshd_config.d";
    writeLine sshd_conf "PasswordAuthentication no";
    appendLine sshd_conf "KbdInteractiveAuthentication no";
    appendLine sshd_conf "PermitEmptyPasswords no";
    appendLine sshd_conf "PermitRootLogin no";
    appendLine sshd_conf "PubkeyAuthentication yes";
    "chmod 0644 " +:+ sshd_conf;
    "in-target usermod -p NP " +:+ username;
    marker "sshd_config" "success";
    marker "prepare_sshd_runtime" "started";
    "in-target install -d -m 0755 /run/sshd";
    "in-target ssh-keygen -A";
    marker "prepare_sshd_runtime" "success";
    marker "validate_sshd" "started";
    "in-target sshd -t";
    marker "validate_sshd" "success";
    marker "automatic_updates" "started";
    writeLine auto_upgrades ("APT::Periodic::Update-Package-Lists " +:+ dquote +:+ "1" +:+ dquote +:+ ";");
    appendLine auto_upgrades ("APT::Periodic::Unattended-Upgrade " +:+ dquote +:+ "1" +:+ dquote +:+ ";");
    "chmod 0644 " +:+ auto_upgrades;
    marker "automatic_updates" "success";
    marker "late_command" "success" ].

(* internal/drivers/debian13/preseed.go:126-197 renderLateCommand *)
Definition renderLateCommand (spec : Spec) : result string :=
  keys ← authorized_keys (AuthorizedSSHKeys (snap_Admin (Profile spec)));
  Ok (Join (late_commands (Username (snap_Admin (Profile spec))) keys) "; ").

(** ** The preseed *)

Definition string_le (x y : string) : Prop := String.leb x y = true.
#[global] Instance string_le_dec x y : Decision (string_le x y) := decide (_ = _).

(* internal/drivers/debian13/preseed.go:109-124 seedPackages *)
Definition seedPackages (spec : Spec) : list string :=
  let set : gset string := {["openssh-server"; "sudo"; "unattended-upgrades"]} ∪ list_to_set (Packages (Profile spec)) in
  merge_sort string_le (elements set).

(* internal/drivers/debian13/preseed.go:48-92 renderPreseed *)
Definition preseed_lines (spec : Spec) (packages : list string) (lateCommand : string) : list string :=
  let p := Profile spec in
  let disk := TargetDisk (spec_Storage spec) in
  [ "#_preseed_V1";
    "# AegisPXE Debian 13 Standard preseed";
    "d-i debian-installer/locale string " +:+ Locale p;
    "d-i keyboard-configuration/xkb-keymap select " +:+ Keyboard p;
    "d-i netcfg/choose_interface select auto";
    "d-i netcfg/get_hostname string " +:+ Hostname p;
    "d-i netcfg/hostname string " +:+ Hostname p;
    "d-i netcfg/get_domain string";
    "d-i netcfg/wireless_wep string";
    "d-i mirror/country string manual";
    "d-i mirror/http/hostname string deb.debian.org";
    "d-i mirror/http/directory string /debian";
    "d-i mirror/http/proxy string";
    "d-i passwd/root-login boolean false";
    "d-i passwd/user-fullname string " +:+ FullName (snap_Admin p);
    "d-i passwd/username string " +:+ Username (snap_Admin p);
    "d-i passwd/user-password-crypted password !";
    "d-i clock-setup/utc boolean true";
    "d-i time/zone string " +:+ Timezone p;
    "d-i clock-setup/ntp boolean true";
    "d-i partman-auto/disk string " +:+ disk;
    "d-i partman-auto/method string regular";
    "d-i partman-auto/choose_recipe select atomic";
    "d-i partman-lvm/device_remove_lvm boolean true";
    "d-i partman-md/device_remove_md boolean true";
    "d-i partman-lvm/confirm boolean true";
    "d-i partman-lvm/confirm_nooverwrite boolean true";
    "d-i partman-partitioning/confirm_write_new_label boolean true";
    "d-i partman/choose_partition select finish";
    "d-i partman/confirm boolean true";
    "d-i partman/confirm_nooverwrite boolean true";
    "d-i apt-setup/cdrom/set-first boolean false";
    "d-i apt-setup/services-select multiselect security, updates";
    "tasksel tasksel/first multiselect standard";
    "d-i pkgsel/include string " +:+ Join packages " ";
    "d-i pkgsel/upgrade select safe-upgrade";
    "popularity-contest popularity-contest/participate boolean false";
    "d-i grub-installer/only_debian boolean true";
    "d-i grub-installer/with_other_os boolean false";
    "d-i grub-installer/bootdev string " +:+ disk;
    "d-i preseed/late_command string " +:+ lateCommand;
    "d-i finish-install/reboot_in_progress note";
    "d-i cdrom-detect/eject boolean false" ].

(** Every line with its line feed. *)
Fixpoint write_lines (l : list string) : string :=
  match l with [] => "" | x :: l => x +:+ nl +:+ write_lines l end.

(* internal/drivers/debian13/preseed.go:40-107 renderPreseed *)
Definition renderPreseed (spec : Spec) : result SeedBundle :=
  lateCommand ← renderLateCommand spec;
  let bundle := mkSeedBundle "preseed.cfg" "text/plain; charset=utf-8"
                  (write_lines (preseed_lines spec (seedPackages spec) lateCommand)) in
  _ ← or_fail (SeedBundle_Validate bundle) (Wrapped "invalid rendered seed bundle");
  Ok bundle.

(* internal/drivers/debian13/preseed.go:17-38 RenderSeed *)
Definition RenderSeed (spec : Spec) (requestID : string) : result SeedBundle :=
  _ ← fail_if (blank requestID) (New DriverRenderFailed "driver render request identifier is required" None);
  _ ← or_fail (validateRenderableSpec spec)
        (λ e, New DriverSpecUnsupported "installation spec is unsupported by Debian 13 Standard" (Some e));
  or_fail (renderPreseed spec) (λ e, New DriverRenderFailed "could not render Debian installer seed" (Some e)).
