(* ===== verification/DebianRelease.v ===== *)
(** * Resolving the Debian installer artifacts
    (internal/drivers/debian13/artifacts.go)

    The chain of trust from the archive's signature to the pinned artifacts:
    gpgv verifies InRelease, which lists the digest of the installer's checksum
    manifest, which lists the digests of the artifacts. *)

From S2P Require Import Prelude GoStrings Encoding GoParse StringFacts Fault Artifact Debian13.

(** ** Standard library *)

(** [bufio.ScanLines]: the text up to a line feed without a final carriage
    return; an empty text after the last line feed is no line. *)
Fixpoint dropCR (s : string) : string :=
  match s with
  | "" => ""
  | String c t => if byte_is 13 c && (t =? "")%string then "" else String c (dropCR t)
  end.

Definition raw_lines (s : string) : list string :=
  let l := split_byte (byte_of 10) s in
  match last l with Some "" => removelast l | _ => l end.

(** The scanner's buffer holds [bufio.MaxScanTokenSize] bytes, the line feed
    included: a longer line ends the scan with an error ([false]). *)
Definition MaxScanTokenSize : Z := 65536.

Fixpoint scan_all (l : list string) : list string * bool :=
  match l with
  | [] => ([], true)
  | x :: l => if (MaxScanTokenSize <=? len x)%Z then ([], false)
              else let '(xs, ok) := scan_all l in (dropCR x :: xs, ok)
  end.

Definition Scan (data : string) : list string * bool := scan_all (raw_lines data).

(** ** The network and gpgv *)

(* internal/drivers/debian13/artifacts.go:30-30 gpgvBinary *)
Definition gpgvBinary : string := "/usr/bin/gpgv".
(* internal/drivers/debian13/artifacts.go:29-29 debianKeyring *)
Definition debianKeyring : string := "/usr/share/keyrings/debian-archive-keyring.gpg".
(* internal/drivers/debian13/artifacts.go:31-31 maxInRelease *)
Definition maxInRelease : Z := Z.shiftl 2 20.
(* internal/drivers/debian13/artifacts.go:32-32 maxManifest *)
Definition maxManifest : Z := Z.shiftl 2 20.
(* internal/drivers/debian13/artifacts.go:33-33 maxInstallerBin *)
Definition maxInstallerBin : Z := Z.shiftl 128 20.

(** The redirect policy of the client: [via] is the number of requests made. *)
(* internal/drivers/debian13/artifacts.go:67-75 NewArtifactResolver *)
Definition CheckRedirect (u : URL) (via : nat) : result unit :=
  _ ← fail_if (3 <=? via)%nat (Plain "too many Debian mirror redirects");
  fail_if (negb (Scheme u =? "https")%string || negb (Host u =? debianHost)%string)
    (Plain "Debian mirror redirect left trusted HTTPS origin").

(** What the resolver uses from outside: the outcome of [client.Do] on a URL
    (status code and body, each possibly an error), and what gpgv writes to its
    output file for a signed file, when it exits with success. *)
Record outside := mkOutside {
  http_Do : string → result (Z * result string);
  gpgv : string → result string }.

(** [io.ReadAll] of an [io.LimitReader]: at most [n] bytes. *)
Definition read_limited (n : Z) (body : string) : string :=
  if (len body <=? n)%Z then body else String.substring 0 (Z.to_nat n) body.

(* internal/drivers/debian13/artifacts.go:281-302 httpFetcher.Fetch *)
Definition Fetch (w : outside) (rawURL : string) (maxBytes : Z) : result string :=
  resp ← http_Do w rawURL;
  _ ← fail_if (negb (resp.1 =? 200)%Z) (Plain "unexpected HTTP status");
  body ← resp.2;
  let content := read_limited (maxBytes + 1) body in
  _ ← fail_if (maxBytes <? len content)%Z (Plain "response exceeds size limit");
  Ok content.

(** The temporary files are gpgv's input and output; their errors are among the
    outcomes of [gpgv]. *)
(* internal/drivers/debian13/artifacts.go:306-335 gpgvVerifier.Verify *)
Definition Verify (w : outside) (signed : string) : result string :=
  verified ← gpgv w signed;
  _ ← fail_if (len verified =? 0)%Z (Plain "gpgv produced empty verified release metadata");
  Ok verified.

(** ** Release metadata *)

(* internal/drivers/debian13/artifacts.go:173-178 releaseInfo *)
Record releaseInfo := mkReleaseInfo {
  ReleaseVersion : string; InstallerVersion : string; ManifestDigest : string; ManifestSize : Z }.

(* internal/drivers/debian13/artifacts.go:185-189 parseRelease *)
Record manifestCandidate := mkCandidate { c_version : string; c_digest : string; c_size : Z }.

(* internal/drivers/debian13/artifacts.go:181-181 parseRelease *)
Definition currentPath : string := "main/installer-amd64/current/images/SHA256SUMS".

(** The version a path names:
    [^main/installer-amd64/([^/]+)/images/SHA256SUMS$]. *)
(* internal/drivers/debian13/artifacts.go:36-36 installerManifestPath *)
Definition installerManifestPath (path : string) : option string :=
  if HasPrefix path "main/installer-amd64/" then
    match cut_byte "/" (TrimPrefix path "main/installer-amd64/") with
    | Some (version, rest) =>
      if negb (version =? "")%string && (rest =? "images/SHA256SUMS")%string then Some version else None
    | None => None
    end
  else None.

(** The variables of the scanning loop. *)
(* internal/drivers/debian13/artifacts.go:182-193 parseRelease *)
Record release_state := mkReleaseState {
  version : string; codename : string; currentDigest : string; currentSize : Z;
  candidates : list manifestCandidate; inSHA256 : bool }.

Definition release_init : release_state := mkReleaseState "" "" "" 0 [] false.

(** One entry of the SHA256 section; an entry that does not parse is skipped. *)
(* internal/drivers/debian13/artifacts.go:203-219 parseRelease *)
Definition sha256_entry (line : string) (st : release_state) : release_state :=
  match Fields line with
  | [digest; size; path] =>
    if negb (ValidSHA256 ("sha256:" +:+ digest)) then st else
    match ParseInt size with
    | None => st
    | Some size =>
      if (size <=? 0)%Z then st else
      let current := (path =? currentPath)%string in
      mkReleaseState (version st) (codename st)
        (if current then "sha256:" +:+ digest else currentDigest st)
        (if current then size else currentSize st)
        (match installerManifestPath path with
         | Some v => if (v =? "current")%string then candidates st
                     else candidates st ++ [mkCandidate v ("sha256:" +:+ digest) size]
         | None => candidates st
         end)
        (inSHA256 st)
    end
  | _ => st
  end.

Definition set_inSHA256 (b : bool) (st : release_state) : release_state :=
  mkReleaseState (version st) (codename st) (currentDigest st) (currentSize st) (candidates st) b.

(* internal/drivers/debian13/artifacts.go:194-223 parseRelease *)
Definition release_line (st : release_state) (line : string) : release_state :=
  if HasPrefix line "Version: " then
    mkReleaseState (TrimSpace (TrimPrefix line "Version: ")) (codename st) (currentDigest st) (currentSize st)
      (candidates st) (inSHA256 st)
  else if HasPrefix line "Codename: " then
    mkReleaseState (version st) (TrimSpace (TrimPrefix line "Codename: ")) (currentDigest st) (currentSize st)
      (candidates st) (inSHA256 st)
  else if (line =? "SHA256:")%string then set_inSHA256 true st
  else if inSHA256 st && HasPrefix line " " then sha256_entry line st
  else if inSHA256 st && negb (line =? "")%string then set_inSHA256 false st
  else st.

(** The version whose manifest is the current one. *)
(* internal/drivers/debian13/artifacts.go:234-242 parseRelease *)
Fixpoint select_version (digest : string) (size : Z) (installerVersion : string) (l : list manifestCandidate) : result string :=
  match l with
  | [] => Ok installerVersion
  | c :: l =>
    if (c_digest c =? digest)%string && (c_size c =? size)%Z then
      _ ← fail_if (negb (installerVersion =? "")%string && negb (installerVersion =? c_version c)%string)
            (Plain "current installer resolves to multiple versioned manifests");
      select_version digest size (c_version c) l
    else select_version digest size installerVersion l
  end.

(* internal/drivers/debian13/artifacts.go:180-252 parseRelease *)
Definition parseRelease (data : string) : result releaseInfo :=
  let '(lines, ok) := Scan data in
  let st := foldl release_line release_init lines in
  _ ← fail_if (negb ok) (Plain "bufio.Scanner: token too long");
  _ ← fail_if (negb (codename st =? debianSuite)%string || negb (HasPrefix (version st) "13."))
        (Plain "release is not Debian 13 trixie");
  _ ← fail_if ((currentDigest st =? "")%string || (currentSize st <=? 0)%Z)
        (Plain "current amd64 installer manifest is missing");
  installerVersion ← select_version (currentDigest st) (currentSize st) "" (candidates st);
  _ ← fail_if (installerVersion =? "")%string (Plain "current installer has no matching versioned manifest");
  Ok (mkReleaseInfo (version st) installerVersion (currentDigest st) (currentSize st)).

(* internal/drivers/debian13/artifacts.go:257-270 parseSHA256SUMS *)
Fixpoint sums_lines (checksums : gmap string string) (l : list string) : result (gmap string string) :=
  match l with
  | [] => Ok checksums
  | line :: l =>
    match Fields line with
    | [digest; file] =>
      _ ← fail_if (negb (ValidSHA256 ("sha256:" +:+ digest))) (Plain "invalid SHA256SUMS entry");
      let path := TrimPrefix file "./" in
      _ ← fail_if ((path =? "")%string || Contains path "..") (Plain "invalid SHA256SUMS path");
      _ ← fail_if (bool_decide (is_Some (checksums !! path))) (Plain "duplicate SHA256SUMS path");
      sums_lines (<[path := "sha256:" +:+ digest]> checksums) l
    | _ => Err (Plain "invalid SHA256SUMS entry")
    end
  end.

(* internal/drivers/debian13/artifacts.go:254-275 parseSHA256SUMS *)
Definition parseSHA256SUMS (data : string) : result (gmap string string) :=
  let '(lines, ok) := Scan data in
  checksums ← sums_lines ∅ lines;
  _ ← fail_if (negb ok) (Plain "bufio.Scanner: token too long");
  Ok checksums.

(** ** Resolution *)

(* internal/drivers/debian13/artifacts.go:53-59 Resolution *)
Record Resolution := mkResolution {
  r_ReleaseVersion : string; r_InstallerVersion : string;
  r_Kernel : Verified; r_Initrd : Verified; r_Shim : Verified }.

Section Resolve.
Context `{Crypto}.

(* internal/drivers/debian13/artifacts.go:148-171 ArtifactResolver.fetchArtifact *)
Definition fetchArtifact (w : outside) (imagesBase version provenance id name path : string)
    (checksums : gmap string string) : result Verified :=
  match checksums !! path with
  | None => Err (New ArtifactTrustFailed "required Debian installer artifact is absent from verified manifest" None)
  | Some digest =>
    let sourceURL := imagesBase +:+ "/" +:+ path in
    content ← or_fail (Fetch w sourceURL maxInstallerBin)
      (λ e, New ArtifactFetchFailed "could not fetch Debian installer artifact" (Some e));
    let descriptor := mkDescriptor id name sourceURL version digest (len content) provenance in
    _ ← or_fail (VerifyContent descriptor content)
      (λ e, New ArtifactHashMismatch "Debian installer artifact failed integrity verification" (Some e));
    Ok (mkVerified descriptor content)
  end.

(* internal/drivers/debian13/artifacts.go:100-100 ArtifactResolver.Resolve *)
Definition images_base (info : releaseInfo) : string :=
  debianBaseURL +:+ "/dists/" +:+ debianSuite +:+ "/main/installer-amd64/" +:+ PathEscape (InstallerVersion info) +:+ "/images".

(* internal/drivers/debian13/artifacts.go:114-114 ArtifactResolver.Resolve *)
Definition provenance_of (info : releaseInfo) : string :=
  "debian:" +:+ debianSuite +:+ ":release=" +:+ ReleaseVersion info +:+ ":installer=" +:+ InstallerVersion info.

(* internal/drivers/debian13/artifacts.go:85-146 ArtifactResolver.Resolve *)
Definition Resolve (w : outside) : result Resolution :=
  inRelease ← or_fail (Fetch w (debianBaseURL +:+ "/dists/" +:+ debianSuite +:+ "/InRelease") maxInRelease)
    (λ e, New ArtifactFetchFailed "could not fetch Debian InRelease metadata" (Some e));
  release ← or_fail (Verify w inRelease)
    (λ e, New ArtifactTrustFailed "Debian InRelease signature verification failed" (Some e));
  info ← or_fail (parseRelease release)
    (λ e, New ArtifactTrustFailed "verified Debian release metadata is invalid" (Some e));
  let base := images_base info in
  manifest ← or_fail (Fetch w (base +:+ "/SHA256SUMS") maxManifest)
    (λ e, New ArtifactFetchFailed "could not fetch Debian installer checksum manifest" (Some e));
  _ ← fail_if (negb (len manifest =? ManifestSize info)%Z || negb (SHA256 manifest =? ManifestDigest info)%string)
        (New ArtifactHashMismatch "Debian installer checksum manifest failed integrity verification" None);
  checksums ← or_fail (parseSHA256SUMS manifest)
    (λ e, New ArtifactTrustFailed "verified Debian installer checksum manifest is invalid" (Some e));
  let fetch := fetchArtifact w base (InstallerVersion info) (provenance_of info) in
  kernel ← fetch "debian13-amd64-netboot-linux" "linux" "netboot/debian-installer/amd64/linux" checksums;
  initrd ← fetch "debian13-amd64-netboot-initrd" "initrd.gz" "netboot/debian-installer/amd64/initrd.gz" checksums;
  shim ← fetch "debian13-amd64-netboot-shim" "bootnetx64.efi" "netboot/debian-installer/amd64/bootnetx64.efi" checksums;
  Ok (mkResolution (ReleaseVersion info) (InstallerVersion info) kernel initrd shim).
End Resolve.
