(* ===== verification/Identity.v ===== *)
(** * Operator identities (internal/operatoridentity) *)

From S2P Require Import Prelude GoStrings Fault.

Abbreviation Role := string (only parsing).
Abbreviation Status := string (only parsing).

(* internal/operatoridentity/model.go:16-16 RoleAdmin *)
Definition RoleAdmin : Role := "admin".
(* internal/operatoridentity/model.go:17-17 RoleOperator *)
Definition RoleOperator : Role := "operator".
(* internal/operatoridentity/model.go:19-19 StatusPendingReview *)
Definition StatusPendingReview : Status := "pending_review".
(* internal/operatoridentity/model.go:20-20 StatusEnrollmentRequired *)
Definition StatusEnrollmentRequired : Status := "enrollment_required".
(* internal/operatoridentity/model.go:21-21 StatusActive *)
Definition StatusActive : Status := "active".
(* internal/operatoridentity/model.go:22-22 StatusBlocked *)
Definition StatusBlocked : Status := "blocked".

(** The WebAuthn credentials of a user are kept by the store; a credential is
    its identifier and its serialised payload. *)
(* internal/operatoridentity/model.go:25-39 User *)
Record User := mkUser {
  ID : string;
  Provider : string;
  Subject : string;
  DisplayName : string;
  Email : string;
  u_Role : Role;
  u_Status : Status;
  WebAuthnHandle : string;
  CreatedAt : time;
  UpdatedAt : time;
  ApprovedAt : time;
  ApprovedBy : string }.

(* internal/operatoridentity/model.go:47-52 User.WebAuthnName *)
Definition WebAuthnName (u : User) : string :=
  if negb (TrimSpace (DisplayName u) =? "")%string then TrimSpace (DisplayName u) else Subject u.

(* internal/operatoridentity/model.go:64-71 ValidateRole *)
Definition ValidateRole (role : Role) : result unit :=
  fail_if (negb ((role =? RoleAdmin)%string || (role =? RoleOperator)%string)) (Plain "operator role is invalid").

(* internal/operatoridentity/model.go:73-80 ValidateStatus *)
Definition ValidateStatus (status : Status) : result unit :=
  fail_if (negb ((status =? StatusPendingReview)%string || (status =? StatusEnrollmentRequired)%string
                 || (status =? StatusActive)%string || (status =? StatusBlocked)%string))
    (Plain "operator user status is invalid").

(* internal/operatoridentity/model.go:82-99 ValidateExternalIdentity *)
Definition ValidateExternalIdentity (provider subject : string) : result unit :=
  let provider := TrimSpace provider in
  let subject := TrimSpace subject in
  _ ← fail_if ((provider =? "")%string || (64 <? len provider)%Z) (Plain "operator identity provider is invalid");
  _ ← fail_if ((subject =? "")%string || (128 <? len subject)%Z) (Plain "operator identity subject is invalid");
  fail_if (has_ascii_control provider || has_ascii_control subject)
    (Plain "operator identity contains control characters").
