(* ===== verification/Telemetry.v ===== *)
(** * Installer telemetry: credentials, log chunks, redaction and request
    signatures (internal/telemetry, internal/telemetryauth) *)

From S2P Require Import Prelude GoStrings Regex Encoding StringFacts Fault Lifecycle Artifact.

(* internal/telemetry/model.go:12-12 MaxLogChunkBytes *)
Definition MaxLogChunkBytes : Z := Z.shiftl 128 10.
(* internal/telemetry/model.go:13-13 MaxInstallationLogBytes *)
Definition MaxInstallationLogBytes : Z := Z.shiftl 16 20.

(* internal/telemetry/model.go:16-23 Credential *)
Record Credential := mkCredential {
  c_ID : string;
  c_InstallationID : string;
  c_CreatedAt : time;
  c_ExpiresAt : time;
  c_RevokedAt : time;
  c_LastUsedAt : time }.

(* internal/telemetry/model.go:25-28 IssuedCredential *)
Record IssuedCredential := mkIssued { i_Credential : Credential; i_Secret : string }.

(* internal/telemetry/model.go:30-41 LogChunk *)
Record LogChunk := mkLogChunk {
  l_ID : Z;
  l_InstallationID : string;
  l_Sequence : Z;
  l_Source : Source;
  l_ReceivedAt : time;
  l_ClientAt : time;
  l_RequestID : string;
  l_IdempotencyKey : string;
  l_Content : string;
  l_Digest : string }.

(* internal/telemetry/model.go:43-45 Credential.Active *)
Definition Active (c : Credential) (now : time) : bool :=
  negb (IsZero (c_CreatedAt c)) && After (c_ExpiresAt c) now && IsZero (c_RevokedAt c).

(* internal/telemetry/model.go:47-67 LogChunk.Validate *)
Definition LogChunk_Validate (c : LogChunk) : result unit :=
  _ ← fail_if (blank (l_InstallationID c)) (Plain "installation ID is required");
  _ ← fail_if (l_Sequence c <=? 0)%Z (Plain "log chunk sequence must be positive");
  _ ← fail_if (negb (l_Source c =? SourceInstaller)%string && negb (l_Source c =? SourceFinalizer)%string
               && negb (l_Source c =? SourceValidator)%string)
        (Plain "log chunk source is invalid");
  _ ← ValidateIdempotencyKey (l_IdempotencyKey c);
  _ ← fail_if (len (l_Content c) =? 0)%Z (Plain "log chunk content is required");
  fail_if (MaxLogChunkBytes <? len (l_Content c))%Z (Plain "log chunk exceeds size limit").

(* internal/telemetry/model.go:82-97 sensitiveLogLine *)
Definition log_markers : list string :=
  ["authorization:"; "bearer "; "password="; "password:"; "token="; "token:"; "secret="; "secret:";
   "cookie="; "cookie:"; "private_key="; "private key-----"; "recovery_key="; "recovery key:"].

(* internal/telemetry/model.go:81-103 sensitiveLogLine *)
Definition sensitiveLogLine (lower : string) : bool := existsb (Contains lower) log_markers.

Definition redacted_line : string := "[REDACTED sensitive installer log line]".

(** One round of the loop of [RedactLogContent]. *)
(* internal/telemetry/model.go:72-77 RedactLogContent *)
Definition redact_line (line : string) : string :=
  if sensitiveLogLine (ToLower line) then redacted_line else line.

(* internal/telemetry/model.go:69-79 RedactLogContent *)
Definition RedactLogContent (content : string) : string :=
  let content := ReplaceAll content nul "" in
  Join (redact_line <$> split_byte (byte_of 10) content) nl.

(** ** Request signatures *)

(** [strings.ToUpper], exact on ASCII content: besides the ASCII letters, the
    code points whose upper case is an ASCII letter are U+0131 and U+017F. *)
Definition upper_byte (c : ascii) : ascii :=
  if is_lower c then byte_of (byte_nat c - 32) else c.

Fixpoint upper_go (skip : nat) (s : string) : string :=
  match s with
  | "" => ""
  | String a t =>
    match skip with
    | S k => upper_go k t
    | O =>
      match t with
      | String b _ =>
        if byte_is 196 a && byte_is 177 b then String "I" (upper_go 1 t)
        else if byte_is 197 a && byte_is 191 b then String "S" (upper_go 1 t)
        else String (upper_byte a) (upper_go 0 t)
      | "" => String (upper_byte a) (upper_go 0 t)
      end
    end
  end.

Definition ToUpper (s : string) : string := upper_go 0 s.

Section Auth.
Context `{Crypto}.

(* internal/telemetryauth/auth.go:15-17 KeyFromSecret *)
Definition KeyFromSecret (secret : string) : string := sha256 secret.

(* internal/telemetryauth/auth.go:19-36 Canonical *)
Definition Canonical (method path idempotencyKey : string) (unixSeconds : Z) (body : string) : result string :=
  let method := ToUpper (TrimSpace method) in
  let path := TrimSpace path in
  let idempotencyKey := TrimSpace idempotencyKey in
  _ ← fail_if ((method =? "")%string || (path =? "")%string || negb (HasPrefix path "/")
               || (idempotencyKey =? "")%string || (unixSeconds <=? 0)%Z)
        (Plain "telemetry authentication input is incomplete");
  Ok (Join ["AEGISPXE-TELEMETRY-AUTH-V1"; method; path; idempotencyKey; FormatInt unixSeconds;
            hex_encode (sha256 body)] nl +:+ nl).

(* internal/telemetryauth/auth.go:38-42 Sign *)
Definition Sign (key canonical : string) : string :=
  RawURLEncoding_EncodeToString (hmac_sha256 key canonical).

(* internal/telemetryauth/auth.go:44-52 Verify *)
Definition Verify (key canonical encodedSignature : string) : bool :=
  match RawURLEncoding_DecodeString (TrimSpace encodedSignature) with
  | None => false
  | Some provided =>
    if negb (String.length provided =? 32)%nat then false
    else (provided =? hmac_sha256 key canonical)%string
  end.

End Auth.

(** ** Lemmas *)

Lemma redact_line_clean l : sensitiveLogLine (ToLower (redact_line l)) = false.
Proof. unfold redact_line. destruct (sensitiveLogLine (ToLower l)) eqn:E; [by vm_compute|done]. Qed.

Lemma redact_line_idem l : redact_line (redact_line l) = redact_line l.
Proof. unfold redact_line at 1. by rewrite redact_line_clean. Qed.

Lemma redact_line_free c l : byte_free c redacted_line = true → byte_free c l = true → byte_free c (redact_line l) = true.
Proof. unfold redact_line. by case_match. Qed.

(** The lines of the redacted text. *)
Lemma Redact_lines content :
  split_byte (byte_of 10) (RedactLogContent content) =
  redact_line <$> split_byte (byte_of 10) (ReplaceAll content nul "").
Proof.
  unfold RedactLogContent. apply split_join.
  - intros H%fmap_nil_inv. by apply split_byte_nonempty in H.
  - intros x (l & -> & Hl)%list_elem_of_fmap.
    apply redact_line_free; [done|]. by eapply split_byte_all_free.
Qed.

Lemma Redact_nul_free content : byte_free (byte_of 0) (RedactLogContent content) = true.
Proof.
  unfold RedactLogContent. apply Join_byte_free; [done|].
  intros x (l & -> & Hl)%list_elem_of_fmap. apply redact_line_free; [done|].
  eapply Join_byte_free_inv; [|done]. rewrite join_split. apply ReplaceAll_byte_free.
Qed.

Lemma Redact_idem content : RedactLogContent (RedactLogContent content) = RedactLogContent content.
Proof.
  unfold RedactLogContent at 1.
  rewrite (ReplaceAll_free_id (byte_of 0) _ (Redact_nul_free content) : ReplaceAll _ nul "" = _).
  rewrite Redact_lines, <- list_fmap_compose.
  rewrite (list_fmap_ext _ redact_line) by (intros; apply redact_line_idem). done.
Qed.

Lemma LogChunk_Validate_Ok c u :
  LogChunk_Validate c = Ok u →
  blank (l_InstallationID c) = false ∧ (0 < l_Sequence c)%Z ∧
  l_Source c ∈ [SourceInstaller; SourceFinalizer; SourceValidator] ∧
  ValidateIdempotencyKey (l_IdempotencyKey c) = Ok tt ∧
  (0 < len (l_Content c) ≤ MaxLogChunkBytes)%Z.
Proof.
  unfold LogChunk_Validate. intros H. ok_inv.
  pose proof (len_nonneg (l_Content c)). bool_inv.
  split_and!; try done; try lia. rewrite !elem_of_cons.
  repeat (match goal with Hd : _ ∨ _ |- _ => destruct Hd end; bool_inv); tauto.
Qed.

Section AuthFacts.
Context `{CL : CryptoLaws}.

Lemma Verify_Sign key canonical : Verify key canonical (Sign key canonical) = true.
Proof.
  unfold Verify, Sign. rewrite TrimSpace_graph by auto with aegis.
  rewrite RawURL_roundtrip, hmac_length. simpl. apply String.eqb_refl.
Qed.

Lemma Verify_true key canonical s :
  Verify key canonical s = true →
  RawURLEncoding_DecodeString (TrimSpace s) = Some (hmac_sha256 key canonical).
Proof.
  unfold Verify. destruct (RawURLEncoding_DecodeString (TrimSpace s)) as [p|]; [|done].
  destruct (negb _); [done|]. by intros ->%String.eqb_eq.
Qed.

(** The lines of a canonical request. *)
Definition canonical_lines (method path key : string) (t : Z) (body : string) : list string :=
  ["AEGISPXE-TELEMETRY-AUTH-V1"; ToUpper (TrimSpace method); TrimSpace path; TrimSpace key;
   FormatInt t; hex_encode (sha256 body)].

Lemma Canonical_Ok m p k t b text :
  Canonical m p k t b = Ok text →
  text = Join (canonical_lines m p k t b) nl +:+ nl ∧ (0 < t)%Z ∧ HasPrefix (TrimSpace p) "/" = true.
Proof.
  unfold Canonical. intros H. apply bind_Ok in H as (? & Hg & H).
  apply fail_if_Ok in Hg. bool_inv. injection H as <-. done.
Qed.

Lemma canonical_lines_free m p k t b :
  byte_free (byte_of 10) (ToUpper (TrimSpace m)) = true →
  byte_free (byte_of 10) (TrimSpace p) = true → byte_free (byte_of 10) (TrimSpace k) = true →
  ∀ x, x ∈ canonical_lines m p k t b → byte_free (byte_of 10) x = true.
Proof.
  intros Hm Hp Hk x Hx. unfold canonical_lines in Hx.
  rewrite !elem_of_cons, elem_of_nil in Hx.
  destruct Hx as [->|[->|[->|[->|[->|[->|[]]]]]]]; auto with aegis.
Qed.

End AuthFacts.

(** ** Properties *)

(** Redaction is complete: the stored text of a log chunk has no NUL byte
    and no line that matches a sensitive marker, its lines are those of the
    received text with exactly the sensitive ones replaced by the marker line,
    and redacting it again changes nothing. *)
Theorem redaction_complete content :
  let stored := RedactLogContent content in
  byte_free (byte_of 0) stored = true ∧
  (∀ line, line ∈ split_byte (byte_of 10) stored → sensitiveLogLine (ToLower line) = false) ∧
  Forall2 (λ line out, out = if sensitiveLogLine (ToLower line) then redacted_line else line)
    (split_byte (byte_of 10) (ReplaceAll content nul "")) (split_byte (byte_of 10) stored) ∧
  RedactLogContent stored = stored.
Proof.
  simpl. split_and!.
  - apply Redact_nul_free.
  - intros line. rewrite Redact_lines. intros (l & -> & _)%list_elem_of_fmap. apply redact_line_clean.
  - rewrite Redact_lines. apply Forall2_fmap_r, Forall_Forall2_diag, Forall_true. done.
  - apply Redact_idem.
Qed.

(** A request signature covers the whole request: two requests whose
    method, path and key are single lines and that have the same canonical
    text have the same method (up to case), path, idempotency key and
    timestamp, and bodies with the same digest. *)
Theorem Canonical_binds_request `{Crypto} m1 p1 k1 t1 b1 m2 p2 k2 t2 b2 text :
  (∀ x, x ∈ [ToUpper (TrimSpace m1); TrimSpace p1; TrimSpace k1;
             ToUpper (TrimSpace m2); TrimSpace p2; TrimSpace k2] → byte_free (byte_of 10) x = true) →
  Canonical m1 p1 k1 t1 b1 = Ok text → Canonical m2 p2 k2 t2 b2 = Ok text →
  ToUpper (TrimSpace m1) = ToUpper (TrimSpace m2) ∧ TrimSpace p1 = TrimSpace p2 ∧
  TrimSpace k1 = TrimSpace k2 ∧ t1 = t2 ∧ sha256 b1 = sha256 b2.
Proof.
  intros Hf H1 H2.
  apply Canonical_Ok in H1 as [-> _]. apply Canonical_Ok in H2 as [E _].
  apply app_inv_tail_s, join_inj in E; [|done|done|..].
  - injection E as -> -> -> Ht Hb. split_and!; try done; [by apply FormatInt_inj|by apply hex_encode_inj].
  - apply canonical_lines_free; set_solver.
  - apply canonical_lines_free; set_solver.
Qed.

Lemma Canonical_binds_request_witness :
  is_ok (@Canonical sample_crypto "post" "/api/telemetry" "key-00001" 1750000000 "{}") = true ∧
  ToUpper (TrimSpace "post") = ToUpper (TrimSpace " POST ").
Proof.
  split; [by vm_compute|].
  destruct (@Canonical sample_crypto "post" "/api/telemetry" "key-00001" 1750000000 "{}") as [text|] eqn:E1; [|by vm_compute in E1].
  assert (@Canonical sample_crypto " POST " "/api/telemetry" "key-00001" 1750000000 "{}" = Ok text) as E2
    by (rewrite <- E1; vm_compute; reflexivity).
  refine (proj1 (@Canonical_binds_request sample_crypto _ _ _ _ _ _ _ _ _ _ text _ E1 E2)).
  intros x Hx. rewrite !elem_of_cons, elem_of_nil in Hx.
  destruct Hx as [->|[->|[->|[->|[->|[->|[]]]]]]]; vm_compute; reflexivity.
Defined.
