(* ===== verification/Boottrust.v ===== *)
(** * The keys and challenges of cryptographic boot trust
    (internal/boottrust) *)

From S2P Require Import Prelude GoStrings Encoding StringFacts Fault Artifact.

(* internal/boottrust/model.go:19-19 KeyPending *)
Definition KeyPending : string := "pending".
(* internal/boottrust/model.go:20-20 KeyApproved *)
Definition KeyApproved : string := "approved".
(* internal/boottrust/model.go:21-21 KeyRevoked *)
Definition KeyRevoked : string := "revoked".

(* internal/boottrust/model.go:25-25 MaxPublicKeyPEMBytes *)
Definition MaxPublicKeyPEMBytes : Z := Z.shiftl 8 10.
(* internal/boottrust/model.go:26-26 MaxEKFingerprintLen *)
Definition MaxEKFingerprintLen : Z := 128.

(* internal/boottrust/model.go:29-41 Key *)
Record Key := mkKey {
  k_Fingerprint : string;
  k_MachineID : string;
  k_PublicKeyPEM : string;
  k_EKFingerprint : string;
  k_State : string;
  k_FirstSeenAt : time;
  k_LastSeenAt : time;
  k_ApprovedAt : time;
  k_ApprovedBy : string;
  k_RevokedAt : time;
  k_RevokedBy : string }.

(* internal/boottrust/model.go:43-54 Challenge *)
Record Challenge := mkChallenge {
  ch_ID : string;
  ch_InstallationID : string;
  ch_MachineID : string;
  ch_KeyFingerprint : string;
  ch_Nonce : string;
  ch_CreatedAt : time;
  ch_ExpiresAt : time;
  ch_UsedAt : time;
  ch_ResponseCipher : string;
  ch_CredentialExpiry : time }.

(* internal/boottrust/model.go:56-62 Release *)
Record Release := mkRelease {
  rl_ChallengeID : string;
  rl_Ciphertext : string;
  rl_Algorithm : string;
  rl_CredentialExpiry : time;
  rl_Duplicate : bool }.

(** [N.BitLen()]. *)
Definition BitLen (n : Z) : Z := if (n =? 0)%Z then 0 else (Z.log2 (Z.abs n) + 1)%Z.

Section Keys.
Context `{Crypto}.

(** A parsed key's modulus is never nil. *)
(* internal/boottrust/model.go:64-83 ParseRSAPublicKeyPEM *)
Definition ParseRSAPublicKeyPEM (value : string) : result (rsa_PublicKey * string) :=
  let value := TrimSpace value in
  _ ← fail_if ((value =? "")%string || (MaxPublicKeyPEMBytes <? len value)%Z)
        (Plain "boot trust public key is missing or too large");
  match pem_Decode value with
  | Some (Type_, Bytes, rest) =>
    _ ← fail_if (negb (len (TrimSpace rest) =? 0)%Z || negb (Type_ =? "PUBLIC KEY")%string)
          (Plain "boot trust key must be one PKIX PUBLIC KEY PEM block");
    match ParsePKIXPublicKey Bytes with
    | None => Err (Wrapped "parse boot trust public key" (Plain "x509"))
    | Some (Some key) =>
      _ ← fail_if (negb (rsa_E key =? 65537)%Z || (BitLen (rsa_N key) <? 2048)%Z || (4096 <? BitLen (rsa_N key))%Z)
            (Plain "boot trust key must be RSA 2048-4096 with exponent 65537");
      Ok (key, "sha256:" +:+ hex_encode (sha256 Bytes))
    | Some None => Err (Plain "boot trust key must be RSA 2048-4096 with exponent 65537")
    end
  | None => Err (Plain "boot trust key must be one PKIX PUBLIC KEY PEM block")
  end.

End Keys.

(* internal/boottrust/model.go:85-101 ValidateEKFingerprint *)
Definition ValidateEKFingerprint (value : string) : result unit :=
  let value := TrimSpace value in
  if (value =? "")%string then Ok tt
  else if (MaxEKFingerprintLen <? len value)%Z || negb (HasPrefix value "sha256:") then
    Err (Plain "EK fingerprint is invalid")
  else
    let hexValue := TrimPrefix value "sha256:" in
    if negb (len hexValue =? 64)%Z then Err (Plain "EK fingerprint is invalid")
    else match hex_decode hexValue with
         | None => Err (Plain "EK fingerprint is invalid")
         | Some _ => Ok tt
         end.

(* internal/boottrust/model.go:103-116 CanonicalChallenge *)
Definition CanonicalChallenge (c : Challenge) : result string :=
  if blank (ch_ID c) || blank (ch_InstallationID c) || blank (ch_MachineID c)
     || blank (ch_KeyFingerprint c) || negb (len (ch_Nonce c) =? 32)%Z
  then Err (Plain "boot trust challenge is incomplete")
  else Ok (Join ["AEGISPXE-BOOT-TRUST-V1"; ch_ID c; ch_InstallationID c; ch_MachineID c;
                 ch_KeyFingerprint c; RawURLEncoding_EncodeToString (ch_Nonce c)] nl +:+ nl).

(** The identifiers of a challenge are single lines. *)
Definition challenge_line_ok (c : Challenge) : Prop :=
  byte_free (byte_of 10) (ch_ID c) = true ∧ byte_free (byte_of 10) (ch_InstallationID c) = true ∧
  byte_free (byte_of 10) (ch_MachineID c) = true ∧ byte_free (byte_of 10) (ch_KeyFingerprint c) = true.

Lemma CanonicalChallenge_Ok c text :
  CanonicalChallenge c = Ok text →
  text = Join ["AEGISPXE-BOOT-TRUST-V1"; ch_ID c; ch_InstallationID c; ch_MachineID c;
               ch_KeyFingerprint c; RawURLEncoding_EncodeToString (ch_Nonce c)] nl +:+ nl ∧
  len (ch_Nonce c) = 32%Z.
Proof. unfold CanonicalChallenge. case_match eqn:E; [done|]. intros [= <-]. by bool_inv. Qed.

Lemma challenge_lines_free c :
  challenge_line_ok c →
  ∀ x, x ∈ ["AEGISPXE-BOOT-TRUST-V1"; ch_ID c; ch_InstallationID c; ch_MachineID c;
            ch_KeyFingerprint c; RawURLEncoding_EncodeToString (ch_Nonce c)] →
  byte_free (byte_of 10) x = true.
Proof.
  intros (H1 & H2 & H3 & H4) x Hx. rewrite !elem_of_cons, elem_of_nil in Hx.
  destruct Hx as [->|[->|[->|[->|[->|[->|[]]]]]]]; auto with aegis.
Qed.

Lemma ParseRSA_Ok `{Crypto} value key fp :
  ParseRSAPublicKeyPEM value = Ok (key, fp) →
  rsa_E key = 65537%Z ∧ (2048 ≤ BitLen (rsa_N key) ≤ 4096)%Z ∧
  ∃ bytes, fp = "sha256:" +:+ hex_encode (sha256 bytes) ∧ ParsePKIXPublicKey bytes = Some (Some key).
Proof.
  unfold ParseRSAPublicKeyPEM. intros Hp. apply bind_Ok in Hp as (? & _ & Hp).
  destruct (pem_Decode _) as [[[ty bytes] rest]|]; [|done].
  apply bind_Ok in Hp as (? & _ & Hp).
  destruct (ParsePKIXPublicKey bytes) as [[k|]|] eqn:Ek; try done.
  apply bind_Ok in Hp as (? & Hk & [= -> <-]). apply fail_if_Ok in Hk. bool_inv.
  split_and!; eauto.
Qed.

(** ** Properties *)

(** A signed challenge names one challenge: two challenges whose
    identifiers are single lines and that have the same canonical text agree on
    id, installation, machine, key and nonce, so that a signature made for one
    installation or machine proves nothing for another. *)
Theorem CanonicalChallenge_binding c1 c2 text :
  challenge_line_ok c1 → challenge_line_ok c2 →
  CanonicalChallenge c1 = Ok text → CanonicalChallenge c2 = Ok text →
  ch_ID c1 = ch_ID c2 ∧ ch_InstallationID c1 = ch_InstallationID c2 ∧
  ch_MachineID c1 = ch_MachineID c2 ∧ ch_KeyFingerprint c1 = ch_KeyFingerprint c2 ∧
  ch_Nonce c1 = ch_Nonce c2.
Proof.
  intros L1 L2 H1 H2. apply CanonicalChallenge_Ok in H1 as [-> _]. apply CanonicalChallenge_Ok in H2 as [E _].
  apply app_inv_tail_s, join_inj in E; [|done|done|by apply challenge_lines_free..].
  injection E as -> -> -> -> Hn. split_and!; try done. by apply RawURL_inj.
Qed.

Definition sample_challenge : Challenge :=
  mkChallenge "btc_1" "inst_1" "mch_1" "sha256:00" "01234567890123456789012345678901"
    5%Z 10%Z zeroTime "" zeroTime.

Lemma CanonicalChallenge_binding_witness :
  is_ok (CanonicalChallenge sample_challenge) = true ∧
  ch_Nonce sample_challenge = ch_Nonce sample_challenge.
Proof.
  split; [by vm_compute|].
  destruct (CanonicalChallenge sample_challenge) as [text|] eqn:E; [|by vm_compute in E].
  apply (CanonicalChallenge_binding sample_challenge sample_challenge text); try exact E;
    by vm_compute.
Defined.
