(* ===== verification/Event.v ===== *)
(** * Audit events (internal/event) *)

From S2P Require Import Prelude.

(* internal/event/model.go:5-5 EntityMachine *)
Definition EntityMachine : string := "machine".
(* internal/event/model.go:6-6 EntityInstallation *)
Definition EntityInstallation : string := "installation".
(* internal/event/model.go:7-7 EntityOperatorUser *)
Definition EntityOperatorUser : string := "operator_user".
(* internal/event/model.go:8-8 EntitySystem *)
Definition EntitySystem : string := "system".
(* internal/event/model.go:9-9 MachineDiscovered *)
Definition MachineDiscovered : string := "MACHINE_DISCOVERED".
(* internal/event/model.go:10-10 MachineSeen *)
Definition MachineSeen : string := "MACHINE_SEEN".
(* internal/event/model.go:11-11 MachinePolicyChanged *)
Definition MachinePolicyChanged : string := "MACHINE_POLICY_CHANGED".
(* internal/event/model.go:12-12 MachineNicknameChanged *)
Definition MachineNicknameChanged : string := "MACHINE_NICKNAME_CHANGED".
(* internal/event/model.go:13-13 MachineDeleted *)
Definition MachineDeleted : string := "MACHINE_DELETED".
(* internal/event/model.go:14-14 InstallationCreated *)
Definition InstallationCreated : string := "INSTALLATION_CREATED".
(* internal/event/model.go:15-15 InstallationDeleted *)
Definition InstallationDeleted : string := "INSTALLATION_DELETED".
(* internal/event/model.go:16-16 InstallationArmed *)
Definition InstallationArmed : string := "INSTALLATION_ARMED".
(* internal/event/model.go:17-17 InstallationAssignmentCancelled *)
Definition InstallationAssignmentCancelled : string := "INSTALLATION_ASSIGNMENT_CANCELLED".
(* internal/event/model.go:18-18 InstallationAssignmentConsumed *)
Definition InstallationAssignmentConsumed : string := "INSTALLATION_ASSIGNMENT_CONSUMED".
(* internal/event/model.go:19-19 OperatorUserDiscovered *)
Definition OperatorUserDiscovered : string := "OPERATOR_USER_DISCOVERED".
(* internal/event/model.go:20-20 OperatorInitialAdminClaimed *)
Definition OperatorInitialAdminClaimed : string := "OPERATOR_INITIAL_ADMIN_CLAIMED".
(* internal/event/model.go:21-21 OperatorUserApproved *)
Definition OperatorUserApproved : string := "OPERATOR_USER_APPROVED".
(* internal/event/model.go:22-22 OperatorUserBlocked *)
Definition OperatorUserBlocked : string := "OPERATOR_USER_BLOCKED".
(* internal/event/model.go:23-23 OperatorPasskeyEnrolled *)
Definition OperatorPasskeyEnrolled : string := "OPERATOR_PASSKEY_ENROLLED".
(* internal/event/model.go:24-24 OperatorRecoveryLogin *)
Definition OperatorRecoveryLogin : string := "OPERATOR_RECOVERY_LOGIN".

(* internal/event/model.go:26-36 Event *)
Record Event := mkEvent {
  Sequence : Z;
  EntityType : string;
  EntityID : string;
  Type_ : string;
  OccurredAt : time;
  RequestID : string;
  Actor : string;
  Message : string;
  ErrorCode : string }.
