(* ===== verification/Op.v ===== *)
(** * The monad of the store's operations

    An operation of internal/store runs against one database connection
    ([SetMaxOpenConns(1)], so that transactions are serial).  [conn] has the
    committed database and the working copy of the open transaction; a commit
    makes the working copy the committed one, a rollback (every deferred
    [tx.Rollback()] on an error return) forgets it.  What an operation reads
    from outside is its [ambient]: the clock, the outcomes of [rand.Read] and
    whether the storage engine executes a statement; the last two are indexed by
    the number of such calls made before. *)

From S2P Require Import Prelude GoStrings Fault.

Record ambient := mkAmbient {
  clock : time;
  entropy : nat → nat → option string; (* call, bytes requested *)
  io : nat → bool }.

(** [rand.Read] fills the buffer. *)
Definition entropy_ok (a : ambient) : Prop :=
  ∀ t n s, entropy a t n = Some s → String.length s = n.

(** Nothing outside the program fails. *)
Definition healthy (a : ambient) : Prop :=
  (∀ t, io a t = true) ∧ (∀ t n, is_Some (entropy a t n)).

Section Op.
Context {DB : Type}.

Record conn := mkConn { committed : DB; work : DB; tick : nat }.

Definition M (A : Type) : Type := ambient → conn → result A * conn.

#[global] Instance M_ret : MRet M := λ A x _ c, (Ok x, c).
#[global] Instance M_bind : MBind M := λ A B f m a c,
  match m a c with
  | (Ok x, c') => f x a c'
  | (Err e, c') => (Err e, c')
  end.

Definition lift {A} (r : result A) : M A := λ _ c, (r, c).
Definition fail {A} (e : error) : M A := lift (Err e).

(** [if b { return err }]. *)
Definition reject (b : bool) (e : error) : M unit := lift (fail_if b e).

(** [if err := m; err != nil { return wrap(err) }]. *)
Definition or_err {A} (m : M A) (wrap : error → error) : M A := λ a c,
  let '(r, c') := m a c in (or_fail r wrap, c').

(** [v, err := m], for code that inspects [err]. *)
Definition try {A} (m : M A) : M (result A) := λ a c, let '(r, c') := m a c in (Ok r, c').

Definition now : M time := λ a c, (Ok (clock a), c).

Definition rand_Read (n : nat) : M string := λ a c,
  (match entropy a (tick c) n with Some s => Ok s | None => Err (Plain "rand") end,
   mkConn (committed c) (work c) (S (tick c))).

Definition BeginTx : M unit := λ a c,
  if io a (tick c) then (Ok tt, mkConn (committed c) (committed c) (S (tick c)))
  else (Err SQLError, mkConn (committed c) (work c) (S (tick c))).

Definition Commit : M unit := λ a c,
  if io a (tick c) then (Ok tt, mkConn (work c) (work c) (S (tick c)))
  else (Err SQLError, mkConn (committed c) (work c) (S (tick c))).

(** A statement of the open transaction: [f] gives the new working copy and
    the result, or the statement's error. *)
Definition stmt {A} (f : DB → result (DB * A)) : M A := λ a c,
  match (if io a (tick c) then f (work c) else Err SQLError) with
  | Ok (w, x) => (Ok x, mkConn (committed c) w (S (tick c)))
  | Err e => (Err e, mkConn (committed c) (work c) (S (tick c)))
  end.

(** A statement outside a transaction commits by itself. *)
Definition auto_stmt {A} (f : DB → result (DB * A)) : M A := λ a c,
  match (if io a (tick c) then f (committed c) else Err SQLError) with
  | Ok (w, x) => (Ok x, mkConn w w (S (tick c)))
  | Err e => (Err e, mkConn (committed c) (work c) (S (tick c)))
  end.

Definition query {A} (f : DB → result A) : M A := stmt (λ db, x ← f db; Ok (db, x)).
Definition db_query {A} (f : DB → result A) : M A := auto_stmt (λ db, x ← f db; Ok (db, x)).

(** One call of an operation on a database. *)
Definition run {A} (m : M A) (a : ambient) (db : DB) : result A * DB :=
  let '(r, c) := m a (mkConn db db 0) in (r, committed c).

(** ** Successful runs *)

Lemma M_bind_Ok {A B} (m : M A) (f : A → M B) a c x c' :
  (m ≫= f) a c = (Ok x, c') ↔ ∃ y c1, m a c = (Ok y, c1) ∧ f y a c1 = (Ok x, c').
Proof.
  unfold mbind, M_bind. destruct (m a c) as [[y|e] c1] eqn:E; naive_solver.
Qed.

Lemma M_ret_Ok {A} (x y : A) a c c' : (mret x : M A) a c = (Ok y, c') ↔ x = y ∧ c' = c.
Proof. unfold mret, M_ret. naive_solver. Qed.

Lemma lift_inv {A} (r r' : result A) a c c' : lift r a c = (r', c') ↔ r' = r ∧ c' = c.
Proof. unfold lift. naive_solver. Qed.

Lemma or_err_iff {A} (m : M A) w a c x c' : or_err m w a c = (Ok x, c') ↔ m a c = (Ok x, c').
Proof. unfold or_err. destruct (m a c) as [[y|e] c1]; simpl; naive_solver. Qed.

Lemma or_err_Ok {A} (m : M A) w a c x c' : or_err m w a c = (Ok x, c') → m a c = (Ok x, c').
Proof. apply or_err_iff. Qed.

Lemma or_err_Err {A} (m : M A) w a c e c' :
  or_err m w a c = (Err e, c') → ∃ e', m a c = (Err e', c') ∧ e = w e'.
Proof. unfold or_err. destruct (m a c) as [[y|e'] c1]; simpl; naive_solver. Qed.

Lemma try_Ok {A} (m : M A) a c r c' : try m a c = (Ok r, c') → m a c = (r, c').
Proof. unfold try. destruct (m a c) as [r' c1]. naive_solver. Qed.

Lemma fail_Ok {A} e a c (x : A) c' : fail e a c = (Ok x, c') → False.
Proof. unfold fail, lift. naive_solver. Qed.

Lemma reject_Ok b e a c u c' : reject b e a c = (Ok u, c') ↔ b = false ∧ c' = c.
Proof. unfold reject. rewrite lift_inv. destruct b, u; simpl; naive_solver. Qed.

Lemma now_Ok a c x c' : now a c = (Ok x, c') ↔ x = clock a ∧ c' = c.
Proof. unfold now. naive_solver. Qed.

Lemma rand_Ok n a d w t s c' :
  rand_Read n a (mkConn d w t) = (Ok s, c') ↔ entropy a t n = Some s ∧ c' = mkConn d w (S t).
Proof. unfold rand_Read. simpl. destruct (entropy a t n); naive_solver. Qed.

Lemma BeginTx_Ok a d w t u c' :
  BeginTx a (mkConn d w t) = (Ok u, c') ↔ io a t = true ∧ c' = mkConn d d (S t).
Proof. unfold BeginTx. simpl. destruct u, (io a t); naive_solver. Qed.

Lemma Commit_Ok a d w t u c' :
  Commit a (mkConn d w t) = (Ok u, c') ↔ io a t = true ∧ c' = mkConn w w (S t).
Proof. unfold Commit. simpl. destruct u, (io a t); naive_solver. Qed.

Lemma stmt_Ok {A} (f : DB → result (DB * A)) a d w t x c' :
  stmt f a (mkConn d w t) = (Ok x, c') ↔
  io a t = true ∧ ∃ w', f w = Ok (w', x) ∧ c' = mkConn d w' (S t).
Proof.
  unfold stmt. simpl. destruct (io a t); [|naive_solver].
  destruct (f w) as [[w' y]|e]; naive_solver.
Qed.

Lemma stmt_Err {A} (f : DB → result (DB * A)) a d w t e c' :
  stmt f a (mkConn d w t) = (Err e, c') →
  c' = mkConn d w (S t) ∧ (f w = Err e ∨ e = SQLError).
Proof.
  unfold stmt. simpl. destruct (io a t); [|naive_solver].
  destruct (f w) as [[w' y]|e']; naive_solver.
Qed.

Lemma auto_stmt_Ok {A} (f : DB → result (DB * A)) a d w t x c' :
  auto_stmt f a (mkConn d w t) = (Ok x, c') ↔
  io a t = true ∧ ∃ w', f d = Ok (w', x) ∧ c' = mkConn w' w' (S t).
Proof.
  unfold auto_stmt. simpl. destruct (io a t); [|naive_solver].
  destruct (f d) as [[w' y]|e]; naive_solver.
Qed.

Lemma auto_stmt_Err {A} (f : DB → result (DB * A)) a d w t e c' :
  auto_stmt f a (mkConn d w t) = (Err e, c') →
  c' = mkConn d w (S t) ∧ (f d = Err e ∨ e = SQLError).
Proof.
  unfold auto_stmt. simpl. destruct (io a t); [|naive_solver].
  destruct (f d) as [[w' y]|e']; naive_solver.
Qed.

Lemma query_Ok {A} (f : DB → result A) a d w t x c' :
  query f a (mkConn d w t) = (Ok x, c') ↔ io a t = true ∧ f w = Ok x ∧ c' = mkConn d w (S t).
Proof.
  unfold query. rewrite stmt_Ok. destruct (f w) as [y|e]; simpl; naive_solver.
Qed.

Lemma query_Err {A} (f : DB → result A) a d w t e c' :
  query f a (mkConn d w t) = (Err e, c') → c' = mkConn d w (S t) ∧ (f w = Err e ∨ e = SQLError).
Proof.
  intros (-> & H)%stmt_Err. destruct (f w) as [y|e']; simpl in H; naive_solver.
Qed.

(** A query whose error the code inspects. *)
Lemma try_query_inv {A} (f : DB → result A) a d w t r c' :
  try (query f) a (mkConn d w t) = (Ok r, c') →
  c' = mkConn d w (S t) ∧ (r = f w ∨ r = Err SQLError).
Proof.
  intros H%try_Ok. destruct r as [x|e].
  - apply query_Ok in H as (_ & H & ->). auto.
  - apply query_Err in H as (-> & [H| ->]); auto.
Qed.

Lemma db_query_Ok {A} (f : DB → result A) a d t x c' :
  db_query f a (mkConn d d t) = (Ok x, c') ↔ io a t = true ∧ f d = Ok x ∧ c' = mkConn d d (S t).
Proof.
  unfold db_query. rewrite auto_stmt_Ok. destruct (f d) as [y|e]; simpl; naive_solver.
Qed.

(** ** Operations that leave the database as it was *)

(** [m] commits nothing. *)
Definition keeps {A} (m : M A) : Prop := ∀ a c, committed (m a c).2 = committed c.

(** [m] commits nothing when it returns an error. *)
Definition atomic {A} (m : M A) : Prop :=
  ∀ a c e, (m a c).1 = Err e → committed (m a c).2 = committed c.

Lemma keeps_atomic {A} (m : M A) : keeps m → atomic m.
Proof. intros H a c e _. apply H. Qed.

Lemma keeps_bind {A B} (m : M A) (f : A → M B) : keeps m → (∀ x, keeps (f x)) → keeps (m ≫= f).
Proof.
  intros Hm Hf a c. unfold mbind, M_bind. specialize (Hm a c).
  destruct (m a c) as [[x|e] c1]; simpl in *; [by rewrite Hf|done].
Qed.

Lemma atomic_bind {A B} (m : M A) (f : A → M B) :
  keeps m → (∀ x, atomic (f x)) → atomic (m ≫= f).
Proof.
  intros Hm Hf a c e. unfold mbind, M_bind. specialize (Hm a c).
  destruct (m a c) as [[x|e'] c1]; simpl in *; [|done]. intros H. by rewrite (Hf _ _ _ _ H).
Qed.

(** After the commit only values are computed. *)
Lemma atomic_then_ret {A B} (m : M A) (f : A → B) : atomic m → atomic (x ← m; mret (f x)).
Proof.
  intros Hm a c e. unfold mbind, M_bind. specialize (Hm a c).
  destruct (m a c) as [[x|e'] c1]; simpl in *; [done|]. intros _. by apply (Hm e').
Qed.

Lemma keeps_lift {A} (r : result A) : keeps (lift r).
Proof. done. Qed.
Lemma keeps_ret {A} (x : A) : keeps (mret x).
Proof. done. Qed.
Lemma keeps_fail {A} e : keeps (@fail A e).
Proof. done. Qed.
Lemma keeps_reject b e : keeps (reject b e).
Proof. done. Qed.
Lemma keeps_now : keeps now.
Proof. done. Qed.
Lemma keeps_rand n : keeps (rand_Read n).
Proof. done. Qed.
Lemma keeps_begin : keeps BeginTx.
Proof. intros a c. unfold BeginTx. by destruct (io a (tick c)). Qed.
Lemma keeps_stmt {A} (f : DB → result (DB * A)) : keeps (stmt f).
Proof. intros a c. unfold stmt. by destruct (if io a (tick c) then f (work c) else Err SQLError) as [[]|]. Qed.
Lemma keeps_query {A} (f : DB → result A) : keeps (query f).
Proof. apply keeps_stmt. Qed.
Lemma keeps_db_query {A} (f : DB → result A) : keeps (db_query f).
Proof.
  intros a c. unfold db_query, auto_stmt. destruct (io a (tick c)); [|done].
  by destruct (f (committed c)).
Qed.
Lemma keeps_or_err {A} (m : M A) w : keeps m → keeps (or_err m w).
Proof. intros H a c. specialize (H a c). unfold or_err. by destruct (m a c). Qed.
Lemma keeps_try {A} (m : M A) : keeps m → keeps (try m).
Proof. intros H a c. specialize (H a c). unfold try. by destruct (m a c). Qed.

Lemma atomic_or_err {A} (m : M A) w : atomic m → atomic (or_err m w).
Proof.
  intros H a c e. specialize (H a c). unfold or_err.
  destruct (m a c) as [[x|e'] c1]; simpl in *; [done|]. intros _. by apply (H e').
Qed.
Lemma atomic_commit : atomic Commit.
Proof. intros a c e. unfold Commit. by destruct (io a (tick c)). Qed.
Lemma atomic_auto {A} (f : DB → result (DB * A)) : atomic (auto_stmt f).
Proof.
  intros a c e. unfold auto_stmt.
  by destruct (if io a (tick c) then f (committed c) else Err SQLError) as [[]|].
Qed.

Lemma run_atomic {A} (m : M A) a db e db' : atomic m → run m a db = (Err e, db') → db' = db.
Proof.
  unfold run. intros H. specialize (H a (mkConn db db 0) e).
  destruct (m a (mkConn db db 0)) as [r c]. simpl in H. intros [= -> <-]. by apply H.
Qed.

Lemma run_keeps {A} (m : M A) a db r db' : keeps m → run m a db = (r, db') → db' = db.
Proof.
  unfold run. intros H. specialize (H a (mkConn db db 0)).
  destruct (m a (mkConn db db 0)) as [r' c]. simpl in H. by intros [= -> <-].
Qed.

Lemma run_Ok {A} (m : M A) a db x db' :
  run m a db = (Ok x, db') ↔ ∃ c, m a (mkConn db db 0) = (Ok x, c) ∧ db' = committed c.
Proof. unfold run. destruct (m a (mkConn db db 0)) as [r c]. naive_solver. Qed.

End Op.
Arguments conn : clear implicits.
Arguments M : clear implicits.

#[export] Hint Resolve keeps_lift keeps_ret keeps_fail keeps_reject keeps_now keeps_rand keeps_begin
  keeps_stmt keeps_query keeps_db_query atomic_commit atomic_auto : aegis.

(** Walks through an operation to show that it commits nothing. *)
Ltac solve_keeps :=
  repeat first
  [ solve [auto with aegis]
  | apply keeps_or_err | apply keeps_try
  | apply keeps_bind; [|intros ?]
  | match goal with
    | |- keeps (if ?b then _ else _) => destruct b
    | |- keeps (match ?x with _ => _ end) => destruct x
    end ].

(** Walks through an operation to show that an error commits nothing. *)
Ltac solve_atomic :=
  repeat first
  [ solve [auto with aegis]
  | solve [apply keeps_atomic; solve_keeps]
  | apply atomic_or_err
  | apply atomic_then_ret
  | apply atomic_bind; [solve [solve_keeps]|intros ?]
  | match goal with
    | |- atomic (if ?b then _ else _) => destruct b
    | |- atomic (match ?x with _ => _ end) => destruct x
    end ].

(** Inverts a successful run step by step. *)
Ltac m_inv :=
  repeat match goal with
  | H : _ = (Ok _, _) |- _ => progress cbv beta iota in H
  | H : run _ _ _ = (Ok _, _) |- _ => apply run_Ok in H; destruct H as (? & H & ->)
  | H : (_ ≫= _) _ _ = (Ok _, _) |- _ => apply M_bind_Ok in H; destruct H as (? & ? & ? & H)
  | H : mret _ _ _ = (Ok _, _) |- _ => apply M_ret_Ok in H; destruct H as [? ?]; subst
  | H : lift _ _ _ = (Ok _, _) |- _ => apply lift_inv in H; destruct H as [? ?]; subst
  | H : lift _ _ _ = (Err _, _) |- _ => apply lift_inv in H; destruct H as [? ?]; subst
  | H : fail _ _ _ = (Ok _, _) |- _ => destruct (fail_Ok _ _ _ _ _ H)
  | H : reject _ _ _ _ = (Ok _, _) |- _ => apply reject_Ok in H; destruct H as [? ?]; subst
  | H : or_err _ _ _ _ = (Ok _, _) |- _ => apply or_err_Ok in H
  | H : try (query _) _ (mkConn _ _ _) = (Ok _, _) |- _ => apply try_query_inv in H; destruct H as [? ?]; subst
  | H : now _ _ = (Ok _, _) |- _ => apply now_Ok in H; destruct H as [? ?]; subst
  | H : rand_Read _ _ (mkConn _ _ _) = (Ok _, _) |- _ => apply rand_Ok in H; destruct H as [? ?]; subst
  | H : BeginTx _ (mkConn _ _ _) = (Ok _, _) |- _ => apply BeginTx_Ok in H; destruct H as [? ?]; subst
  | H : Commit _ (mkConn _ _ _) = (Ok _, _) |- _ => apply Commit_Ok in H; destruct H as [? ?]; subst
  | H : query _ _ (mkConn _ _ _) = (Ok _, _) |- _ => apply query_Ok in H; destruct H as (? & ? & ?); subst
  | H : db_query _ _ (mkConn ?d ?d _) = (Ok _, _) |- _ => apply db_query_Ok in H; destruct H as (? & ? & ?); subst
  | H : stmt _ _ (mkConn _ _ _) = (Ok _, _) |- _ => apply stmt_Ok in H; destruct H as (? & ? & ? & ?); subst
  | H : auto_stmt _ _ (mkConn _ _ _) = (Ok _, _) |- _ => apply auto_stmt_Ok in H; destruct H as (? & ? & ? & ?); subst
  end.
