(* ===== verification/Schema.v ===== *)
(** * Bringing the database up to date (internal/store/schema.go, store.go)

    A [catalog] is what the migration sees of a database file: the version
    rows, the tables with their columns and rows, the names of the indexes, and
    the journal mode.
    Types and constraints of columns are those of Db.v and left out here. *)

From S2P Require Import Prelude GoStrings Fault Op.

(** ** The catalog *)

Abbreviation row := (gmap string string).

Record table := mkTable { columns : list string; rows : list row }.

Record catalog := mkCatalog { meta : option (list Z); tables : gmap string table; indexes : gset string; journal : string }.

Definition set_meta (m : option (list Z)) (c : catalog) : catalog := mkCatalog m (tables c) (indexes c) (journal c).
Definition set_table (n : string) (t : table) (c : catalog) : catalog := mkCatalog (meta c) (<[n := t]> (tables c)) (indexes c) (journal c).
Definition set_index (n : string) (c : catalog) : catalog := mkCatalog (meta c) (tables c) ({[n]} ∪ indexes c) (journal c).
Definition set_journal (j : string) (c : catalog) : catalog := mkCatalog (meta c) (tables c) (indexes c) j.

Definition empty_catalog : catalog := mkCatalog None ∅ ∅ "delete".

(** The statements of the schema; [unique] is the condition of a unique partial
    index. *)
Inductive statement :=
| CreateMeta
| InsertVersion (version : Z)
| CreateTable (name : string) (columns : list string)
| CreateIndex (name table : string) (columns : list string) (unique : option (string * string)).

(** The rows a unique index covers have different keys. *)
Definition unique_rows (columns : list string) (condition : string * string) (l : list row) : bool :=
  bool_decide (NoDup ((λ r : row, (r !!.) <$> columns) <$> filter (λ r : row, r !! condition.1 = Some condition.2) l)).

Definition exec (s : statement) (c : catalog) : result catalog :=
  match s with
  | CreateMeta => Ok (match meta c with None => set_meta (Some []) c | Some _ => c end)
  | InsertVersion version =>
    match meta c with
    | None => Err SQLError
    | Some [] => Ok (set_meta (Some [version]) c)
    | Some _ => Ok c
    end
  | CreateTable name columns =>
    Ok (match tables c !! name with None => set_table name (mkTable columns []) c | Some _ => c end)
  | CreateIndex name table cols unique =>
    if bool_decide (name ∈ indexes c) then Ok c else
    match tables c !! table with
    | None => Err SQLError
    | Some t =>
      _ ← fail_if (negb (bool_decide (cols ⊆ columns t))) SQLError;
      _ ← fail_if (negb (match unique with None => true | Some condition => unique_rows cols condition (rows t) end)) SQLError;
      Ok (set_index name c)
    end
  end.

(** ** The schema *)

(* internal/store/schema.go:9-9 currentSchemaVersion *)
Definition currentSchemaVersion : Z := 8.

(* internal/store/schema.go:28-196 initialize *)
Definition statements : list statement :=
  [CreateMeta; InsertVersion 8;
   CreateTable "machines" ["id"; "nickname"; "policy"; "architecture"; "firmware"; "secure_boot_state"; "secure_boot_observed_at"; "first_seen"; "last_seen"];
   CreateTable "machine_identifiers" ["machine_id"; "kind"; "value"; "first_seen"; "last_seen"];
   CreateTable "installation_specs" ["id"; "machine_id"; "driver_id"; "driver_version"; "os_release"; "architecture"; "profile_id"; "profile_revision";
     "profile_json"; "artifacts_json"; "storage_json"; "security_json"; "lifecycle_credential_id"; "created_at"; "created_by"];
   CreateIndex "idx_installation_specs_machine" "installation_specs" ["machine_id"; "created_at"] None;
   CreateTable "installation_assignments" ["id"; "machine_id"; "installation_id"; "state"; "trust_requirement"; "armed_at"; "armed_by"; "consumed_at"; "cancelled_at"];
   CreateIndex "idx_installation_assignments_armed_machine" "installation_assignments" ["machine_id"] (Some ("state", "armed"));
   CreateIndex "idx_installation_assignments_installation" "installation_assignments" ["installation_id"] None;
   CreateTable "operator_users" ["id"; "provider"; "subject"; "display_name"; "email"; "role"; "status"; "webauthn_handle"; "created_at"; "updated_at"; "approved_at"; "approved_by"];
   CreateIndex "idx_operator_users_status" "operator_users" ["status"; "created_at"] None;
   CreateTable "operator_credentials" ["user_id"; "rp_id"; "credential_id"; "credential_json"; "created_at"; "updated_at"; "last_used_at"];
   CreateTable "events" ["sequence"; "entity_type"; "entity_id"; "event_type"; "occurred_at"; "request_id"; "actor"; "message"; "error_code"];
   CreateIndex "idx_events_entity" "events" ["entity_type"; "entity_id"; "sequence"] None;
   CreateTable "installation_lifecycle_credentials" ["credential_id"; "installation_id"; "secret_sha256"; "created_at"; "expires_at"; "revoked_at"; "last_used_at"];
   CreateIndex "idx_installation_lifecycle_credentials_installation" "installation_lifecycle_credentials" ["installation_id"] None;
   CreateTable "installation_lifecycle_events" ["sequence"; "installation_id"; "stage"; "source"; "received_at"; "client_at"; "request_id"; "idempotency_key"; "message"; "error_code"; "metadata_json"];
   CreateIndex "idx_installation_lifecycle_events_installation" "installation_lifecycle_events" ["installation_id"; "sequence"] None;
   CreateTable "installation_log_chunks" ["id"; "installation_id"; "sequence"; "source"; "received_at"; "client_at"; "request_id"; "idempotency_key"; "content"; "content_sha256"];
   CreateIndex "idx_installation_log_chunks_installation" "installation_log_chunks" ["installation_id"; "sequence"] None;
   CreateTable "machine_boot_trust_keys" ["fingerprint"; "machine_id"; "public_key_pem"; "ek_fingerprint"; "state"; "first_seen_at"; "last_seen_at"; "approved_at"; "approved_by"; "revoked_at"; "revoked_by"];
   CreateIndex "idx_machine_boot_trust_keys_machine" "machine_boot_trust_keys" ["machine_id"; "state"; "first_seen_at"] None;
   CreateIndex "idx_machine_boot_trust_keys_approved_machine" "machine_boot_trust_keys" ["machine_id"] (Some ("state", "approved"));
   CreateTable "installation_boot_trust_challenges" ["id"; "installation_id"; "machine_id"; "key_fingerprint"; "nonce"; "created_at"; "expires_at"; "used_at"; "response_ciphertext"; "credential_expires_at"];
   CreateIndex "idx_installation_boot_trust_challenges_installation" "installation_boot_trust_challenges" ["installation_id"; "created_at"] None].

(** The columns that tables of older versions lack: table, column, default. *)
Record addition := mkAddition { a_table : string; a_column : string; a_default : string; a_inspect : string; a_migrate : string }.

(* internal/store/schema.go:212-254 initialize *)
Definition additions : list addition :=
  [mkAddition "installation_specs" "profile_json" "{}" "inspect installation schema" "migrate installation profile snapshot";
   mkAddition "machines" "nickname" "" "inspect machine nickname schema" "migrate machine nickname";
   mkAddition "machines" "secure_boot_state" "unknown" "inspect machine Secure Boot schema" "migrate machine Secure Boot state";
   mkAddition "machines" "secure_boot_observed_at" "" "inspect machine Secure Boot observation schema" "migrate machine Secure Boot observation timestamp"].

(** ** The migration *)

(** The query of the table's columns has no row for a missing table. *)
(* internal/store/schema.go:283-305 columnExists *)
Definition column_exists (table column : string) (c : catalog) : bool :=
  match tables c !! table with Some t => bool_decide (column ∈ columns t) | None => false end.

(** [ALTER TABLE ... ADD COLUMN]: every row gets the default. *)
Definition add_column (x : addition) (c : catalog) : result catalog :=
  match tables c !! a_table x with
  | None => Err SQLError
  | Some t =>
    _ ← fail_if (bool_decide (a_column x ∈ columns t)) SQLError;
    Ok (set_table (a_table x) (mkTable (columns t ++ [a_column x]) (<[a_column x := a_default x]> <$> rows t)) c)
  end.

Definition first_version (c : catalog) : result Z :=
  match meta c with Some (version :: _) => Ok version | _ => Err SQLError end.

Definition set_versions (c : catalog) : catalog := 
  set_meta (match meta c with Some l => Some ((λ _, currentSchemaVersion) <$> l) | None => None end) c.

Definition change (f : catalog → result catalog) : M catalog unit := stmt (λ c, c ← f c; Ok (c, tt)).

Fixpoint run_all {A} (f : A → M catalog unit) (l : list A) : M catalog unit :=
  match l with [] => mret tt | x :: l => _ ← f x; run_all f l end.

(** The journal mode is one of the file, which changes at once; the other two
    settings are the connection's. *)
(* internal/store/schema.go:12-20 initialize *)
Definition pragma (setting : string) : M catalog unit :=
  or_err (if (setting =? "journal_mode = WAL")%string then auto_stmt (λ c, Ok (set_journal "wal" c, tt)) else db_query (λ _, Ok tt))
    (Wrapped "sqlite pragma").

(* internal/store/schema.go:212-254 initialize *)
Definition add_missing (x : addition) : M catalog unit :=
  has ← or_err (query (λ c, Ok (column_exists (a_table x) (a_column x) c))) (Wrapped (a_inspect x));
  if negb has then or_err (change (add_column x)) (Wrapped (a_migrate x)) else mret tt.

(* internal/store/schema.go:22-262 initialize *)
Definition upgrade : M catalog unit :=
  _ ← or_err BeginTx (Wrapped "begin schema transaction");
  _ ← run_all (λ s, or_err (change (exec s)) (Wrapped "apply schema")) statements;
  version ← or_err (query first_version) (Wrapped "read schema version");
  _ ← reject (currentSchemaVersion <? version)%Z (Plain "database schema version is newer than supported version");
  _ ← run_all add_missing additions;
  _ ← or_err (change (λ c, Ok (set_versions c))) (Wrapped "update schema version");
  or_err Commit (Wrapped "commit schema").

(* internal/store/schema.go:12-16 initialize *)
Definition pragmas : list string := ["foreign_keys = ON"; "journal_mode = WAL"; "busy_timeout = 5000"].

(* internal/store/schema.go:11-281 Store.initialize *)
Definition initialize : M catalog unit := _ ← run_all pragma pragmas; upgrade.

(** An error closes the database again. *)
(* internal/store/store.go:19-33 Open *)
Definition Open_ : M catalog unit :=
  _ ← or_err (db_query (λ _, Ok tt)) (Wrapped "open sqlite"); initialize.

(** ** What the migration does *)

Fixpoint apply_all {A} (f : A → catalog → result catalog) (l : list A) (c : catalog) : result catalog :=
  match l with [] => Ok c | x :: l => c ← f x c; apply_all f l c end.

Definition supply (x : addition) (c : catalog) : result catalog :=
  if column_exists (a_table x) (a_column x) c then Ok c else add_column x c.

(** The specification: what an up-to-date database is. *)
Definition convert (c : catalog) : result catalog :=
  c ← apply_all exec statements c;
  version ← first_version c;
  _ ← fail_if (currentSchemaVersion <? version)%Z (Plain "database schema version is newer than supported version");
  c ← apply_all supply additions c;
  Ok (set_versions c).

Definition migrate (c : catalog) : result catalog := convert (set_journal "wal" c).

Lemma keeps_run_all {A} (f : A → M catalog unit) l : (∀ x, keeps (f x)) → keeps (run_all f l).
Proof. intros Hf. induction l as [|x l IH]; [apply keeps_ret|]. cbn [run_all]. apply keeps_bind; [apply Hf|done]. Qed.

Lemma change_Ok f a d w t u c' : change f a (mkConn d w t) = (Ok u, c') ↔ io a t = true ∧ ∃ w', f w = Ok w' ∧ c' = mkConn d w' (S t).
Proof.
  unfold change. rewrite stmt_Ok. destruct u. split.
  - intros (Hio & w' & Hf & ->). split; [done|]. exists w'. destruct (f w); by simplify_eq/=.
  - intros (Hio & w' & Hf & ->). split; [done|]. exists w'. by rewrite Hf.
Qed.

Lemma keeps_change f : keeps (change f).
Proof. apply keeps_stmt. Qed.

Lemma atomic_upgrade : atomic upgrade.
Proof.
  unfold upgrade. repeat (apply atomic_bind; [|intros ?]).
  all: try (apply keeps_run_all; intros; unfold add_missing).
  all: solve [solve_keeps | apply keeps_or_err, keeps_change | solve_atomic
             | apply keeps_bind; [solve_keeps|intros has; destruct has; cbn; [apply keeps_ret|apply keeps_or_err, keeps_change]]].
Qed.

(** The settings change nothing but the journal mode, whatever fails. *)
Lemma pragmas_run a c t r c' :
  run_all pragma pragmas a (mkConn c c t) = (r, c') →
  match r with
  | Ok _ => c' = mkConn (set_journal "wal" c) (set_journal "wal" c) (S (S (S t)))
  | Err _ => committed c' = c ∨ committed c' = set_journal "wal" c
  end.
Proof.
  cbn [run_all pragmas]. unfold pragma, or_err, db_query, auto_stmt, mbind, M_bind, mret, M_ret. cbn [String.eqb Ascii.eqb Bool.eqb committed work tick].
  destruct (io a t); cbn; [|intros [= <- <-]; by left].
  destruct (io a (S t)); cbn; [|intros [= <- <-]; by left].
  destruct (io a (S (S t))); cbn; intros [= <- <-]; [done|by right].
Qed.

Lemma pragmas_healthy a c t : healthy a →
  run_all pragma pragmas a (mkConn c c t) = (Ok tt, mkConn (set_journal "wal" c) (set_journal "wal" c) (S (S (S t)))).
Proof.
  intros [Hio _]. cbn [run_all pragmas]. unfold pragma, or_err, db_query, auto_stmt, mbind, M_bind, mret, M_ret.
  cbn. by rewrite !Hio.
Qed.

(** A loop of statements that change the working copy by [g]. *)
Lemma run_all_Ok {A} (f : A → M catalog unit) (g : A → catalog → result catalog) l :
  (∀ x a d w t c', f x a (mkConn d w t) = (Ok tt, c') → ∃ w' t', g x w = Ok w' ∧ c' = mkConn d w' t') →
  ∀ a d w t c', run_all f l a (mkConn d w t) = (Ok tt, c') → ∃ w' t', apply_all g l w = Ok w' ∧ c' = mkConn d w' t'.
Proof.
  intros Hf. induction l as [|x l IH]; intros a d w t c' Hr; cbn [run_all apply_all] in *.
  - apply M_ret_Ok in Hr as [_ ->]. by exists w, t.
  - apply M_bind_Ok in Hr as ([] & c1 & (w1 & t1 & Hg & ->)%Hf & (w' & t' & Ha & ->)%IH).
    exists w', t'. rewrite Hg. done.
Qed.

Lemma run_all_healthy {A} (f : A → M catalog unit) (g : A → catalog → result catalog) l a :
  (∀ x d w t w', g x w = Ok w' → ∃ t', f x a (mkConn d w t) = (Ok tt, mkConn d w' t')) →
  ∀ d w t w', apply_all g l w = Ok w' → ∃ t', run_all f l a (mkConn d w t) = (Ok tt, mkConn d w' t').
Proof.
  intros Hf. induction l as [|x l IH]; intros d w t w' Hr; cbn [run_all apply_all] in *.
  - simplify_eq. by exists t.
  - apply bind_Ok in Hr as (w1 & (t1 & Hx)%(Hf x d w t) & (t' & Ha)%(IH d w1 t1)). exists t'.
    unfold mbind, M_bind. by rewrite Hx.
Qed.

Lemma add_missing_Ok x a d w t c' :
  add_missing x a (mkConn d w t) = (Ok tt, c') → ∃ w' t', supply x w = Ok w' ∧ c' = mkConn d w' t'.
Proof.
  unfold add_missing, supply. intros (has & c1 & (_ & [= <-] & ->)%or_err_Ok%query_Ok & Hr)%M_bind_Ok.
  destruct (column_exists _ _ w); cbn [negb] in Hr.
  - apply M_ret_Ok in Hr as [_ ->]. by eexists w, _.
  - apply or_err_Ok, change_Ok in Hr as (_ & w' & Hw & ->). by eexists w', _.
Qed.

Lemma add_missing_healthy x a d w t w' : healthy a →
  supply x w = Ok w' → ∃ t', add_missing x a (mkConn d w t) = (Ok tt, mkConn d w' t').
Proof.
  intros [Hio _] Hs. unfold supply in Hs. exists (if column_exists (a_table x) (a_column x) w then S t else S (S t)).
  unfold add_missing. apply M_bind_Ok. exists (column_exists (a_table x) (a_column x) w), (mkConn d w (S t)).
  split; [by apply or_err_iff, query_Ok|]. destruct (column_exists _ _ w); cbn [negb]; [by simplify_eq|].
  apply or_err_iff, change_Ok. split; [done|]. by exists w'.
Qed.

Lemma exec_Ok s a d w t c' :
  or_err (change (exec s)) (Wrapped "apply schema") a (mkConn d w t) = (Ok tt, c') → ∃ w' t', exec s w = Ok w' ∧ c' = mkConn d w' t'.
Proof. intros (_ & w' & Hw & ->)%or_err_Ok%change_Ok. by eexists w', _. Qed.

Lemma exec_healthy s a d w t w' : healthy a →
  exec s w = Ok w' → ∃ t', or_err (change (exec s)) (Wrapped "apply schema") a (mkConn d w t) = (Ok tt, mkConn d w' t').
Proof. intros [Hio _] Hs. exists (S t). apply or_err_iff, change_Ok. split; [done|]. by exists w'. Qed.

(** [upgrade] is the transaction that [convert] describes. *)
Lemma upgrade_Ok a c t c' : upgrade a (mkConn c c t) = (Ok tt, c') → convert c = Ok (committed c').
Proof.
  unfold upgrade, convert. intros Hr. m_inv.
  repeat match goal with x : unit |- _ => destruct x end.
  match goal with H : run_all _ statements _ _ = _ |- _ => apply (run_all_Ok _ exec) in H as (w1 & t1 & -> & ->); [|apply exec_Ok] end.
  m_inv. match goal with H : run_all _ additions _ _ = _ |- _ => apply (run_all_Ok _ supply) in H as (w2 & t2 & Hw2 & ->); [|apply add_missing_Ok] end.
  match goal with H : change _ _ _ = _ |- _ => apply change_Ok in H as (_ & w3 & [= <-] & ->) end. m_inv.
  cbn [mbind result_bind]. match goal with H : first_version w1 = Ok _ |- _ => rewrite H end. cbn [mbind result_bind].
  match goal with H : (currentSchemaVersion <? _)%Z = false |- _ => rewrite H end. cbn [fail_if mbind result_bind]. by rewrite Hw2.
Qed.

Lemma upgrade_healthy a c t c' : healthy a → convert c = Ok c' → ∃ t', upgrade a (mkConn c c t) = (Ok tt, mkConn c' c' t').
Proof.
  intros Ha Hm. pose proof Ha as [Hio _]. unfold convert in Hm. apply bind_Ok in Hm as (w1 & H1 & Hm).
  apply bind_Ok in Hm as (version & Hv & Hm). apply bind_Ok in Hm as ([] & Hn%fail_if_Ok & Hm).
  apply bind_Ok in Hm as (w2 & H2 & [= <-]). unfold upgrade.
  destruct (run_all_healthy (λ s, or_err (change (exec s)) (Wrapped "apply schema")) exec statements a
    (λ s d w t w', exec_healthy s a d w t w' Ha) c c (S t) w1 H1) as (t1 & Hr1).
  destruct (run_all_healthy add_missing supply additions a (λ x d w t w', add_missing_healthy x a d w t w' Ha) c w1 (S t1) w2 H2) as (t2 & Hr2).
  exists (S (S t2)). apply M_bind_Ok. exists tt, (mkConn c c (S t)). split; [by apply or_err_iff, BeginTx_Ok|].
  apply M_bind_Ok. exists tt, (mkConn c w1 t1). split; [done|].
  apply M_bind_Ok. exists version, (mkConn c w1 (S t1)). split; [by apply or_err_iff, query_Ok|].
  apply M_bind_Ok. exists tt, (mkConn c w1 (S t1)). split; [by apply reject_Ok|].
  apply M_bind_Ok. exists tt, (mkConn c w2 t2). split; [done|].
  apply M_bind_Ok. exists tt, (mkConn c (set_versions w2) (S t2)). split; [apply or_err_iff, change_Ok; split; [done|by eexists]|].
  by apply or_err_iff, Commit_Ok.
Qed.

Lemma initialize_Ok a c t c' : initialize a (mkConn c c t) = (Ok tt, c') → migrate c = Ok (committed c').
Proof. unfold initialize. intros ([] & c1 & ->%pragmas_run & Hu)%M_bind_Ok. by eapply upgrade_Ok. Qed.

Lemma initialize_healthy a c t c' : healthy a → migrate c = Ok c' → ∃ t', initialize a (mkConn c c t) = (Ok tt, mkConn c' c' t').
Proof.
  intros Ha Hm. destruct (upgrade_healthy a (set_journal "wal" c) (S (S (S t))) c' Ha Hm) as (t' & Hu). exists t'.
  apply M_bind_Ok. exists tt, (mkConn (set_journal "wal" c) (set_journal "wal" c) (S (S (S t)))). split; [by apply pragmas_healthy|done].
Qed.

(** An error leaves the data alone. *)
Definition same_data (c c' : catalog) : Prop := meta c' = meta c ∧ tables c' = tables c ∧ indexes c' = indexes c.

Lemma initialize_Err a c t e c' : initialize a (mkConn c c t) = (Err e, c') → same_data c (committed c').
Proof.
  unfold initialize, mbind, M_bind. destruct (run_all pragma pragmas a (mkConn c c t)) as [[[]|e1] c1] eqn:E; apply pragmas_run in E.
  - subst c1. intros Hu. pose proof (atomic_upgrade a (mkConn (set_journal "wal" c) (set_journal "wal" c) (S (S (S t)))) e) as Hat.
    rewrite Hu in Hat. specialize (Hat eq_refl). cbn in Hat. by rewrite Hat.
  - intros [= <- <-]. by destruct E as [-> | ->].
Qed.

(** ** Nothing is lost *)

(** A table that got columns: the rows keep what they had. *)
Definition extends (t t' : table) : Prop :=
  ∃ added, columns t' = columns t ++ added ∧ (∀ x, x ∈ added → x ∉ columns t) ∧
    Forall2 (λ r r' : row, ∀ x, x ∉ added → r' !! x = r !! x) (rows t) (rows t').

(** A database that got tables, columns, indexes or version rows. *)
Definition grows (c c' : catalog) : Prop :=
  (∀ l, meta c = Some l → ∃ l', meta c' = Some l' ∧ (l ≠ [] → l' ≠ [])) ∧
  (∀ n t, tables c !! n = Some t → ∃ t', tables c' !! n = Some t' ∧ extends t t') ∧
  indexes c ⊆ indexes c' ∧ (journal c = "wal" → journal c' = "wal").

#[global] Instance extends_preorder : PreOrder extends.
Proof.
  split.
  - intros t. exists []. rewrite app_nil_r. split_and!; [done|by intros x ?%elem_of_nil|].
    by apply Forall_Forall2_diag, Forall_forall.
  - intros t1 t2 t3 (l1 & H1 & N1 & F1) (l2 & H2 & N2 & F2). exists (l1 ++ l2). split; [by rewrite H2, H1, app_assoc|]. split.
    + intros x [Hx|Hx]%elem_of_app; [by apply N1|]. apply N2 in Hx. rewrite H1, not_elem_of_app in Hx. apply Hx.
    + eapply Forall2_trans; [|exact F1|exact F2]. cbn. intros r1 r2 r3 Ha Hb x [Hx1 Hx2]%not_elem_of_app. by rewrite Hb, Ha.
Qed.

#[global] Instance grows_preorder : PreOrder grows.
Proof.
  split.
  - intros c. split_and!; [by intros l Hl; exists l|intros n t Ht; by exists t|done|done].
  - intros c1 c2 c3 (M1 & T1 & I1 & J1) (M2 & T2 & I2 & J2). split_and!; [| |set_solver|auto].
    + intros l (l1 & Hl1 & N1)%M1. apply M2 in Hl1 as (l2 & Hl2 & N2). exists l2. auto.
    + intros n t (t1 & Ht1 & E1)%T1. apply T2 in Ht1 as (t2 & Ht2 & E2). exists t2. split; [done|]. by etrans.
Qed.

(** A statement that changes nothing any more. *)
Definition satisfied (c : catalog) (s : statement) : Prop :=
  match s with
  | CreateMeta => is_Some (meta c)
  | InsertVersion _ => ∃ l, meta c = Some l ∧ l ≠ []
  | CreateTable name _ => is_Some (tables c !! name)
  | CreateIndex name _ _ _ => name ∈ indexes c
  end.

Lemma grows_set_meta c l : (∀ l', meta c = Some l' → l' ≠ [] → l ≠ []) → grows c (set_meta (Some l) c).
Proof. intros Hl. split_and!; [intros l' Hl'; exists l; split; [done|by apply Hl]|intros n t Ht; by exists t|done|done]. Qed.

Lemma grows_set_table c n t' : (∀ t, tables c !! n = Some t → extends t t') → grows c (set_table n t' c).
Proof.
  intros Ht. split_and!; [by intros l Hl; exists l| |done|done]. intros m t Hm. cbn [tables set_table]. destruct (decide (m = n)) as [->|Hne].
  - exists t'. rewrite lookup_insert_eq. auto.
  - exists t. by rewrite lookup_insert_ne.
Qed.

Lemma exec_grows s c c' : exec s c = Ok c' → grows c c' ∧ satisfied c' s.
Proof.
  destruct s as [|version|name cols|name tbl cols unique]; cbn [exec satisfied].
  - destruct (meta c) eqn:E; intros [= <-]; [by rewrite E|]. split; [|done]. apply grows_set_meta. by rewrite E.
  - destruct (meta c) as [[|v l]|] eqn:E; [| |done]; intros [= <-]; [|by split; [|exists (v :: l)]].
    split; [by apply grows_set_meta|]. by exists [version].
  - destruct (tables c !! name) eqn:E; intros [= <-]; [by rewrite E|]. split; [apply grows_set_table; by rewrite E|].
    cbn. by rewrite lookup_insert_eq.
  - case_bool_decide; [by intros [= <-]|]. destruct (tables c !! tbl); [|done]. intros Hs. ok_inv. split; [|cbn; set_solver].
    split_and!; [by intros l Hl; exists l|intros n t' Ht'; by exists t'|cbn; set_solver|done].
Qed.

Lemma satisfied_grows c c' s : grows c c' → satisfied c s → satisfied c' s.
Proof.
  intros (M & T & I & _). destruct s; cbn [satisfied]; [| | |set_solver].
  - intros [l (l' & -> & _)%M]. done.
  - intros (l & (l' & -> & Hn)%M & Hne). exists l'. auto.
  - intros [t (t' & -> & _)%T]. done.
Qed.

Lemma satisfied_exec c s : satisfied c s → exec s c = Ok c.
Proof.
  destruct s; cbn [exec satisfied].
  - by intros [l ->].
  - by intros ([|v l] & -> & Hl).
  - by intros [t ->].
  - intros Hin. by rewrite bool_decide_true.
Qed.

Definition supplied (c : catalog) (x : addition) : Prop := column_exists (a_table x) (a_column x) c = true.

Lemma supplied_grows c c' x : grows c c' → supplied c x → supplied c' x.
Proof.
  intros (_ & T & _). unfold supplied, column_exists. destruct (tables c !! a_table x) as [t|] eqn:E; [|done].
  apply T in E as (t' & -> & added & -> & _). rewrite !bool_decide_eq_true, elem_of_app. auto.
Qed.

Lemma supply_grows x c c' : supply x c = Ok c' → grows c c' ∧ supplied c' x.
Proof.
  unfold supply. destruct (column_exists _ _ c) eqn:E; [by intros [= <-]|]. unfold add_column, column_exists, supplied in *.
  destruct (tables c !! a_table x) as [t|] eqn:Et; [|done]. intros Hs. ok_inv. bool_inv. split.
  - apply grows_set_table. intros t1. rewrite Et. intros [= <-]. exists [a_column x]. split_and!; [done|by intros y ->%list_elem_of_singleton|].
    apply Forall2_fmap_r, Forall_Forall2_diag, Forall_forall. intros r _ y Hy. cbn.
    rewrite lookup_insert_ne; [done|]. intros <-. by apply Hy, list_elem_of_singleton.
  - unfold column_exists. cbn [tables set_table]. rewrite lookup_insert_eq. apply bool_decide_eq_true. cbn. set_solver.
Qed.

(** A loop whose statements each establish something that growth keeps. *)
Lemma apply_all_grows {A} (f : A → catalog → result catalog) (P : catalog → A → Prop) l :
  (∀ x c c', f x c = Ok c' → grows c c' ∧ P c' x) → (∀ c c' x, grows c c' → P c x → P c' x) →
  ∀ c c', apply_all f l c = Ok c' → grows c c' ∧ Forall (P c') l.
Proof.
  intros Hf Hk. induction l as [|x l IH]; intros c c' Ha; cbn [apply_all] in Ha; [simplify_eq; by split|].
  apply bind_Ok in Ha as (c1 & [G1 P1]%Hf & [G2 P2]%IH). split; [by etrans|]. constructor; [by eapply Hk|done].
Qed.

Lemma apply_all_id {A} (f : A → catalog → result catalog) (P : catalog → A → Prop) l c :
  (∀ x, P c x → f x c = Ok c) → Forall (P c) l → apply_all f l c = Ok c.
Proof. intros Hf. induction 1 as [|x l Hx _ IH]; [done|]. cbn [apply_all]. by rewrite Hf. Qed.

(** Every table and index of the schema is there, the added columns too, and
    the version is the current one, in a file in WAL mode. *)
Definition up_to_date (c : catalog) : Prop :=
  Forall (satisfied c) statements ∧ Forall (supplied c) additions ∧
  (∃ l, meta c = Some l ∧ l ≠ [] ∧ ∀ v, v ∈ l → v = currentSchemaVersion) ∧ journal c = "wal".

Lemma set_versions_grows c : grows c (set_versions c).
Proof.
  destruct c as [[l|] tb ix j]; [|done]. split_and!; [|intros n t Ht; by exists t|done|done].
  intros l' [= <-]. eexists. split; [done|]. by destruct l.
Qed.

(** The statements, the added columns and the version, one after the other. *)
Lemma convert_phases c c' : convert c = Ok c' →
  ∃ c1 c2 version, apply_all exec statements c = Ok c1 ∧ first_version c1 = Ok version ∧
    apply_all supply additions c1 = Ok c2 ∧ c' = set_versions c2.
Proof.
  unfold convert. intros (c1 & H1 & (version & Hv & (_ & _ & (c2 & H2 & [= <-])%bind_Ok)%bind_Ok)%bind_Ok)%bind_Ok. by exists c1, c2, version.
Qed.

Lemma convert_grows c c' : journal c = "wal" → convert c = Ok c' → grows c c' ∧ up_to_date c'.
Proof.
  intros Hj (c1 & c2 & version & H1 & Hv & H2 & ->)%convert_phases.
  apply (apply_all_grows exec satisfied _ exec_grows satisfied_grows) in H1 as [G1 S1].
  apply (apply_all_grows supply supplied _ supply_grows supplied_grows) in H2 as [G2 S2].
  pose proof (set_versions_grows c2) as G3. assert (grows c (set_versions c2)) as G by (by etrans; [|etrans]).
  split; [done|]. split_and!; [| | |by apply G].
  - eapply Forall_impl; [exact S1|]. intros s. apply satisfied_grows. by etrans.
  - eapply Forall_impl; [exact S2|]. intros x. by apply supplied_grows.
  - unfold first_version in Hv. destruct G2 as (M & _). destruct (meta c1) as [[|v l]|] eqn:E1; [done| |done].
    destruct (M _ eq_refl) as (l' & E2 & Hne). unfold set_versions. rewrite E2. eexists. split; [done|].
    specialize (Hne ltac:(done)). split; [by destruct l'|]. by intros w (y & -> & _)%list_elem_of_fmap.
Qed.

Lemma same_versions (l : list Z) : (∀ v, v ∈ l → v = currentSchemaVersion) → (λ _, currentSchemaVersion) <$> l = l.
Proof.
  induction l as [|v l IH]; intros Hl; [done|]. cbn. rewrite IH by (intros w Hw; apply Hl; by right). f_equal. symmetry. apply Hl. left.
Qed.

Lemma up_to_date_migrate c : up_to_date c → migrate c = Ok c.
Proof.
  intros (Hs & Hx & (l & Hl & Hne & Hv) & Hj). unfold migrate, convert.
  replace (set_journal "wal" c) with c by (destruct c; cbn in *; by subst).
  rewrite (apply_all_id _ satisfied) by (done || intros s; apply satisfied_exec). cbn [mbind result_bind].
  unfold first_version. rewrite Hl. destruct l as [|v l]; [done|]. rewrite (Hv v) by left. cbn [mbind result_bind fail_if Z.ltb].
  change (currentSchemaVersion <? currentSchemaVersion)%Z with false. cbn [fail_if mbind result_bind].
  rewrite (apply_all_id _ supplied); [|intros x Hs'; unfold supply; by rewrite Hs'|done]. cbn [mbind result_bind].
  f_equal. unfold set_versions. rewrite Hl, same_versions by done. by destruct c; cbn in *; subst.
Qed.

Lemma exec_meta s c c' v l : exec s c = Ok c' → meta c = Some (v :: l) → meta c' = Some (v :: l).
Proof.
  destruct s; cbn [exec]; intros Hs Hl; rewrite ?Hl in Hs; [by simplify_eq|by simplify_eq| |].
  - destruct (tables c !! _); by simplify_eq.
  - case_bool_decide; [by simplify_eq|]. destruct (tables c !! _); [|done]. by ok_inv.
Qed.

Lemma convert_version c c' v l : convert c = Ok c' → meta c = Some (v :: l) → (v ≤ currentSchemaVersion)%Z.
Proof.
  unfold convert. intros (c1 & H1 & Hm)%bind_Ok Hl. assert (meta c1 = Some (v :: l)) as Hv.
  { revert c H1 Hl. induction statements as [|s ss IH]; intros c H1 Hl; cbn [apply_all] in H1; [by simplify_eq|].
    apply bind_Ok in H1 as (c2 & H2 & H1). apply (IH c2); [done|]. by eapply exec_meta. }
  unfold first_version in Hm. rewrite Hv in Hm. cbn [mbind result_bind] in Hm. apply bind_Ok in Hm as (_ & Hf%fail_if_Ok & _).
  by apply Z.ltb_ge in Hf.
Qed.

(** ** Columns *)

(** The columns that each table has had since the version that introduced it
    (those of version 1 are in schema_test.go). *)
Definition first_columns : list (string * list string) :=
  [("machines", ["id"; "policy"; "architecture"; "firmware"; "first_seen"; "last_seen"]);
   ("machine_identifiers", ["machine_id"; "kind"; "value"; "first_seen"; "last_seen"]);
   ("installation_specs", ["id"; "machine_id"; "driver_id"; "driver_version"; "os_release"; "architecture"; "profile_id"; "profile_revision";
     "artifacts_json"; "storage_json"; "security_json"; "lifecycle_credential_id"; "created_at"; "created_by"]);
   ("installation_assignments", ["id"; "machine_id"; "installation_id"; "state"; "trust_requirement"; "armed_at"; "armed_by"; "consumed_at"; "cancelled_at"]);
   ("operator_users", ["id"; "provider"; "subject"; "display_name"; "email"; "role"; "status"; "webauthn_handle"; "created_at"; "updated_at"; "approved_at"; "approved_by"]);
   ("operator_credentials", ["user_id"; "rp_id"; "credential_id"; "credential_json"; "created_at"; "updated_at"; "last_used_at"]);
   ("events", ["sequence"; "entity_type"; "entity_id"; "event_type"; "occurred_at"; "request_id"; "actor"; "message"; "error_code"]);
   ("installation_lifecycle_credentials", ["credential_id"; "installation_id"; "secret_sha256"; "created_at"; "expires_at"; "revoked_at"; "last_used_at"]);
   ("installation_lifecycle_events", ["sequence"; "installation_id"; "stage"; "source"; "received_at"; "client_at"; "request_id"; "idempotency_key"; "message"; "error_code"; "metadata_json"]);
   ("installation_log_chunks", ["id"; "installation_id"; "sequence"; "source"; "received_at"; "client_at"; "request_id"; "idempotency_key"; "content"; "content_sha256"]);
   ("machine_boot_trust_keys", ["fingerprint"; "machine_id"; "public_key_pem"; "ek_fingerprint"; "state"; "first_seen_at"; "last_seen_at"; "approved_at"; "approved_by"; "revoked_at"; "revoked_by"]);
   ("installation_boot_trust_challenges", ["id"; "installation_id"; "machine_id"; "key_fingerprint"; "nonce"; "created_at"; "expires_at"; "used_at"; "response_ciphertext"; "credential_expires_at"])].

(** The tables are those of some version of the program. *)
Definition released (c : catalog) : Prop :=
  ∀ name cols t, (name, cols) ∈ first_columns → tables c !! name = Some t → cols ⊆ columns t.

(** Every table has all the columns the schema declares for it. *)
Definition complete (c : catalog) : Prop :=
  ∀ name cols, CreateTable name cols ∈ statements → ∃ t, tables c !! name = Some t ∧ cols ⊆ columns t.

(** The schema's tables begin with their first columns, and what they have
    more is added to older ones. *)
Definition covers (s : statement) : bool :=
  match s with
  | CreateTable name cols =>
    forallb (λ p, negb (p.1 =? name)%string || forallb (λ x, bool_decide (x ∈ cols)) p.2) first_columns
    && forallb (λ x, existsb (λ p, (p.1 =? name)%string && bool_decide (x ∈ p.2)) first_columns
                     || existsb (λ a, (a_table a =? name)%string && (a_column a =? x)%string) additions) cols
  | _ => true
  end.

Lemma statements_covered s : s ∈ statements → covers s = true.
Proof. intros Hs%list_elem_of_In. revert s Hs. apply forallb_forall. by vm_compute. Qed.

(** A statement leaves the tables that are there alone. *)
Lemma exec_table s c c' n t : exec s c = Ok c' → tables c !! n = Some t → tables c' !! n = Some t.
Proof.
  destruct s as [|version|name cols|name tbl cols unique]; cbn [exec].
  - destruct (meta c); by intros [= <-].
  - destruct (meta c) as [[|v l]|]; [| |done]; by intros [= <-].
  - destruct (tables c !! name) eqn:E; intros [= <-]; [done|]. intros Hn. cbn. rewrite lookup_insert_ne; [done|]. congruence.
  - case_bool_decide; [by intros [= <-]|]. destruct (tables c !! tbl); [|done]. intros Hs. by ok_inv.
Qed.

Lemma exec_released s c c' : covers s = true → exec s c = Ok c' → released c → released c'.
Proof.
  destruct s as [|version|name cols|name tbl cols unique]; cbn [exec covers]; intros Hs.
  - destruct (meta c); by intros [= <-].
  - destruct (meta c) as [[|v l]|]; [| |done]; by intros [= <-].
  - destruct (tables c !! name) eqn:E; intros [= <-]; [done|]. intros Hr n first t Hf. cbn.
    intros [[<- <-]|[_ Ht]]%lookup_insert_Some; [|by eapply Hr]. cbn. apply andb_true_iff in Hs as [Hs _].
    rewrite forallb_forall in Hs. apply list_elem_of_In, Hs in Hf. cbn in Hf. rewrite String.eqb_refl in Hf. cbn in Hf.
    rewrite forallb_forall in Hf. intros x Hx%list_elem_of_In%Hf. by apply bool_decide_eq_true in Hx.
  - case_bool_decide; [by intros [= <-]|]. destruct (tables c !! tbl); [|done]. intros Hx. by ok_inv.
Qed.

Lemma statements_released l : ∀ c c', (∀ s, s ∈ l → covers s = true) → apply_all exec l c = Ok c' →
  (released c → released c') ∧ ∀ n t, tables c !! n = Some t → tables c' !! n = Some t.
Proof.
  induction l as [|s l IH]; intros c c' Hl Ha; cbn [apply_all] in Ha; [by simplify_eq|].
  apply bind_Ok in Ha as (c1 & H1 & Ha). destruct (IH c1 c') as [IHr IHt]; [by intros x Hx; apply Hl; right|done|].
  split; [intros Hr; apply IHr; eapply exec_released; [|done..]; apply Hl; left|]. intros n t Hn. by eapply IHt, exec_table.
Qed.

Lemma convert_complete c c' : convert c = Ok c' → released c → complete c'.
Proof.
  intros (c1 & c2 & version & H1 & _ & H2 & ->)%convert_phases Hr name cols Hs.
  pose proof (statements_covered _ Hs) as Hc. cbn [covers] in Hc. apply andb_true_iff in Hc as [_ Hc]. rewrite forallb_forall in Hc.
  destruct (statements_released _ _ _ statements_covered H1) as [Hr1 _]. specialize (Hr1 Hr).
  apply (apply_all_grows exec satisfied _ exec_grows satisfied_grows) in H1 as [_ S1]. rewrite Forall_forall in S1.
  destruct (S1 _ Hs) as [t Ht]. apply (apply_all_grows supply supplied _ supply_grows supplied_grows) in H2 as [(_ & T & _) S2].
  destruct (T _ _ Ht) as (t' & Ht' & added & Hcols & _). exists t'. split; [done|]. intros x Hx%list_elem_of_In%Hc.
  apply orb_true_iff in Hx as [Hx|Hx]; apply existsb_exists in Hx as (y & Hy & Hyx); apply andb_true_iff in Hyx as [E Hyx];
    apply String.eqb_eq in E; subst name.
  - apply bool_decide_eq_true in Hyx. rewrite Hcols, elem_of_app. left. apply list_elem_of_In in Hy. destruct y as [n cs]. by eapply (Hr1 n cs).
  - apply String.eqb_eq in Hyx as <-. rewrite Forall_forall in S2. apply list_elem_of_In, S2 in Hy. unfold supplied, column_exists in Hy.
    rewrite Ht' in Hy. by apply bool_decide_eq_true in Hy.
Qed.

(** The rows of a table that lacked a column have its default. *)
Definition filled (l : list addition) (c c' : catalog) : Prop :=
  ∀ x t t' r, x ∈ l → tables c !! a_table x = Some t → a_column x ∉ columns t →
  tables c' !! a_table x = Some t' → r ∈ rows t' → r !! a_column x = Some (a_default x).

Definition has_column (table column : string) (c : catalog) : Prop := ∃ t, tables c !! table = Some t ∧ column ∈ columns t.

(** What a row says under a column that is there stays. *)
Lemma grows_cell c c' n column v : has_column n column c → grows c c' →
  (∀ t r, tables c !! n = Some t → r ∈ rows t → r !! column = Some v) → ∀ t r, tables c' !! n = Some t → r ∈ rows t → r !! column = Some v.
Proof.
  intros (t0 & Ht0 & Hcol) (_ & T & _) Hv t r Ht (i & Hi)%list_elem_of_lookup. destruct (T _ _ Ht0) as (t1 & Ht1 & added & _ & Hadded & Hrows).
  simplify_eq. destruct (Forall2_lookup_r _ _ _ _ _ Hrows Hi) as (r0 & Hi0 & Hsame).
  rewrite Hsame by (intros Hx; by apply Hadded in Hx). eapply Hv; [done|]. by eapply list_elem_of_lookup_2.
Qed.

(** One column: only its own table gets it, and nothing else of it. *)
Lemma supply_other x c c' n t column : supply x c = Ok c' → (a_table x, a_column x) ≠ (n, column) →
  tables c !! n = Some t → column ∉ columns t → ∃ t', tables c' !! n = Some t' ∧ column ∉ columns t'.
Proof.
  unfold supply, add_column. destruct (column_exists _ _ c); [intros [= <-]; eauto|]. destruct (tables c !! a_table x) as [t0|] eqn:Et; [|done].
  intros Hs Hne Hn Hcol. ok_inv. cbn. destruct (decide (a_table x = n)) as [<-|Hd]; [|rewrite lookup_insert_ne by done; eauto].
  rewrite lookup_insert_eq. simplify_eq. eexists. split; [done|]. cbn. rewrite not_elem_of_app, list_elem_of_singleton. split; [done|]. congruence.
Qed.

Lemma supply_fills x c c' t : supply x c = Ok c' → tables c !! a_table x = Some t → a_column x ∉ columns t →
  has_column (a_table x) (a_column x) c' ∧ ∀ t' r, tables c' !! a_table x = Some t' → r ∈ rows t' → r !! a_column x = Some (a_default x).
Proof.
  unfold supply, add_column, column_exists. intros Hs Ht Hcol. rewrite Ht, bool_decide_false in Hs by done. cbn in Hs.
  ok_inv. split.
  - eexists. cbn. rewrite lookup_insert_eq. split; [done|]. cbn. set_solver.
  - intros t' r. cbn. rewrite lookup_insert_eq. intros [= <-] (r0 & -> & _)%list_elem_of_fmap. cbn. apply lookup_insert_eq.
Qed.

Lemma additions_fill l : NoDup ((λ x, (a_table x, a_column x)) <$> l) → ∀ c c', apply_all supply l c = Ok c' → filled l c c'.
Proof.
  induction l as [|y l IH]; intros Hn c c' Ha x t t' r Hx Ht Hcol Ht' Hr; [by apply elem_of_nil in Hx|].
  cbn [fmap list_fmap] in Hn. apply NoDup_cons in Hn as [Hy Hn]. cbn [apply_all] in Ha. apply bind_Ok in Ha as (c1 & H1 & Ha).
  apply elem_of_cons in Hx as [->|Hx].
  - destruct (supply_fills _ _ _ _ H1 Ht Hcol) as [Hhas Hv].
    apply (apply_all_grows supply supplied _ supply_grows supplied_grows) in Ha as [G _]. by eapply (grows_cell c1 c').
  - destruct (supply_other y c c1 (a_table x) t (a_column x) H1) as (t1 & Ht1 & Hcol1); [|done|done|by eapply IH].
    intros E. apply Hy. rewrite E. by apply (list_elem_of_fmap_2 (λ x, (a_table x, a_column x))).
Qed.

Lemma convert_filled c c' : convert c = Ok c' → filled additions c c'.
Proof.
  intros (c1 & c2 & version & H1 & _ & H2 & ->)%convert_phases x t t' r Hx Ht Hcol Ht' Hr.
  destruct (statements_released _ _ _ statements_covered H1) as [_ Hsame].
  eapply (additions_fill additions) in H2; [by eapply H2; [|by apply Hsame|..]|]. apply (bool_decide_unpack _). by vm_compute.
Qed.

(** ** Opening *)

Lemma Open_Ok a c c' : run Open_ a c = (Ok tt, c') → migrate c = Ok c'.
Proof. unfold Open_. intros Hr. m_inv. by eapply initialize_Ok. Qed.

Lemma Open_healthy a c c' : healthy a → migrate c = Ok c' → run Open_ a c = (Ok tt, c').
Proof.
  intros Ha Hm. apply run_Ok. destruct (initialize_healthy a c 1 c' Ha Hm) as (t' & Hi). exists (mkConn c' c' t'). split; [|done].
  apply M_bind_Ok. exists tt, (mkConn c c 1). split; [|exact Hi]. apply or_err_iff, db_query_Ok. by split; [apply Ha|].
Qed.

Lemma Open_Err a c e c' : run Open_ a c = (Err e, c') → same_data c c'.
Proof.
  unfold run, Open_, or_err, db_query, auto_stmt, mbind, M_bind. cbn [committed work tick].
  destruct (io a 0); cbn -[initialize]; [|intros Hx; injection Hx as _ <-; by split_and!].
  destruct (initialize a (mkConn c c 1)) as [r c1] eqn:E. intros Hx. injection Hx as -> <-. by apply initialize_Err in E.
Qed.

(** C26. Opening the database brings it up to date and loses nothing: on success
    every table and index the schema names is there under the current version;
    when the tables that were there have the columns they were introduced with,
    every table has all the columns of the schema; tables and rows that were
    there keep their columns and values, and the rows of a table that lacked a
    column have its default; opening the file again changes nothing.  A database
    of a newer version is refused, and an error, wherever it occurs, leaves
    version, tables and indexes as they were (the journal mode may have become
    WAL, which is set before the transaction). *)
Theorem upgrade_keeps_data a c r c' :
  run Open_ a c = (r, c') →
  match r with
  | Err _ => same_data c c'
  | Ok _ => grows c c' ∧ up_to_date c' ∧ (released c → complete c') ∧ filled additions c c' ∧
      (∀ v l, meta c = Some (v :: l) → (v ≤ currentSchemaVersion)%Z) ∧
      ∀ a', healthy a' → run Open_ a' c' = (Ok tt, c')
  end.
Proof.
  intros Hr. destruct r as [[]|e]; [|by eapply Open_Err].
  apply Open_Ok in Hr. unfold migrate in Hr. destruct (convert_grows (set_journal "wal" c) c' eq_refl Hr) as [(M & T & I & J) Hu]. split_and!; [|done| | | |].
  - split_and!; [exact M|exact T|exact I|by intros _; apply J].
  - exact (convert_complete _ _ Hr).
  - exact (convert_filled _ _ Hr).
  - intros v l Hl. by eapply (convert_version _ _ v l Hr).
  - intros a' Ha. by apply Open_healthy, up_to_date_migrate.
Qed.

(** ** Databases of other versions *)

(** The machines of a database that knows neither nicknames nor Secure Boot. *)
Definition old_machine : row := <["id" := "m_1"]> (<["policy" := "local"]> (<["architecture" := "x86_64"]> (<["firmware" := "efi"]>
  (<["first_seen" := "2025-01-01T00:00:00Z"]> {["last_seen" := "2025-01-02T00:00:00Z"]})))).

Definition old_catalog (version : Z) : catalog :=
  mkCatalog (Some [version]) {["machines" := mkTable ["id"; "policy"; "architecture"; "firmware"; "first_seen"; "last_seen"] [old_machine]]} ∅ "delete".

Definition no_trouble : ambient := mkAmbient zeroTime (λ _ n, Some "") (λ _, true).

Definition upgraded (c : catalog) : option catalog := match run Open_ no_trouble c with (Ok _, c') => Some c' | (Err _, _) => None end.

Definition cell (n : string) (i : nat) (column : string) (c : catalog) : option string :=
  t ← tables c !! n; r ← rows t !! i; r !! column.

Example upgrades :
  (λ c, (meta c, size (tables c), size (indexes c))) <$> upgraded empty_catalog = Some (Some [8%Z], 12, 11) ∧
  (λ c, (meta c, (λ x, cell "machines" 0 x c) <$> ["id"; "nickname"; "secure_boot_state"])) <$> upgraded (old_catalog 2)
  = Some (Some [8%Z], [Some "m_1"; Some ""; Some "unknown"]) ∧
  upgraded (old_catalog 9) = None.
Proof. split_and!; by vm_compute. Qed.

Lemma old_catalog_released version : released (old_catalog version).
Proof.
  intros name cols t Hin Ht. cbn [tables old_catalog] in Ht. apply lookup_singleton_Some in Ht as [<- <-].
  assert (forallb (λ p, negb (p.1 =? "machines")%string || forallb (λ x, bool_decide (x ∈ ["id"; "policy"; "architecture"; "firmware"; "first_seen"; "last_seen"])) p.2)
    first_columns = true) as Hf by (by vm_compute).
  rewrite forallb_forall in Hf. apply list_elem_of_In, Hf in Hin. cbn in Hin. rewrite forallb_forall in Hin.
  intros x Hx%list_elem_of_In%Hin. by apply bool_decide_eq_true in Hx.
Qed.

Lemma upgrade_keeps_data_witness :
  match run Open_ no_trouble (old_catalog 2) with
  | (Ok _, c') => grows (old_catalog 2) c' ∧ up_to_date c' ∧ complete c' ∧ filled additions (old_catalog 2) c'
  | (Err _, _) => False
  end.
Proof.
  destruct (run Open_ no_trouble (old_catalog 2)) as [[u|e] c'] eqn:E.
  - destruct (upgrade_keeps_data no_trouble (old_catalog 2) (Ok u) c' E) as (Hg & Hu & Hc & Hf & _).
    split; [exact Hg|]. split; [exact Hu|]. split; [exact (Hc (old_catalog_released 2))|exact Hf].
  - assert (match upgraded (old_catalog 2) with Some _ => true | None => false end = true) as Hu by (by vm_compute).
    unfold upgraded in Hu. by rewrite E in Hu.
Defined.
