(* ===== verification/Sessions.v ===== *)
(** * Operator sessions and the local recovery key (internal/operator)

    [Manager] is the state under the mutex; one Definition per method, with the
    instant [m.now()] reads and, where tokens are made, the random bytes, as
    arguments.  The manager of a running server is never nil. *)

From S2P Require Import Prelude GoStrings Encoding Fault Op GoParse.
From S2P Require Artifact Identity.

(** ** Tables whose entries expire

    Sessions, passkey ceremonies and recovery tickets are kept under the digest
    of a random token until a time of their own; every access sweeps out the
    entries whose time has come. *)

(** The instant an entry is valid until. *)
Class Expires (V : Type) := expires_at : V → time.

Section Table.
Context `{Expires V}.

(** The entries that are still valid. *)
Definition sweep (now : time) (m : gmap string V) : gmap string V := filter (λ p, (now < expires_at p.2)%Z) m.

Lemma sweep_lookup now m k v : sweep now m !! k = Some v ↔ m !! k = Some v ∧ (now < expires_at v)%Z.
Proof. unfold sweep. by rewrite map_lookup_filter_Some. Qed.

Lemma sweep_None now m k : sweep now m !! k = None ↔ ∀ v, m !! k = Some v → (expires_at v <= now)%Z.
Proof.
  destruct (sweep now m !! k) as [v|] eqn:E.
  - apply sweep_lookup in E as [Hv Hlt]. split; [done|]. intros Hall. specialize (Hall v Hv). lia.
  - split; [|done]. intros _ v Hv. destruct (Z_lt_le_dec now (expires_at v)) as [Hlt|]; [|done].
    assert (sweep now m !! k = Some v) by (by apply sweep_lookup). congruence.
Qed.

Lemma sweep_size now m : size (sweep now m) ≤ size m.
Proof. apply map_size_filter. Qed.

Lemma sweep_delete now m k : sweep now (delete k m) = delete k (sweep now m).
Proof. apply map_filter_delete. Qed.

(** Every entry satisfies [P]; sweeping, insertion and deletion keep that. *)
Definition entries (P : string → V → Prop) (m : gmap string V) : Prop := map_Forall P m.

Lemma entries_sweep P now m : entries P m → entries P (sweep now m).
Proof. intros Hm k v [Hv _]%sweep_lookup. by apply Hm. Qed.

Lemma entries_delete P k m : entries P m → entries P (delete k m).
Proof. apply map_Forall_delete. Qed.

Lemma entries_insert P k v m : P k v → entries P m → entries P (<[k := v]> m).
Proof. intros Hk Hm. by apply map_Forall_insert_2. Qed.

(** A table below its limit stays within it. *)
Lemma size_insert_below n k v (m : gmap string V) : size m < n → size (<[k := v]> m) ≤ n.
Proof.
  intros Hn. destruct (m !! k) as [w|] eqn:E.
  - rewrite map_size_insert_Some by (by eexists). lia.
  - rewrite map_size_insert_None by done. lia.
Qed.

Lemma size_delete_le k (m : gmap string V) : size (delete k m) ≤ size m.
Proof. rewrite map_size_delete. destruct (m !! k); simpl; lia. Qed.
End Table.

(** ** Sessions *)

(* internal/operator/auth.go:21-21 recoveryKeyBytes *)
Definition recoveryKeyBytes : Z := 32.
(* internal/operator/auth.go:22-22 sessionTokenBytes *)
Definition sessionTokenBytes : nat := 32.
(* internal/operator/auth.go:23-23 csrfTokenBytes *)
Definition csrfTokenBytes : nat := 24.
(* internal/operator/auth.go:24-24 SessionDuration *)
Definition SessionDuration : Z := (8 * Hour)%Z.
(* internal/operator/auth.go:25-25 loginWindow *)
Definition loginWindow : Z := Minute.
(* internal/operator/auth.go:26-26 maxLoginAttempts *)
Definition maxLoginAttempts : Z := 5.
(* internal/operator/auth.go:27-27 maxActiveSessions *)
Definition maxActiveSessions : nat := 1024.

(* internal/operator/auth.go:30-37 Session *)
Record Session := mkSession {
  Actor : string;
  UserID : string;
  s_Role : Identity.Role;
  AuthMethod : string;
  CSRFToken : string;
  ExpiresAt : time }.

#[global] Instance session_expires : Expires Session := ExpiresAt.

(* internal/operator/auth.go:39-41 Session.IsAdmin *)
Definition IsAdmin (s : Session) : bool := (s_Role s =? Identity.RoleAdmin)%string.

(* internal/operator/auth.go:47-50 loginCounter *)
Record loginCounter := mkLoginCounter { Started : time; Count : Z }.

(** Sessions by the digest of their token. *)
(* internal/operator/auth.go:52-59 Manager *)
Record Manager := mkManager {
  keyDigest : string;
  sessions : gmap string Session;
  attempts : gmap string loginCounter }.

(** A fresh random token: the [n]-th random bytes read. *)
(* internal/operator/auth.go:258-264 randomToken *)
Definition randomToken (a : ambient) (n size : nat) : result string :=
  match entropy a n size with
  | Some buffer => Ok (RawURLEncoding_EncodeToString buffer)
  | None => Err (Wrapped "secure random generation failed" (Plain "rand"))
  end.

Section Manager.
Context `{Artifact.Crypto}.

(* internal/operator/auth.go:95-111 New *)
Definition New (key : string) : result Manager :=
  let key := TrimSpace key in
  match RawURLEncoding_DecodeString key with
  | Some decoded =>
    if (len decoded =? recoveryKeyBytes)%Z then Ok (mkManager (Artifact.sha256 key) ∅ ∅)
    else Err (Plain "operator recovery key must be 256-bit base64url without padding")
  | None => Err (Plain "operator recovery key must be 256-bit base64url without padding")
  end.

(* internal/operator/auth.go:113-115 GenerateKey *)
Definition GenerateKey (a : ambient) : result string := randomToken a 0 32.

(* internal/operator/auth.go:197-208 Manager.cleanupLocked *)
Definition cleanupLocked (now : time) (m : Manager) : Manager :=
  mkManager (keyDigest m) (sweep now (sessions m))
    (filter (λ p, (now - Started p.2 < 2 * loginWindow)%Z) (attempts m)).

(* internal/operator/auth.go:139-160 Manager.issueSession *)
Definition issueSession (base : Session) (a : ambient) (m : Manager) : result (string * Session) * Manager :=
  let now := clock a in
  let m := cleanupLocked now m in
  if (maxActiveSessions <=? size (sessions m))%nat then (Err (Plain "too many active operator sessions"), m) else
  match randomToken a 0 sessionTokenBytes with
  | Err e => (Err (Wrapped "generate operator session" e), m)
  | Ok token =>
    match randomToken a 1 csrfTokenBytes with
    | Err e => (Err (Wrapped "generate operator csrf token" e), m)
    | Ok csrf =>
      let s := mkSession (Actor base) (UserID base) (s_Role base) (AuthMethod base) csrf (now + SessionDuration)%Z in
      (Ok (token, s), mkManager (keyDigest m) (<[Artifact.sha256 token := s]> (sessions m)) (attempts m))
    end
  end.

(* internal/operator/auth.go:117-137 Manager.IssueUserSession *)
Definition IssueUserSession (user : Identity.User) (authMethod : string) (a : ambient) (m : Manager)
    : result (string * Session) * Manager :=
  if (Identity.ID user =? "")%string || negb (Identity.u_Status user =? Identity.StatusActive)%string
  then (Err (Plain "operator user is not active"), m) else
  match Identity.ValidateRole (Identity.u_Role user) with
  | Err e => (Err e, m)
  | Ok _ =>
    let authMethod := TrimSpace authMethod in
    if (authMethod =? "")%string || (64 <? len authMethod)%Z
    then (Err (Plain "operator authentication method is invalid"), m)
    else issueSession (mkSession ("user:" +:+ Identity.Subject user) (Identity.ID user) (Identity.u_Role user) authMethod "" zeroTime) a m
  end.

(* internal/operator/auth.go:162-176 Manager.Session *)
Definition Session_ (token : string) (now : time) (m : Manager) : option Session * Manager :=
  if blank token then (None, m) else
  let m := cleanupLocked now m in
  (match sessions m !! Artifact.sha256 token with
   | Some record => if After (ExpiresAt record) now then Some record else None
   | None => None
   end, m).

(** [subtle.ConstantTimeCompare] of two digests. *)
(* internal/operator/auth.go:178-185 Manager.ValidateCSRF *)
Definition ValidateCSRF (s : Session) (supplied : string) : bool :=
  if blank supplied || (CSRFToken s =? "")%string then false
  else (Artifact.sha256 supplied =? Artifact.sha256 (CSRFToken s))%string.

(* internal/operator/auth.go:187-195 Manager.Logout *)
Definition Logout (token : string) (m : Manager) : Manager :=
  if (token =? "")%string then m
  else mkManager (keyDigest m) (delete (Artifact.sha256 token) (sessions m)) (attempts m).

(** The outcome says whether the supplied key was compared. *)
Inductive verification := RateLimited | WrongKey | Verified.

(* internal/operator/recovery.go:13-44 Manager.VerifyRecoveryKey *)
Definition VerifyRecoveryKey (remote suppliedKey : string) (now : time) (m : Manager) : verification * Manager :=
  let remote := let remote := TrimSpace remote in if (remote =? "")%string then "unknown" else remote in
  let m := cleanupLocked now m in
  let counter := default (mkLoginCounter zeroTime 0) (attempts m !! remote) in
  let counter := if IsZero (Started counter) || (loginWindow <=? now - Started counter)%Z then mkLoginCounter now 0 else counter in
  if (maxLoginAttempts <=? Count counter)%Z
  then (RateLimited, mkManager (keyDigest m) (sessions m) (<[remote := counter]> (attempts m))) else
  let counter := mkLoginCounter (Started counter) (Count counter + 1) in
  if negb (Artifact.sha256 (TrimSpace suppliedKey) =? keyDigest m)%string
  then (WrongKey, mkManager (keyDigest m) (sessions m) (<[remote := counter]> (attempts m)))
  else (Verified, mkManager (keyDigest m) (sessions m) (delete remote (attempts m))).
End Manager.

(** ** The key file

    What the file system answers, in the order the calls are made. *)
Inductive lstat_info :=
| Missing                                   (* os.ErrNotExist *)
| Unreadable                                (* any other error *)
| Present (regular : bool) (permissions : Z).   (* a symbolic link is not regular *)

Record KeyFile := mkKeyFile {
  kf_lstat : lstat_info;
  kf_ReadFile : result string;
  kf_MkdirAll : result unit;
  kf_OpenFile : result unit;   (* O_CREATE|O_EXCL, mode 0600 *)
  kf_WriteString : result unit;
  kf_Sync : result unit;
  kf_Close : result unit }.

(** The key, whether it was created, and the text of the file created, which
    is removed again on an error. *)
(* internal/operator/auth.go:210-256 loadOrCreateRecoveryKey *)
Definition loadOrCreateRecoveryKey (fs : KeyFile) (a : ambient) : result (string * bool) * option string :=
  match kf_lstat fs with
  | Present regular permissions =>
    (_ ← fail_if (negb regular) (Plain "operator key path must be a regular file");
     _ ← fail_if (negb (Z.land permissions 63 =? 0)%Z) (Plain "operator key file permissions must not allow group/other access");
     content ← or_fail (kf_ReadFile fs) (Wrapped "read operator recovery key");
     Ok (TrimSpace content, false), None)
  | Unreadable => (Err (Plain "inspect operator recovery key"), None)
  | Missing =>
    match (_ ← or_fail (kf_MkdirAll fs) (Wrapped "create operator key directory");
           key ← randomToken a 0 32;
           _ ← or_fail (kf_OpenFile fs) (Wrapped "create operator recovery key");
           Ok key) with
    | Err e => (Err e, None)
    | Ok key =>
      match (_ ← or_fail (kf_WriteString fs) (Wrapped "write operator recovery key");
             _ ← or_fail (kf_Sync fs) (Wrapped "sync operator recovery key");
             or_fail (kf_Close fs) (Wrapped "close operator recovery key")) with
      | Err e => (Err e, None)
      | Ok _ => (Ok (key, true), Some (key +:+ nl))
      end
    end
  end.

(** [fs] is what the file system answers about the cleaned path. *)
(* internal/operator/auth.go:61-93 LoadOrCreate *)
Definition LoadOrCreate `{Artifact.Crypto} (path : string) (fs : string → KeyFile) (a : ambient) : result Manager * option string :=
  let path := Clean (TrimSpace path) in
  if negb (IsAbs path) then (Err (Plain "operator key path must be absolute"), None) else
  let '(r, file) := loadOrCreateRecoveryKey (fs path) a in
  (key ← r; New key.1, file).
