(* ===== verification/Db.v ===== *)
(** * The database of internal/store: tables, constraints and statements

    One field per table of schema.go, keyed by its primary key.  Rows are the
    records of the domain packages where every column is only read back into
    one; timestamps the SQL itself compares with the empty text ([revoked_at],
    [used_at], [last_used_at]) are [option time].  The texts of the other
    timestamps parse back to the instants they were formatted from, and the
    JSON columns decode to the values they were encoded from.

    Every INSERT checks the constraints schema.go declares (PRIMARY KEY, UNIQUE,
    partial unique indexes, CHECK, REFERENCES with foreign_keys = ON) and every
    DELETE of a referenced row its RESTRICT clauses: a violation is the driver's
    error, [SQLError]. *)

From S2P Require Import Prelude GoStrings Regex Fault Op.
From S2P Require Secureboot Machine Installation Assignment Lifecycle Telemetry Boottrust Event Identity.

(* internal/store/schema.go:45-53 machine_identifiers *)
Record IdentifierRow := mkIdentifierRow {
  id_machine : string; id_first_seen : time; id_last_seen : time }.

(* internal/store/schema.go:125-133 installation_lifecycle_credentials *)
Record CredentialRow := mkCredentialRow {
  cr_installation : string;
  cr_secret_sha256 : string;
  cr_created_at : time;
  cr_expires_at : time;
  cr_revoked_at : option time;
  cr_last_used_at : option time }.

(* internal/store/schema.go:183-194 installation_boot_trust_challenges *)
Record ChallengeRow := mkChallengeRow {
  cl_installation : string;
  cl_machine : string;
  cl_key : string;
  cl_nonce : string;
  cl_created_at : time;
  cl_expires_at : time;
  cl_used_at : option time;
  cl_response : string;
  cl_credential_expires_at : option time }.

(** [credential_json] is kept as the serialised text. *)
(* internal/store/schema.go:102-112 operator_credentials *)
Record OperatorCredentialRow := mkOperatorCredentialRow {
  oc_user : string; oc_json : string; oc_created_at : time; oc_updated_at : time; oc_last_used_at : time }.

(* internal/store/schema.go:34-194 initialize *)
Record DB := mkDB {
  machines : gmap string Machine.Machine;
  identifiers : gmap (string * string) IdentifierRow;       (* UNIQUE(kind, value) *)
  specs : gmap string Installation.Spec;
  assignments : gmap string Assignment.Assignment;
  credentials : gmap string CredentialRow;                  (* by credential id *)
  lifecycle_events : list Lifecycle.Event;                  (* by ascending sequence *)
  lifecycle_seq : Z;
  log_chunks : list Telemetry.LogChunk;                     (* by ascending id *)
  log_seq : Z;
  trust_keys : gmap string Boottrust.Key;                   (* by fingerprint *)
  challenges : gmap string ChallengeRow;
  users : gmap string Identity.User;
  user_credentials : gmap (string * string) OperatorCredentialRow; (* UNIQUE(rp_id, credential_id) *)
  events : list Event.Event;                                (* by ascending sequence *)
  event_seq : Z }.

Definition empty_db : DB := mkDB ∅ ∅ ∅ ∅ ∅ [] 0 [] 0 ∅ ∅ ∅ ∅ [] 0.

(** ** Field updates *)

Definition set_machines v db := mkDB v (identifiers db) (specs db) (assignments db) (credentials db)
  (lifecycle_events db) (lifecycle_seq db) (log_chunks db) (log_seq db) (trust_keys db) (challenges db)
  (users db) (user_credentials db) (events db) (event_seq db).
Definition set_identifiers v db := mkDB (machines db) v (specs db) (assignments db) (credentials db)
  (lifecycle_events db) (lifecycle_seq db) (log_chunks db) (log_seq db) (trust_keys db) (challenges db)
  (users db) (user_credentials db) (events db) (event_seq db).
Definition set_specs v db := mkDB (machines db) (identifiers db) v (assignments db) (credentials db)
  (lifecycle_events db) (lifecycle_seq db) (log_chunks db) (log_seq db) (trust_keys db) (challenges db)
  (users db) (user_credentials db) (events db) (event_seq db).
Definition set_assignments v db := mkDB (machines db) (identifiers db) (specs db) v (credentials db)
  (lifecycle_events db) (lifecycle_seq db) (log_chunks db) (log_seq db) (trust_keys db) (challenges db)
  (users db) (user_credentials db) (events db) (event_seq db).
Definition set_credentials v db := mkDB (machines db) (identifiers db) (specs db) (assignments db) v
  (lifecycle_events db) (lifecycle_seq db) (log_chunks db) (log_seq db) (trust_keys db) (challenges db)
  (users db) (user_credentials db) (events db) (event_seq db).
Definition set_lifecycle l s db := mkDB (machines db) (identifiers db) (specs db) (assignments db)
  (credentials db) l s (log_chunks db) (log_seq db) (trust_keys db) (challenges db)
  (users db) (user_credentials db) (events db) (event_seq db).
Definition set_logs l s db := mkDB (machines db) (identifiers db) (specs db) (assignments db)
  (credentials db) (lifecycle_events db) (lifecycle_seq db) l s (trust_keys db) (challenges db)
  (users db) (user_credentials db) (events db) (event_seq db).
Definition set_trust_keys v db := mkDB (machines db) (identifiers db) (specs db) (assignments db)
  (credentials db) (lifecycle_events db) (lifecycle_seq db) (log_chunks db) (log_seq db) v (challenges db)
  (users db) (user_credentials db) (events db) (event_seq db).
Definition set_challenges v db := mkDB (machines db) (identifiers db) (specs db) (assignments db)
  (credentials db) (lifecycle_events db) (lifecycle_seq db) (log_chunks db) (log_seq db) (trust_keys db) v
  (users db) (user_credentials db) (events db) (event_seq db).
Definition set_users v db := mkDB (machines db) (identifiers db) (specs db) (assignments db)
  (credentials db) (lifecycle_events db) (lifecycle_seq db) (log_chunks db) (log_seq db) (trust_keys db)
  (challenges db) v (user_credentials db) (events db) (event_seq db).
Definition set_user_credentials v db := mkDB (machines db) (identifiers db) (specs db) (assignments db)
  (credentials db) (lifecycle_events db) (lifecycle_seq db) (log_chunks db) (log_seq db) (trust_keys db)
  (challenges db) (users db) v (events db) (event_seq db).
Definition set_events l s db := mkDB (machines db) (identifiers db) (specs db) (assignments db)
  (credentials db) (lifecycle_events db) (lifecycle_seq db) (log_chunks db) (log_seq db) (trust_keys db)
  (challenges db) (users db) (user_credentials db) l s.

(** ** Reading *)

(** The row a query with a key or a unique column finds. *)
Definition find_row `{Countable K} {V} (P : K * V → Prop) `{!∀ x, Decision (P x)} (m : gmap K V) : option (K * V) :=
  head (filter P (map_to_list m)).

Lemma find_row_Some `{Countable K} {V} (P : K * V → Prop) `{!∀ x, Decision (P x)} (m : gmap K V) k v :
  find_row P m = Some (k, v) → m !! k = Some v ∧ P (k, v).
Proof.
  unfold find_row. intros Hh. apply head_Some_elem_of in Hh.
  apply list_elem_of_filter in Hh as [HP Hm%elem_of_map_to_list]. done.
Qed.

Lemma find_row_None `{Countable K} {V} (P : K * V → Prop) `{!∀ x, Decision (P x)} (m : gmap K V) k v :
  find_row P m = None → m !! k = Some v → ¬ P (k, v).
Proof.
  unfold find_row. intros Hh Hk HP. apply head_None in Hh.
  assert ((k, v) ∈ filter P (map_to_list m)) as Hin
    by (apply list_elem_of_filter; split; [done|by apply elem_of_map_to_list]).
  rewrite Hh in Hin. by apply elem_of_nil in Hin.
Qed.

(** When exactly one row satisfies the condition, it is the one found. *)
Lemma find_row_unique `{Countable K} {V} (P : K * V → Prop) `{!∀ x, Decision (P x)} (m : gmap K V) k v :
  m !! k = Some v → P (k, v) → (∀ k' v', m !! k' = Some v' → P (k', v') → k' = k) →
  find_row P m = Some (k, v).
Proof.
  intros Hk HP Hu. destruct (find_row P m) as [[k' v']|] eqn:E.
  - apply find_row_Some in E as [Hk' HP']. pose proof (Hu _ _ Hk' HP') as ->. by simplify_eq.
  - by destruct (find_row_None _ _ _ _ E Hk HP).
Qed.

Definition row_or_none {A} (o : option A) : result A :=
  match o with Some x => Ok x | None => Err ErrNoRows end.

Lemma row_or_none_Ok {A} (o : option A) x : row_or_none o = Ok x ↔ o = Some x.
Proof. destruct o; simpl; naive_solver. Qed.

(** *** [ORDER BY] on a timestamp column

    The columns hold [time.RFC3339Nano] texts, compared byte by byte.  The text
    of an instant of the years 0 to 9999 is a fixed-width text of its second,
    followed by a fraction without trailing zeros and [Z]; so the order of the
    texts is that of the seconds, then that of the fraction texts. *)
Fixpoint decimal_digits (k : nat) (n : Z) : string :=
  match k with
  | O => ""
  | S k => String (byte_of (48 + Z.to_nat ((n / 10 ^ Z.of_nat k) mod 10))) (decimal_digits k n)
  end.

Fixpoint trim_zeros (s : string) : string :=
  match s with
  | "" => ""
  | String c t => let t := trim_zeros t in if Ascii.eqb c "0" && (t =? "")%string then "" else String c t
  end.

Definition fraction_text (t : time) : string :=
  let ns := (t mod Second)%Z in
  if (ns =? 0)%Z then "Z" else "." +:+ trim_zeros (decimal_digits 9 ns) +:+ "Z".

Definition stamp_compare (t u : time) : comparison :=
  match (t / Second ?= u / Second)%Z with
  | Eq => String.compare (fraction_text t) (fraction_text u)
  | c => c
  end.

(** [ORDER BY stamp DESC, id] and [ORDER BY stamp DESC, id DESC]. *)
Definition stamp_desc (t u : time) (tie : bool) : Prop :=
  match stamp_compare t u with Gt => True | Eq => tie = true | Lt => False end.
#[global] Instance stamp_desc_dec t u tie : Decision (stamp_desc t u tie).
Proof. unfold stamp_desc. destruct (stamp_compare t u); apply _. Defined.

(** [ORDER BY stamp, id]. *)
Definition stamp_asc (t u : time) (tie : bool) : Prop :=
  match stamp_compare t u with Lt => True | Eq => tie = true | Gt => False end.
#[global] Instance stamp_asc_dec t u tie : Decision (stamp_asc t u tie).
Proof. unfold stamp_asc. destruct (stamp_compare t u); apply _. Defined.

(** ** Statements that change a table *)

(** A constraint violation. *)
Definition check_constraint (b : bool) : result unit := fail_if (negb b) SQLError.

Definition max_rowid : Z := 2 ^ 63 - 1.

(** AUTOINCREMENT: the next sequence number, if there is one. *)
Definition next_rowid (seq : Z) : result Z := if (seq <? max_rowid)%Z then Ok (seq + 1)%Z else Err SQLError.

Section Statements.
Implicit Types (db : DB).

(* internal/store/schema.go:34-44 machines *)
Definition insert_machine (m : Machine.Machine) db : result DB :=
  _ ← check_constraint (bool_decide (machines db !! Machine.ID m = None));
  _ ← check_constraint (bool_decide (Machine.m_Policy m ∈
        [Machine.PolicyPending; Machine.PolicyLocal; Machine.PolicyProvision; Machine.PolicyBlocked]));
  _ ← check_constraint (bool_decide (Machine.SecureBootState m ∈
        [Secureboot.StateUnknown; Secureboot.StateEnabled; Secureboot.StateDisabled;
         Secureboot.StateSetupMode; Secureboot.StateUnsupported]));
  Ok (set_machines (<[Machine.ID m := m]> (machines db)) db).

(** [INSERT ... ON CONFLICT(kind,value) DO UPDATE SET last_seen=excluded.last_seen]. *)
(* internal/store/machines.go:106-107 DiscoverMachine *)
Definition upsert_identifier (kind value machineID : string) (stamp : time) db : result DB :=
  match identifiers db !! (kind, value) with
  | Some row =>
    Ok (set_identifiers (<[(kind, value) := mkIdentifierRow (id_machine row) (id_first_seen row) stamp]>
          (identifiers db)) db)
  | None =>
    _ ← check_constraint (bool_decide (is_Some (machines db !! machineID)));
    Ok (set_identifiers (<[(kind, value) := mkIdentifierRow machineID stamp stamp]> (identifiers db)) db)
  end.

(* internal/store/schema.go:54-70 installation_specs *)
Definition insert_spec (s : Installation.Spec) db : result DB :=
  _ ← check_constraint (bool_decide (specs db !! Installation.spec_ID s = None));
  _ ← check_constraint (bool_decide (is_Some (machines db !! Installation.MachineID s)));
  Ok (set_specs (<[Installation.spec_ID s := s]> (specs db)) db).

(* internal/store/schema.go:72-84 installation_assignments *)
Definition insert_assignment (x : Assignment.Assignment) db : result DB :=
  _ ← check_constraint (bool_decide (assignments db !! Assignment.ID x = None));
  _ ← check_constraint (bool_decide (is_Some (machines db !! Assignment.MachineID x)));
  _ ← check_constraint (bool_decide (is_Some (specs db !! Assignment.InstallationID x)));
  _ ← check_constraint (bool_decide (map_Forall
        (λ _ y, Assignment.InstallationID y ≠ Assignment.InstallationID x) (assignments db)));
  _ ← check_constraint (bool_decide (Assignment.a_State x ∈
        [Assignment.StateArmed; Assignment.StateConsumed; Assignment.StateCancelled]));
  _ ← check_constraint (bool_decide (Assignment.TrustRequirement x = Assignment.TrustRequirementCryptographic));
  _ ← check_constraint (bool_decide (Assignment.a_State x ≠ Assignment.StateArmed ∨ map_Forall
        (λ _ y, ¬ (Assignment.MachineID y = Assignment.MachineID x ∧ Assignment.a_State y = Assignment.StateArmed))
        (assignments db)));
  Ok (set_assignments (<[Assignment.ID x := x]> (assignments db)) db).

(* internal/store/schema.go:125-133 installation_lifecycle_credentials *)
Definition insert_credential (id : string) (c : CredentialRow) db : result DB :=
  _ ← check_constraint (bool_decide (credentials db !! id = None));
  _ ← check_constraint (bool_decide (is_Some (specs db !! cr_installation c)));
  _ ← check_constraint (bool_decide (map_Forall
        (λ _ y, cr_installation y ≠ cr_installation c) (credentials db)));
  _ ← check_constraint (String.length (cr_secret_sha256 c) =? 32)%nat;
  Ok (set_credentials (<[id := c]> (credentials db)) db).

(** [UPDATE installation_lifecycle_credentials SET revoked_at=? WHERE
    installation_id=? AND revoked_at=''], with the number of rows changed. *)
(* internal/store/telemetry.go:161-162 RevokeLifecycleCredential *)
Definition revoke_credential_row (installationID : string) (t : time) (c : CredentialRow) : CredentialRow :=
  if bool_decide (cr_installation c = installationID ∧ cr_revoked_at c = None)
  then mkCredentialRow (cr_installation c) (cr_secret_sha256 c) (cr_created_at c) (cr_expires_at c)
         (Some t) (cr_last_used_at c)
  else c.

(* internal/store/telemetry.go:161-170 RevokeLifecycleCredential *)
Definition revoke_credentials (installationID : string) (t : time) db : DB * nat :=
  (set_credentials (revoke_credential_row installationID t <$> credentials db) db,
   size (filter (λ p : string * CredentialRow,
     cr_installation p.2 = installationID ∧ cr_revoked_at p.2 = None) (credentials db))).

(* internal/store/telemetry_auth.go:42-42 VerifyLifecycleMAC *)
Definition touch_credential_row (t : time) (c : CredentialRow) : CredentialRow :=
  mkCredentialRow (cr_installation c) (cr_secret_sha256 c) (cr_created_at c) (cr_expires_at c)
    (cr_revoked_at c) (Some t).

(* internal/store/schema.go:136-149 installation_lifecycle_events *)
Definition insert_lifecycle_event (e : Z → Lifecycle.Event) db : result (DB * Z) :=
  n ← next_rowid (lifecycle_seq db);
  let e := e n in
  _ ← check_constraint (bool_decide (is_Some (specs db !! Lifecycle.InstallationID e)));
  _ ← check_constraint (Lifecycle.Stage_Valid (Lifecycle.Event_Stage e));
  _ ← check_constraint (Lifecycle.Source_Valid (Lifecycle.Event_Source e));
  _ ← check_constraint (bool_decide (Forall
        (λ y, ¬ (Lifecycle.InstallationID y = Lifecycle.InstallationID e
                 ∧ Lifecycle.IdempotencyKey y = Lifecycle.IdempotencyKey e)) (lifecycle_events db)));
  Ok (set_lifecycle (lifecycle_events db ++ [e]) n db, n).

(* internal/store/schema.go:152-165 installation_log_chunks *)
Definition insert_log_chunk (c : Z → Telemetry.LogChunk) db : result (DB * Z) :=
  n ← next_rowid (log_seq db);
  let c := c n in
  _ ← check_constraint (bool_decide (is_Some (specs db !! Telemetry.l_InstallationID c)));
  _ ← check_constraint (bool_decide (Telemetry.l_Source c ∈
        [Lifecycle.SourceInstaller; Lifecycle.SourceFinalizer; Lifecycle.SourceValidator]));
  _ ← check_constraint (bool_decide (Forall
        (λ y, ¬ (Telemetry.l_InstallationID y = Telemetry.l_InstallationID c
                 ∧ (Telemetry.l_Sequence y = Telemetry.l_Sequence c
                    ∨ Telemetry.l_IdempotencyKey y = Telemetry.l_IdempotencyKey c))) (log_chunks db)));
  Ok (set_logs (log_chunks db ++ [c]) n db, n).

(* internal/store/schema.go:168-182 machine_boot_trust_keys *)
Definition insert_trust_key (k : Boottrust.Key) db : result DB :=
  _ ← check_constraint (bool_decide (trust_keys db !! Boottrust.k_Fingerprint k = None));
  _ ← check_constraint (bool_decide (is_Some (machines db !! Boottrust.k_MachineID k)));
  _ ← check_constraint (bool_decide (Boottrust.k_State k ∈
        [Boottrust.KeyPending; Boottrust.KeyApproved; Boottrust.KeyRevoked]));
  _ ← check_constraint (bool_decide (Boottrust.k_State k ≠ Boottrust.KeyApproved ∨ map_Forall
        (λ _ y, ¬ (Boottrust.k_MachineID y = Boottrust.k_MachineID k
                   ∧ Boottrust.k_State y = Boottrust.KeyApproved)) (trust_keys db)));
  Ok (set_trust_keys (<[Boottrust.k_Fingerprint k := k]> (trust_keys db)) db).

(* internal/store/schema.go:183-194 installation_boot_trust_challenges *)
Definition insert_challenge (id : string) (c : ChallengeRow) db : result DB :=
  _ ← check_constraint (bool_decide (challenges db !! id = None));
  _ ← check_constraint (bool_decide (is_Some (specs db !! cl_installation c)));
  _ ← check_constraint (bool_decide (is_Some (machines db !! cl_machine c)));
  _ ← check_constraint (bool_decide (is_Some (trust_keys db !! cl_key c)));
  _ ← check_constraint (String.length (cl_nonce c) =? 32)%nat;
  Ok (set_challenges (<[id := c]> (challenges db)) db).

(* internal/store/schema.go:86-100 operator_users *)
Definition insert_user (u : Identity.User) db : result DB :=
  _ ← check_constraint (bool_decide (users db !! Identity.ID u = None));
  _ ← check_constraint (bool_decide (Identity.u_Role u ∈ [""; Identity.RoleAdmin; Identity.RoleOperator]));
  _ ← check_constraint (bool_decide (Identity.u_Status u ∈
        [Identity.StatusPendingReview; Identity.StatusEnrollmentRequired; Identity.StatusActive;
         Identity.StatusBlocked]));
  _ ← check_constraint (bool_decide (map_Forall (λ _ y,
        Identity.WebAuthnHandle y ≠ Identity.WebAuthnHandle u
        ∧ ¬ (Identity.Provider y = Identity.Provider u ∧ Identity.Subject y = Identity.Subject u)) (users db)));
  Ok (set_users (<[Identity.ID u := u]> (users db)) db).

(** The table with one more audit event; the sequence number is assigned. *)
(* internal/store/events.go:14-21 appendEventTx *)
Definition audit (e : Event.Event) db : DB :=
  let n := (event_seq db + 1)%Z in
  set_events (events db ++ [Event.mkEvent n (Event.EntityType e) (Event.EntityID e) (Event.Type_ e)
    (Event.OccurredAt e) (Event.RequestID e) (Event.Actor e) (Event.Message e) (Event.ErrorCode e)]) n db.

(* internal/store/schema.go:113-123 events *)
Definition insert_event (e : Event.Event) db : result DB :=
  _ ← next_rowid (event_seq db); Ok (audit e db).

End Statements.

(** An INSERT, as a statement of the open transaction. *)
Definition exec_insert (f : DB → result DB) : M DB unit := stmt (λ db, db' ← f db; Ok (db', tt)).

(** An UPDATE or DELETE that cannot violate a constraint, with the number of
    rows it changes. *)
Definition exec_update (f : DB → DB * nat) : M DB nat := stmt (λ db, Ok (f db)).

(* internal/idgen/idgen.go:8-14 New *)
Definition idgen_New (prefix : string) : M DB string :=
  raw ← rand_Read 12; mret (prefix +:+ hex_encode raw).

(* internal/store/machines.go:237-240 storageError *)
Definition storageError (message : string) (err : error) : error := New StorageFailure message (Some err).

(* internal/store/events.go:14-21 appendEventTx *)
Definition appendEventTx (e : Event.Event) : M DB unit :=
  or_err (exec_insert (insert_event e)) (Wrapped "append event").

(** [if errors.Is(err, sql.ErrNoRows) { return notFound }; return storage]. *)
Definition no_rows_or (notFound storage : error → error) (err : error) : error :=
  if IsNoRows err then notFound err else storage err.

(** A request identifier is allocated when the caller gave none. *)
Definition request_or_new (requestID : string) : M DB string :=
  if blank requestID
  then or_err (idgen_New "req_") (λ e, New StorageFailure "could not allocate request identifier" (Some e))
  else mret requestID.

Lemma exec_insert_Ok f a d w t u c' :
  exec_insert f a (mkConn d w t) = (Ok u, c') ↔ io a t = true ∧ ∃ w', f w = Ok w' ∧ c' = mkConn d w' (S t).
Proof.
  destruct u. unfold exec_insert. rewrite stmt_Ok. simpl. destruct (f w) as [w'|e]; simpl.
  - split; [intros (? & ? & [= <-] & ->)|intros (? & ? & [= <-] & ->)]; eauto 6.
  - split; [intros (? & ? & [=] & _)|intros (? & ? & [=] & _)].
Qed.

Lemma exec_update_Ok f a d w t n c' :
  exec_update f a (mkConn d w t) = (Ok n, c') ↔
  io a t = true ∧ ∃ w', f w = (w', n) ∧ c' = mkConn d w' (S t).
Proof.
  unfold exec_update. rewrite stmt_Ok.
  split; [intros (? & w' & [= E] & ->)|intros (? & w' & E & ->)]; split; eauto.
  exists w'. by rewrite E.
Qed.

Lemma check_constraint_Ok b u : check_constraint b = Ok u ↔ b = true.
Proof. unfold check_constraint. rewrite fail_if_Ok. by rewrite negb_false_iff. Qed.

Lemma next_rowid_Ok seq n : next_rowid seq = Ok n ↔ n = (seq + 1)%Z ∧ (seq < max_rowid)%Z.
Proof.
  unfold next_rowid. destruct (Z.ltb_spec seq max_rowid); split.
  - intros [= <-]. lia.
  - by intros [-> _].
  - done.
  - lia.
Qed.

Lemma appendEventTx_Ok e a d w t u c' :
  appendEventTx e a (mkConn d w t) = (Ok u, c') ↔
  io a t = true ∧ (event_seq w < max_rowid)%Z ∧ c' = mkConn d (audit e w) (S t).
Proof.
  unfold appendEventTx. rewrite or_err_iff, exec_insert_Ok. unfold insert_event.
  destruct u. split.
  - intros (? & w' & H & ->). apply bind_Ok in H as (n & [_ ?]%next_rowid_Ok & [= <-]). done.
  - intros (? & Hn & ->). split; [done|]. exists (audit e w). split; [|done].
    apply bind_Ok. exists (event_seq w + 1)%Z. split; [|done]. by apply next_rowid_Ok.
Qed.

Lemma idgen_New_Ok p a d w t id c' :
  idgen_New p a (mkConn d w t) = (Ok id, c') →
  ∃ raw, entropy a t 12 = Some raw ∧ id = p +:+ hex_encode raw ∧ c' = mkConn d w (S t).
Proof.
  unfold idgen_New. intros (raw & c1 & (? & ->)%rand_Ok & (<- & ->)%M_ret_Ok)%M_bind_Ok. eauto.
Qed.

Lemma request_or_new_Ok r a d w t id c' :
  request_or_new r a (mkConn d w t) = (Ok id, c') → ∃ t', c' = mkConn d w t'.
Proof.
  unfold request_or_new. destruct (blank r).
  - intros H%or_err_Ok. apply idgen_New_Ok in H as (? & ? & ? & ->). eauto.
  - intros [<- ->]%M_ret_Ok. eauto.
Qed.

(** The row a query found, or the certainty that there is none. *)
Lemma row_inv {A} (o : option A) (r : result A) :
  r = row_or_none o ∨ r = Err SQLError →
  match r with Ok x => o = Some x | Err e => IsNoRows e = true → o = None end.
Proof. intros [-> | ->]; [by destruct o|done]. Qed.

Lemma keeps_exec_insert f : keeps (exec_insert f).
Proof. apply keeps_stmt. Qed.
Lemma keeps_exec_update f : keeps (exec_update f).
Proof. apply keeps_stmt. Qed.
Lemma keeps_appendEventTx e : keeps (appendEventTx e).
Proof. apply keeps_or_err, keeps_stmt. Qed.
Lemma keeps_idgen p : keeps (idgen_New p).
Proof. unfold idgen_New. solve_keeps. Qed.
#[export] Hint Resolve keeps_exec_insert keeps_exec_update keeps_appendEventTx keeps_idgen : aegis.
Lemma keeps_request_or_new r : keeps (request_or_new r).
Proof. unfold request_or_new. solve_keeps. Qed.
#[export] Hint Resolve keeps_request_or_new : aegis.

(** Inverts the steps of a successful run, the statements of this file
    included. *)
Ltac db_inv :=
  repeat (m_inv; match goal with
  | H : exec_insert _ _ (mkConn _ _ _) = (Ok _, _) |- _ => apply exec_insert_Ok in H; destruct H as (? & ? & H & ?); subst
  | H : exec_update _ _ (mkConn _ _ _) = (Ok _, _) |- _ => apply exec_update_Ok in H; destruct H as (? & ? & H & ?); subst
  | H : appendEventTx _ _ (mkConn _ _ _) = (Ok _, _) |- _ => apply appendEventTx_Ok in H; destruct H as (? & ? & ?); subst
  | H : idgen_New _ _ (mkConn _ _ _) = (Ok _, _) |- _ => apply idgen_New_Ok in H; destruct H as (? & ? & ? & ?); subst
  | H : request_or_new _ _ (mkConn _ _ _) = (Ok _, _) |- _ => apply request_or_new_Ok in H; destruct H as (? & ?); subst
  | H : row_or_none _ = Ok _ |- _ => apply row_or_none_Ok in H
  | H : _ = row_or_none _ ∨ _ = Err SQLError |- _ => apply row_inv in H
  end); m_inv.

(** Inverts the constraint checks of an INSERT. *)
Ltac constraint_inv :=
  ok_inv; repeat match goal with
  | H : check_constraint _ = Ok _ |- _ => apply check_constraint_Ok in H
  | H : next_rowid _ = Ok _ |- _ => apply next_rowid_Ok in H; destruct H as [? ?]
  end; bool_inv; subst.

(** Case analysis on the outcome of an inspected query. *)
Ltac row_case Hrow :=
  match goal with H : match ?r with Ok _ => _ | Err _ => _ end |- _ => rename H into Hrow; destruct r as [?row|?err] end.
