(* ===== verification/Progress.v ===== *)
(** * Runs in which nothing outside the program fails

    On a [healthy] ambient every statement is executed and the random source
    answers, so that an operation is a function of the database.  The lemmas
    compute it step by step; [forward] applies them.  They are what the theorems
    about success ("the operation returns a result") are proved with. *)

From S2P Require Import Prelude GoStrings Fault Op Db.

(** There are sequence numbers left. *)
Definition room (db : DB) : Prop :=
  (lifecycle_seq db < max_rowid)%Z ∧ (log_seq db < max_rowid)%Z ∧ (event_seq db < max_rowid)%Z.

Section Forward.
Context (a : ambient) (Ha : healthy a).

Lemma io_true t : io a t = true.
Proof. apply Ha. Qed.

Lemma bind_run {DB A B} (m : M DB A) (f : A → M DB B) c :
  (m ≫= f) a c = match m a c with (Ok x, c') => f x a c' | (Err e, c') => (Err e, c') end.
Proof. done. Qed.

Lemma ret_run {DB A} (x : A) (c : conn DB) : (mret x : M DB A) a c = (Ok x, c).
Proof. done. Qed.

Lemma begin_run {DB} (d w : DB) t : BeginTx a (mkConn d w t) = (Ok tt, mkConn d d (S t)).
Proof. unfold BeginTx. simpl. by rewrite io_true. Qed.

Lemma commit_run {DB} (d w : DB) t : Commit a (mkConn d w t) = (Ok tt, mkConn w w (S t)).
Proof. unfold Commit. simpl. by rewrite io_true. Qed.

Lemma stmt_run {DB A} (f : DB → result (DB * A)) d w t w' x :
  f w = Ok (w', x) → stmt f a (mkConn d w t) = (Ok x, mkConn d w' (S t)).
Proof. intros Hf. unfold stmt. simpl. by rewrite io_true, Hf. Qed.

Lemma query_run {DB A} (f : DB → result A) d w t :
  query f a (mkConn d w t) = (f w, mkConn d w (S t)).
Proof. unfold query, stmt. simpl. rewrite io_true. by destruct (f w). Qed.

Lemma db_query_run {DB A} (f : DB → result A) d t :
  db_query f a (mkConn d d t) = (f d, mkConn d d (S t)).
Proof. unfold db_query, auto_stmt. simpl. rewrite io_true. by destruct (f d). Qed.

Lemma auto_run {DB A} (f : DB → result (DB * A)) d w t w' x :
  f d = Ok (w', x) → auto_stmt f a (mkConn d w t) = (Ok x, mkConn w' w' (S t)).
Proof. intros Hf. unfold auto_stmt. simpl. by rewrite io_true, Hf. Qed.

Lemma or_err_run {DB A} (m : M DB A) w c x c' : m a c = (Ok x, c') → or_err m w a c = (Ok x, c').
Proof. unfold or_err. by intros ->. Qed.

Lemma lift_ok_run {DB A} (r : result A) (c : conn DB) : lift r a c = (r, c).
Proof. done. Qed.

Lemma try_run {DB A} (m : M DB A) c : try m a c = (let '(r, c') := m a c in (Ok r, c')).
Proof. done. Qed.

Lemma or_err_eq {DB A} (m : M DB A) w c : or_err m w a c = (let '(r, c') := m a c in (or_fail r w, c')).
Proof. done. Qed.

Lemma reject_false_run {DB} b e (c : conn DB) : b = false → reject b e a c = (Ok tt, c).
Proof. by intros ->. Qed.

Lemma reject_run {DB} b e (c : conn DB) : reject b e a c = (fail_if b e, c).
Proof. done. Qed.

Lemma now_run {DB} (c : conn DB) : now a c = (Ok (clock a), c).
Proof. done. Qed.

Lemma rand_run {DB} n (d w : DB) t : ∃ s, rand_Read n a (mkConn d w t) = (Ok s, mkConn d w (S t)) ∧ entropy a t n = Some s.
Proof. destruct (proj2 Ha t n) as [s Hs]. exists s. split; [|done]. unfold rand_Read. simpl. by rewrite Hs. Qed.

Lemma idgen_run p d w t : ∃ id, idgen_New p a (mkConn d w t) = (Ok id, mkConn d w (S t)).
Proof.
  destruct (rand_run 12 d w t) as (s & Hs & _). eexists. unfold idgen_New. rewrite bind_run, Hs. done.
Qed.

Lemma exec_insert_run f d w t w' : f w = Ok w' → exec_insert f a (mkConn d w t) = (Ok tt, mkConn d w' (S t)).
Proof. intros Hf. unfold exec_insert. apply stmt_run. by rewrite Hf. Qed.

Lemma exec_update_run f d w t w' n : f w = (w', n) → exec_update f a (mkConn d w t) = (Ok n, mkConn d w' (S t)).
Proof. intros Hf. unfold exec_update. apply stmt_run. by rewrite Hf. Qed.

Lemma append_event_run e d w t :
  (event_seq w < max_rowid)%Z → appendEventTx e a (mkConn d w t) = (Ok tt, mkConn d (audit e w) (S t)).
Proof.
  intros Hr. unfold appendEventTx. apply or_err_run, exec_insert_run. unfold insert_event.
  by rewrite (proj2 (next_rowid_Ok _ _) (conj eq_refl Hr)).
Qed.

Lemma run_run {DB A} (m : M DB A) db r c : m a (mkConn db db 0) = (r, c) → run m a db = (r, committed c).
Proof. unfold run. by intros ->. Qed.

End Forward.

(** Computes the operation up to the next unknown value. *)
Ltac settle := cbv beta iota; cbn [or_fail row_or_none fail_if]; cbv beta iota.
Ltac forward Ha :=
  settle;
  repeat (first
    [ rewrite bind_run
    | rewrite ret_run
    | rewrite (begin_run _ Ha) | rewrite (commit_run _ Ha)
    | rewrite (query_run _ Ha) | rewrite (db_query_run _ Ha)
    | rewrite (append_event_run _ Ha) by (simpl; done)
    | rewrite try_run | rewrite or_err_eq | rewrite now_run
    | rewrite lift_ok_run | rewrite reject_run ]; settle).

(** A guard that evaluates to false. *)
Ltac pass :=
  match goal with |- context [fail_if ?b ?e] =>
    let E := fresh in assert (b = false) as E by (done || by bool_inv); rewrite E; clear E
  end; settle.
