(* ===== verification/StoreTelemetry.v ===== *)
(** * Lifecycle credentials, lifecycle events and installer logs of the store
    (internal/store/telemetry.go, telemetry_auth.go, lifecycle_server.go) *)

From stdpp Require Import sorting.
From S2P Require Import Prelude GoStrings Regex Encoding StringFacts Fault Lifecycle Artifact Telemetry Op Db.
From S2P Require Event Installation.

(* internal/store/telemetry.go:22-22 defaultLifecycleCredentialTTL *)
Definition defaultLifecycleCredentialTTL : Z := (24 * Hour)%Z.
(* internal/store/telemetry_auth.go:14-14 telemetryAuthClockSkew *)
Definition telemetryAuthClockSkew : Z := (5 * Minute)%Z.

(** ** Reading *)

Definition installation_history (iid : string) (db : DB) : list Lifecycle.Event :=
  filter (λ e, Lifecycle.InstallationID e = iid) (lifecycle_events db).

Definition installation_logs (iid : string) (db : DB) : list LogChunk :=
  filter (λ c, l_InstallationID c = iid) (log_chunks db).

Definition credential_of (iid : string) (db : DB) : option (string * CredentialRow) :=
  find_row (λ p : string * CredentialRow, cr_installation p.2 = iid) (credentials db).

(* internal/store/telemetry.go:448-457 ensureInstallationExistsTx *)
Definition ensureInstallationExistsTx (installationID : string) : M DB unit :=
  _ ← or_err (query (λ db, row_or_none (specs db !! installationID)))
        (no_rows_or (λ e, New InstallationNotFound "installation not found" (Some e))
           (λ e, New StorageFailure "could not read installation" (Some e)));
  mret tt.

(* internal/store/telemetry.go:459-468 currentLifecycleStageTx *)
Definition currentLifecycleStageTx (installationID : string) : M DB Stage :=
  row ← try (query (λ db, row_or_none (last (installation_history installationID db))));
  match row with
  | Ok e => mret (Event_Stage e)
  | Err err => if IsNoRows err then mret ""
               else fail (New StorageFailure "could not read current lifecycle stage" (Some err))
  end.

(* internal/store/telemetry.go:487-515 scanLifecycleEvent *)
Definition scan_lifecycle_error (err : error) : error :=
  no_rows_or (λ e, New InstallationNotFound "lifecycle event not found" (Some e))
    (λ e, New StorageFailure "could not read lifecycle event" (Some e)) err.

(* internal/store/telemetry.go:470-481 lifecycleEventByIdempotencyTx *)
Definition lifecycleEventByIdempotencyTx (installationID key : string) : M DB Lifecycle.Event :=
  or_err (or_err (query (λ db, row_or_none
            (head (filter (λ e, Lifecycle.IdempotencyKey e = key) (installation_history installationID db)))))
            scan_lifecycle_error)
    (λ err, if IsNoRows err || (Code err =? InstallationNotFound)%string
            then New InstallationNotFound "lifecycle event not found" (Some err) else err).

(* internal/store/telemetry.go:534-556 scanInstallationLogChunk *)
Definition scan_log_error (err : error) : error :=
  no_rows_or (λ e, New InstallationNotFound "installer log chunk not found" (Some e))
    (λ e, New StorageFailure "could not read installer log chunk" (Some e)) err.

(* internal/store/telemetry.go:517-528 installationLogByIdempotencyTx *)
Definition installationLogByIdempotencyTx (installationID key : string) : M DB LogChunk :=
  or_err (or_err (query (λ db, row_or_none
            (head (filter (λ c, l_IdempotencyKey c = key) (installation_logs installationID db)))))
            scan_log_error)
    (λ err, if IsNoRows err || (Code err =? InstallationNotFound)%string
            then New InstallationNotFound "installer log chunk not found" (Some err) else err).

(* internal/store/telemetry.go:558-566 sameOptionalTime *)
Definition sameOptionalTime (left right : time) : bool :=
  if IsZero left && IsZero right then true
  else if negb (Bool.eqb (IsZero left) (IsZero right)) then false
  else (left =? right)%Z.

(** A list limit: non-positive and too large ones are replaced. *)
Definition list_limit (limit : Z) : nat :=
  Z.to_nat (if (limit <=? 0)%Z || (1000 <? limit)%Z then 200 else limit).

(* internal/store/telemetry.go:305-328 LifecycleEvents *)
Definition LifecycleEvents (installationID : string) (limit : Z) : M DB (list Lifecycle.Event) :=
  or_err (db_query (λ db, Ok (take (list_limit limit) (installation_history (TrimSpace installationID) db))))
    (storageError "list lifecycle events").

(* internal/store/telemetry.go:330-340 CurrentLifecycleStage *)
Definition CurrentLifecycleStage (installationID : string) : M DB Stage :=
  row ← try (db_query (λ db, row_or_none (last (installation_history (TrimSpace installationID) db))));
  match row with
  | Ok e => mret (Event_Stage e)
  | Err err => if IsNoRows err then mret "" else fail (storageError "read current lifecycle stage" err)
  end.

Definition sequence_desc (x y : LogChunk) : Prop := (l_Sequence y ≤ l_Sequence x)%Z.
#[global] Instance sequence_desc_dec x y : Decision (sequence_desc x y) := decide (_ ≤ _)%Z.

(** The newest chunks, in ascending order. *)
(* internal/store/telemetry.go:419-446 InstallationLogChunks *)
Definition InstallationLogChunks (installationID : string) (limit : Z) : M DB (list LogChunk) :=
  or_err (db_query (λ db, Ok (reverse (take (list_limit limit)
            (merge_sort sequence_desc (installation_logs (TrimSpace installationID) db))))))
    (storageError "list installer log chunks").

(** ** Server events *)

(** [occurredAt] is never changed when it is set. *)
(* internal/store/lifecycle_server.go:13-49 appendServerLifecycleEventTx *)
Definition appendServerLifecycleEventTx (installationID : string) (stage : Stage)
    (idempotencyKey message requestID : string) (occurredAt : time) : M DB unit :=
  _ ← reject (negb (SourceAllowed stage SourceServer))
        (New InstallerTelemetryInvalid "server is not authorized for lifecycle stage" None);
  existing ← try (query (λ db, row_or_none
      (head (filter (λ e, Lifecycle.IdempotencyKey e = idempotencyKey) (installation_history installationID db)))));
  match existing with
  | Ok existing =>
    if (Event_Stage existing =? stage)%string then mret tt
    else fail (New InstallerTelemetryConflict "server lifecycle idempotency key conflicts with existing stage" None)
  | Err err =>
    if negb (IsNoRows err) then
      fail (New StorageFailure "could not inspect server lifecycle idempotency" (Some err))
    else
      current ← currentLifecycleStageTx installationID;
      _ ← reject (negb (CanAdvance current stage))
            (New InstallerTelemetryConflict "server lifecycle event would regress or skip required state" None);
      t ← now;
      let occurredAt := if IsZero occurredAt then t else occurredAt in
      _ ← or_err (stmt (insert_lifecycle_event (λ n,
              Lifecycle.mkEvent n installationID stage SourceServer occurredAt zeroTime requestID
                idempotencyKey message "" ∅)))
            (λ e, New StorageFailure "could not persist server lifecycle event" (Some e));
      mret tt
  end.

Section Credentials.
Context `{Crypto}.

(* internal/store/telemetry.go:24-99 IssueLifecycleCredential *)
Definition IssueLifecycleCredential (installationID requestID actor : string) (ttl : Z) : M DB IssuedCredential :=
  let installationID := TrimSpace installationID in
  let actor := TrimSpace actor in
  _ ← reject ((installationID =? "")%string || (actor =? "")%string)
        (New InstallerTelemetryInvalid "installation and credential issuer are required" None);
  let ttl := if (ttl <=? 0)%Z then defaultLifecycleCredentialTTL else ttl in
  _ ← reject ((ttl <? 5 * Minute)%Z || (7 * 24 * Hour <? ttl)%Z)
        (New InstallerTelemetryInvalid "lifecycle credential lifetime is outside allowed bounds" None);
  _ ← or_err BeginTx (storageError "begin lifecycle credential issue");
  spec ← or_err (query (λ db, row_or_none (specs db !! installationID)))
           (no_rows_or (λ e, New InstallationNotFound "installation not found" (Some e))
              (storageError "read lifecycle credential identifier"));
  let credentialID := Installation.LifecycleCredentialID spec in
  existing ← try (query (λ db, row_or_none (credential_of installationID db)));
  match existing with
  | Ok _ => fail (New InstallerTelemetryConflict "installation lifecycle credential already exists" None)
  | Err err =>
    _ ← reject (negb (IsNoRows err)) (storageError "check lifecycle credential" err);
    secretBytes ← or_err (rand_Read 32) (λ e, New StorageFailure "could not generate lifecycle credential" (Some e));
    let secret := RawURLEncoding_EncodeToString secretBytes in
    let hash := sha256 secret in
    t ← now;
    let expiresAt := (t + ttl)%Z in
    _ ← or_err (exec_insert (insert_credential credentialID
            (mkCredentialRow installationID hash t expiresAt None None)))
          (storageError "persist lifecycle credential");
    _ ← or_err (appendEventTx (Event.mkEvent 0 Event.EntityInstallation installationID "INSTALLER_CREDENTIAL_ISSUED"
            t requestID actor "installation-scoped lifecycle credential issued behind trust boundary" ""))
          (storageError "persist lifecycle credential audit event");
    _ ← or_err Commit (storageError "commit lifecycle credential issue");
    mret (mkIssued (mkCredential credentialID installationID t expiresAt zeroTime zeroTime) secret)
  end.

(* internal/store/telemetry.go:101-152 AuthenticateLifecycleCredential *)
Definition AuthenticateLifecycleCredential (installationID secret : string) : M DB Credential :=
  let installationID := TrimSpace installationID in
  let secret := TrimSpace secret in
  _ ← reject ((installationID =? "")%string || (secret =? "")%string || (256 <? len secret)%Z)
        (New InstallerCredentialInvalid "installer credential is invalid" None);
  row ← or_err (db_query (λ db, row_or_none (credential_of installationID db)))
          (no_rows_or (λ _, New InstallerCredentialInvalid "installer credential is invalid" None)
             (storageError "read lifecycle credential"));
  let expected := cr_secret_sha256 row.2 in
  let actual := sha256 secret in
  _ ← reject (negb (String.length expected =? String.length actual)%nat || negb (expected =? actual)%string)
        (New InstallerCredentialInvalid "installer credential is invalid" None);
  let item := mkCredential row.1 (cr_installation row.2) (cr_created_at row.2) (cr_expires_at row.2)
                (stamp_time (cr_revoked_at row.2)) (stamp_time (cr_last_used_at row.2)) in
  t ← now;
  _ ← reject (negb (Active item t)) (New InstallerCredentialExpired "installer credential is expired or revoked" None);
  _ ← or_err (auto_stmt (λ db, Ok (set_credentials (alter (touch_credential_row t) row.1 (credentials db)) db, tt)))
        (storageError "update lifecycle credential last-used time");
  mret (mkCredential (c_ID item) (c_InstallationID item) (c_CreatedAt item) (c_ExpiresAt item)
          (c_RevokedAt item) t).

(** [time.Unix(seconds, 0)] as an instant: the 64-bit sum with the offset of
    the Unix epoch from the zero time wraps around. *)
Definition wrap64 (z : Z) : Z := ((z + 2 ^ 63) mod 2 ^ 64 - 2 ^ 63)%Z.
Definition unixToInternal : Z := 62135596800.
Definition time_Unix (seconds : Z) : time := (wrap64 (seconds + unixToInternal) * Second)%Z.

(* internal/store/telemetry_auth.go:16-57 VerifyLifecycleMAC *)
Definition VerifyLifecycleMAC (installationID method path idempotencyKey : string) (unixSeconds : Z)
    (body signature : string) : M DB unit :=
  let installationID := TrimSpace installationID in
  _ ← reject (installationID =? "")%string
        (New InstallerCredentialRequired "installation-scoped authentication is required" None);
  canonical ← or_err (lift (Canonical method path idempotencyKey unixSeconds body))
    (λ e, New InstallerCredentialInvalid "telemetry authentication input is invalid" (Some e));
  let requestTime := time_Unix unixSeconds in
  t ← now;
  _ ← reject (Before requestTime (t - telemetryAuthClockSkew)%Z || After requestTime (t + telemetryAuthClockSkew)%Z)
        (New InstallerCredentialExpired "telemetry authentication timestamp is outside the accepted window" None);
  row ← or_err (db_query (λ db, row_or_none (credential_of installationID db)))
          (no_rows_or (λ e, New InstallerCredentialRequired "installation lifecycle credential is unavailable" (Some e))
             (storageError "read lifecycle verifier for telemetry MAC"));
  let verifier := cr_secret_sha256 row.2 in
  _ ← reject (negb (String.length verifier =? 32)%nat)
        (New StorageFailure "stored lifecycle verifier is invalid" None);
  _ ← reject (bool_decide (cr_revoked_at row.2 ≠ None) || negb (After (cr_expires_at row.2) t))
        (New InstallerCredentialExpired "installation lifecycle credential is expired or revoked" None);
  _ ← reject (negb (Verify verifier canonical signature))
        (New InstallerCredentialInvalid "telemetry request signature is invalid" None);
  or_err (auto_stmt (λ db, Ok (set_credentials
      ((λ c, if bool_decide (cr_installation c = installationID) then touch_credential_row t c else c)
         <$> credentials db) db, tt)))
    (storageError "touch lifecycle credential after telemetry MAC").

End Credentials.

(* internal/store/telemetry.go:154-182 RevokeLifecycleCredential *)
Definition RevokeLifecycleCredential (installationID requestID actor : string) : M DB unit :=
  let installationID := TrimSpace installationID in
  let actor := TrimSpace actor in
  _ ← reject ((installationID =? "")%string || (actor =? "")%string)
        (New InstallerTelemetryInvalid "installation and credential revoker are required" None);
  t ← now;
  rows ← or_err (auto_stmt (λ db, Ok (revoke_credentials installationID t db)))
           (storageError "revoke lifecycle credential");
  reject (rows =? 0)%nat (New InstallerCredentialInvalid "active installer credential not found" None).

(** ** Client events *)

(** The recorded event repeats the report's content. *)
(* internal/store/telemetry.go:208-214 AppendLifecycleEvent *)
Definition same_report (existing : Lifecycle.Event) (report : Report) : bool :=
  bool_decide (Metadata existing = r_Metadata report)
  && (Event_Stage existing =? r_Stage report)%string && (Event_Source existing =? r_Source report)%string
  && (Lifecycle.Message existing =? r_Message report)%string
  && (Lifecycle.ErrorCode existing =? r_ErrorCode report)%string
  && sameOptionalTime (Lifecycle.ClientAt existing) (r_ClientAt report).

(* internal/store/telemetry.go:227-242 AppendLifecycleEvent *)
Definition reported_event (report : Report) (requestID : string) (t : time) (n : Z) : Lifecycle.Event :=
  Lifecycle.mkEvent n (r_InstallationID report) (r_Stage report) (r_Source report) t (r_ClientAt report)
    requestID (r_IdempotencyKey report) (r_Message report) (r_ErrorCode report) (r_Metadata report).

(* internal/store/telemetry.go:243-256 AppendLifecycleEvent *)
Definition lifecycle_audit (report : Report) (requestID : string) (t : time) : Event.Event :=
  let message := if blank (r_Message report)
                 then "authoritative lifecycle stage accepted: " +:+ r_Stage report else r_Message report in
  Event.mkEvent 0 Event.EntityInstallation (r_InstallationID report) (r_Stage report) t requestID
    ("telemetry:" +:+ r_Source report) message (r_ErrorCode report).

(* internal/store/telemetry.go:184-293 AppendLifecycleEvent *)
Definition AppendLifecycleEvent (report : Report) (requestID : string) : M DB (Lifecycle.Event * bool) :=
  _ ← or_err (lift (Report_Validate report))
        (λ e, New InstallerTelemetryInvalid "lifecycle report is invalid" (Some e));
  _ ← or_err BeginTx (storageError "begin lifecycle event");
  _ ← ensureInstallationExistsTx (r_InstallationID report);
  existing ← try (lifecycleEventByIdempotencyTx (r_InstallationID report) (r_IdempotencyKey report));
  match existing with
  | Ok existing =>
    if negb (same_report existing report)
    then fail (New InstallerTelemetryConflict "idempotency key was reused with different lifecycle content" None)
    else mret (existing, true)
  | Err err =>
    _ ← reject (negb (Code err =? InstallationNotFound)%string) err;
    current ← currentLifecycleStageTx (r_InstallationID report);
    _ ← reject (negb (CanAdvance current (r_Stage report)))
          (New InstallerTelemetryConflict "lifecycle event would regress or skip required state" None);
    t ← now;
    sequence ← or_err (stmt (insert_lifecycle_event (reported_event report requestID t)))
                 (storageError "persist lifecycle event");
    _ ← or_err (appendEventTx (lifecycle_audit report requestID t))
          (storageError "persist lifecycle audit projection");
    _ ← (if Terminal (r_Stage report)
         then _ ← or_err (exec_update (revoke_credentials (r_InstallationID report) t))
                    (storageError "revoke terminal lifecycle credential"); mret tt
         else mret tt);
    _ ← or_err Commit (storageError "commit lifecycle event");
    mret (reported_event report requestID t sequence, false)
  end.

(* internal/store/telemetry.go:295-303 RecordServerLifecycle *)
Definition RecordServerLifecycle (installationID : string) (stage : Stage) (idempotencyKey message requestID : string)
  : M DB (Lifecycle.Event * bool) :=
  AppendLifecycleEvent (mkReport installationID stage SourceServer zeroTime idempotencyKey message "" ∅) requestID.

(** ** Log chunks *)

Section Logs.
Context `{Crypto}.

Definition total_bytes (l : list LogChunk) : Z := foldr (λ c n, (len (l_Content c) + n)%Z) 0%Z l.
Definition last_sequence (l : list LogChunk) : Z := foldr (λ c n, Z.max (l_Sequence c) n) 0%Z l.

(* internal/store/telemetry.go:343-348 AppendInstallationLogChunk *)
Definition redacted_chunk (chunk : LogChunk) : LogChunk :=
  mkLogChunk (l_ID chunk) (l_InstallationID chunk) (l_Sequence chunk) (l_Source chunk) (l_ReceivedAt chunk)
    (l_ClientAt chunk) (l_RequestID chunk) (l_IdempotencyKey chunk) (RedactLogContent (l_Content chunk))
    (SHA256 (RedactLogContent (l_Content chunk))).

(** The row of a chunk, and the chunk returned for it. *)
(* internal/store/telemetry.go:384-404 AppendInstallationLogChunk *)
Definition stored_chunk (chunk : LogChunk) (t : time) (n : Z) : LogChunk :=
  mkLogChunk n (l_InstallationID chunk) (l_Sequence chunk) (l_Source chunk) t
    (l_ClientAt chunk) (l_RequestID chunk) (l_IdempotencyKey chunk) (l_Content chunk) (l_Digest chunk).

(** The sums stay far below 2^63: the limit holds after every insertion. *)
(* internal/store/telemetry.go:342-417 AppendInstallationLogChunk *)
Definition AppendInstallationLogChunk (chunk : LogChunk) : M DB (LogChunk * bool) :=
  let chunk := redacted_chunk chunk in
  _ ← or_err (lift (LogChunk_Validate chunk))
        (λ e, New InstallerTelemetryInvalid "installer log chunk is invalid" (Some e));
  _ ← or_err BeginTx (storageError "begin installer log chunk");
  _ ← ensureInstallationExistsTx (l_InstallationID chunk);
  existing ← try (installationLogByIdempotencyTx (l_InstallationID chunk) (l_IdempotencyKey chunk));
  match existing with
  | Ok existing =>
    if negb (l_Sequence existing =? l_Sequence chunk)%Z || negb (l_Source existing =? l_Source chunk)%string
       || negb (l_Digest existing =? l_Digest chunk)%string
       || negb (sameOptionalTime (l_ClientAt existing) (l_ClientAt chunk))
    then fail (New InstallerTelemetryConflict "idempotency key was reused with different log content" None)
    else mret (existing, true)
  | Err err =>
    _ ← reject (negb (Code err =? InstallationNotFound)%string) err;
    lastSequence ← or_err (query (λ db, Ok (last_sequence (installation_logs (l_InstallationID chunk) db))))
                     (storageError "read installer log sequence");
    _ ← reject (negb (l_Sequence chunk =? lastSequence + 1)%Z)
          (New InstallerTelemetryConflict "installer log sequence is not contiguous" None);
    totalBytes ← or_err (query (λ db, Ok (total_bytes (installation_logs (l_InstallationID chunk) db))))
                   (storageError "read installer log size");
    _ ← reject (MaxInstallationLogBytes <? totalBytes + len (l_Content chunk))%Z
          (New InstallerLogLimitExceeded "installation log storage limit exceeded" None);
    t ← now;
    id ← or_err (stmt (insert_log_chunk (stored_chunk chunk t))) (storageError "persist installer log chunk");
    _ ← or_err Commit (storageError "commit installer log chunk");
    mret (stored_chunk chunk t id, false)
  end.

End Logs.

(** ** Lemmas *)

Lemma keeps_ensure iid : keeps (ensureInstallationExistsTx iid).
Proof. unfold ensureInstallationExistsTx. solve_keeps. Qed.
Lemma keeps_currentStage iid : keeps (currentLifecycleStageTx iid).
Proof. unfold currentLifecycleStageTx. solve_keeps. Qed.
Lemma keeps_lifecycleEventByIdempotency iid k : keeps (lifecycleEventByIdempotencyTx iid k).
Proof. unfold lifecycleEventByIdempotencyTx. solve_keeps. Qed.
Lemma keeps_installationLogByIdempotency iid k : keeps (installationLogByIdempotencyTx iid k).
Proof. unfold installationLogByIdempotencyTx. solve_keeps. Qed.
#[export] Hint Resolve keeps_ensure keeps_currentStage keeps_lifecycleEventByIdempotency
  keeps_installationLogByIdempotency : aegis.
Lemma keeps_appendServer iid st k m r t : keeps (appendServerLifecycleEventTx iid st k m r t).
Proof. unfold appendServerLifecycleEventTx. solve_keeps. Qed.
#[export] Hint Resolve keeps_appendServer : aegis.

(** What [currentLifecycleStageTx] reads. *)
Definition current_stage (iid : string) (db : DB) : Stage :=
  match last (installation_history iid db) with Some e => Event_Stage e | None => "" end.

(** The events and log chunks recorded under an idempotency key. *)
Definition event_by_key (iid key : string) (db : DB) : option Lifecycle.Event :=
  head (filter (λ e, Lifecycle.IdempotencyKey e = key) (installation_history iid db)).
Definition log_by_key (iid key : string) (db : DB) : option LogChunk :=
  head (filter (λ c, l_IdempotencyKey c = key) (installation_logs iid db)).

(** The database with one more lifecycle event or log chunk. *)
Definition add_lifecycle_event (e : Lifecycle.Event) (db : DB) : DB :=
  set_lifecycle (lifecycle_events db ++ [e]) (lifecycle_seq db + 1) db.
Definition add_log_chunk (c : LogChunk) (db : DB) : DB :=
  set_logs (log_chunks db ++ [c]) (log_seq db + 1) db.

Lemma insert_lifecycle_event_Ok e w w' n :
  insert_lifecycle_event e w = Ok (w', n) →
  n = (lifecycle_seq w + 1)%Z ∧ w' = add_lifecycle_event (e n) w ∧
  is_Some (specs w !! Lifecycle.InstallationID (e n)) ∧
  Stage_Valid (Event_Stage (e n)) = true ∧ Source_Valid (Event_Source (e n)) = true.
Proof. unfold insert_lifecycle_event. intros H. constraint_inv. done. Qed.

Lemma insert_log_chunk_Ok c w w' n :
  insert_log_chunk c w = Ok (w', n) → n = (log_seq w + 1)%Z ∧ w' = add_log_chunk (c n) w.
Proof. unfold insert_log_chunk. intros H. constraint_inv. done. Qed.

Lemma ensure_Ok iid a d w t u c' :
  ensureInstallationExistsTx iid a (mkConn d w t) = (Ok u, c') →
  is_Some (specs w !! iid) ∧ c' = mkConn d w (S t).
Proof. unfold ensureInstallationExistsTx. intros H. db_inv. eauto. Qed.

Lemma currentStage_Ok iid a d w t s c' :
  currentLifecycleStageTx iid a (mkConn d w t) = (Ok s, c') →
  s = current_stage iid w ∧ c' = mkConn d w (S t).
Proof.
  unfold currentLifecycleStageTx, current_stage. intros H. db_inv.
  row_case Hlast.
  - db_inv. by rewrite Hlast.
  - destruct (IsNoRows err) eqn:E; db_inv. by rewrite Hlast.
Qed.

(** A row looked up by key: found, or absent when the error says so. *)
Lemma by_key_inv {A} (f : DB → result A) (scan outer : error → error) a d w t r c' :
  try (or_err (or_err (query f) scan) outer) a (mkConn d w t) = (Ok r, c') →
  c' = mkConn d w (S t) ∧
  match r with Ok x => f w = Ok x | Err e => ∃ e0, e = outer (scan e0) ∧ (f w = Err e0 ∨ e0 = SQLError) end.
Proof.
  intros H%try_Ok. destruct r as [x|e].
  - apply or_err_Ok, or_err_Ok, query_Ok in H as (_ & ? & ->). done.
  - apply or_err_Err in H as (e1 & H & ->). apply or_err_Err in H as (e2 & H & ->).
    apply query_Err in H as (-> & H). eauto.
Qed.

Lemma lifecycleEventByKey_inv iid key a d w t r c' :
  try (lifecycleEventByIdempotencyTx iid key) a (mkConn d w t) = (Ok r, c') →
  c' = mkConn d w (S t) ∧
  match r with
  | Ok e => event_by_key iid key w = Some e
  | Err e => Code e = InstallationNotFound → event_by_key iid key w = None
  end.
Proof.
  unfold lifecycleEventByIdempotencyTx. intros (-> & H)%by_key_inv. split; [done|].
  destruct r as [e|e]; [by apply row_or_none_Ok in H|].
  destruct H as (e0 & -> & [H| ->]); [|done]. unfold event_by_key. by destruct (head _).
Qed.

Lemma logByKey_inv iid key a d w t r c' :
  try (installationLogByIdempotencyTx iid key) a (mkConn d w t) = (Ok r, c') →
  c' = mkConn d w (S t) ∧
  match r with
  | Ok e => log_by_key iid key w = Some e
  | Err e => Code e = InstallationNotFound → log_by_key iid key w = None
  end.
Proof.
  unfold installationLogByIdempotencyTx. intros (-> & H)%by_key_inv. split; [done|].
  destruct r as [e|e]; [by apply row_or_none_Ok in H|].
  destruct H as (e0 & -> & [H| ->]); [|done]. unfold log_by_key. by destruct (head _).
Qed.

(** The server event: already recorded for the same stage, or appended. *)
Definition server_event (iid : string) (stage : Stage) (key message requestID : string) (t : time) (n : Z) : Lifecycle.Event :=
  Lifecycle.mkEvent n iid stage SourceServer t zeroTime requestID key message "" ∅.

Definition server_step (iid : string) (stage : Stage) (key message requestID : string) (w w' : DB) : Prop :=
  (w' = w ∧ ∃ e, event_by_key iid key w = Some e ∧ Event_Stage e = stage) ∨
  (event_by_key iid key w = None ∧ CanAdvance (current_stage iid w) stage = true ∧
   is_Some (specs w !! iid) ∧
   ∃ t1, w' = add_lifecycle_event (server_event iid stage key message requestID t1 (lifecycle_seq w + 1)) w).

Lemma appendServer_Ok iid stage key message requestID at_ a d w t u c' :
  appendServerLifecycleEventTx iid stage key message requestID at_ a (mkConn d w t) = (Ok u, c') →
  SourceAllowed stage SourceServer = true ∧
  ∃ w' t', c' = mkConn d w' t' ∧ server_step iid stage key message requestID w w'.
Proof.
  unfold appendServerLifecycleEventTx. intros H. db_inv. bool_inv. split; [done|].
  row_case Hrow.
  - destruct (String.eqb_spec (Event_Stage row) stage); db_inv. do 2 eexists. split; [reflexivity|]. left. eauto.
  - destruct (IsNoRows err) eqn:E; simpl in H; [|db_inv]. db_inv.
    match goal with Hc : currentLifecycleStageTx _ _ _ = _ |- _ => apply currentStage_Ok in Hc as [-> ->] end.
    db_inv. bool_inv.
    match goal with Hi : insert_lifecycle_event _ _ = _ |- _ =>
      apply insert_lifecycle_event_Ok in Hi as (-> & -> & ? & _ & _) end.
    do 2 eexists. split; [reflexivity|]. right. split_and!; eauto.
Qed.

(** *** Specifications of the operations *)

(** The credentials of a terminal installation are revoked. *)
Definition revoke_if_terminal (report : Report) (t : time) (db : DB) : DB :=
  if Terminal (r_Stage report) then (revoke_credentials (r_InstallationID report) t db).1 else db.

Definition accept_report (report : Report) (requestID : string) (t : time) (db : DB) : DB :=
  revoke_if_terminal report t
    (audit (lifecycle_audit report requestID t)
       (add_lifecycle_event (reported_event report requestID t (lifecycle_seq db + 1)) db)).

(** A successful report: a replay that changes nothing, or one accepted event. *)
Lemma AppendLifecycleEvent_Ok report requestID a db e dup db' :
  run (AppendLifecycleEvent report requestID) a db = (Ok (e, dup), db') →
  Report_Validate report = Ok tt ∧ is_Some (specs db !! r_InstallationID report) ∧
  ((dup = true ∧ db' = db ∧ event_by_key (r_InstallationID report) (r_IdempotencyKey report) db = Some e ∧
    same_report e report = true) ∨
   (dup = false ∧ event_by_key (r_InstallationID report) (r_IdempotencyKey report) db = None ∧
    CanAdvance (current_stage (r_InstallationID report) db) (r_Stage report) = true ∧
    e = reported_event report requestID (clock a) (lifecycle_seq db + 1) ∧
    db' = accept_report report requestID (clock a) db)).
Proof.
  unfold AppendLifecycleEvent. intros H. db_inv.
  match goal with Hv : Ok ?u = Report_Validate _ |- _ => destruct u; symmetry in Hv end.
  split; [done|].
  match goal with He : ensureInstallationExistsTx _ _ _ = _ |- _ => apply ensure_Ok in He as [? ->] end.
  split; [done|].
  match goal with Hk : try _ _ _ = _ |- _ => apply lifecycleEventByKey_inv in Hk as [-> Hrow] end.
  row_case Hk; cbv beta iota in H.
  - left. destruct (same_report row report) eqn:Es; cbn [negb] in H; db_inv. simplify_eq. done.
  - right. db_inv. bool_inv. specialize (Hk ltac:(done)).
    match goal with Hc : currentLifecycleStageTx _ _ _ = _ |- _ => apply currentStage_Ok in Hc as [-> ->] end.
    db_inv. bool_inv.
    match goal with Hi : insert_lifecycle_event _ _ = _ |- _ =>
      apply insert_lifecycle_event_Ok in Hi as (-> & -> & _) end.
    unfold accept_report, revoke_if_terminal.
    destruct (Terminal (r_Stage report)) eqn:Et; db_inv; simplify_eq; split_and!; try done.
    match goal with Hr : revoke_credentials _ _ _ = _ |- _ => by rewrite Hr end.
Qed.

Lemma AppendInstallationLogChunk_Ok `{Crypto} chunk a db c dup db' :
  run (AppendInstallationLogChunk chunk) a db = (Ok (c, dup), db') →
  let chunk := redacted_chunk chunk in
  let iid := l_InstallationID chunk in
  LogChunk_Validate chunk = Ok tt ∧ is_Some (specs db !! iid) ∧
  ((dup = true ∧ db' = db ∧ log_by_key iid (l_IdempotencyKey chunk) db = Some c ∧
    l_Sequence c = l_Sequence chunk ∧ l_Source c = l_Source chunk ∧ l_Digest c = l_Digest chunk) ∨
   (dup = false ∧ log_by_key iid (l_IdempotencyKey chunk) db = None ∧
    l_Sequence chunk = (last_sequence (installation_logs iid db) + 1)%Z ∧
    (total_bytes (installation_logs iid db) + len (l_Content chunk) ≤ MaxInstallationLogBytes)%Z ∧
    c = stored_chunk chunk (clock a) (log_seq db + 1) ∧ db' = add_log_chunk c db)).
Proof.
  unfold AppendInstallationLogChunk. intros Hr. cbv zeta in *. set (ch := redacted_chunk chunk) in *. db_inv.
  match goal with Hv : Ok ?u = LogChunk_Validate _ |- _ => destruct u; symmetry in Hv end.
  split; [done|].
  match goal with He : ensureInstallationExistsTx _ _ _ = _ |- _ => apply ensure_Ok in He as [? ->] end.
  split; [done|].
  match goal with Hk : try _ _ _ = _ |- _ => apply logByKey_inv in Hk as [-> Hrow] end.
  row_case Hk; cbv beta iota in Hr.
  - left. match type of Hr with context [if ?b then _ else _] => destruct b eqn:Es end; db_inv.
    bool_inv. simplify_eq. done.
  - right. db_inv. bool_inv. specialize (Hk ltac:(done)). simplify_eq.
    match goal with Hi : insert_log_chunk _ _ = _ |- _ => apply insert_log_chunk_Ok in Hi as (-> & ->) end.
    done.
Qed.

Lemma keeps_lifecycle_ops :
  (∀ iid n, keeps (LifecycleEvents iid n)) ∧ (∀ iid, keeps (CurrentLifecycleStage iid)) ∧
  (∀ iid n, keeps (InstallationLogChunks iid n)).
Proof.
  split_and!; intros; unfold LifecycleEvents, CurrentLifecycleStage, InstallationLogChunks; solve_keeps.
Qed.

Lemma atomic_AppendLifecycleEvent report requestID : atomic (AppendLifecycleEvent report requestID).
Proof. unfold AppendLifecycleEvent. solve_atomic. Qed.

Lemma atomic_AppendInstallationLogChunk `{Crypto} chunk : atomic (AppendInstallationLogChunk chunk).
Proof. unfold AppendInstallationLogChunk. solve_atomic. Qed.

Lemma atomic_IssueLifecycleCredential `{Crypto} iid rid actor ttl :
  atomic (IssueLifecycleCredential iid rid actor ttl).
Proof. unfold IssueLifecycleCredential. solve_atomic. Qed.

Lemma atomic_AuthenticateLifecycleCredential `{Crypto} iid secret :
  atomic (AuthenticateLifecycleCredential iid secret).
Proof. unfold AuthenticateLifecycleCredential. solve_atomic. Qed.

Lemma atomic_VerifyLifecycleMAC `{Crypto} iid m p k t b s : atomic (VerifyLifecycleMAC iid m p k t b s).
Proof. unfold VerifyLifecycleMAC. solve_atomic. Qed.

#[export] Hint Resolve atomic_AppendLifecycleEvent atomic_AppendInstallationLogChunk
  atomic_IssueLifecycleCredential atomic_AuthenticateLifecycleCredential atomic_VerifyLifecycleMAC : aegis.

(** Revoking when there is nothing to revoke changes nothing. *)
Lemma revoke_credentials_none iid t db : (revoke_credentials iid t db).2 = 0 → (revoke_credentials iid t db).1 = db.
Proof.
  unfold revoke_credentials. simpl. intros H0. apply map_size_empty_inv in H0.
  assert (revoke_credential_row iid t <$> credentials db = credentials db) as ->; [|by destruct db].
  apply map_eq. intros k. rewrite lookup_fmap. destruct (credentials db !! k) as [c|] eqn:E; [|done]. simpl.
  unfold revoke_credential_row. rewrite bool_decide_false; [done|]. intros Hc.
  assert (filter (λ p : string * CredentialRow, cr_installation p.2 = iid ∧ cr_revoked_at p.2 = None)
            (credentials db) !! k = Some c) as Hf by (apply map_lookup_filter_Some; done).
  by rewrite H0, lookup_empty in Hf.
Qed.

Lemma atomic_RevokeLifecycleCredential iid rid actor : atomic (RevokeLifecycleCredential iid rid actor).
Proof.
  unfold RevokeLifecycleCredential. do 2 (apply atomic_bind; [solve_keeps|intros ?]).
  intros a c e. unfold mbind, M_bind, or_err, auto_stmt, reject, lift.
  destruct (io a (tick c)); [|done]. cbn -[revoke_credentials].
  destruct (revoke_credentials _ _ _) as [w n] eqn:E. simpl.
  destruct (Nat.eqb_spec n 0) as [->|]; [|done]. intros _.
  rewrite <- (revoke_credentials_none (TrimSpace iid) x0 (committed c)); by rewrite E.
Qed.
#[export] Hint Resolve atomic_RevokeLifecycleCredential : aegis.

Lemma RevokeLifecycleCredential_Ok iid rid actor a db u db' :
  run (RevokeLifecycleCredential iid rid actor) a db = (Ok u, db') →
  db' = (revoke_credentials (TrimSpace iid) (clock a) db).1.
Proof.
  unfold RevokeLifecycleCredential. intros H. db_inv.
  match goal with He : Ok _ = Ok _ |- _ => by injection He as <- _ end.
Qed.

Section CredentialFacts.
Context `{Crypto}.

(** The credential released for [secret]. *)
Definition new_credential (iid secret : string) (t ttl : Z) : CredentialRow :=
  mkCredentialRow iid (sha256 secret) t (t + ttl)%Z None None.

Lemma insert_credential_Ok id c w w' :
  insert_credential id c w = Ok w' →
  w' = set_credentials (<[id := c]> (credentials w)) w ∧ credentials w !! id = None ∧
  is_Some (specs w !! cr_installation c) ∧
  (∀ k y, credentials w !! k = Some y → cr_installation y ≠ cr_installation c) ∧
  String.length (cr_secret_sha256 c) = 32.
Proof.
  unfold insert_credential. intros Hi. constraint_inv. split_and!; try done. by apply Nat.eqb_eq.
Qed.

Lemma IssueLifecycleCredential_Ok iid rid actor ttl a db ic db' :
  run (IssueLifecycleCredential iid rid actor ttl) a db = (Ok ic, db') →
  let iid := TrimSpace iid in
  let ttl := if (ttl <=? 0)%Z then defaultLifecycleCredentialTTL else ttl in
  (5 * Minute ≤ ttl ≤ 7 * 24 * Hour)%Z ∧
  ∃ spec secret db1 e,
    specs db !! iid = Some spec ∧ credential_of iid db = None ∧
    insert_credential (Installation.LifecycleCredentialID spec) (new_credential iid secret (clock a) ttl) db = Ok db1 ∧
    db' = audit e db1 ∧
    ic = mkIssued (mkCredential (Installation.LifecycleCredentialID spec) iid (clock a) (clock a + ttl)%Z zeroTime zeroTime) secret.
Proof.
  unfold IssueLifecycleCredential. intros Hr. cbv zeta in *. db_inv. row_case Hrow; cbv beta iota in Hr; db_inv.
  bool_inv. specialize (Hrow ltac:(done)). split; [lia|]. do 4 eexists. split_and!; done.
Qed.

Lemma AuthenticateLifecycleCredential_Ok iid secret a db c db' :
  run (AuthenticateLifecycleCredential iid secret) a db = (Ok c, db') →
  ∃ id row, credential_of (TrimSpace iid) db = Some (id, row) ∧
    cr_secret_sha256 row = sha256 (TrimSpace secret) ∧
    (clock a < cr_expires_at row)%Z ∧ stamp_time (cr_revoked_at row) = zeroTime ∧
    db' = set_credentials (alter (touch_credential_row (clock a)) id (credentials db)) db ∧
    c_ID c = id ∧ c_InstallationID c = TrimSpace iid.
Proof.
  unfold AuthenticateLifecycleCredential. intros Hr. db_inv.
  match goal with Hc : credential_of _ _ = Some ?p |- _ => destruct p as [id row] end. simpl in *.
  unfold Active, After, IsZero in *. simpl in *. bool_inv.
  repeat match goal with He : Ok _ = Ok _ |- _ => injection He as <- end.
  exists id, row. split_and!; try done.
  match goal with Hc : credential_of _ _ = _ |- _ => by apply find_row_Some in Hc as [_ ?] end.
Qed.

(** An authenticated request carries the credential's signature of its own
    canonical text, within the clock window and before expiry. *)
Lemma VerifyLifecycleMAC_Ok iid m p k t b s a db u db' :
  run (VerifyLifecycleMAC iid m p k t b s) a db = (Ok u, db') →
  ∃ id row text, credential_of (TrimSpace iid) db = Some (id, row) ∧
    Canonical m p k t b = Ok text ∧ Verify (cr_secret_sha256 row) text s = true ∧
    cr_revoked_at row = None ∧ (clock a < cr_expires_at row)%Z ∧
    (clock a - telemetryAuthClockSkew ≤ time_Unix t ≤ clock a + telemetryAuthClockSkew)%Z ∧
    db' = set_credentials ((λ c, if bool_decide (cr_installation c = TrimSpace iid)
            then touch_credential_row (clock a) c else c) <$> credentials db) db.
Proof.
  unfold VerifyLifecycleMAC. intros Hr. db_inv.
  match goal with Hc : credential_of _ _ = Some ?p |- _ => destruct p as [id row] end.
  unfold Before, After in *. simpl in *. bool_inv. repeat match goal with He : Ok _ = Ok _ |- _ => injection He as <- end.
  match goal with Hc : Ok ?x = Canonical _ _ _ _ _ |- _ => exists id, row, x end. split_and!; try done.
  match goal with Hd : ¬ _ ≠ _ |- _ => by apply dec_stable in Hd end.
Qed.

End CredentialFacts.
