(* ===== verification/StoreMachines.v ===== *)
(** * Machine inventory of the store
    (internal/store/machines.go, machine_policy.go, machine_queries.go, events.go) *)

From stdpp Require Import sorting.
From S2P Require Import Prelude GoStrings Regex Fault Op Db Machine.
From S2P Require Secureboot Event.

(* internal/store/machines.go:210-235 scanMachine *)
Definition scanMachine (m : Machine) : Machine :=
  if (SecureBootState m =? "")%string
  then mkMachine (ID m) (Nickname m) (m_Policy m) (Architecture m) (Firmware m) Secureboot.StateUnknown
         (SecureBootObserved m) (FirstSeen m) (LastSeen m)
  else m.

(* internal/store/machines.go:202-204 machineByIDTx *)
Definition machineByIDTx (id : string) : M DB Machine :=
  query (λ db, scanMachine <$> row_or_none (machines db !! id)).

(** [SELECT machine_id FROM machine_identifiers WHERE kind=? AND value=?] for
    every identifier: the set of machines they resolve to. *)
(* internal/store/machines.go:63-75 DiscoverMachine *)
Fixpoint resolve_identifiers (l : list Identifier) (matches : gset string) : M DB (gset string) :=
  match l with
  | [] => mret matches
  | i :: l =>
    row ← try (query (λ db, row_or_none (identifiers db !! (Kind i, Value i))));
    match row with
    | Ok r => resolve_identifiers l ({[id_machine r]} ∪ matches)
    | Err err => if IsNoRows err then resolve_identifiers l matches
                 else fail (storageError "resolve machine identity" err)
    end
  end.

(* internal/store/machines.go:105-110 DiscoverMachine *)
Fixpoint persist_identifiers (machineID : string) (stamp : time) (l : list Identifier) : M DB unit :=
  match l with
  | [] => mret tt
  | i :: l =>
    _ ← or_err (exec_insert (upsert_identifier (Kind i) (Value i) machineID stamp))
          (storageError "persist machine identifier");
    persist_identifiers machineID stamp l
  end.

(* internal/store/machines.go:98-99 DiscoverMachine *)
Definition refresh_machine (architecture firmware : string) (state : Secureboot.State) (stamp : time) (m : Machine) : Machine :=
  mkMachine (ID m) (Nickname m) (m_Policy m)
    (if (architecture =? "")%string then Architecture m else architecture)
    (if (firmware =? "")%string then Firmware m else firmware)
    state stamp (FirstSeen m) stamp.

(* internal/store/machines.go:112-117 DiscoverMachine *)
Definition discovery_event (machineID requestID : string) (created : bool) (t : time) : Event.Event :=
  Event.mkEvent 0 Event.EntityMachine machineID
    (if created then Event.MachineDiscovered else Event.MachineSeen) t requestID "system:pxe"
    (if created then "machine discovered" else "machine observation refreshed") "".

(** The observed Secure Boot states satisfy the CHECK of the column, so that
    the UPDATE violates no constraint. *)
(* internal/store/machines.go:18-146 DiscoverMachine *)
Definition DiscoverMachine (observation : Observation) (requestID : string) : M DB (Machine * bool) :=
  let requestID := TrimSpace requestID in
  requestID ← (if (requestID =? "")%string
               then or_err (idgen_New "req_") (λ e, New StorageFailure "could not allocate request identifier" (Some e))
               else mret requestID);
  let architecture := TrimSpace (obs_Architecture observation) in
  let firmware := TrimSpace (obs_Firmware observation) in
  _ ← reject ((64 <? len architecture)%Z || (64 <? len firmware)%Z)
        (New MachineIdentityInvalid "machine observation metadata is too large" None);
  match Observation_SecureBootState observation with
  | (_, Some err) => fail (New SecureBootEvidenceInvalid "machine Secure Boot evidence is invalid" (Some err))
  | (secureBootState, None) =>
    ids ← or_err (lift (Identifiers observation))
            (λ e, New MachineIdentityInvalid "machine identity is invalid" (Some e));
    _ ← or_err BeginTx (storageError "begin machine discovery");
    matches ← resolve_identifiers ids ∅;
    _ ← reject (1 <? size matches)%nat
          (New MachineIdentityConflict "machine identifiers resolve to different machines" None);
    t ← now;
    let created := (size matches =? 0)%nat in
    machineID ← (match elements matches with
      | [] =>
        id ← or_err (idgen_New "m_") (λ e, New StorageFailure "could not allocate machine identifier" (Some e));
        _ ← or_err (exec_insert (insert_machine
                (mkMachine id "" PolicyPending architecture firmware secureBootState t t t)))
              (storageError "persist machine observation");
        mret id
      | id :: _ =>
        _ ← or_err (exec_update (λ db, (set_machines
                (alter (refresh_machine architecture firmware secureBootState t) id (machines db)) db, 1)))
              (storageError "persist machine observation");
        mret id
      end);
    _ ← persist_identifiers machineID t ids;
    _ ← or_err (appendEventTx (discovery_event machineID requestID created t))
          (storageError "persist machine event");
    m ← or_err (machineByIDTx machineID) (storageError "read machine after discovery");
    _ ← or_err Commit (storageError "commit machine discovery");
    mret (m, created)
  end.

(* internal/store/machines.go:148-157 Machine *)
Definition Store_Machine (id : string) : M DB Machine :=
  or_err (db_query (λ db, scanMachine <$> row_or_none (machines db !! TrimSpace id)))
    (no_rows_or (λ e, New MachineNotFound "machine not found" (Some e)) (storageError "read machine")).

Definition set_nickname (nickname : string) (m : Machine) : Machine :=
  mkMachine (ID m) nickname (m_Policy m) (Architecture m) (Firmware m) (SecureBootState m)
    (SecureBootObserved m) (FirstSeen m) (LastSeen m).

Definition set_policy (policy : Policy) (m : Machine) : Machine :=
  mkMachine (ID m) (Nickname m) policy (Architecture m) (Firmware m) (SecureBootState m)
    (SecureBootObserved m) (FirstSeen m) (LastSeen m).

(* internal/store/machines.go:159-200 SetMachineNickname *)
Definition SetMachineNickname (machineID nickname requestID actor : string) : M DB Machine :=
  let machineID := TrimSpace machineID in
  let actor := TrimSpace actor in
  _ ← reject ((machineID =? "")%string || (actor =? "")%string)
        (New MachineIdentityInvalid "machine and actor are required" None);
  nickname ← or_err (lift (NormalizeNickname nickname))
    (λ e, New MachineIdentityInvalid "machine nickname is invalid" (Some e));
  _ ← or_err BeginTx (storageError "begin machine nickname update");
  current ← or_err (machineByIDTx machineID)
    (no_rows_or (λ e, New MachineNotFound "machine not found" (Some e))
       (storageError "read machine before nickname update"));
  if (Nickname current =? nickname)%string then mret current else
  _ ← or_err (exec_update (λ db, (set_machines (alter (set_nickname nickname) machineID (machines db)) db, 1)))
        (storageError "persist machine nickname");
  t ← now;
  _ ← or_err (appendEventTx (Event.mkEvent 0 Event.EntityMachine machineID Event.MachineNicknameChanged t
          requestID actor "machine nickname changed" ""))
        (storageError "persist machine nickname event");
  m ← or_err (machineByIDTx machineID) (storageError "read machine after nickname update");
  _ ← or_err Commit (storageError "commit machine nickname update");
  mret m.

(* internal/store/machine_policy.go:72-79 validPolicy *)
Definition validPolicy (policy : Policy) : bool :=
  (policy =? PolicyPending)%string || (policy =? PolicyLocal)%string
  || (policy =? PolicyProvision)%string || (policy =? PolicyBlocked)%string.

(** [fmt.Sprintf("machine policy changed from %s to %s", ...)]. *)
(* internal/store/machine_policy.go:52-60 SetMachinePolicy *)
Definition policy_event (machineID requestID actor : string) (old new : Policy) (t : time) : Event.Event :=
  Event.mkEvent 0 Event.EntityMachine machineID Event.MachinePolicyChanged t requestID actor
    ("machine policy changed from " +:+ old +:+ " to " +:+ new) "".

(* internal/store/machine_policy.go:15-70 SetMachinePolicy *)
Definition SetMachinePolicy (machineID policy requestID actor : string) : M DB Machine :=
  _ ← reject (negb (validPolicy policy)) (New MachinePolicyInvalid "machine policy is invalid" None);
  let actor := TrimSpace actor in
  _ ← reject (actor =? "")%string (New MachinePolicyInvalid "machine policy actor is required" None);
  requestID ← request_or_new requestID;
  _ ← or_err BeginTx (storageError "begin machine policy change");
  current ← or_err (machineByIDTx machineID)
    (no_rows_or (λ e, New MachineNotFound "machine not found" (Some e)) (storageError "read machine policy"));
  if (m_Policy current =? policy)%string then mret current else
  _ ← or_err (exec_update (λ db, (set_machines (alter (set_policy policy) machineID (machines db)) db, 1)))
        (storageError "update machine policy");
  t ← now;
  _ ← or_err (appendEventTx (policy_event machineID requestID actor (m_Policy current) policy t))
        (storageError "persist machine policy event");
  _ ← or_err Commit (storageError "commit machine policy change");
  mret (set_policy policy current).

(** ** Queries *)

(** [ORDER BY last_seen DESC, id]. *)
Definition newer_machine (x y : Machine) : Prop :=
  stamp_desc (LastSeen x) (LastSeen y) (String.leb (ID x) (ID y)).
#[global] Instance newer_machine_dec x y : Decision (newer_machine x y) := stamp_desc_dec _ _ _.

(* internal/store/machine_queries.go:9-28 Machines *)
Definition Machines : M DB (list Machine) :=
  or_err (db_query (λ db, Ok (merge_sort newer_machine ((λ p, scanMachine p.2) <$> map_to_list (machines db)))))
    (storageError "query machines").

Definition identifier_le (x y : Identifier) : Prop :=
  (String.ltb (Kind x) (Kind y) = true) ∨ (Kind x = Kind y ∧ String.leb (Value x) (Value y) = true).
#[global] Instance identifier_le_dec x y : Decision (identifier_le x y) := decide (_ ∨ _).

(* internal/store/machine_queries.go:30-53 MachineIdentifiers *)
Definition MachineIdentifiers (machineID : string) : M DB (list Identifier) :=
  _ ← Store_Machine machineID;
  or_err (db_query (λ db, Ok (merge_sort identifier_le ((λ p, mkIdentifier p.1.1 p.1.2) <$>
            filter (λ p : (string * string) * IdentifierRow, id_machine p.2 = machineID)
              (map_to_list (identifiers db))))))
    (storageError "query machine identifiers").

(* internal/store/events.go:12-12 maxRecentEvents *)
Definition maxRecentEvents : Z := 500.

Definition entity_events (entityType entityID : string) (db : DB) : list Event.Event :=
  filter (λ e, Event.EntityType e = entityType ∧ Event.EntityID e = entityID) (events db).

(* internal/store/events.go:23-31 Events *)
Definition Events (entityType entityID : string) : M DB (list Event.Event) :=
  or_err (db_query (λ db, Ok (entity_events entityType entityID db))) (storageError "query events").

(** The newest events, in ascending order: [ORDER BY sequence DESC LIMIT ?]
    read backwards. *)
(* internal/store/events.go:33-47 RecentEvents *)
Definition RecentEvents (entityType entityID : string) (limit : Z) : M DB (list Event.Event) :=
  if (limit <=? 0)%Z then mret [] else
  let limit := if (maxRecentEvents <? limit)%Z then maxRecentEvents else limit in
  or_err (db_query (λ db, Ok (reverse (take (Z.to_nat limit) (reverse (entity_events entityType entityID db))))))
    (storageError "query recent events").

(** ** Lemmas *)

Lemma keeps_machineByIDTx id : keeps (machineByIDTx id).
Proof. apply keeps_query. Qed.
#[export] Hint Resolve keeps_machineByIDTx : aegis.
Lemma keeps_resolve l : ∀ acc, keeps (resolve_identifiers l acc).
Proof. induction l as [|i l IH]; intros acc; simpl; solve_keeps. Qed.
Lemma keeps_persist mid stamp l : keeps (persist_identifiers mid stamp l).
Proof. induction l as [|i l IH]; simpl; solve_keeps. Qed.
Lemma keeps_Store_Machine id : keeps (Store_Machine id).
Proof. unfold Store_Machine. solve_keeps. Qed.
#[export] Hint Resolve keeps_resolve keeps_persist keeps_Store_Machine : aegis.

Lemma keeps_machine_queries :
  keeps Machines ∧ (∀ id, keeps (MachineIdentifiers id)) ∧ (∀ t id, keeps (Events t id)) ∧
  (∀ t id n, keeps (RecentEvents t id n)).
Proof. split_and!; intros; unfold Machines, MachineIdentifiers, Events, RecentEvents; solve_keeps. Qed.

Lemma atomic_DiscoverMachine obs rid : atomic (DiscoverMachine obs rid).
Proof. unfold DiscoverMachine. solve_atomic. Qed.
Lemma atomic_SetMachineNickname mid n rid actor : atomic (SetMachineNickname mid n rid actor).
Proof. unfold SetMachineNickname. solve_atomic. Qed.
Lemma atomic_SetMachinePolicy mid p rid actor : atomic (SetMachinePolicy mid p rid actor).
Proof. unfold SetMachinePolicy. solve_atomic. Qed.
#[export] Hint Resolve atomic_DiscoverMachine atomic_SetMachineNickname atomic_SetMachinePolicy : aegis.

(** The machines a list of identifiers resolves to. *)
Definition resolved (l : list Identifier) (db : DB) : gset string :=
  list_to_set (omap (λ i, id_machine <$> identifiers db !! (Kind i, Value i)) l).

(** The table after all identifiers are persisted. *)
Fixpoint persist_all (mid : string) (stamp : time) (l : list Identifier) (db : DB) : result DB :=
  match l with
  | [] => Ok db
  | i :: l => db' ← upsert_identifier (Kind i) (Value i) mid stamp db; persist_all mid stamp l db'
  end.

Lemma resolve_Ok l : ∀ acc a d w t ms c',
  resolve_identifiers l acc a (mkConn d w t) = (Ok ms, c') →
  ms = acc ∪ resolved l w ∧ ∃ t', c' = mkConn d w t'.
Proof.
  induction l as [|i l IH]; intros acc a d w t ms c' H; cbn [resolve_identifiers] in H.
  - db_inv. split; [set_solver|eauto].
  - db_inv. unfold resolved. cbn [omap list_omap].
    row_case Hrow; cbv beta iota in H.
    + apply IH in H as [-> ?]. rewrite Hrow. cbn. split; [|done]. fold (resolved l w). set_solver.
    + destruct (IsNoRows err) eqn:E; [|db_inv]. apply IH in H as [-> ?].
      rewrite (Hrow eq_refl). done.
Qed.

Lemma persist_Ok mid stamp l : ∀ a d w t u c',
  persist_identifiers mid stamp l a (mkConn d w t) = (Ok u, c') →
  ∃ w' t', persist_all mid stamp l w = Ok w' ∧ c' = mkConn d w' t'.
Proof.
  induction l as [|i l IH]; intros a d w t u c' H; cbn [persist_identifiers] in H.
  - db_inv. eauto.
  - db_inv. apply IH in H as (w' & t' & Hp & ->). exists w', t'. split; [|done].
    cbn [persist_all]. by match goal with Hu : upsert_identifier _ _ _ _ _ = _ |- _ => rewrite Hu end.
Qed.

(** Only the identifiers change, and each of them keeps its owner; those that
    had none get [mid]. *)
Lemma upsert_Ok k v mid stamp db db' :
  upsert_identifier k v mid stamp db = Ok db' →
  db' = set_identifiers (identifiers db') db ∧
  (∀ key, key ≠ (k, v) → identifiers db' !! key = identifiers db !! key) ∧
  (id_machine <$> identifiers db' !! (k, v)) = Some (default mid (id_machine <$> identifiers db !! (k, v))) ∧
  (identifiers db !! (k, v) = None → is_Some (machines db !! mid)).
Proof.
  unfold upsert_identifier. destruct (identifiers db !! (k, v)) as [row|] eqn:E; intros H; constraint_inv; simpl;
    rewrite lookup_insert_eq; split_and!; try done; intros key Hk; by rewrite lookup_insert_ne.
Qed.

Definition ident_key (i : Identifier) : string * string := (Kind i, Value i).

Lemma persist_all_Ok mid stamp l : ∀ db db',
  persist_all mid stamp l db = Ok db' →
  db' = set_identifiers (identifiers db') db ∧
  (∀ key, (id_machine <$> identifiers db' !! key) =
     match id_machine <$> identifiers db !! key with
     | Some m => Some m
     | None => if bool_decide (key ∈ ident_key <$> l) then Some mid else None
     end).
Proof.
  induction l as [|i l IH]; intros db db' H; cbn [persist_all] in H.
  - injection H as <-. split; [by destruct db|]. intros key. by destruct (identifiers db !! key).
  - apply bind_Ok in H as (db1 & Hu & H). apply upsert_Ok in Hu as (E1 & Hne & Heq & _).
    apply IH in H as [E2 Hall]. split; [rewrite E2, E1; by destruct db|].
    intros key. rewrite Hall. rewrite fmap_cons. destruct (decide (key = (Kind i, Value i))) as [->|Hk].
    + rewrite Heq. destruct (identifiers db !! (Kind i, Value i)); simpl; [done|].
      rewrite bool_decide_true; [done|]. by left.
    + rewrite (Hne _ Hk). destruct (identifiers db !! key); simpl; [done|].
      erewrite bool_decide_ext; [done|]. rewrite elem_of_cons. unfold ident_key at 1. tauto.
Qed.

Lemma machineByIDTx_Ok id a d w t m c' :
  machineByIDTx id a (mkConn d w t) = (Ok m, c') →
  ∃ row, machines w !! id = Some row ∧ m = scanMachine row ∧ c' = mkConn d w (S t).
Proof.
  unfold machineByIDTx. intros H. db_inv. destruct (machines w !! id) as [row|] eqn:E; simpl in *; [|done].
  simplify_eq. eauto.
Qed.

Lemma insert_machine_Ok m db db' :
  insert_machine m db = Ok db' →
  machines db !! ID m = None ∧ db' = set_machines (<[ID m := m]> (machines db)) db.
Proof. unfold insert_machine. intros H. constraint_inv. done. Qed.

(** A recorded observation: a new pending machine, or the one machine all
    known identifiers resolve to, refreshed. *)
Lemma DiscoverMachine_Ok obs rid a db m created db' :
  run (DiscoverMachine obs rid) a db = (Ok (m, created), db') →
  ∃ state ids id db1 db2 e,
    Observation_SecureBootState obs = (state, None) ∧ Identifiers obs = Ok ids ∧
    persist_all id (clock a) ids db1 = Ok db2 ∧ db' = audit e db2 ∧
    (∃ row, machines db2 !! id = Some row ∧ m = scanMachine row) ∧
    ((created = true ∧ resolved ids db = ∅ ∧ (∃ raw, id = "m_" +:+ hex_encode raw) ∧
      insert_machine (mkMachine id "" PolicyPending (TrimSpace (obs_Architecture obs))
        (TrimSpace (obs_Firmware obs)) state (clock a) (clock a) (clock a)) db = Ok db1) ∨
     (created = false ∧ resolved ids db = {[id]} ∧
      db1 = set_machines (alter (refresh_machine (TrimSpace (obs_Architecture obs))
              (TrimSpace (obs_Firmware obs)) state (clock a)) id (machines db)) db)).
Proof.
  unfold DiscoverMachine. intros Hr. db_inv.
  match goal with Hq : (if (TrimSpace rid =? "")%string then _ else _) _ _ = (Ok _, ?c) |- _ =>
    assert (∃ t, c = mkConn db db t) as [t ->] by (destruct (TrimSpace rid =? "")%string; db_inv; eauto) end.
  db_inv. destruct (Observation_SecureBootState obs) as [state [err|]]; [db_inv|]. db_inv.
  match goal with Hi : Ok _ = Identifiers _ |- _ => symmetry in Hi end.
  match goal with Hm : resolve_identifiers _ _ _ _ = _ |- _ => apply resolve_Ok in Hm as (-> & t' & ->) end.
  rewrite (left_id_L ∅ _) in *. db_inv.
  match goal with Hs : (1 <? size _)%nat = false |- _ => apply Nat.ltb_ge in Hs end.
  match goal with Hi : Identifiers _ = Ok ?l |- _ => set (ids := l) in * end.
  destruct (elements (resolved ids db)) as [|id rest] eqn:Ee.
  - apply elements_empty_inv, leibniz_equiv in Ee. rewrite Ee in *. db_inv.
    match goal with Hp : persist_identifiers _ _ _ _ _ = _ |- _ => apply persist_Ok in Hp as (w2 & t2 & Hall & ->) end.
    db_inv. match goal with Hm : machineByIDTx _ _ _ = _ |- _ => apply machineByIDTx_Ok in Hm as (row & ? & -> & ->) end.
    db_inv. simplify_eq. eexists state, ids, _, _, _, _.
    split_and!; [done|done|exact Hall|reflexivity|eexists; split; done|left]. split_and!; [done|done|by eexists|eassumption].
  - assert (resolved ids db = {[id]}) as Hs.
    { apply set_eq. intros y. rewrite <- elem_of_elements, Ee, elem_of_singleton.
      match goal with Hs : size _ ≤ 1 |- _ => unfold size, set_size in Hs; simpl in Hs; rewrite Ee in Hs; simpl in Hs end.
      destruct rest; [by rewrite list_elem_of_singleton|simpl in *; lia]. }
    rewrite Hs, size_singleton in *. db_inv.
    match goal with Hp : persist_identifiers _ _ _ _ _ = _ |- _ => apply persist_Ok in Hp as (w2 & t2 & Hall & ->) end.
    db_inv. match goal with Hm : machineByIDTx _ _ _ = _ |- _ => apply machineByIDTx_Ok in Hm as (row & ? & -> & ->) end.
    db_inv. simplify_eq. eexists state, ids, _, _, _, _.
    split_and!; [done|done|exact Hall|reflexivity|eexists; split; done|right]. split_and!; [done|done|reflexivity].
Qed.

Lemma SetMachineNickname_Ok mid nick rid actor a db m db' :
  run (SetMachineNickname mid nick rid actor) a db = (Ok m, db') →
  ∃ n row, NormalizeNickname nick = Ok n ∧ machines db !! TrimSpace mid = Some row ∧
    ((db' = db ∧ Nickname (scanMachine row) = n) ∨
     ∃ e, db' = audit e (set_machines (alter (set_nickname n) (TrimSpace mid) (machines db)) db)).
Proof.
  unfold SetMachineNickname. intros Hr. db_inv.
  match goal with Hm : machineByIDTx _ _ _ = _ |- _ => apply machineByIDTx_Ok in Hm as (row & ? & -> & ->) end.
  do 2 eexists. split; [done|]. split; [done|].
  match type of Hr with context [String.eqb ?x ?y] => destruct (String.eqb_spec x y) end; db_inv; [by left|right].
  match goal with Hm : machineByIDTx _ _ _ = _ |- _ => apply machineByIDTx_Ok in Hm as (row2 & ? & -> & ->) end.
  db_inv. simplify_eq. eauto.
Qed.

Lemma SetMachinePolicy_Ok mid policy rid actor a db m db' :
  run (SetMachinePolicy mid policy rid actor) a db = (Ok m, db') →
  validPolicy policy = true ∧ TrimSpace actor ≠ "" ∧
  ∃ row, machines db !! mid = Some row ∧
    ((db' = db ∧ m_Policy (scanMachine row) = policy ∧ m = scanMachine row) ∨
     (m_Policy (scanMachine row) ≠ policy ∧ m = set_policy policy (scanMachine row) ∧ ∃ rid',
      db' = audit (policy_event mid rid' (TrimSpace actor) (m_Policy (scanMachine row)) policy (clock a))
              (set_machines (alter (set_policy policy) mid (machines db)) db))).
Proof.
  unfold SetMachinePolicy. intros Hr. db_inv. bool_inv.
  match goal with Hm : machineByIDTx _ _ _ = _ |- _ => apply machineByIDTx_Ok in Hm as (row & ? & -> & ->) end.
  do 2 (split; [done|]). exists row. split; [done|].
  destruct (String.eqb_spec (m_Policy (scanMachine row)) policy) as [->|]; db_inv; [by left|right].
  simplify_eq. eauto.
Qed.
