(* ===== verification/StoreInstallations.v ===== *)
(** * Installation specifications and assignments of the store
    (internal/store/installations.go, installation_queries.go, assignments.go,
    assignment_consumption.go) *)

From stdpp Require Import sorting.
From S2P Require Import Prelude GoStrings Regex Fault Lifecycle Op Db StoreTelemetry StoreMachines.
From S2P Require Machine Installation Assignment Event.

(** [spec] with the identity and creation time the server assigns. *)
(* internal/store/installations.go:39-40 CreateInstallationSpec *)
Definition assign_identity (id : string) (t : time) (s : Installation.Spec) : Installation.Spec :=
  Installation.mkSpec id (Installation.MachineID s) (Installation.DriverID s) (Installation.DriverVersion s)
    (Installation.OSRelease s) (Installation.spec_Architecture s) (Installation.ProfileID s)
    (Installation.ProfileRevision s) (Installation.Profile s) (Installation.Artifacts s)
    (Installation.spec_Storage s) (Installation.spec_Security s) (Installation.LifecycleCredentialID s)
    t (Installation.CreatedBy s).

(* internal/store/installations.go:18-96 CreateInstallationSpec *)
Definition CreateInstallationSpec (spec : Installation.Spec) (requestID : string) : M DB Installation.Spec :=
  _ ← or_err (lift (Installation.Spec_Validate spec))
        (λ e, New InstallationSpecInvalid "installation spec is invalid" (Some e));
  _ ← reject (negb (blank (Installation.spec_ID spec)) || negb (IsZero (Installation.CreatedAt spec)))
        (New InstallationSpecInvalid "installation identity and creation time are server assigned" None);
  requestID ← request_or_new requestID;
  _ ← Store_Machine (Installation.MachineID spec);
  id ← or_err (idgen_New "i_") (λ e, New StorageFailure "could not allocate installation identifier" (Some e));
  t ← now;
  let spec := assign_identity id t spec in
  _ ← or_err BeginTx (storageError "begin installation creation");
  _ ← or_err (exec_insert (insert_spec spec)) (storageError "persist installation spec");
  _ ← or_err (appendServerLifecycleEventTx id StageCreated ("server:created:" +:+ id)
          "immutable installation spec created" requestID t)
        (storageError "persist installation lifecycle creation");
  _ ← or_err (appendEventTx (Event.mkEvent 0 Event.EntityInstallation id Event.InstallationCreated t requestID
          (Installation.CreatedBy spec) "immutable installation spec created" ""))
        (storageError "persist installation creation event");
  _ ← or_err Commit (storageError "commit installation creation");
  mret spec.

(* internal/store/installations.go:98-131 InstallationSpec *)
Definition InstallationSpec (id : string) : M DB Installation.Spec :=
  or_err (db_query (λ db, row_or_none (specs db !! TrimSpace id)))
    (no_rows_or (λ e, New InstallationNotFound "installation not found" (Some e))
       (storageError "read installation spec")).

(** [ORDER BY created_at DESC,id DESC]. *)
Definition newer_spec (x y : Installation.Spec) : Prop :=
  stamp_desc (Installation.CreatedAt x) (Installation.CreatedAt y)
    (String.leb (Installation.spec_ID y) (Installation.spec_ID x)).
#[global] Instance newer_spec_dec x y : Decision (newer_spec x y) := stamp_desc_dec _ _ _.

(** The identifiers are listed by one query, each specification is then read by
    another. *)
(* internal/store/installation_queries.go:18-49 installationSpecsByQuery *)
Definition installationSpecsByQuery (P : Installation.Spec → bool) : M DB (list Installation.Spec) :=
  ids ← or_err (db_query (λ db, Ok (Installation.spec_ID <$>
            merge_sort newer_spec (filter (λ s, P s = true) (snd <$> map_to_list (specs db))))))
          (storageError "list installation specs");
  foldr (λ id rest, item ← InstallationSpec id; items ← rest; mret (item :: items)) (mret []) ids.

(* internal/store/installation_queries.go:10-12 InstallationSpecs *)
Definition InstallationSpecs : M DB (list Installation.Spec) := installationSpecsByQuery (λ _, true).

(* internal/store/installation_queries.go:14-16 InstallationSpecsForMachine *)
Definition InstallationSpecsForMachine (machineID : string) : M DB (list Installation.Spec) :=
  installationSpecsByQuery (λ s, (Installation.MachineID s =? TrimSpace machineID)%string).

(** ** Assignments *)

Definition assignment_of (iid : string) (db : DB) : option Assignment.Assignment :=
  snd <$> find_row (λ p : string * Assignment.Assignment, Assignment.InstallationID p.2 = iid) (assignments db).

Definition armed_for (mid : string) (db : DB) : option Assignment.Assignment :=
  snd <$> find_row (λ p : string * Assignment.Assignment,
    Assignment.MachineID p.2 = mid ∧ Assignment.a_State p.2 = Assignment.StateArmed) (assignments db).

(* internal/store/assignments.go:261-291 scanAssignment *)
Definition scanAssignment (row : M DB Assignment.Assignment) : M DB Assignment.Assignment :=
  item ← or_err row
    (no_rows_or (λ e, New InstallationAssignmentNotFound "installation assignment not found" (Some e))
       (λ e, New StorageFailure "could not read installation assignment" (Some e)));
  _ ← or_err (lift (Assignment.Validate item))
        (λ e, New StorageFailure "stored installation assignment is invalid" (Some e));
  mret item.

(* internal/store/assignments.go:293-297 assignmentForInstallationTx *)
Definition assignmentForInstallationTx (installationID : string) : M DB Assignment.Assignment :=
  scanAssignment (query (λ db, row_or_none (assignment_of installationID db))).

(* internal/store/assignments.go:91-99 ArmInstallation *)
Definition armed_assignment (id mid iid actor : string) (t : time) : Assignment.Assignment :=
  Assignment.mkAssignment id mid iid Assignment.StateArmed Assignment.TrustRequirementCryptographic t actor
    zeroTime zeroTime.

(* internal/store/assignments.go:114-122 ArmInstallation *)
Definition arm_event (iid requestID actor : string) (t : time) : Event.Event :=
  Event.mkEvent 0 Event.EntityInstallation iid Event.InstallationArmed t requestID actor
    "installation armed for machine; cryptographic boot trust remains required for secrets" "".

(* internal/store/assignments.go:18-141 ArmInstallation *)
Definition ArmInstallation (machineID installationID requestID actor : string) : M DB Assignment.Assignment :=
  let machineID := TrimSpace machineID in
  let installationID := TrimSpace installationID in
  let actor := TrimSpace actor in
  requestID ← request_or_new requestID;
  _ ← reject ((machineID =? "")%string || (installationID =? "")%string || (actor =? "")%string)
        (New InstallationAssignmentInvalid "assignment machine, installation and actor are required" None);
  _ ← or_err BeginTx (storageError "begin assignment arm");
  m ← or_err (query (λ db, row_or_none (machines db !! machineID)))
        (no_rows_or (λ e, New MachineNotFound "machine not found" (Some e)) (storageError "read assignment machine"));
  _ ← reject (negb (Machine.m_Policy m =? Machine.PolicyProvision)%string)
        (New InstallationAssignmentInvalid "machine is not operator-approved for provisioning" None);
  spec ← or_err (query (λ db, row_or_none (specs db !! installationID)))
           (no_rows_or (λ e, New InstallationNotFound "installation not found" (Some e))
              (storageError "read assignment installation"));
  _ ← reject (negb (Installation.MachineID spec =? machineID)%string)
        (New InstallationAssignmentInvalid "installation belongs to a different machine" None);
  existingState ← try (query (λ db, row_or_none (assignment_of installationID db)));
  match existingState with
  | Ok _ => fail (New InstallationAssignmentInvalid "installation has already been assigned" None)
  | Err err =>
    _ ← reject (negb (IsNoRows err)) (storageError "check installation assignment history" err);
    existing ← try (query (λ db, row_or_none (armed_for machineID db)));
    match existing with
    | Ok _ => fail (New InstallationAssignmentConflict "machine already has an armed installation" None)
    | Err err =>
      _ ← reject (negb (IsNoRows err)) (storageError "check active assignment" err);
      id ← or_err (idgen_New "a_") (λ e, New StorageFailure "could not allocate assignment identifier" (Some e));
      t ← now;
      let item := armed_assignment id machineID installationID actor t in
      _ ← or_err (lift (Assignment.Validate item))
            (λ e, New InstallationAssignmentInvalid "assignment is invalid" (Some e));
      _ ← or_err (exec_insert (insert_assignment item)) (storageError "persist armed assignment");
      _ ← or_err (appendServerLifecycleEventTx installationID StageQueued ("server:queued:" +:+ installationID)
              "installation queued for next destructive PXE boot" requestID t)
            (storageError "persist installation queued lifecycle event");
      _ ← or_err (appendEventTx (arm_event installationID requestID actor t))
            (storageError "persist assignment arm event");
      _ ← or_err Commit (storageError "commit assignment arm");
      mret item
    end
  end.

(* internal/store/assignments.go:193-194 CancelAssignment *)
Definition cancelled (t : time) (x : Assignment.Assignment) : Assignment.Assignment :=
  Assignment.mkAssignment (Assignment.ID x) (Assignment.MachineID x) (Assignment.InstallationID x)
    Assignment.StateCancelled (Assignment.TrustRequirement x) (Assignment.ArmedAt x) (Assignment.ArmedBy x)
    (Assignment.ConsumedAt x) t.

(* internal/store/assignment_consumption.go:74-75 ConsumeAssignment *)
Definition consumed (t : time) (x : Assignment.Assignment) : Assignment.Assignment :=
  Assignment.mkAssignment (Assignment.ID x) (Assignment.MachineID x) (Assignment.InstallationID x)
    Assignment.StateConsumed (Assignment.TrustRequirement x) (Assignment.ArmedAt x) (Assignment.ArmedBy x)
    t (Assignment.CancelledAt x).

(** [UPDATE installation_assignments SET ... WHERE id=? AND state='armed']. *)
(* internal/store/assignment_consumption.go:47-47 ConsumeAssignment *)
Definition update_armed (f : Assignment.Assignment → Assignment.Assignment) (id : string) (db : DB) : DB * nat :=
  match assignments db !! id with
  | Some x =>
    if (Assignment.a_State x =? Assignment.StateArmed)%string
    then (set_assignments (<[id := f x]> (assignments db)) db, 1) else (db, 0)
  | None => (db, 0)
  end.

(* internal/store/assignments.go:143-207 CancelAssignment *)
Definition CancelAssignment (installationID requestID actor : string) : M DB Assignment.Assignment :=
  let installationID := TrimSpace installationID in
  let actor := TrimSpace actor in
  requestID ← request_or_new requestID;
  _ ← reject ((installationID =? "")%string || (actor =? "")%string)
        (New InstallationAssignmentInvalid "assignment installation and actor are required" None);
  _ ← or_err BeginTx (storageError "begin assignment cancellation");
  item ← assignmentForInstallationTx installationID;
  _ ← reject (negb (Assignment.a_State item =? Assignment.StateArmed)%string)
        (New InstallationAssignmentInvalid "only an armed assignment can be cancelled" None);
  t ← now;
  _ ← or_err (exec_update (update_armed (cancelled t) (Assignment.ID item))) (storageError "cancel assignment");
  _ ← or_err (appendEventTx (Event.mkEvent 0 Event.EntityInstallation installationID
          Event.InstallationAssignmentCancelled t requestID actor "installation assignment cancelled" ""))
        (storageError "persist assignment cancellation event");
  _ ← or_err Commit (storageError "commit assignment cancellation");
  mret (cancelled t item).

(* internal/store/assignment_consumption.go:17-87 ConsumeAssignment *)
Definition ConsumeAssignment (installationID requestID actor : string) : M DB Assignment.Assignment :=
  let installationID := TrimSpace installationID in
  let actor := TrimSpace actor in
  requestID ← request_or_new requestID;
  _ ← reject ((installationID =? "")%string || (actor =? "")%string)
        (New InstallationAssignmentInvalid "assignment installation and actor are required" None);
  _ ← or_err BeginTx (storageError "begin assignment consumption");
  item ← assignmentForInstallationTx installationID;
  _ ← reject (negb (Assignment.a_State item =? Assignment.StateArmed)%string)
        (New InstallationAssignmentInvalid "only an armed assignment can be consumed" None);
  t ← now;
  rows ← or_err (exec_update (update_armed (consumed t) (Assignment.ID item)))
           (storageError "consume assignment boot handoff");
  _ ← reject (negb (rows =? 1)%nat)
        (New InstallationAssignmentInvalid "assignment changed while consuming boot handoff" None);
  _ ← or_err (appendEventTx (Event.mkEvent 0 Event.EntityInstallation installationID
          Event.InstallationAssignmentConsumed t requestID actor
          "destructive public boot handoff consumed; installer runtime state remains unverified" ""))
        (storageError "persist assignment consumption event");
  _ ← or_err Commit (storageError "commit assignment consumption");
  mret (consumed t item).

(* internal/store/assignments.go:209-213 AssignmentForInstallation *)
Definition AssignmentForInstallation (installationID : string) : M DB Assignment.Assignment :=
  scanAssignment (db_query (λ db, row_or_none (assignment_of (TrimSpace installationID) db))).

(* internal/store/assignments.go:215-219 ActiveAssignmentForMachine *)
Definition ActiveAssignmentForMachine (machineID : string) : M DB Assignment.Assignment :=
  scanAssignment (db_query (λ db, row_or_none (armed_for (TrimSpace machineID) db))).

(** [ORDER BY armed_at DESC,id DESC]. *)
Definition newer_assignment (x y : Assignment.Assignment) : Prop :=
  stamp_desc (Assignment.ArmedAt x) (Assignment.ArmedAt y) (String.leb (Assignment.ID y) (Assignment.ID x)).
#[global] Instance newer_assignment_dec x y : Decision (newer_assignment x y) := stamp_desc_dec _ _ _.

(** The first invalid row fails the listing. *)
(* internal/store/assignments.go:221-241 Assignments *)
Definition Assignments : M DB (list Assignment.Assignment) :=
  items ← or_err (db_query (λ db, Ok (merge_sort newer_assignment (snd <$> map_to_list (assignments db)))))
            (storageError "list assignments");
  foldr (λ x rest,
      _ ← or_err (lift (Assignment.Validate x))
            (λ e, New StorageFailure "stored installation assignment is invalid" (Some e));
      xs ← rest; mret (x :: xs)) (mret []) items.

(** ** Lemmas *)

Lemma keeps_scanAssignment m : keeps m → keeps (scanAssignment m).
Proof. intros H. unfold scanAssignment. apply keeps_bind; [by apply keeps_or_err|]. intros x. solve_keeps. Qed.
Lemma keeps_assignmentForInstallationTx iid : keeps (assignmentForInstallationTx iid).
Proof. apply keeps_scanAssignment, keeps_query. Qed.
Lemma keeps_InstallationSpec id : keeps (InstallationSpec id).
Proof. unfold InstallationSpec. solve_keeps. Qed.
#[export] Hint Resolve keeps_assignmentForInstallationTx keeps_InstallationSpec : aegis.

Lemma keeps_specsByQuery P : keeps (installationSpecsByQuery P).
Proof.
  unfold installationSpecsByQuery. apply keeps_bind; [solve_keeps|]. intros ids.
  induction ids as [|id ids IH]; simpl; solve_keeps.
Qed.
Lemma keeps_Assignments : keeps Assignments.
Proof.
  unfold Assignments. apply keeps_bind; [solve_keeps|]. intros ids.
  induction ids as [|id ids IH]; simpl; solve_keeps.
Qed.
Lemma keeps_AssignmentForInstallation iid : keeps (AssignmentForInstallation iid).
Proof. apply keeps_scanAssignment, keeps_db_query. Qed.
Lemma keeps_ActiveAssignmentForMachine mid : keeps (ActiveAssignmentForMachine mid).
Proof. apply keeps_scanAssignment, keeps_db_query. Qed.

Lemma atomic_CreateInstallationSpec s rid : atomic (CreateInstallationSpec s rid).
Proof. unfold CreateInstallationSpec. solve_atomic. Qed.
Lemma atomic_ArmInstallation mid iid rid actor : atomic (ArmInstallation mid iid rid actor).
Proof. unfold ArmInstallation. solve_atomic. Qed.
Lemma atomic_CancelAssignment iid rid actor : atomic (CancelAssignment iid rid actor).
Proof. unfold CancelAssignment. solve_atomic. Qed.
Lemma atomic_ConsumeAssignment iid rid actor : atomic (ConsumeAssignment iid rid actor).
Proof. unfold ConsumeAssignment. solve_atomic. Qed.
#[export] Hint Resolve atomic_CreateInstallationSpec atomic_ArmInstallation atomic_CancelAssignment
  atomic_ConsumeAssignment : aegis.

Lemma Store_Machine_Ok id a d t m c' :
  Store_Machine id a (mkConn d d t) = (Ok m, c') →
  (∃ row, machines d !! TrimSpace id = Some row ∧ m = scanMachine row) ∧ c' = mkConn d d (S t).
Proof.
  unfold Store_Machine. intros H. db_inv.
  destruct (machines d !! TrimSpace id) as [row|]; simpl in *; [|done]. simplify_eq. eauto.
Qed.

Lemma insert_spec_Ok s db db' :
  insert_spec s db = Ok db' →
  specs db !! Installation.spec_ID s = None ∧ is_Some (machines db !! Installation.MachineID s) ∧
  db' = set_specs (<[Installation.spec_ID s := s]> (specs db)) db.
Proof. unfold insert_spec. intros H. constraint_inv. done. Qed.

Lemma insert_assignment_Ok x db db' :
  insert_assignment x db = Ok db' →
  assignments db !! Assignment.ID x = None ∧ is_Some (machines db !! Assignment.MachineID x) ∧
  is_Some (specs db !! Assignment.InstallationID x) ∧
  map_Forall (λ _ y, Assignment.InstallationID y ≠ Assignment.InstallationID x) (assignments db) ∧
  (Assignment.a_State x = Assignment.StateArmed → map_Forall (λ _ y,
     ¬ (Assignment.MachineID y = Assignment.MachineID x ∧ Assignment.a_State y = Assignment.StateArmed))
     (assignments db)) ∧
  db' = set_assignments (<[Assignment.ID x := x]> (assignments db)) db.
Proof.
  unfold insert_assignment. intros H. constraint_inv. split_and!; try done. naive_solver.
Qed.

Lemma assignmentForInstallationTx_Ok iid a d w t x c' :
  assignmentForInstallationTx iid a (mkConn d w t) = (Ok x, c') →
  assignment_of iid w = Some x ∧ Assignment.Validate x = Ok tt ∧ c' = mkConn d w (S t).
Proof.
  unfold assignmentForInstallationTx, scanAssignment. intros H. db_inv.
  match goal with Hv : Ok ?u = Assignment.Validate _ |- _ => destruct u end. done.
Qed.

Lemma assignment_of_Some iid db x :
  assignment_of iid db = Some x → ∃ id, assignments db !! id = Some x ∧ Assignment.InstallationID x = iid.
Proof.
  unfold assignment_of. destruct (find_row _ _) as [[id y]|] eqn:E; [|done]. simpl. intros [= ->].
  apply find_row_Some in E as [? ?]. eauto.
Qed.

Lemma assignment_of_None iid db id x :
  assignment_of iid db = None → assignments db !! id = Some x → Assignment.InstallationID x ≠ iid.
Proof.
  unfold assignment_of. destruct (find_row _ _) as [|] eqn:E; [done|]. intros _ Hx.
  by apply (find_row_None _ _ _ _ E Hx).
Qed.

Lemma armed_for_Some mid db x :
  armed_for mid db = Some x → ∃ id, assignments db !! id = Some x ∧ Assignment.MachineID x = mid ∧
    Assignment.a_State x = Assignment.StateArmed.
Proof.
  unfold armed_for. destruct (find_row _ _) as [[id y]|] eqn:E; [|done]. simpl. intros [= ->].
  apply find_row_Some in E as [? [? ?]]. eauto.
Qed.

Lemma armed_for_None mid db id x :
  armed_for mid db = None → assignments db !! id = Some x →
  ¬ (Assignment.MachineID x = mid ∧ Assignment.a_State x = Assignment.StateArmed).
Proof.
  unfold armed_for. destruct (find_row _ _) as [|] eqn:E; [done|]. intros _ Hx.
  by apply (find_row_None _ _ _ _ E Hx).
Qed.

(** *** Specifications of the operations *)

Lemma CreateInstallationSpec_Ok spec rid a db s db' :
  run (CreateInstallationSpec spec rid) a db = (Ok s, db') →
  Installation.Spec_Validate spec = Ok tt ∧
  ∃ id rid' e db1 db2,
    s = assign_identity id (clock a) spec ∧ insert_spec s db = Ok db1 ∧
    server_step id StageCreated ("server:created:" +:+ id) "immutable installation spec created" rid' db1 db2 ∧
    db' = audit e db2 ∧ Event.EntityType e = Event.EntityInstallation ∧ Event.EntityID e = id.
Proof.
  unfold CreateInstallationSpec. intros H. db_inv.
  match goal with Hv : Ok ?u = Installation.Spec_Validate _ |- _ => destruct u; symmetry in Hv end.
  split; [done|].
  match goal with Hm : Store_Machine _ _ _ = _ |- _ => apply Store_Machine_Ok in Hm as [_ ->] end.
  db_inv.
  match goal with Hs : appendServerLifecycleEventTx _ _ _ _ _ _ _ _ = _ |- _ =>
    apply appendServer_Ok in Hs as (_ & w' & t' & -> & Hstep) end.
  db_inv. do 5 eexists. split_and!; [reflexivity|eassumption|exact Hstep|reflexivity|done|done].
Qed.

Lemma ArmInstallation_Ok mid iid rid actor a db x db' :
  run (ArmInstallation mid iid rid actor) a db = (Ok x, db') →
  let mid := TrimSpace mid in let iid := TrimSpace iid in
  mid ≠ "" ∧ iid ≠ "" ∧ TrimSpace actor ≠ "" ∧
  (∃ m, machines db !! mid = Some m ∧ Machine.m_Policy m = Machine.PolicyProvision) ∧
  (∃ s, specs db !! iid = Some s ∧ Installation.MachineID s = mid) ∧
  assignment_of iid db = None ∧ armed_for mid db = None ∧
  ∃ id rid' db1 db2,
    x = armed_assignment id mid iid (TrimSpace actor) (clock a) ∧ Assignment.Validate x = Ok tt ∧
    insert_assignment x db = Ok db1 ∧
    server_step iid StageQueued ("server:queued:" +:+ iid) "installation queued for next destructive PXE boot" rid' db1 db2 ∧
    db' = audit (arm_event iid rid' (TrimSpace actor) (clock a)) db2.
Proof.
  unfold ArmInstallation. intros Hr. cbv zeta in *. db_inv. bool_inv.
  row_case Hassigned; cbv beta iota in Hr; [db_inv|]. db_inv. bool_inv. specialize (Hassigned ltac:(done)).
  row_case Harmed; cbv beta iota in Hr; [db_inv|]. db_inv. bool_inv. specialize (Harmed ltac:(done)).
  match goal with Hv : Ok ?u = Assignment.Validate _ |- _ => destruct u; symmetry in Hv end.
  match goal with Hs : appendServerLifecycleEventTx _ _ _ _ _ _ _ _ = _ |- _ =>
    apply appendServer_Ok in Hs as (_ & w' & t' & -> & Hstep) end.
  db_inv. split_and!; try done; [by eauto..|].
  do 4 eexists. split_and!; [reflexivity|eassumption|eassumption|exact Hstep|reflexivity].
Qed.

Lemma update_armed_inv f id db db' n :
  update_armed f id db = (db', n) →
  (∃ x, assignments db !! id = Some x ∧ Assignment.a_State x = Assignment.StateArmed ∧ n = 1 ∧
        db' = set_assignments (<[id := f x]> (assignments db)) db) ∨ (n = 0 ∧ db' = db).
Proof.
  unfold update_armed. destruct (assignments db !! id) as [x|]; [|naive_solver].
  destruct (String.eqb_spec (Assignment.a_State x) Assignment.StateArmed); naive_solver.
Qed.

Lemma CancelAssignment_Ok iid rid actor a db x db' :
  run (CancelAssignment iid rid actor) a db = (Ok x, db') →
  ∃ y db1 e, assignment_of (TrimSpace iid) db = Some y ∧ Assignment.a_State y = Assignment.StateArmed ∧
    Assignment.Validate y = Ok tt ∧ x = cancelled (clock a) y ∧
    update_armed (cancelled (clock a)) (Assignment.ID y) db = db1 ∧ db' = audit e db1.1.
Proof.
  unfold CancelAssignment. intros H. db_inv.
  match goal with Hm : assignmentForInstallationTx _ _ _ = _ |- _ => apply assignmentForInstallationTx_Ok in Hm as (? & ? & ->) end.
  db_inv. bool_inv. do 3 eexists. split_and!; [eassumption|done|done|reflexivity|eassumption|reflexivity].
Qed.

Lemma ConsumeAssignment_Ok iid rid actor a db x db' :
  run (ConsumeAssignment iid rid actor) a db = (Ok x, db') →
  ∃ y db1 e, assignment_of (TrimSpace iid) db = Some y ∧ Assignment.a_State y = Assignment.StateArmed ∧
    Assignment.Validate y = Ok tt ∧ x = consumed (clock a) y ∧
    update_armed (consumed (clock a)) (Assignment.ID y) db = (db1, 1) ∧ db' = audit e db1.
Proof.
  unfold ConsumeAssignment. intros H. db_inv.
  match goal with Hm : assignmentForInstallationTx _ _ _ = _ |- _ => apply assignmentForInstallationTx_Ok in Hm as (? & ? & ->) end.
  db_inv. bool_inv.
  match goal with Hn : negb (?n =? 1)%nat = false |- _ => apply negb_false_iff, Nat.eqb_eq in Hn as -> | Hn : (?n =? 1)%nat = true |- _ => apply Nat.eqb_eq in Hn as -> end.
  do 3 eexists. split_and!; [eassumption|done|done|reflexivity|eassumption|reflexivity].
Qed.
