(* ===== verification/StoreTrust.v ===== *)
(** * Cryptographic boot trust of the store (internal/store/boot_trust.go) *)

From stdpp Require Import sorting.
From S2P Require Import Prelude GoStrings Regex Encoding StringFacts Fault Artifact Boottrust Op Db StoreTelemetry.
From S2P Require StoreInstallations Machine Installation Assignment Event.
Import StoreInstallations(assignment_of).

(* internal/store/boot_trust.go:23-23 bootTrustChallengeTTL *)
Definition bootTrustChallengeTTL : Z := (2 * Minute)%Z.
(* internal/store/boot_trust.go:24-24 lifecycleCredentialOAEPLabel *)
Definition lifecycleCredentialOAEPLabel : string := "AegisPXE lifecycle credential v1".

(** ** Reading *)

Definition key_of (mid fp : string) (db : DB) : option Key :=
  match trust_keys db !! fp with
  | Some k => if bool_decide (k_MachineID k = mid) then Some k else None
  | None => None
  end.

(* internal/store/boot_trust.go:365-396 scanBootTrustKey *)
Definition scan_key_error (err : error) : error :=
  no_rows_or (λ e, New BootTrustEnrollmentRequired "boot trust key not enrolled" (Some e))
    (λ e, New StorageFailure "could not read boot trust key" (Some e)) err.

(* internal/store/boot_trust.go:360-363 bootTrustKeyTx *)
Definition bootTrustKeyTx (machineID fingerprint : string) : M DB Key :=
  or_err (query (λ db, row_or_none (key_of (TrimSpace machineID) (TrimSpace fingerprint) db))) scan_key_error.

(* internal/store/boot_trust.go:102-105 BootTrustKey *)
Definition BootTrustKey (machineID fingerprint : string) : M DB Key :=
  or_err (db_query (λ db, row_or_none (key_of (TrimSpace machineID) (TrimSpace fingerprint) db))) scan_key_error.

(** [SELECT s.machine_id,a.state FROM installation_specs s JOIN
    installation_assignments a ON a.installation_id=s.id WHERE s.id=?]. *)
Definition trust_binding (iid : string) (db : DB) : option (string * Assignment.State) :=
  match specs db !! iid, assignment_of iid db with
  | Some s, Some x => Some (Installation.MachineID s, Assignment.a_State x)
  | _, _ => None
  end.

(* internal/store/boot_trust.go:333-344 trustBindingTx *)
Definition trustBindingTx (installationID : string) : M DB (string * Assignment.State) :=
  or_err (query (λ db, row_or_none (trust_binding (TrimSpace installationID) db)))
    (no_rows_or (λ e, New InstallationAssignmentNotFound "installation assignment not found" (Some e))
       (λ e, New StorageFailure "could not read installation trust binding" (Some e))).

(* internal/store/boot_trust.go:346-358 requireProvisionPolicyTx *)
Definition requireProvisionPolicyTx (machineID : string) : M DB unit :=
  m ← or_err (query (λ db, row_or_none (machines db !! machineID)))
        (no_rows_or (λ e, New MachineNotFound "machine not found" (Some e))
           (λ e, New StorageFailure "could not read machine policy for boot trust" (Some e)));
  reject (negb (Machine.m_Policy m =? Machine.PolicyProvision)%string)
    (New BootTrustEnrollmentRequired "machine is not approved for provisioning" None).

(** A row of the challenge table, read back. *)
(* internal/store/boot_trust.go:398-430 bootTrustChallengeTx *)
Definition scan_challenge (id : string) (r : ChallengeRow) : Challenge :=
  mkChallenge id (cl_installation r) (cl_machine r) (cl_key r) (cl_nonce r) (cl_created_at r) (cl_expires_at r)
    (stamp_time (cl_used_at r)) (cl_response r) (stamp_time (cl_credential_expires_at r)).

Definition challenge_of (iid id : string) (db : DB) : option Challenge :=
  match challenges db !! id with
  | Some r => if bool_decide (cl_installation r = iid) then Some (scan_challenge id r) else None
  | None => None
  end.

(* internal/store/boot_trust.go:398-430 bootTrustChallengeTx *)
Definition bootTrustChallengeTx (installationID challengeID : string) : M DB Challenge :=
  or_err (query (λ db, row_or_none (challenge_of installationID challengeID db)))
    (no_rows_or (λ e, New BootTrustProofInvalid "boot trust challenge not found" (Some e))
       (λ e, New StorageFailure "could not read boot trust challenge" (Some e))).

(** ** Keys *)

Definition trust_event (entity id ty requestID actor message : string) (t : time) : Event.Event :=
  Event.mkEvent 0 entity id ty t requestID actor message "".

(* internal/store/boot_trust.go:63-63 RegisterBootTrustKey *)
Definition touch_key (t : time) (ek : string) (k : Key) : Key :=
  mkKey (k_Fingerprint k) (k_MachineID k) (k_PublicKeyPEM k)
    (if (k_EKFingerprint k =? "")%string then ek else k_EKFingerprint k) (k_State k)
    (k_FirstSeenAt k) t (k_ApprovedAt k) (k_ApprovedBy k) (k_RevokedAt k) (k_RevokedBy k).

(* internal/store/boot_trust.go:165-165 ApproveBootTrustKey *)
Definition approve_key (t : time) (actor : string) (k : Key) : Key :=
  mkKey (k_Fingerprint k) (k_MachineID k) (k_PublicKeyPEM k) (k_EKFingerprint k) KeyApproved
    (k_FirstSeenAt k) (k_LastSeenAt k) t actor (k_RevokedAt k) (k_RevokedBy k).

(* internal/store/boot_trust.go:194-194 RevokeBootTrustKey *)
Definition revoke_key (t : time) (actor : string) (k : Key) : Key :=
  mkKey (k_Fingerprint k) (k_MachineID k) (k_PublicKeyPEM k) (k_EKFingerprint k) KeyRevoked
    (k_FirstSeenAt k) (k_LastSeenAt k) (k_ApprovedAt k) (k_ApprovedBy k) t actor.

(** [UPDATE machine_boot_trust_keys SET ... WHERE machine_id=? AND
    fingerprint=?]: [P] is the rest of the condition. *)
Definition update_key (mid fp : string) (P : Key → bool) (f : Key → Key) (db : DB) : DB :=
  match key_of mid fp db with
  | Some k => if P k then set_trust_keys (<[fp := f k]> (trust_keys db)) db else db
  | None => db
  end.

(** The partial unique index of schema.go: at most one approved key. *)
Definition approved_unique (mid fp : string) (db : DB) : bool :=
  bool_decide (map_Forall (λ f k, ¬ (k_MachineID k = mid ∧ k_State k = KeyApproved ∧ f ≠ fp)) (trust_keys db)).

Definition approved_fingerprint (mid : string) (db : DB) : option string :=
  fst <$> find_row (λ p : string * Key, k_MachineID p.2 = mid ∧ k_State p.2 = KeyApproved) (trust_keys db).

Section Trust.
Context `{Crypto}.

(* internal/store/boot_trust.go:26-100 RegisterBootTrustKey *)
Definition RegisterBootTrustKey (installationID publicKeyPEM ekFingerprint requestID : string) : M DB (Key * bool) :=
  let installationID := TrimSpace installationID in
  let publicKeyPEM := TrimSpace publicKeyPEM in
  let ekFingerprint := TrimSpace ekFingerprint in
  parsed ← or_err (lift (ParseRSAPublicKeyPEM publicKeyPEM))
    (λ e, New BootTrustKeyInvalid "boot trust key is invalid" (Some e));
  let fingerprint := parsed.2 in
  _ ← or_err (lift (ValidateEKFingerprint ekFingerprint))
        (λ e, New BootTrustKeyInvalid "TPM endorsement fingerprint is invalid" (Some e));
  _ ← or_err BeginTx (storageError "begin boot trust enrollment");
  binding ← trustBindingTx installationID;
  let machineID := binding.1 in
  _ ← reject (binding.2 =? Assignment.StateCancelled)%string
        (New BootTrustEnrollmentRequired "cancelled installation cannot enroll boot trust" None);
  _ ← requireProvisionPolicyTx machineID;
  t ← now;
  existing ← try (bootTrustKeyTx machineID fingerprint);
  match existing with
  | Ok existing =>
    _ ← reject (negb (k_PublicKeyPEM existing =? publicKeyPEM)%string
                || (negb (k_EKFingerprint existing =? "")%string && negb (ekFingerprint =? "")%string
                    && negb (k_EKFingerprint existing =? ekFingerprint)%string))
          (New BootTrustKeyInvalid "boot trust fingerprint collision or binding mismatch" None);
    _ ← reject (k_State existing =? KeyRevoked)%string
          (New BootTrustEnrollmentRequired "boot trust key was revoked" None);
    _ ← or_err (exec_update (λ db, (update_key machineID fingerprint (λ _, true) (touch_key t ekFingerprint) db, 1)))
          (storageError "touch boot trust enrollment");
    _ ← or_err Commit (storageError "commit boot trust enrollment refresh");
    mret (touch_key t ekFingerprint existing, false)
  | Err err =>
    _ ← reject (negb (Code err =? BootTrustEnrollmentRequired)%string) err;
    other ← try (query (λ db, row_or_none (trust_keys db !! fingerprint)));
    _ ← (match other with
         | Ok k => reject (negb (k_MachineID k =? machineID)%string)
                     (New BootTrustKeyInvalid "boot trust key is already bound to another machine" None)
         | Err err => reject (negb (IsNoRows err)) (storageError "check boot trust key uniqueness" err)
         end);
    let item := mkKey fingerprint machineID publicKeyPEM ekFingerprint KeyPending t t zeroTime "" zeroTime "" in
    _ ← or_err (exec_insert (insert_trust_key item)) (storageError "persist boot trust key");
    _ ← or_err (appendEventTx (trust_event Event.EntityInstallation installationID "BOOT_TRUST_KEY_DISCOVERED"
            requestID "boottrust:client" "TPM-bound boot trust key awaits operator approval" t))
          (storageError "persist boot trust discovery event");
    _ ← or_err Commit (storageError "commit boot trust enrollment");
    mret (item, true)
  end.

End Trust.

(* internal/store/boot_trust.go:127-168 ApproveBootTrustKey *)
Definition ApproveBootTrustKey (machineID fingerprint requestID actor : string) : M DB Key :=
  let machineID := TrimSpace machineID in
  let fingerprint := TrimSpace fingerprint in
  let actor := TrimSpace actor in
  _ ← reject ((machineID =? "")%string || (fingerprint =? "")%string || (actor =? "")%string)
        (New BootTrustKeyInvalid "machine, fingerprint and actor are required" None);
  _ ← or_err BeginTx (storageError "begin boot trust approval");
  item ← bootTrustKeyTx machineID fingerprint;
  _ ← reject (k_State item =? KeyRevoked)%string
        (New BootTrustEnrollmentRequired "revoked boot trust key cannot be approved" None);
  if (k_State item =? KeyApproved)%string then mret item else
  approved ← try (query (λ db, row_or_none (approved_fingerprint machineID db)));
  _ ← (match approved with
       | Ok fp => reject (negb (fp =? fingerprint)%string)
                   (New BootTrustEnrollmentRequired "machine already has a different approved boot trust key" None)
       | Err err => reject (negb (IsNoRows err)) (storageError "check approved boot trust key" err)
       end);
  t ← now;
  _ ← or_err (stmt (λ db,
          _ ← check_constraint (approved_unique machineID fingerprint db);
          Ok (update_key machineID fingerprint (λ k, k_State k =? KeyPending)%string (approve_key t actor) db, 1)))
        (storageError "approve boot trust key");
  _ ← or_err (appendEventTx (trust_event Event.EntityMachine machineID "BOOT_TRUST_KEY_APPROVED" requestID actor
          "TPM-bound boot trust key explicitly approved" t))
        (storageError "persist boot trust approval event");
  _ ← or_err Commit (storageError "commit boot trust approval");
  mret (approve_key t actor item).

(* internal/store/boot_trust.go:170-197 RevokeBootTrustKey *)
Definition RevokeBootTrustKey (machineID fingerprint requestID actor : string) : M DB Key :=
  let machineID := TrimSpace machineID in
  let fingerprint := TrimSpace fingerprint in
  let actor := TrimSpace actor in
  _ ← or_err BeginTx (storageError "begin boot trust revocation");
  item ← bootTrustKeyTx machineID fingerprint;
  if (k_State item =? KeyRevoked)%string then mret item else
  t ← now;
  _ ← or_err (exec_update (λ db, (update_key machineID fingerprint (λ _, true) (revoke_key t actor) db, 1)))
        (storageError "revoke boot trust key");
  _ ← or_err (appendEventTx (trust_event Event.EntityMachine machineID "BOOT_TRUST_KEY_REVOKED" requestID actor
          "TPM-bound boot trust key revoked" t))
        (storageError "persist boot trust revocation event");
  _ ← or_err Commit (storageError "commit boot trust revocation");
  mret (revoke_key t actor item).

(** ** Challenges *)

(* internal/store/boot_trust.go:199-238 CreateBootTrustChallenge *)
Definition CreateBootTrustChallenge (installationID fingerprint requestID : string) : M DB Challenge :=
  let installationID := TrimSpace installationID in
  let fingerprint := TrimSpace fingerprint in
  _ ← or_err BeginTx (storageError "begin boot trust challenge");
  binding ← trustBindingTx installationID;
  let machineID := binding.1 in
  _ ← reject (binding.2 =? Assignment.StateCancelled)%string
        (New BootTrustEnrollmentRequired "installation assignment is cancelled" None);
  _ ← requireProvisionPolicyTx machineID;
  key ← or_err (bootTrustKeyTx machineID fingerprint)
    (λ e, New BootTrustEnrollmentRequired "approved boot trust key is required" (Some e));
  _ ← reject (negb (k_State key =? KeyApproved)%string)
        (New BootTrustEnrollmentRequired "approved boot trust key is required" None);
  id ← or_err (idgen_New "btc_") (λ e, New StorageFailure "could not allocate boot trust challenge" (Some e));
  nonce ← or_err (rand_Read 32) (λ e, New StorageFailure "could not generate boot trust challenge" (Some e));
  t ← now;
  let item := mkChallenge id installationID machineID fingerprint nonce t (t + bootTrustChallengeTTL)%Z
                zeroTime "" zeroTime in
  _ ← or_err (exec_insert (insert_challenge id (mkChallengeRow installationID machineID fingerprint nonce t
            (t + bootTrustChallengeTTL)%Z None "" None)))
        (storageError "persist boot trust challenge");
  _ ← or_err Commit (storageError "commit boot trust challenge");
  mret item.

(** [UPDATE ... SET used_at=?,response_ciphertext=?,credential_expires_at=?
    WHERE id=? AND used_at='']. *)
(* internal/store/boot_trust.go:320-322 CompleteBootTrustChallenge *)
Definition use_challenge (t : time) (ciphertext : string) (expiry : time) (id : string) (db : DB) : DB :=
  match challenges db !! id with
  | Some r =>
    if bool_decide (cl_used_at r = None)
    then set_challenges (<[id := mkChallengeRow (cl_installation r) (cl_machine r) (cl_key r) (cl_nonce r)
           (cl_created_at r) (cl_expires_at r) (Some t) ciphertext (Some expiry)]> (challenges db)) db
    else db
  | None => db
  end.

Section Release.
Context `{Crypto}.

(** [rsa.EncryptOAEP] draws a seed of the hash's size from [rand.Reader]. *)
(* internal/store/boot_trust.go:313-313 CompleteBootTrustChallenge *)
Definition EncryptOAEP (key : rsa_PublicKey) (message label : string) : M DB string :=
  seed ← rand_Read 32;
  match rsa_encrypt key seed message label with
  | Some ciphertext => mret ciphertext
  | None => fail (Plain "crypto/rsa: message too long for RSA key size")
  end.

(* internal/store/boot_trust.go:298-331 CompleteBootTrustChallenge *)
Definition release_credential (challenge : Challenge) (publicKey : rsa_PublicKey) (credentialID requestID : string)
    (t : time) : M DB Release :=
  let installationID := ch_InstallationID challenge in
  existing ← try (query (λ db, row_or_none (credential_of installationID db)));
  match existing with
  | Ok _ => fail (New InstallerTelemetryConflict
              "installation lifecycle credential already exists and cannot be re-revealed" None)
  | Err err =>
    _ ← reject (negb (IsNoRows err)) (storageError "check lifecycle credential before trust release" err);
    secretBytes ← or_err (rand_Read 32) (λ e, New StorageFailure "could not generate lifecycle credential" (Some e));
    let secret := RawURLEncoding_EncodeToString secretBytes in
    let secretHash := sha256 secret in
    let credentialExpiry := (t + defaultLifecycleCredentialTTL)%Z in
    ciphertext ← or_err (EncryptOAEP publicKey secret (lifecycleCredentialOAEPLabel +:+ nul))
      (λ e, New BootTrustKeyInvalid "could not encrypt lifecycle credential to boot trust key" (Some e));
    _ ← or_err (exec_insert (insert_credential credentialID
            (mkCredentialRow installationID secretHash t credentialExpiry None None)))
          (storageError "persist trust-released lifecycle credential");
    _ ← or_err (exec_update (λ db, (use_challenge t ciphertext credentialExpiry (ch_ID challenge) db, 1)))
          (storageError "consume boot trust challenge");
    _ ← or_err (appendEventTx (trust_event Event.EntityInstallation installationID "BOOT_TRUST_VERIFIED" requestID
            "boottrust:tpm" "TPM-bound proof verified; encrypted lifecycle credential released" t))
          (storageError "persist boot trust verification event");
    _ ← or_err Commit (storageError "commit boot trust proof");
    mret (mkRelease (ch_ID challenge) ciphertext "RSA-OAEP-SHA256" credentialExpiry false)
  end.

(* internal/store/boot_trust.go:240-331 CompleteBootTrustChallenge *)
Definition CompleteBootTrustChallenge (installationID challengeID signature requestID : string) : M DB Release :=
  let installationID := TrimSpace installationID in
  let challengeID := TrimSpace challengeID in
  _ ← reject ((installationID =? "")%string || (challengeID =? "")%string || (len signature =? 0)%Z
              || (1024 <? len signature)%Z)
        (New BootTrustProofInvalid "boot trust proof is invalid" None);
  _ ← or_err BeginTx (storageError "begin boot trust proof");
  challenge ← bootTrustChallengeTx installationID challengeID;
  if negb (IsZero (ch_UsedAt challenge)) then
    _ ← reject ((len (ch_ResponseCipher challenge) =? 0)%Z || IsZero (ch_CredentialExpiry challenge))
          (New BootTrustReplayRejected "used challenge has no reusable response" None);
    mret (mkRelease (ch_ID challenge) (ch_ResponseCipher challenge) "RSA-OAEP-SHA256"
            (ch_CredentialExpiry challenge) true)
  else
  t ← now;
  _ ← reject (negb (After (ch_ExpiresAt challenge) t))
        (New BootTrustChallengeExpired "boot trust challenge expired" None);
  binding ← trustBindingTx installationID;
  let machineID := binding.1 in
  _ ← reject (negb (machineID =? ch_MachineID challenge)%string || (binding.2 =? Assignment.StateCancelled)%string)
        (New BootTrustProofInvalid "boot trust challenge binding is no longer valid" None);
  _ ← requireProvisionPolicyTx machineID;
  key ← or_err (bootTrustKeyTx machineID (ch_KeyFingerprint challenge))
    (λ e, New BootTrustEnrollmentRequired "approved boot trust key is required" (Some e));
  _ ← reject (negb (k_State key =? KeyApproved)%string)
        (New BootTrustEnrollmentRequired "approved boot trust key is required" None);
  parsed ← or_err (lift (ParseRSAPublicKeyPEM (k_PublicKeyPEM key)))
    (λ e, New BootTrustKeyInvalid "stored boot trust key is invalid" (Some e));
  _ ← reject (negb (parsed.2 =? ch_KeyFingerprint challenge)%string)
        (New BootTrustKeyInvalid "stored boot trust key is invalid" None);
  canonical ← or_err (lift (CanonicalChallenge challenge))
    (λ e, New BootTrustProofInvalid "boot trust challenge is invalid" (Some e));
  let digest := sha256 canonical in
  _ ← reject (negb (rsa_verify parsed.1 digest signature))
        (New BootTrustProofInvalid "boot trust signature did not verify" (Some (Plain "crypto/rsa: verification error")));
  spec ← or_err (query (λ db, row_or_none (
             match specs db !! installationID with
             | Some s => if bool_decide (Installation.MachineID s = machineID) then Some s else None
             | None => None
             end)))
    (no_rows_or (λ e, New InstallationNotFound "installation not found" (Some e))
       (storageError "read lifecycle credential identifier for trust release"));
  release_credential challenge parsed.1 (Installation.LifecycleCredentialID spec) requestID t.

End Release.

(** [ORDER BY first_seen_at DESC]; the order of rows with equal texts is not
    specified. *)
(* internal/store/boot_trust.go:107-125 BootTrustKeys *)
Definition BootTrustKeys (machineID : string) : M DB (list Key) :=
  or_err (db_query (λ db, Ok (merge_sort (λ x y, stamp_desc (k_FirstSeenAt x) (k_FirstSeenAt y) true)
            (filter (λ k, k_MachineID k = TrimSpace machineID) (snd <$> map_to_list (trust_keys db))))))
    (storageError "list boot trust keys").

(** ** Lemmas *)

Lemma keeps_bootTrustKeyTx mid fp : keeps (bootTrustKeyTx mid fp).
Proof. unfold bootTrustKeyTx. solve_keeps. Qed.
Lemma keeps_trustBindingTx iid : keeps (trustBindingTx iid).
Proof. unfold trustBindingTx. solve_keeps. Qed.
Lemma keeps_requireProvision mid : keeps (requireProvisionPolicyTx mid).
Proof. unfold requireProvisionPolicyTx. solve_keeps. Qed.
Lemma keeps_bootTrustChallengeTx iid id : keeps (bootTrustChallengeTx iid id).
Proof. unfold bootTrustChallengeTx. solve_keeps. Qed.
#[export] Hint Resolve keeps_bootTrustKeyTx keeps_trustBindingTx keeps_requireProvision
  keeps_bootTrustChallengeTx : aegis.
Lemma keeps_EncryptOAEP `{Crypto} k m l : keeps (EncryptOAEP k m l).
Proof. unfold EncryptOAEP. solve_keeps. Qed.
#[export] Hint Resolve keeps_EncryptOAEP : aegis.
Lemma keeps_trust_queries : (∀ m f, keeps (BootTrustKey m f)) ∧ (∀ m, keeps (BootTrustKeys m)).
Proof. split; intros; unfold BootTrustKey, BootTrustKeys; solve_keeps. Qed.

Lemma atomic_RegisterBootTrustKey `{Crypto} iid pem ek rid : atomic (RegisterBootTrustKey iid pem ek rid).
Proof. unfold RegisterBootTrustKey. solve_atomic. Qed.
Lemma atomic_ApproveBootTrustKey mid fp rid actor : atomic (ApproveBootTrustKey mid fp rid actor).
Proof. unfold ApproveBootTrustKey. solve_atomic. Qed.
Lemma atomic_RevokeBootTrustKey mid fp rid actor : atomic (RevokeBootTrustKey mid fp rid actor).
Proof. unfold RevokeBootTrustKey. solve_atomic. Qed.
Lemma atomic_CreateBootTrustChallenge iid fp rid : atomic (CreateBootTrustChallenge iid fp rid).
Proof. unfold CreateBootTrustChallenge. solve_atomic. Qed.
Lemma atomic_CompleteBootTrustChallenge `{Crypto} iid id s rid : atomic (CompleteBootTrustChallenge iid id s rid).
Proof. unfold CompleteBootTrustChallenge, release_credential. solve_atomic. Qed.
#[export] Hint Resolve atomic_RegisterBootTrustKey atomic_ApproveBootTrustKey atomic_RevokeBootTrustKey
  atomic_CreateBootTrustChallenge atomic_CompleteBootTrustChallenge : aegis.

Lemma key_of_Some mid fp db k : key_of mid fp db = Some k ↔ trust_keys db !! fp = Some k ∧ k_MachineID k = mid.
Proof. unfold key_of. destruct (trust_keys db !! fp) as [k'|]; [case_bool_decide|]; naive_solver. Qed.

Lemma bootTrustKeyTx_Ok mid fp a d w t k c' :
  bootTrustKeyTx mid fp a (mkConn d w t) = (Ok k, c') →
  key_of (TrimSpace mid) (TrimSpace fp) w = Some k ∧ c' = mkConn d w (S t).
Proof. unfold bootTrustKeyTx. intros H. db_inv. done. Qed.

Lemma bootTrustKeyTx_try mid fp a d w t r c' :
  try (bootTrustKeyTx mid fp) a (mkConn d w t) = (Ok r, c') →
  c' = mkConn d w (S t) ∧
  match r with
  | Ok k => key_of (TrimSpace mid) (TrimSpace fp) w = Some k
  | Err e => Code e = BootTrustEnrollmentRequired → key_of (TrimSpace mid) (TrimSpace fp) w = None
  end.
Proof.
  unfold bootTrustKeyTx. intros H%try_Ok. destruct r as [k|e].
  - apply or_err_Ok in H. db_inv. done.
  - apply or_err_Err in H as (e' & H & ->). apply query_Err in H as (-> & [H| ->]); [|done].
    by destruct (key_of _ _ _).
Qed.

Lemma trustBindingTx_Ok iid a d w t b c' :
  trustBindingTx iid a (mkConn d w t) = (Ok b, c') →
  (∃ s x, specs w !! TrimSpace iid = Some s ∧ assignment_of (TrimSpace iid) w = Some x ∧
     b = (Installation.MachineID s, Assignment.a_State x)) ∧ c' = mkConn d w (S t).
Proof.
  unfold trustBindingTx, trust_binding. intros H. db_inv.
  destruct (specs w !! TrimSpace iid) as [s|], (assignment_of (TrimSpace iid) w) as [x|]; simplify_eq; eauto 6.
Qed.

Lemma requireProvision_Ok mid a d w t u c' :
  requireProvisionPolicyTx mid a (mkConn d w t) = (Ok u, c') →
  (∃ m, machines w !! mid = Some m ∧ Machine.m_Policy m = Machine.PolicyProvision) ∧ c' = mkConn d w (S t).
Proof. unfold requireProvisionPolicyTx. intros H. db_inv. bool_inv. eauto. Qed.

Lemma challenge_of_Some iid id db c :
  challenge_of iid id db = Some c ↔ ∃ r, challenges db !! id = Some r ∧ cl_installation r = iid ∧ c = scan_challenge id r.
Proof. unfold challenge_of. destruct (challenges db !! id) as [r|]; [case_bool_decide|]; naive_solver. Qed.

Lemma bootTrustChallengeTx_Ok iid id a d w t c c' :
  bootTrustChallengeTx iid id a (mkConn d w t) = (Ok c, c') →
  (∃ r, challenges w !! id = Some r ∧ cl_installation r = iid ∧ c = scan_challenge id r) ∧ c' = mkConn d w (S t).
Proof. unfold bootTrustChallengeTx. intros H. db_inv. split; [|done]. by apply challenge_of_Some. Qed.

Lemma insert_trust_key_Ok k db db' :
  insert_trust_key k db = Ok db' →
  trust_keys db !! k_Fingerprint k = None ∧ is_Some (machines db !! k_MachineID k) ∧
  db' = set_trust_keys (<[k_Fingerprint k := k]> (trust_keys db)) db.
Proof. unfold insert_trust_key. intros H. constraint_inv. done. Qed.

Lemma insert_challenge_Ok id c db db' :
  insert_challenge id c db = Ok db' →
  challenges db !! id = None ∧ is_Some (specs db !! cl_installation c) ∧
  is_Some (machines db !! cl_machine c) ∧ is_Some (trust_keys db !! cl_key c) ∧
  db' = set_challenges (<[id := c]> (challenges db)) db.
Proof. unfold insert_challenge. intros H. constraint_inv. done. Qed.

(** The steps shared by the operations on an installation's machine. *)
Ltac trust_inv :=
  repeat (db_inv; match goal with
  | H : trustBindingTx _ _ _ = (Ok _, _) |- _ => apply trustBindingTx_Ok in H; destruct H as ((? & ? & ? & ? & ?) & ?); subst
  | H : requireProvisionPolicyTx _ _ _ = (Ok _, _) |- _ => apply requireProvision_Ok in H; destruct H as ((? & ? & ?) & ?); subst
  | H : bootTrustKeyTx _ _ _ _ = (Ok _, _) |- _ => apply bootTrustKeyTx_Ok in H; destruct H as (? & ?); subst
  | H : bootTrustChallengeTx _ _ _ _ = (Ok _, _) |- _ => apply bootTrustChallengeTx_Ok in H; destruct H as ((? & ? & ? & ?) & ?); subst
  end); db_inv; cbn [fst snd] in *; bool_inv.

(** *** Specifications of the operations *)

(** An installation whose assignment is not cancelled and whose machine is
    approved for provisioning. *)
Definition bound_installation (iid mid : string) (db : DB) : Prop :=
  ∃ s x m, specs db !! iid = Some s ∧ Installation.MachineID s = mid ∧
    assignment_of iid db = Some x ∧ Assignment.a_State x ≠ Assignment.StateCancelled ∧
    machines db !! mid = Some m ∧ Machine.m_Policy m = Machine.PolicyProvision.

Ltac solve_bound :=
  do 3 eexists; split; [eassumption|]; split; [reflexivity|]; split; [eassumption|]; split; [eassumption|];
  split; [eassumption|]; eassumption.

Lemma RegisterBootTrustKey_Ok `{Crypto} iid pem ek rid a db k created db' :
  run (RegisterBootTrustKey iid pem ek rid) a db = (Ok (k, created), db') →
  ∃ key fp mid,
    ParseRSAPublicKeyPEM (TrimSpace pem) = Ok (key, fp) ∧ bound_installation (TrimSpace iid) mid db ∧
    ((created = false ∧ ∃ k0, key_of (TrimSpace mid) (TrimSpace fp) db = Some k0 ∧ k_State k0 ≠ KeyRevoked ∧
        k_PublicKeyPEM k0 = TrimSpace pem ∧
        db' = update_key mid fp (λ _, true) (touch_key (clock a) (TrimSpace ek)) db) ∨
     (created = true ∧ k_State k = KeyPending ∧ k_Fingerprint k = fp ∧ k_MachineID k = mid ∧
        k_PublicKeyPEM k = TrimSpace pem ∧
        ∃ db1 e, insert_trust_key k db = Ok db1 ∧ db' = audit e db1)).
Proof.
  unfold RegisterBootTrustKey. intros Hr. trust_inv. rewrite !TrimSpace_idem in *.
  match goal with Hp : Ok ?p = ParseRSAPublicKeyPEM _ |- _ => destruct p as [key fp]; symmetry in Hp end.
  cbn [fst snd] in *.
  match goal with Hs : specs db !! _ = Some ?s |- _ => exists key, fp, (Installation.MachineID s) end.
  split; [done|]. split; [solve_bound|].
  match goal with Hk : try (bootTrustKeyTx _ _) _ _ = _ |- _ => apply bootTrustKeyTx_try in Hk as [-> Hrow] end.
  row_case Hk; cbv beta iota in Hr; [left|right].
  - trust_inv. simplify_eq. split; [done|]. exists row. by split_and!.
  - trust_inv. row_case Ho; cbv beta iota in *; db_inv; simplify_eq; split_and!; try done; do 2 eexists; split; done.
Qed.

Lemma ApproveBootTrustKey_Ok mid fp rid actor a db k db' :
  run (ApproveBootTrustKey mid fp rid actor) a db = (Ok k, db') →
  TrimSpace actor ≠ "" ∧ ∃ k0, key_of (TrimSpace mid) (TrimSpace fp) db = Some k0 ∧ k_State k0 ≠ KeyRevoked ∧
    ((k_State k0 = KeyApproved ∧ k = k0 ∧ db' = db) ∨
     (k = approve_key (clock a) (TrimSpace actor) k0 ∧ approved_unique (TrimSpace mid) (TrimSpace fp) db = true ∧
      ∃ e, db' = audit e (update_key (TrimSpace mid) (TrimSpace fp) (λ k, k_State k =? KeyPending)%string
                           (approve_key (clock a) (TrimSpace actor)) db))).
Proof.
  unfold ApproveBootTrustKey. intros Hr. trust_inv. rewrite !TrimSpace_idem in *. split; [done|].
  match goal with Hk : key_of _ _ _ = Some ?k |- _ => exists k end. do 2 (split; [done|]).
  match type of Hr with context [(?x =? KeyApproved)%string] => destruct (String.eqb_spec x KeyApproved) end;
    [left; db_inv; done|right].
  trust_inv. row_case Ho; cbv beta iota in *; trust_inv; ok_inv;
    match goal with Hc : check_constraint _ = Ok _ |- _ => apply check_constraint_Ok in Hc end;
    split_and!; try done; by eexists.
Qed.

Lemma RevokeBootTrustKey_Ok mid fp rid actor a db k db' :
  run (RevokeBootTrustKey mid fp rid actor) a db = (Ok k, db') →
  ∃ k0, key_of (TrimSpace mid) (TrimSpace fp) db = Some k0 ∧
    ((k_State k0 = KeyRevoked ∧ k = k0 ∧ db' = db) ∨
     (k = revoke_key (clock a) (TrimSpace actor) k0 ∧
      ∃ e, db' = audit e (update_key (TrimSpace mid) (TrimSpace fp) (λ _, true)
                           (revoke_key (clock a) (TrimSpace actor)) db))).
Proof.
  unfold RevokeBootTrustKey. intros Hr. trust_inv. rewrite !TrimSpace_idem in *.
  match goal with Hk : key_of _ _ _ = Some ?k |- _ => exists k end. split; [done|].
  match type of Hr with context [(?x =? KeyRevoked)%string] => destruct (String.eqb_spec x KeyRevoked) end;
    [left; db_inv; done|right].
  trust_inv. simplify_eq. split; [done|]. by eexists.
Qed.

Lemma CreateBootTrustChallenge_Ok iid fp rid a db c db' :
  run (CreateBootTrustChallenge iid fp rid) a db = (Ok c, db') →
  ∃ mid k, bound_installation (TrimSpace iid) mid db ∧
    key_of (TrimSpace mid) (TrimSpace fp) db = Some k ∧ k_State k = KeyApproved ∧
    ch_InstallationID c = TrimSpace iid ∧ ch_MachineID c = mid ∧ ch_KeyFingerprint c = TrimSpace fp ∧
    ch_UsedAt c = zeroTime ∧
    insert_challenge (ch_ID c) (mkChallengeRow (TrimSpace iid) mid (TrimSpace fp) (ch_Nonce c) (clock a)
       (clock a + bootTrustChallengeTTL)%Z None "" None) db = Ok db'.
Proof.
  unfold CreateBootTrustChallenge. intros Hr. trust_inv. rewrite !TrimSpace_idem in *.
  do 2 eexists. split; [solve_bound|]. split_and!; try done.
Qed.

(** A stored challenge, unused and not expired, answered by the holder of the
    machine's approved key. *)
Record proven `{Crypto} (iid id signature : string) (t : time) (db : DB) (r : ChallengeRow) (k : Key)
    (pub : rsa_PublicKey) (s : Installation.Spec) : Prop := {
  pr_row : challenges db !! id = Some r;
  pr_installation : cl_installation r = iid;
  pr_unused : stamp_time (cl_used_at r) = zeroTime;
  pr_fresh : (t < cl_expires_at r)%Z;
  pr_bound : bound_installation iid (cl_machine r) db;
  pr_spec : specs db !! iid = Some s;
  pr_key : key_of (TrimSpace (cl_machine r)) (TrimSpace (cl_key r)) db = Some k;
  pr_approved : k_State k = KeyApproved;
  pr_public : ParseRSAPublicKeyPEM (k_PublicKeyPEM k) = Ok (pub, cl_key r);
  pr_signature : ∃ text, CanonicalChallenge (scan_challenge id r) = Ok text ∧
    rsa_verify pub (sha256 text) signature = true }.

Lemma release_credential_Ok `{Crypto} c pub cid rid t a d w n rel c' :
  release_credential c pub cid rid t a (mkConn d w n) = (Ok rel, c') →
  credential_of (ch_InstallationID c) w = None ∧
  ∃ secret seed ciphertext db1 e,
    rsa_encrypt pub seed secret (lifecycleCredentialOAEPLabel +:+ nul) = Some ciphertext ∧
    insert_credential cid (new_credential (ch_InstallationID c) secret t defaultLifecycleCredentialTTL) w = Ok db1 ∧
    committed c' = audit e (use_challenge t ciphertext (t + defaultLifecycleCredentialTTL)%Z (ch_ID c) db1) ∧
    rel = mkRelease (ch_ID c) ciphertext "RSA-OAEP-SHA256" (t + defaultLifecycleCredentialTTL)%Z false.
Proof.
  unfold release_credential, EncryptOAEP. intros Hr. db_inv.
  row_case Hc; cbv beta iota in Hr; db_inv. bool_inv. split; [auto|].
  match goal with He : match rsa_encrypt ?k ?s ?m ?l with _ => _ end _ _ = _ |- _ =>
    destruct (rsa_encrypt k s m l) as [ct|] eqn:Ee end; db_inv. simplify_eq.
  do 5 eexists. split; [exact Ee|]. split; [eassumption|]. done.
Qed.

Lemma CompleteBootTrustChallenge_Ok `{Crypto} iid id signature rid a db rel db' :
  run (CompleteBootTrustChallenge iid id signature rid) a db = (Ok rel, db') →
  let iid := TrimSpace iid in let id := TrimSpace id in
  (rl_Duplicate rel = true ∧ db' = db ∧ ∃ r, challenges db !! id = Some r ∧ cl_installation r = iid ∧
     stamp_time (cl_used_at r) ≠ zeroTime ∧ rl_Ciphertext rel = cl_response r) ∨
  (rl_Duplicate rel = false ∧ ∃ r k pub s secret seed db1 e,
     proven iid id signature (clock a) db r k pub s ∧ credential_of iid db = None ∧
     rsa_encrypt pub seed secret (lifecycleCredentialOAEPLabel +:+ nul) = Some (rl_Ciphertext rel) ∧
     insert_credential (Installation.LifecycleCredentialID s)
       (new_credential iid secret (clock a) defaultLifecycleCredentialTTL) db = Ok db1 ∧
     db' = audit e (use_challenge (clock a) (rl_Ciphertext rel) (clock a + defaultLifecycleCredentialTTL)%Z id db1)).
Proof.
  unfold CompleteBootTrustChallenge. intros Hr. cbv zeta. trust_inv.
  match goal with Hc : challenges db !! _ = Some ?r |- _ => rename r into row end.
  match type of Hr with context [if ?b then _ else _] => destruct b eqn:Eu end; trust_inv.
  - left. unfold IsZero in *. bool_inv. split_and!; try done. exists row. done.
  - right. unfold IsZero, After in *. rewrite !TrimSpace_idem in *. bool_inv.
    match goal with Hp : Ok ?p = ParseRSAPublicKeyPEM _ |- _ => destruct p as [pub fp]; symmetry in Hp end.
    match goal with Hs : (match specs ?w !! ?k with _ => _ end) = Some _ |- _ =>
      destruct (specs w !! k) as [s|] eqn:Es; [|done]; case_bool_decide; [|done] end.
    simplify_eq. apply release_credential_Ok in Hr as (Hnone & secret & seed & ct & db1 & e & He & Hi & Hw & ->).
    cbn [fst snd scan_challenge ch_MachineID ch_KeyFingerprint ch_ExpiresAt ch_InstallationID ch_ID] in *.
    match goal with Hc : cl_installation row = _ |- _ => rewrite Hc in * end. subst.
    split; [done|]. eexists row, _, pub, _, secret, seed, db1, e.
    split; [|split_and!; [exact Hnone|exact He|exact Hi|exact Hw]].
    match goal with Hm : Installation.MachineID _ = cl_machine _ |- _ => rewrite Hm in * end.
    econstructor; try eassumption; [|eexists; split; [symmetry; eassumption|eassumption]].
    do 3 eexists. split; [eassumption|]. split; [eassumption|]. by split; [eassumption|].
Qed.
