(* ===== verification/StoreUsers.v ===== *)
(** * Operator users of the store (internal/store/operator_users.go)

    A WebAuthn credential (a value of the go-webauthn package) is its identifier
    and the JSON text the store keeps. *)

From stdpp Require Import sorting.
From S2P Require Import Prelude GoStrings Fault Op Db Identity.
From S2P Require Event.

(* internal/store/operator_users.go:19-19 webAuthnHandleBytes *)
Definition webAuthnHandleBytes : nat := 64.

Record WebAuthnCredential := mkWebAuthnCredential { wc_ID : string; wc_json : string }.

(** ** Reading *)

Definition user_by_external (provider subject : string) (db : DB) : option User :=
  snd <$> find_row (λ p : string * User, Provider p.2 = provider ∧ Subject p.2 = subject) (users db).

(** [SELECT COUNT(...) WHERE role='admin' AND status<>'blocked']. *)
Definition active_admin (u : User) : Prop := u_Role u = RoleAdmin ∧ u_Status u ≠ StatusBlocked.
#[global] Instance active_admin_dec u : Decision (active_admin u) := decide (_ ∧ _).
Definition admin_count (db : DB) : nat := size (filter (λ p : string * User, active_admin p.2) (users db)).

(* internal/store/operator_users.go:344-346 operatorUserByIDTx *)
Definition operatorUserByIDTx (userID : string) : M DB User := query (λ db, row_or_none (users db !! userID)).

Definition user_not_found (message : string) (err : error) : error :=
  no_rows_or (λ e, New OperatorUserNotFound "operator user not found" (Some e)) (storageError message) err.

(* internal/store/operator_users.go:107-116 OperatorUserByExternalIdentity *)
Definition OperatorUserByExternalIdentity (provider subject : string) : M DB User :=
  or_err (db_query (λ db, row_or_none (user_by_external (TrimSpace provider) (TrimSpace subject) db)))
    (user_not_found "query operator user").

(* internal/store/operator_users.go:118-127 OperatorUser *)
Definition OperatorUser (userID : string) : M DB User :=
  or_err (db_query (λ db, row_or_none (users db !! TrimSpace userID))) (user_not_found "query operator user").

(** [ORDER BY created_at]; the credentials are the stored texts. *)
(* internal/store/operator_users.go:129-154 OperatorUserForWebAuthn *)
Definition OperatorUserForWebAuthn (userID rpID : string) : M DB (User * list string) :=
  user ← OperatorUser userID;
  creds ← or_err (db_query (λ db, Ok (oc_json <$>
            merge_sort (λ x y, stamp_asc (oc_created_at x) (oc_created_at y) true)
              (snd <$> filter (λ p : (string * string) * OperatorCredentialRow,
                   oc_user p.2 = ID user ∧ p.1.1 = TrimSpace rpID) (map_to_list (user_credentials db))))))
            (storageError "query operator credentials");
  mret (user, creds).

Definition older_user (x y : User) : Prop := stamp_asc (CreatedAt x) (CreatedAt y) (String.leb (ID x) (ID y)).
#[global] Instance older_user_dec x y : Decision (older_user x y) := stamp_asc_dec _ _ _.

(* internal/store/operator_users.go:156-174 OperatorUsers *)
Definition OperatorUsers : M DB (list User) :=
  or_err (db_query (λ db, Ok (merge_sort older_user (snd <$> map_to_list (users db)))))
    (storageError "list operator users").

(* internal/store/operator_users.go:176-182 HasOperatorAdmin *)
Definition HasOperatorAdmin : M DB bool :=
  count ← or_err (db_query (λ db, Ok (admin_count db))) (storageError "count operator admins");
  mret (0 <? count)%nat.

(** ** Operations *)

Definition user_event (id ty requestID actor message : string) (t : time) : Event.Event :=
  Event.mkEvent 0 Event.EntityOperatorUser id ty t (TrimSpace requestID) (TrimSpace actor) message "".

(* internal/store/operator_users.go:25-105 ResolveOperatorUser *)
Definition ResolveOperatorUser (provider subject displayName email requestID : string) : M DB (User * bool) :=
  let provider := TrimSpace provider in
  let subject := TrimSpace subject in
  let displayName := TrimSpace displayName in
  let email := TrimSpace email in
  _ ← or_err (lift (ValidateExternalIdentity provider subject))
        (λ e, New OperatorAuthenticationFailed "external operator identity is invalid" (Some e));
  let displayName := if (displayName =? "")%string then subject else displayName in
  _ ← reject ((160 <? len displayName)%Z || (254 <? len email)%Z
              || has_ascii_control displayName || has_ascii_control email)
        (New OperatorAuthenticationFailed "external operator identity metadata is invalid" None);
  _ ← or_err BeginTx (storageError "begin operator identity transaction");
  existing ← try (query (λ db, row_or_none (user_by_external provider subject db)));
  match existing with
  | Ok user => mret (user, false)
  | Err err =>
    _ ← reject (negb (IsNoRows err)) (storageError "resolve operator identity" err);
    userID ← or_err (idgen_New "u_") (storageError "generate operator user id");
    handle ← or_err (rand_Read webAuthnHandleBytes) (storageError "generate webauthn user handle");
    t ← now;
    let user := mkUser userID provider subject displayName email "" StatusPendingReview handle t t zeroTime "" in
    _ ← or_err (exec_insert (insert_user user)) (storageError "insert operator user");
    _ ← or_err (appendEventTx (user_event userID Event.OperatorUserDiscovered requestID "system:identity"
            "trusted external identity discovered" t))
          (storageError "audit operator discovery");
    _ ← or_err Commit (storageError "commit operator identity");
    mret (user, true)
  end.

(* internal/store/operator_users.go:208-209 ClaimInitialAdmin *)
Definition approve_user (role : Role) (actor : string) (t : time) (u : User) : User :=
  mkUser (ID u) (Provider u) (Subject u) (DisplayName u) (Email u) role StatusEnrollmentRequired
    (WebAuthnHandle u) (CreatedAt u) t t (TrimSpace actor).

(* internal/store/operator_users.go:277-277 BlockOperatorUser *)
Definition set_status (status : Status) (t : time) (u : User) : User :=
  mkUser (ID u) (Provider u) (Subject u) (DisplayName u) (Email u) (u_Role u) status
    (WebAuthnHandle u) (CreatedAt u) t (ApprovedAt u) (ApprovedBy u).

Definition update_user (f : User → User) (id : string) (db : DB) : DB := set_users (alter f id (users db)) db.

(** The three transactions below end with the commit; the operations then read
    the user again. *)
(* internal/store/operator_users.go:185-217 ClaimInitialAdmin *)
Definition claim_tx (userID requestID actor : string) : M DB User :=
  _ ← or_err BeginTx (storageError "begin initial admin claim");
  count ← or_err (query (λ db, Ok (admin_count db))) (storageError "count initial admins");
  _ ← reject (negb (count =? 0)%nat) (New OperatorAuthorizationDenied "initial admin already exists" None);
  user ← or_err (operatorUserByIDTx (TrimSpace userID)) (user_not_found "load initial admin candidate");
  _ ← reject (negb (u_Status user =? StatusPendingReview)%string)
        (New OperatorAuthorizationDenied "initial admin candidate is not pending" None);
  t ← now;
  _ ← or_err (exec_update (λ db, (update_user (approve_user RoleAdmin actor t) (ID user) db, 1)))
        (storageError "claim initial admin");
  _ ← or_err (appendEventTx (user_event (ID user) Event.OperatorInitialAdminClaimed requestID actor
          "initial administrator claimed" t))
        (storageError "audit initial admin claim");
  _ ← or_err Commit (storageError "commit initial admin claim");
  mret user.

(* internal/store/operator_users.go:184-219 ClaimInitialAdmin *)
Definition ClaimInitialAdmin (userID requestID actor : string) : M DB User :=
  user ← claim_tx userID requestID actor; OperatorUser (ID user).

(* internal/store/operator_users.go:222-249 ApproveOperatorUser *)
Definition approve_tx (userID : string) (role : Role) (requestID actor : string) : M DB User :=
  _ ← or_err (lift (ValidateRole role))
        (λ e, New OperatorAuthorizationDenied "operator role is invalid" (Some e));
  _ ← or_err BeginTx (storageError "begin operator approval");
  user ← or_err (operatorUserByIDTx (TrimSpace userID)) (user_not_found "load operator approval target");
  _ ← reject (negb (u_Status user =? StatusPendingReview)%string)
        (New OperatorAuthorizationDenied "operator user is not pending review" None);
  t ← now;
  _ ← or_err (exec_update (λ db, (update_user (approve_user role actor t) (ID user) db, 1)))
        (storageError "approve operator user");
  _ ← or_err (appendEventTx (user_event (ID user) Event.OperatorUserApproved requestID actor
          ("operator user approved as " +:+ role) t))
        (storageError "audit operator approval");
  _ ← or_err Commit (storageError "commit operator approval");
  mret user.

(* internal/store/operator_users.go:221-252 ApproveOperatorUser *)
Definition ApproveOperatorUser (userID : string) (role : Role) (requestID actor : string) : M DB User :=
  user ← approve_tx userID role requestID actor; OperatorUser (ID user).

(* internal/store/operator_users.go:255-285 BlockOperatorUser *)
Definition block_tx (userID requestID actor : string) : M DB User :=
  _ ← or_err BeginTx (storageError "begin operator block");
  user ← or_err (operatorUserByIDTx (TrimSpace userID)) (user_not_found "load operator block target");
  _ ← (if (u_Role user =? RoleAdmin)%string && negb (u_Status user =? StatusBlocked)%string then
         admins ← or_err (query (λ db, Ok (admin_count db))) (storageError "count active admins");
         reject (admins <=? 1)%nat
           (New OperatorAuthorizationDenied "last administrator cannot be blocked" None)
       else mret tt);
  t ← now;
  _ ← or_err (exec_update (λ db, (update_user (set_status StatusBlocked t) (ID user) db, 1)))
        (storageError "block operator user");
  _ ← or_err (appendEventTx (user_event (ID user) Event.OperatorUserBlocked requestID actor
          "operator user blocked" t))
        (storageError "audit operator block");
  _ ← or_err Commit (storageError "commit operator block");
  mret user.

(* internal/store/operator_users.go:254-288 BlockOperatorUser *)
Definition BlockOperatorUser (userID requestID actor : string) : M DB User :=
  user ← block_tx userID requestID actor; OperatorUser (ID user).

(** [INSERT ... ON CONFLICT(user_id,rp_id,credential_id) DO UPDATE ...]: a
    credential identifier of another user violates UNIQUE(rp_id,credential_id). *)
(* internal/store/operator_users.go:311-316 SaveOperatorCredential *)
Definition upsert_user_credential (userID rpID : string) (c : WebAuthnCredential) (t : time) (db : DB) : result DB :=
  match user_credentials db !! (rpID, wc_ID c) with
  | Some row =>
    _ ← check_constraint (oc_user row =? userID)%string;
    Ok (set_user_credentials (<[(rpID, wc_ID c) :=
          mkOperatorCredentialRow userID (wc_json c) (oc_created_at row) t t]> (user_credentials db)) db)
  | None =>
    _ ← check_constraint (bool_decide (is_Some (users db !! userID)));
    Ok (set_user_credentials (<[(rpID, wc_ID c) :=
          mkOperatorCredentialRow userID (wc_json c) t t t]> (user_credentials db)) db)
  end.

(* internal/store/operator_users.go:290-330 SaveOperatorCredential *)
Definition SaveOperatorCredential (userID rpID : string) (credential : WebAuthnCredential)
    (requestID actor : string) (enrollment : bool) : M DB unit :=
  t ← now;
  _ ← or_err BeginTx (storageError "begin operator credential save");
  user ← or_err (operatorUserByIDTx (TrimSpace userID)) (user_not_found "load credential owner");
  _ ← reject (enrollment && negb (u_Status user =? StatusEnrollmentRequired)%string)
        (New OperatorAuthorizationDenied "operator user is not awaiting passkey enrollment" None);
  _ ← or_err (exec_insert (upsert_user_credential (ID user) (TrimSpace rpID) credential t))
        (storageError "save operator credential");
  _ ← (if enrollment then
         _ ← or_err (exec_update (λ db, (update_user (set_status StatusActive t) (ID user) db, 1)))
               (storageError "activate operator user");
         or_err (appendEventTx (user_event (ID user) Event.OperatorPasskeyEnrolled requestID actor
             "operator passkey enrolled" t))
           (storageError "audit passkey enrollment")
       else mret tt);
  or_err Commit (storageError "commit operator credential").

(** ** Lemmas *)

Lemma keeps_operatorUserByIDTx id : keeps (operatorUserByIDTx id).
Proof. apply keeps_query. Qed.
Lemma keeps_OperatorUser id : keeps (OperatorUser id).
Proof. unfold OperatorUser. solve_keeps. Qed.
#[export] Hint Resolve keeps_operatorUserByIDTx keeps_OperatorUser : aegis.
Lemma keeps_user_queries :
  (∀ p s, keeps (OperatorUserByExternalIdentity p s)) ∧ (∀ u r, keeps (OperatorUserForWebAuthn u r)) ∧
  keeps OperatorUsers ∧ keeps HasOperatorAdmin.
Proof.
  split_and!; intros; unfold OperatorUserByExternalIdentity, OperatorUserForWebAuthn, OperatorUsers, HasOperatorAdmin;
    solve_keeps.
Qed.

Lemma atomic_ResolveOperatorUser p s d e rid : atomic (ResolveOperatorUser p s d e rid).
Proof. unfold ResolveOperatorUser. solve_atomic. Qed.
Lemma atomic_claim_tx u rid actor : atomic (claim_tx u rid actor).
Proof. unfold claim_tx. solve_atomic. Qed.
Lemma atomic_approve_tx u r rid actor : atomic (approve_tx u r rid actor).
Proof. unfold approve_tx. solve_atomic. Qed.
Lemma atomic_block_tx u rid actor : atomic (block_tx u rid actor).
Proof. unfold block_tx. solve_atomic. Qed.
Lemma atomic_SaveOperatorCredential u r c rid actor e : atomic (SaveOperatorCredential u r c rid actor e).
Proof. unfold SaveOperatorCredential. solve_atomic. Qed.
#[export] Hint Resolve atomic_ResolveOperatorUser atomic_claim_tx atomic_approve_tx atomic_block_tx
  atomic_SaveOperatorCredential : aegis.

Lemma operatorUserByIDTx_Ok id a d w t u c' :
  operatorUserByIDTx id a (mkConn d w t) = (Ok u, c') → users w !! id = Some u ∧ c' = mkConn d w (S t).
Proof. unfold operatorUserByIDTx. intros H. db_inv. done. Qed.

Ltac user_inv :=
  repeat (db_inv; match goal with
  | H : operatorUserByIDTx _ _ _ = (Ok _, _) |- _ => apply operatorUserByIDTx_Ok in H; destruct H as (? & ?); subst
  end); db_inv; bool_inv.

Lemma insert_user_Ok u db db' :
  insert_user u db = Ok db' →
  users db !! ID u = None ∧
  map_Forall (λ _ y, WebAuthnHandle y ≠ WebAuthnHandle u
    ∧ ¬ (Provider y = Provider u ∧ Subject y = Subject u)) (users db) ∧
  db' = set_users (<[ID u := u]> (users db)) db.
Proof. unfold insert_user. intros H. constraint_inv. done. Qed.

Lemma ResolveOperatorUser_Ok p s d e rid a db u created db' :
  run (ResolveOperatorUser p s d e rid) a db = (Ok (u, created), db') →
  (created = false ∧ db' = db ∧ user_by_external (TrimSpace p) (TrimSpace s) db = Some u) ∨
  (created = true ∧ user_by_external (TrimSpace p) (TrimSpace s) db = None ∧
   (∃ raw, ID u = "u_" +:+ hex_encode raw) ∧ Provider u = TrimSpace p ∧ Subject u = TrimSpace s ∧ u_Role u = "" ∧ u_Status u = StatusPendingReview ∧
   ∃ db1 ev, insert_user u db = Ok db1 ∧ db' = audit ev db1).
Proof.
  unfold ResolveOperatorUser. intros Hr. user_inv. row_case Hu; cbv beta iota in Hr; user_inv; simplify_eq; [by left|].
  right. specialize (Hu ltac:(done)). split_and!; try done; [by eexists|by do 2 eexists].
Qed.

Lemma claim_tx_Ok uid rid actor a db u db' :
  run (claim_tx uid rid actor) a db = (Ok u, db') →
  admin_count db = 0 ∧ users db !! TrimSpace uid = Some u ∧ u_Status u = StatusPendingReview ∧
  ∃ e, db' = audit e (update_user (approve_user RoleAdmin actor (clock a)) (ID u) db).
Proof.
  unfold claim_tx. intros Hr. user_inv. simplify_eq.
  match goal with Hc : (admin_count _ =? 0)%nat = true |- _ => apply Nat.eqb_eq in Hc end. eauto 10.
Qed.

Lemma approve_tx_Ok uid role rid actor a db u db' :
  run (approve_tx uid role rid actor) a db = (Ok u, db') →
  ValidateRole role = Ok tt ∧ users db !! TrimSpace uid = Some u ∧ u_Status u = StatusPendingReview ∧
  ∃ e, db' = audit e (update_user (approve_user role actor (clock a)) (ID u) db).
Proof.
  unfold approve_tx. intros Hr. user_inv. simplify_eq.
  match goal with Hv : Ok ?u = ValidateRole _ |- _ => destruct u end. eauto 10.
Qed.

Lemma block_tx_Ok uid rid actor a db u db' :
  run (block_tx uid rid actor) a db = (Ok u, db') →
  users db !! TrimSpace uid = Some u ∧ (active_admin u → 1 < admin_count db) ∧
  ∃ e, db' = audit e (update_user (set_status StatusBlocked (clock a)) (ID u) db).
Proof.
  unfold block_tx. intros Hr. user_inv.
  match goal with Hi : (if ?b then _ else _) _ _ = _ |- _ => destruct b eqn:Eb end; user_inv; simplify_eq.
  - match goal with Hc : (admin_count _ <=? 1)%nat = false |- _ => apply Nat.leb_gt in Hc end. eauto 10.
  - split; [done|]. split; [|by eexists]. intros [Ha Hs]. destruct Eb as [Eb|Eb]; bool_inv; done.
Qed.

Lemma SaveOperatorCredential_Ok uid rp c rid actor enrollment a db u db' :
  run (SaveOperatorCredential uid rp c rid actor enrollment) a db = (Ok u, db') →
  ∃ user db1, users db !! TrimSpace uid = Some user ∧
    upsert_user_credential (ID user) (TrimSpace rp) c (clock a) db = Ok db1 ∧
    ((enrollment = false ∧ db' = db1) ∨
     (enrollment = true ∧ u_Status user = StatusEnrollmentRequired ∧
      ∃ e, db' = audit e (update_user (set_status StatusActive (clock a)) (ID user) db1))).
Proof.
  unfold SaveOperatorCredential. intros Hr. user_inv.
  destruct enrollment; user_inv; simplify_eq; do 2 eexists; (split; [eassumption|]); (split; [eassumption|]).
  - right. split_and!; [done| |by eexists].
    match goal with Hd : _ ∨ _ |- _ => destruct Hd; [done|] end. by bool_inv.
  - by left.
Qed.
