(* ===== verification/StoreDeletion.v ===== *)
(** * Deletion of installations and machines (internal/store/deletion.go) *)

From S2P Require Import Prelude GoStrings Fault Op Db StoreTelemetry StoreInstallations.
From S2P Require Machine Installation Assignment Lifecycle Telemetry Boottrust Event.

(** ** Statements *)

(** Everything that refers to an installation, its audit events included. *)
(* internal/store/deletion.go:42-54 DeleteInstallation *)
Definition delete_dependents (iid : string) (db : DB) : DB :=
  set_events (filter (λ e, ¬ (Event.EntityType e = Event.EntityInstallation ∧ Event.EntityID e = iid)) (events db))
    (event_seq db)
  (set_assignments (filter (λ p : string * Assignment.Assignment, Assignment.InstallationID p.2 ≠ iid) (assignments db))
  (set_credentials (filter (λ p : string * CredentialRow, cr_installation p.2 ≠ iid) (credentials db))
  (set_lifecycle (filter (λ e, Lifecycle.InstallationID e ≠ iid) (lifecycle_events db)) (lifecycle_seq db)
  (set_logs (filter (λ c, Telemetry.l_InstallationID c ≠ iid) (log_chunks db)) (log_seq db)
  (set_challenges (filter (λ p : string * ChallengeRow, cl_installation p.2 ≠ iid) (challenges db)) db))))).

(** One DELETE per table: [f] is what it leaves. *)
Definition exec_delete (f : DB → DB) : M DB nat := exec_update (λ db, (f db, 1)).

(* internal/store/deletion.go:42-53 DeleteInstallation *)
Definition delete_statements (iid : string) : list (DB → DB) :=
  [ (λ db, set_challenges (filter (λ p : string * ChallengeRow, cl_installation p.2 ≠ iid) (challenges db)) db);
    (λ db, set_logs (filter (λ c, Telemetry.l_InstallationID c ≠ iid) (log_chunks db)) (log_seq db) db);
    (λ db, set_lifecycle (filter (λ e, Lifecycle.InstallationID e ≠ iid) (lifecycle_events db)) (lifecycle_seq db) db);
    (λ db, set_credentials (filter (λ p : string * CredentialRow, cr_installation p.2 ≠ iid) (credentials db)) db);
    (λ db, set_assignments (filter (λ p : string * Assignment.Assignment, Assignment.InstallationID p.2 ≠ iid)
                              (assignments db)) db);
    (λ db, set_events (filter (λ e, ¬ (Event.EntityType e = Event.EntityInstallation ∧ Event.EntityID e = iid))
                         (events db)) (event_seq db) db) ].

Fixpoint exec_deletes (l : list (DB → DB)) : M DB unit :=
  match l with
  | [] => mret tt
  | f :: l => _ ← or_err (exec_delete f) (storageError "delete installation dependent state"); exec_deletes l
  end.

(** DELETE FROM installation_specs: RESTRICT for every table that refers to it. *)
Definition delete_spec (iid : string) (db : DB) : result (DB * nat) :=
  match specs db !! iid with
  | None => Ok (db, 0)
  | Some _ =>
    _ ← check_constraint (bool_decide (map_Forall (λ _ x, Assignment.InstallationID x ≠ iid) (assignments db)));
    _ ← check_constraint (bool_decide (map_Forall (λ _ c, cr_installation c ≠ iid) (credentials db)));
    _ ← check_constraint (bool_decide (Forall (λ e, Lifecycle.InstallationID e ≠ iid) (lifecycle_events db)));
    _ ← check_constraint (bool_decide (Forall (λ c, Telemetry.l_InstallationID c ≠ iid) (log_chunks db)));
    _ ← check_constraint (bool_decide (map_Forall (λ _ c, cl_installation c ≠ iid) (challenges db)));
    Ok (set_specs (delete iid (specs db)) db, 1)
  end.

(** DELETE FROM machine_boot_trust_keys WHERE machine_id=?: RESTRICT for the
    challenges. *)
Definition delete_trust_keys (mid : string) (db : DB) : result (DB * nat) :=
  _ ← check_constraint (bool_decide (map_Forall (λ _ c,
        ((λ k, bool_decide (Boottrust.k_MachineID k = mid)) <$> trust_keys db !! cl_key c) ≠ Some true) (challenges db)));
  Ok (set_trust_keys (filter (λ p : string * Boottrust.Key, Boottrust.k_MachineID p.2 ≠ mid) (trust_keys db)) db, 1).

(** DELETE FROM machines WHERE id=?: identifiers CASCADE, the other tables
    RESTRICT. *)
Definition delete_machine (mid : string) (db : DB) : result (DB * nat) :=
  match machines db !! mid with
  | None => Ok (db, 0)
  | Some _ =>
    _ ← check_constraint (bool_decide (map_Forall (λ _ s, Installation.MachineID s ≠ mid) (specs db)));
    _ ← check_constraint (bool_decide (map_Forall (λ _ x, Assignment.MachineID x ≠ mid) (assignments db)));
    _ ← check_constraint (bool_decide (map_Forall (λ _ k, Boottrust.k_MachineID k ≠ mid) (trust_keys db)));
    _ ← check_constraint (bool_decide (map_Forall (λ _ c, cl_machine c ≠ mid) (challenges db)));
    Ok (set_machines (delete mid (machines db))
         (set_identifiers (filter (λ p : (string * string) * IdentifierRow, id_machine p.2 ≠ mid) (identifiers db)) db), 1)
  end.

(** ** Operations *)

(* internal/store/deletion.go:62-64 DeleteInstallation *)
Definition installation_deletion_event (iid requestID actor : string) (t : time) : Event.Event :=
  Event.mkEvent 0 Event.EntitySystem iid Event.InstallationDeleted t requestID actor
    "installation and correlated runtime history deleted" "".

(* internal/store/deletion.go:14-70 DeleteInstallation *)
Definition DeleteInstallation (installationID requestID actor : string) : M DB unit :=
  let installationID := TrimSpace installationID in
  let actor := TrimSpace actor in
  _ ← reject ((installationID =? "")%string || (actor =? "")%string)
        (New InstallationSpecInvalid "installation and actor are required" None);
  _ ← or_err BeginTx (storageError "begin installation deletion");
  _ ← or_err (query (λ db, row_or_none (specs db !! installationID)))
        (no_rows_or (λ e, New InstallationNotFound "installation not found" (Some e))
           (storageError "read installation before deletion"));
  state ← try (query (λ db, row_or_none (Assignment.a_State <$> assignment_of installationID db)));
  _ ← (match state with
       | Ok s => reject (s =? Assignment.StateArmed)%string
                   (New InstallationDeleteConflict "armed installation must be cancelled before deletion" None)
       | Err err => reject (negb (IsNoRows err)) (storageError "read assignment before installation deletion" err)
       end);
  _ ← exec_deletes (delete_statements installationID);
  rows ← or_err (stmt (delete_spec installationID)) (storageError "delete installation spec");
  _ ← reject (negb (rows =? 1)%nat)
        (New StorageFailure "installation deletion did not affect exactly one row" None);
  t ← now;
  _ ← or_err (appendEventTx (installation_deletion_event installationID requestID actor t))
        (storageError "persist installation deletion audit event");
  or_err Commit (storageError "commit installation deletion").

(* internal/store/deletion.go:120-126 DeleteMachine *)
Definition machine_deletion_event (mid nickname requestID actor : string) (t : time) : Event.Event :=
  Event.mkEvent 0 Event.EntitySystem mid Event.MachineDeleted t requestID actor
    (if (nickname =? "")%string then "machine inventory deleted"
     else "machine inventory deleted; previous nickname: " +:+ nickname) "".

(* internal/store/deletion.go:72-132 DeleteMachine *)
Definition DeleteMachine (machineID requestID actor : string) : M DB unit :=
  let machineID := TrimSpace machineID in
  let actor := TrimSpace actor in
  _ ← reject ((machineID =? "")%string || (actor =? "")%string)
        (New MachineIdentityInvalid "machine and actor are required" None);
  _ ← or_err BeginTx (storageError "begin machine deletion");
  m ← or_err (query (λ db, row_or_none (machines db !! machineID)))
        (no_rows_or (λ e, New MachineNotFound "machine not found" (Some e))
           (storageError "read machine before deletion"));
  installationCount ← or_err (query (λ db, Ok (size
        (filter (λ p : string * Installation.Spec, Installation.MachineID p.2 = machineID) (specs db)))))
        (storageError "count machine installations before deletion");
  _ ← reject (negb (installationCount =? 0)%nat)
        (New MachineDeleteConflict "delete the machine installations before deleting the machine" None);
  armedCount ← or_err (query (λ db, Ok (size
        (filter (λ p : string * Assignment.Assignment, Assignment.MachineID p.2 = machineID
                  ∧ Assignment.a_State p.2 = Assignment.StateArmed) (assignments db)))))
        (storageError "check armed assignments before machine deletion");
  _ ← reject (negb (armedCount =? 0)%nat)
        (New MachineDeleteConflict "machine still has an armed installation assignment" None);
  _ ← or_err (stmt (delete_trust_keys machineID)) (storageError "delete machine boot trust keys");
  _ ← or_err (exec_delete (λ db, set_events
        (filter (λ e, ¬ (Event.EntityType e = Event.EntityMachine ∧ Event.EntityID e = machineID)) (events db))
        (event_seq db) db))
        (storageError "delete machine events");
  rows ← or_err (stmt (delete_machine machineID)) (storageError "delete machine");
  _ ← reject (negb (rows =? 1)%nat) (New StorageFailure "machine deletion did not affect exactly one row" None);
  t ← now;
  _ ← or_err (appendEventTx (machine_deletion_event machineID (Machine.Nickname m) requestID actor t))
        (storageError "persist machine deletion audit event");
  or_err Commit (storageError "commit machine deletion").

(** ** Lemmas *)

Lemma keeps_exec_deletes l : keeps (exec_deletes l).
Proof. induction l as [|f l IH]; simpl; [apply keeps_ret|]. unfold exec_delete. solve_keeps. Qed.
#[export] Hint Resolve keeps_exec_deletes : aegis.
Lemma keeps_exec_delete f : keeps (exec_delete f).
Proof. apply keeps_exec_update. Qed.
#[export] Hint Resolve keeps_exec_delete : aegis.
Lemma atomic_DeleteInstallation iid rid actor : atomic (DeleteInstallation iid rid actor).
Proof. unfold DeleteInstallation. solve_atomic. Qed.
Lemma atomic_DeleteMachine mid rid actor : atomic (DeleteMachine mid rid actor).
Proof. unfold DeleteMachine. solve_atomic. Qed.
#[export] Hint Resolve atomic_DeleteInstallation atomic_DeleteMachine : aegis.

Lemma exec_deletes_Ok l : ∀ a d w t u c',
  exec_deletes l a (mkConn d w t) = (Ok u, c') → ∃ t', c' = mkConn d (foldl (λ db f, f db) w l) t'.
Proof.
  induction l as [|f l IH]; intros a d w t u c' H; cbn [exec_deletes foldl] in *.
  - db_inv. eauto.
  - unfold exec_delete in H. db_inv. simplify_eq. by apply IH in H.
Qed.

Lemma delete_statements_dependents iid db : foldl (λ db f, f db) db (delete_statements iid) = delete_dependents iid db.
Proof. by destruct db. Qed.

Lemma delete_spec_Ok iid db db' n :
  delete_spec iid db = Ok (db', n) →
  (n = 0 ∧ db' = db ∧ specs db !! iid = None) ∨
  (n = 1 ∧ is_Some (specs db !! iid) ∧ db' = set_specs (delete iid (specs db)) db).
Proof.
  unfold delete_spec. destruct (specs db !! iid); intros H; constraint_inv; eauto 10.
Qed.

Lemma DeleteInstallation_Ok iid rid actor a db u db' :
  run (DeleteInstallation iid rid actor) a db = (Ok u, db') →
  let iid := TrimSpace iid in
  iid ≠ "" ∧ TrimSpace actor ≠ "" ∧ is_Some (specs db !! iid) ∧
  (∀ x, assignment_of iid db = Some x → Assignment.a_State x ≠ Assignment.StateArmed) ∧
  db' = audit (installation_deletion_event iid rid (TrimSpace actor) (clock a))
          (set_specs (delete iid (specs db)) (delete_dependents iid db)).
Proof.
  unfold DeleteInstallation. intros H. cbv zeta. db_inv. bool_inv.
  assert (∀ x, assignment_of (TrimSpace iid) db = Some x → Assignment.a_State x ≠ Assignment.StateArmed) as Hstate.
  { intros y Hx. row_case Hrow; rewrite Hx in *; cbv beta iota in *; db_inv; bool_inv; simplify_eq/=; [done|].
    by specialize (Hrow ltac:(done)). }
  match goal with Hm : (match ?r with Ok _ => _ | Err _ => _ end) _ ?c0 = (Ok _, ?c1) |- _ =>
    assert (c1 = c0) as -> by (destruct r; db_inv; done) end.
  match goal with Hd : exec_deletes _ _ _ = _ |- _ => apply exec_deletes_Ok in Hd as (t' & ->) end.
  rewrite delete_statements_dependents in *. db_inv.
  match goal with Hd : delete_spec _ _ = _ |- _ => apply delete_spec_Ok in Hd as [(-> & -> & _)|(-> & _ & ->)] end; [done|].
  db_inv. split_and!; try done.
Qed.

Lemma delete_machine_Ok mid db db' n :
  delete_machine mid db = Ok (db', n) →
  (n = 0 ∧ db' = db ∧ machines db !! mid = None) ∨
  (n = 1 ∧ is_Some (machines db !! mid) ∧
   map_Forall (λ _ s, Installation.MachineID s ≠ mid) (specs db) ∧
   map_Forall (λ _ x, Assignment.MachineID x ≠ mid) (assignments db) ∧
   map_Forall (λ _ k, Boottrust.k_MachineID k ≠ mid) (trust_keys db) ∧
   map_Forall (λ _ c, cl_machine c ≠ mid) (challenges db) ∧
   db' = set_machines (delete mid (machines db))
           (set_identifiers (filter (λ p : (string * string) * IdentifierRow, id_machine p.2 ≠ mid) (identifiers db)) db)).
Proof.
  unfold delete_machine. destruct (machines db !! mid); intros H; constraint_inv; [right|left]; split_and!; eauto.
Qed.

(** What remains of the trust keys of the other machines. *)
Definition drop_machine_keys (mid : string) (db : DB) : DB :=
  set_trust_keys (filter (λ p : string * Boottrust.Key, Boottrust.k_MachineID p.2 ≠ mid) (trust_keys db)) db.
Definition drop_machine_events (mid : string) (db : DB) : DB :=
  set_events (filter (λ e, ¬ (Event.EntityType e = Event.EntityMachine ∧ Event.EntityID e = mid)) (events db))
    (event_seq db) db.

Lemma DeleteMachine_Ok mid rid actor a db u db' :
  run (DeleteMachine mid rid actor) a db = (Ok u, db') →
  let mid := TrimSpace mid in
  ∃ m db1, machines db !! mid = Some m ∧
    map_Forall (λ _ c, ((λ k, bool_decide (Boottrust.k_MachineID k = mid)) <$> trust_keys db !! cl_key c) ≠ Some true)
      (challenges db) ∧
    delete_machine mid (drop_machine_events mid (drop_machine_keys mid db)) = Ok (db1, 1) ∧
    db' = audit (machine_deletion_event mid (Machine.Nickname m) rid (TrimSpace actor) (clock a)) db1.
Proof.
  unfold DeleteMachine, exec_delete, delete_trust_keys. intros H. cbv zeta. db_inv. constraint_inv. db_inv. simplify_eq.
  match goal with Hn : negb (?n =? 1)%nat = false |- _ => apply negb_false_iff, Nat.eqb_eq in Hn as -> | Hn : (?n =? 1)%nat = true |- _ => apply Nat.eqb_eq in Hn as -> end.
  do 2 eexists. split_and!; [eassumption|assumption|eassumption|reflexivity].
Qed.
