(* ===== verification/Store.v ===== *)
(** * The store as a whole: its operations as a step relation

    [op] names the operations of internal/store that change the database, with
    their arguments; [exec_op] runs one; [step] is one call with any outcome;
    [reachable] is every database that calls can produce from the empty one. *)

From S2P Require Import Prelude GoStrings Fault Op Db.
From S2P Require Lifecycle Telemetry Installation Machine Artifact.
From S2P Require Import StoreTelemetry StoreMachines StoreInstallations StoreTrust StoreUsers StoreDeletion.

Section Store.
Context `{Artifact.Crypto}.

Inductive op :=
| DiscoverMachine_ (observation : Machine.Observation) (requestID : string)
| SetMachineNickname_ (machineID nickname requestID actor : string)
| SetMachinePolicy_ (machineID policy requestID actor : string)
| CreateInstallationSpec_ (spec : Installation.Spec) (requestID : string)
| ArmInstallation_ (machineID installationID requestID actor : string)
| CancelAssignment_ (installationID requestID actor : string)
| ConsumeAssignment_ (installationID requestID actor : string)
| DeleteInstallation_ (installationID requestID actor : string)
| DeleteMachine_ (machineID requestID actor : string)
| IssueLifecycleCredential_ (installationID requestID actor : string) (ttl : Z)
| AuthenticateLifecycleCredential_ (installationID secret : string)
| VerifyLifecycleMAC_ (installationID method path idempotencyKey : string) (unixSeconds : Z) (body signature : string)
| RevokeLifecycleCredential_ (installationID requestID actor : string)
| AppendLifecycleEvent_ (report : Lifecycle.Report) (requestID : string)
| AppendInstallationLogChunk_ (chunk : Telemetry.LogChunk)
| RegisterBootTrustKey_ (installationID publicKeyPEM ekFingerprint requestID : string)
| ApproveBootTrustKey_ (machineID fingerprint requestID actor : string)
| RevokeBootTrustKey_ (machineID fingerprint requestID actor : string)
| CreateBootTrustChallenge_ (installationID fingerprint requestID : string)
| CompleteBootTrustChallenge_ (installationID challengeID signature requestID : string)
| ResolveOperatorUser_ (provider subject displayName email requestID : string)
| ClaimInitialAdmin_ (userID requestID actor : string)
| ApproveOperatorUser_ (userID role requestID actor : string)
| BlockOperatorUser_ (userID requestID actor : string)
| SaveOperatorCredential_ (userID rpID : string) (credential : WebAuthnCredential) (requestID actor : string) (enrollment : bool).

(** The result of the operation is dropped. *)
Definition discard {A} (m : M DB A) : M DB unit := _ ← m; mret tt.

Definition exec_op (o : op) : M DB unit :=
  match o with
  | DiscoverMachine_ obs rid => discard (DiscoverMachine obs rid)
  | SetMachineNickname_ mid n rid actor => discard (SetMachineNickname mid n rid actor)
  | SetMachinePolicy_ mid p rid actor => discard (SetMachinePolicy mid p rid actor)
  | CreateInstallationSpec_ s rid => discard (CreateInstallationSpec s rid)
  | ArmInstallation_ mid iid rid actor => discard (ArmInstallation mid iid rid actor)
  | CancelAssignment_ iid rid actor => discard (CancelAssignment iid rid actor)
  | ConsumeAssignment_ iid rid actor => discard (ConsumeAssignment iid rid actor)
  | DeleteInstallation_ iid rid actor => discard (DeleteInstallation iid rid actor)
  | DeleteMachine_ mid rid actor => discard (DeleteMachine mid rid actor)
  | IssueLifecycleCredential_ iid rid actor ttl => discard (IssueLifecycleCredential iid rid actor ttl)
  | AuthenticateLifecycleCredential_ iid s => discard (AuthenticateLifecycleCredential iid s)
  | VerifyLifecycleMAC_ iid m p k t b s => discard (VerifyLifecycleMAC iid m p k t b s)
  | RevokeLifecycleCredential_ iid rid actor => discard (RevokeLifecycleCredential iid rid actor)
  | AppendLifecycleEvent_ r rid => discard (AppendLifecycleEvent r rid)
  | AppendInstallationLogChunk_ c => discard (AppendInstallationLogChunk c)
  | RegisterBootTrustKey_ iid pem ek rid => discard (RegisterBootTrustKey iid pem ek rid)
  | ApproveBootTrustKey_ mid fp rid actor => discard (ApproveBootTrustKey mid fp rid actor)
  | RevokeBootTrustKey_ mid fp rid actor => discard (RevokeBootTrustKey mid fp rid actor)
  | CreateBootTrustChallenge_ iid fp rid => discard (CreateBootTrustChallenge iid fp rid)
  | CompleteBootTrustChallenge_ iid id s rid => discard (CompleteBootTrustChallenge iid id s rid)
  | ResolveOperatorUser_ p s d e rid => discard (ResolveOperatorUser p s d e rid)
  | ClaimInitialAdmin_ u rid actor => discard (ClaimInitialAdmin u rid actor)
  | ApproveOperatorUser_ u role rid actor => discard (ApproveOperatorUser u role rid actor)
  | BlockOperatorUser_ u rid actor => discard (BlockOperatorUser u rid actor)
  | SaveOperatorCredential_ u rp c rid actor e => discard (SaveOperatorCredential u rp c rid actor e)
  end.

(** The operations that read the user again after their commit. *)
Definition rereads (o : op) : bool :=
  match o with ClaimInitialAdmin_ _ _ _ | ApproveOperatorUser_ _ _ _ _ | BlockOperatorUser_ _ _ _ => true | _ => false end.

(** The clock is after the zero time and random bytes come in the number asked
    for; statements and [rand.Read] may fail. *)
Definition sane (a : ambient) : Prop := (0 < clock a)%Z ∧ entropy_ok a.

Definition step (db db' : DB) : Prop := ∃ o a r, sane a ∧ run (exec_op o) a db = (r, db').
Definition reachable : DB → Prop := rtc step empty_db.

(** ** Lemmas *)

Lemma run_discard {A} (m : M DB A) a db r db' :
  run (discard m) a db = (r, db') →
  (∃ x, run m a db = (Ok x, db') ∧ r = Ok tt) ∨ (∃ e, run m a db = (Err e, db') ∧ r = Err e).
Proof.
  unfold run, discard, mbind, M_bind, mret, M_ret. destruct (m a (mkConn db db 0)) as [[x|e] c]; naive_solver.
Qed.

Lemma run_bind_keeps {A B} (m : M DB A) (f : A → M DB B) a db r db' :
  (∀ x, keeps (f x)) → run (m ≫= f) a db = (r, db') →
  (∃ x, run m a db = (Ok x, db')) ∨ (∃ e, run m a db = (Err e, db') ∧ r = Err e).
Proof.
  intros Hf. unfold run, mbind, M_bind. destruct (m a (mkConn db db 0)) as [[x|e] c]; [|naive_solver].
  specialize (Hf x a c). destruct (f x a c) as [r' c']. simpl in *. intros [= <- <-]. left. eexists. by rewrite Hf.
Qed.

Lemma atomic_exec_op o : rereads o = false → atomic (exec_op o).
Proof. destruct o; intros; try done; cbn [exec_op]; unfold discard; apply atomic_then_ret; auto with aegis. Qed.

End Store.
