(* ===== verification/Http.v ===== *)
(** * Requests, responses and handlers (internal/httpapi)

    A handler is a finite program of calls to the store: between two calls other
    requests may run, so the results it goes by can be stale; System.v says how
    handlers interleave.  Logging is left out.  What net/http has parsed is a
    field of the request; encoding/json and time.Parse are the operations of
    [Decoders]. *)

From S2P Require Import Prelude GoStrings Fault Encoding GoParse Op Db.
From S2P Require Lifecycle Machine.

(** ** Programs of store calls *)

Inductive handler (A : Type) : Type :=
| Done (x : A)
| Call {B : Type} (m : M DB B) (k : result B → handler A)
| Allow (remote : string) (k : bool → handler A). (* the discovery limiter, under its mutex *)
Arguments Done {_} _.
Arguments Call {_ _} _ _.
Arguments Allow {_} _ _.

#[global] Instance handler_ret : MRet handler := @Done.
#[global] Instance handler_bind : MBind handler := λ A B f,
  fix go (h : handler A) : handler B :=
    match h with
    | Done x => f x
    | Call m k => Call m (λ r, go (k r))
    | Allow remote k => Allow remote (λ b, go (k b))
    end.

(** [v, err := s.state.Op(...)]. *)
Definition call {B} (m : M DB B) : handler (result B) := Call m Done.

(** ** Requests *)

(** What a handler reads of [*http.Request].  [q_Form] is the outcome of
    [r.ParseForm], [q_Query] the decoded query; [q_Body] is the body. *)
Record Request := mkRequest {
  q_Method : string;
  q_Path : string;
  q_ID : string;              (* r.PathValue("id") *)
  q_Name : string;            (* r.PathValue("name") *)
  q_Host : string;
  q_RemoteAddr : string;
  q_Header : list (string * string);
  q_Query : list (string * string);
  q_Form : result (list (string * string));
  q_Body : result string }.

(** [Get] on queries and forms: the first value. *)
Fixpoint Get (l : list (string * string)) (key : string) : string :=
  match l with
  | [] => ""
  | (k, v) :: l => if (k =? key)%string then v else Get l key
  end.

(** [textproto.CanonicalMIMEHeaderKey] of a valid header name: letters at the
    start or after a hyphen are upper case, the others lower case. *)
Fixpoint canonical_key (upper : bool) (s : string) : string :=
  match s with
  | "" => ""
  | String c t =>
    let c' := if upper then (if is_lower c then byte_of (byte_nat c - 32) else c) else lower_byte c in
    String c' (canonical_key (byte_is 45 c) t)
  end.

Definition CanonicalHeaderKey (key : string) : string := canonical_key true key.

(** [r.Header.Get]: the fields are kept under their canonical keys. *)
Definition header (r : Request) (key : string) : string := Get (q_Header r) (CanonicalHeaderKey key).

(* internal/httpapi/telemetry.go:26-33 telemetryEventRequest *)
Record telemetryEventRequest := mkEventRequest {
  te_Stage : string; te_Source : string; te_ClientTime : string; te_Message : string; te_ErrorCode : string;
  te_Metadata : gmap string string }.
(* internal/httpapi/telemetry.go:35-40 telemetryLogRequest *)
Record telemetryLogRequest := mkLogRequest {
  tl_Sequence : Z; tl_Source : string; tl_ClientTime : string; tl_Content : string }.
(* internal/httpapi/boot_trust.go:20-23 bootTrustEnrollRequest *)
Record bootTrustEnrollRequest := mkEnrollRequest { en_PublicKeyPEM : string; en_EKFingerprint : string }.
(* internal/httpapi/boot_trust.go:25-27 bootTrustChallengeRequest *)
Record bootTrustChallengeRequest := mkChallengeRequest { cq_Fingerprint : string }.
(* internal/httpapi/boot_trust.go:29-32 bootTrustProveRequest *)
Record bootTrustProveRequest := mkProveRequest { pv_ChallengeID : string; pv_Signature : string }.

(** The decoding of exactly one JSON object without unknown fields into each
    payload, and [time.Parse] with [time.RFC3339Nano]. *)
Class Decoders := {
  decode_observation : string → result Machine.Observation;
  decode_event : string → result telemetryEventRequest;
  decode_log : string → result telemetryLogRequest;
  decode_enroll : string → result bootTrustEnrollRequest;
  decode_challenge : string → result bootTrustChallengeRequest;
  decode_prove : string → result bootTrustProveRequest;
  time_Parse : string → result time }.

(** ** Responses *)

Inductive json :=
| JString (s : string) | JInt (n : Z) | JBool (b : bool) | JTime (t : time)
| JList (l : list json) | JObject (l : list (string * json)).

Inductive body := Text (s : string) | JSON (j : json).

Record Response := mkResponse { p_Status : Z; p_Header : list (string * string); p_Body : body }.

Definition StatusOK : Z := 200.
Definition StatusCreated : Z := 201.
Definition StatusAccepted : Z := 202.
Definition StatusTemporaryRedirect : Z := 307.
Definition StatusBadRequest : Z := 400.
Definition StatusUnauthorized : Z := 401.
Definition StatusForbidden : Z := 403.
Definition StatusNotFound : Z := 404.
Definition StatusConflict : Z := 409.
Definition StatusGone : Z := 410.
Definition StatusRequestEntityTooLarge : Z := 413.
Definition StatusPreconditionRequired : Z := 428.
Definition StatusTooManyRequests : Z := 429.
Definition StatusInternalServerError : Z := 500.
Definition StatusBadGateway : Z := 502.
Definition StatusServiceUnavailable : Z := 503.

Definition set_header (k v : string) (p : Response) : Response :=
  mkResponse (p_Status p) (filter (λ h, h.1 ≠ k) (p_Header p) ++ [(k, v)]) (p_Body p).

(* internal/httpapi/server.go:497-501 writeJSON *)
Definition writeJSON (status : Z) (value : json) : Response :=
  mkResponse status [("Content-Type", "application/json; charset=utf-8")] (JSON value).

(* internal/httpapi/server.go:503-505 writeAPIError *)
Definition writeAPIError (status : Z) (code message : string) : Response :=
  writeJSON status (JObject [("error", JObject [("code", JString code); ("message", JString message)])]).

(** A text response of status 200, one line per item. *)
Definition write_text (lines : list string) : Response :=
  mkResponse StatusOK [("Content-Type", "text/plain; charset=utf-8"); ("Cache-Control", "no-store")]
    (Text (foldr (λ l rest, l +:+ nl +:+ rest) "" lines)).

(** [http.Error]. *)
Definition http_Error (status : Z) (message : string) : Response :=
  mkResponse status [("Content-Type", "text/plain; charset=utf-8"); ("X-Content-Type-Options", "nosniff")] (Text (message +:+ nl)).

(** The code when the error has one. *)
Definition code_or (err : error) (default : string) : string :=
  if (Code err =? "")%string then default else Code err.

(** ** Helpers of server.go *)

(* internal/httpapi/server.go:507-514 firstNonEmpty *)
Fixpoint firstNonEmpty (values : list string) : string :=
  match values with
  | [] => ""
  | value :: values => if negb (blank value) then value else firstNonEmpty values
  end.

(** [strings.NewReplacer] of single bytes by spaces. *)
(* internal/httpapi/server.go:516-519 ipxeSafe *)
Fixpoint ipxeSafe (value : string) : string :=
  match value with
  | "" => ""
  | String c t => String (if byte_is 13 c || byte_is 10 c || Ascii.eqb c ";" then " "%char else c) (ipxeSafe t)
  end.

(* internal/httpapi/server.go:418-427 requestBaseURL *)
Definition requestBaseURL (r : Request) : string :=
  let host := TrimSpace (q_Host r) in
  if (host =? "")%string then "http://127.0.0.1" else
  match url_Parse ("http://" +:+ host) with
  | None => "http://127.0.0.1"
  | Some parsed =>
    if negb (Host parsed =? host)%string || has_User parsed then "http://127.0.0.1" else "http://" +:+ host
  end.

(* internal/httpapi/server.go:458-467 remoteHost *)
Definition remoteHost (remoteAddr : string) : string :=
  let value := TrimSpace remoteAddr in
  let plain := if negb (value =? "")%string then value else "unknown" in
  match SplitHostPort value with
  | Some (host, _) => if negb (host =? "")%string then host else plain
  | None => plain
  end.

(** The media type of the request. *)
(* internal/httpapi/telemetry.go:218-218 decodeTelemetryJSON *)
Definition content_type (r : Request) : string :=
  ToLower (TrimSpace (default "" (head (split_byte ";" (header r "Content-Type"))))).

(** [http.MaxBytesReader]: reading a longer body to its end fails. *)
Definition read_body (r : Request) (limit : Z) : result string :=
  content ← q_Body r;
  _ ← fail_if (limit <? len content)%Z (Plain "http: request body too large");
  Ok content.

(** ** Correlation identifiers *)

(** The identifier the request brings, or a fresh one. *)
(* internal/httpapi/server.go:471-480 requestLog *)
Definition request_identifier (r : Request) : handler (result string) :=
  let requestID := TrimSpace (header r "X-Request-ID") in
  if (requestID =? "")%string || (128 <? len requestID)%Z
  then call (idgen_New "req_") else mret (Ok requestID).

Definition set_request_header (k v : string) (r : Request) : Request :=
  mkRequest (q_Method r) (q_Path r) (q_ID r) (q_Name r) (q_Host r) (q_RemoteAddr r)
    ((CanonicalHeaderKey k, v) :: filter (λ h, h.1 ≠ CanonicalHeaderKey k) (q_Header r)) (q_Query r) (q_Form r) (q_Body r).

Definition security_headers : list (string * string) :=
  [("X-Content-Type-Options", "nosniff"); ("Referrer-Policy", "no-referrer");
   ("Content-Security-Policy", "default-src 'self'; style-src 'self'; object-src 'none'; frame-ancestors 'none'; base-uri 'none'")].

Definition add_headers (l : list (string * string)) (p : Response) : Response :=
  mkResponse (p_Status p) (l ++ p_Header p) (p_Body p).

(** A handler gets the request and its identifier. *)
Definition Handler : Type := Request → string → handler Response.

(* internal/httpapi/server.go:469-490 requestLog *)
Definition requestLog (next : Handler) (r : Request) : handler Response :=
  rid ← request_identifier r;
  match rid with
  | Err _ => mret (http_Error StatusInternalServerError "internal request tracking failure")
  | Ok requestID =>
    p ← next r requestID;
    mret (add_headers (("X-Request-ID", requestID) :: security_headers) p)
  end.

(* internal/httpapi/request_context.go:17-40 ensureRequestContext *)
Definition ensureRequestContext (next : Handler) (r : Request) : handler Response :=
  rid ← request_identifier r;
  match rid with
  | Err _ => mret (http_Error StatusInternalServerError "internal request tracking failure")
  | Ok requestID =>
    p ← next (set_request_header "X-Request-ID" requestID r) requestID;
    mret (add_headers [("X-Request-ID", requestID)] p)
  end.

(** ** One request on its own *)

(** Runs a handler without interleaving: the [n]-th call sees the [n]-th
    ambient; [allow] answers the limiter. *)
Fixpoint serve {A} (h : handler A) (env : nat → ambient) (allow : bool) (n : nat) (db : DB) : A * DB :=
  match h with
  | Done x => (x, db)
  | Call m k => let '(r, db') := run m (env n) db in serve (k r) env allow (S n) db'
  | Allow _ k => serve (k allow) env allow n db
  end.

Lemma serve_bind {A B} (h : handler A) (f : A → handler B) env allow : ∀ n db,
  ∃ n', serve (h ≫= f) env allow n db =
        serve (f (serve h env allow n db).1) env allow n' (serve h env allow n db).2.
Proof.
  induction h as [x|T m k IH|remote k IH]; intros n db.
  - by exists n.
  - cbn [mbind handler_bind serve]. destruct (run m (env n) db) as [r db']. apply (IH r).
  - cbn [mbind handler_bind serve]. apply IH.
Qed.
