(* ===== verification/HttpDiscovery.v ===== *)
(** * Discovery and machine views (internal/httpapi/server.go, localboot.go,
    provisioning.go)

    A machine that boots from the network reports itself; the answer is an iPXE
    script or a JSON object with the boot decision. *)

From S2P Require Import Prelude GoStrings Fault Encoding Op Db Http.
From S2P Require Artifact Machine Boot Secureboot Installation Assignment Lifecycle Event StoreMachines StoreInstallations StoreTelemetry.

(* internal/httpapi/server.go:28-28 maxDiscoveryBody *)
Definition maxDiscoveryBody : Z := Z.shiftl 8 10.
(* internal/httpapi/server.go:29-29 discoveryWindow *)
Definition discoveryWindow : Z := Minute.
(* internal/httpapi/server.go:30-30 maxDiscoveryPerWindow *)
Definition maxDiscoveryPerWindow : Z := 120.

(** ** The rate limiter *)

(* internal/httpapi/server.go:52-55 discoveryCounter *)
Record discoveryCounter := mkCounter { started : time; count : Z }.

(* internal/httpapi/server.go:47-50 discoveryLimiter *)
Abbreviation discoveryLimiter := (gmap string discoveryCounter).

(** Forgets the counters of windows that ended a minute ago. *)
(* internal/httpapi/server.go:435-441 Server.allowDiscovery *)
Definition prune (now : time) (clients : discoveryLimiter) : discoveryLimiter :=
  if (1024 <=? size clients)%nat
  then filter (λ p, (2 * discoveryWindow <=? now - started p.2)%Z = false) clients
  else clients.

(* internal/httpapi/server.go:429-456 Server.allowDiscovery *)
Definition allowDiscovery (remote : string) (now : time) (clients : discoveryLimiter) : bool * discoveryLimiter :=
  let key := remoteHost remote in
  let clients := prune now clients in
  if negb (bool_decide (is_Some (clients !! key))) && (4096 <=? size clients)%nat then (false, clients) else
  let counter := default (mkCounter zeroTime 0) (clients !! key) in
  let counter := if IsZero (started counter) || (discoveryWindow <=? now - started counter)%Z
                 then mkCounter now 0 else counter in
  if (maxDiscoveryPerWindow <=? count counter)%Z then (false, <[key := counter]> clients)
  else (true, <[key := mkCounter (started counter) (count counter + 1)]> clients).

(** ** The server *)

(* internal/httpapi/server.go:33-45 Server *)
Record Server := mkServer {
  s_version : string;
  s_secureBootPolicy : Secureboot.Policy;
  s_secureBootAssetsValid : bool }.

(** The configuration's policy when it is one, else the audit policy. *)
(* internal/httpapi/server.go:101-114 NewWithConfig *)
Definition NewWithConfig (version : string) (policy : Secureboot.Policy) (assetsValid : bool) : Server :=
  mkServer version
    (match Secureboot.ParsePolicy policy with Ok _ => policy | Err _ => Secureboot.PolicyAudit end) assetsValid.

(* internal/store/store.go:37-37 Ping *)
Definition Ping : M DB unit := db_query (λ _, Ok tt).

(** ** iPXE scripts *)

(* internal/httpapi/localboot.go:9-16 localBootReason *)
Definition localBootReason (reason : string) : bool :=
  Lifecycle.one_of (TrimSpace reason) ["local_policy"; "installation_not_armed"; "pending_approval"; "secure_boot_required"].

(* internal/httpapi/localboot.go:18-40 Server.writeLocalBootIPXE *)
Definition local_boot_lines (message reason : string) : list string :=
  [ "#!ipxe"; "echo " +:+ ipxeSafe message; "echo Decision: " +:+ ipxeSafe reason;
    "iseq ${platform} efi && goto local_efi || goto local_bios";
    ":local_efi";
    "echo AegisPXE searching local UEFI bootloaders";
    "sanboot --no-describe --drive 0 --filename \EFI\debian\shimx64.efi || goto local_efi_grub";
    ":local_efi_grub";
    "sanboot --no-describe --drive 0 --filename \EFI\debian\grubx64.efi || goto local_efi_fallback";
    ":local_efi_fallback";
    "sanboot --no-describe --drive 0 --filename \EFI\BOOT\BOOTX64.EFI || goto local_efi_any";
    ":local_efi_any";
    "sanboot --no-describe --drive 0 || goto local_firmware";
    ":local_bios";
    "echo AegisPXE booting first local BIOS disk";
    "sanboot --no-describe --drive 0x80 || goto local_firmware";
    ":local_firmware";
    "echo AegisPXE local bootloader not found; returning failure to firmware";
    "exit 1" ].

(* internal/httpapi/server.go:359-364 Server.writeIPXE *)
Definition exit_lines (message reason : string) : list string :=
  ["#!ipxe"; "echo " +:+ ipxeSafe message; "echo Decision: " +:+ ipxeSafe reason; "exit 0"].

(* internal/httpapi/server.go:354-365 Server.writeIPXE *)
Definition writeIPXE (message reason : string) : Response :=
  write_text (if localBootReason reason then local_boot_lines message reason else exit_lines message reason).

(* internal/httpapi/provisioning.go:470-481 Server.writeProvisioningChain *)
Definition chain_lines (r : Request) (installationID : string) : list string :=
  [ "#!ipxe"; "echo AegisPXE Secure Boot provisioning assignment armed";
    "chain " +:+ requestBaseURL r +:+ "/boot/installations/" +:+ PathEscape installationID +:+ "/boot.ipxe || goto provisioning_failed";
    "exit 0"; ":provisioning_failed"; "echo AegisPXE provisioning endpoint unavailable; exiting safely"; "exit 1" ].

Definition writeProvisioningChain (r : Request) (installationID : string) : Response := write_text (chain_lines r installationID).

(* internal/httpapi/server.go:269-279 Server.discoveryBootstrap *)
Definition bootstrap_lines (r : Request) : list string :=
  [ "#!ipxe"; "echo AegisPXE headless discovery";
    "chain " +:+ requestBaseURL r +:+ "/api/v1/discovery.ipxe?mac=${net0/mac}&smbios_uuid=${uuid}&architecture=${buildarch:uristring}&firmware=${platform:uristring}&secure_boot=${efi/SecureBoot:hex}&setup_mode=${efi/SetupMode:hex} || goto discovery_failed";
    "exit 0"; ":discovery_failed"; "echo AegisPXE discovery endpoint unavailable; exiting safely"; "exit 0" ].

(* internal/httpapi/server.go:268-280 Server.discoveryBootstrap *)
Definition discoveryBootstrap : Handler := λ r _, mret (write_text (bootstrap_lines r)).

Section Discovery.
Context `{Decoders} (s : Server).

(** ** The boot decision *)

(** Decision, installation and assignment; the last two are empty without an
    authorised installation. *)
(* internal/httpapi/provisioning.go:41-93 Server.assignmentDecision *)
Definition assignmentDecision (item : Machine.Machine) : handler (result (Boot.Decision * string * string)) :=
  let base := Boot.Decide (Machine.m_Policy item) in
  if negb (Machine.m_Policy item =? Machine.PolicyProvision)%string then mret (Ok (base, "", "")) else
  active ← call (StoreInstallations.ActiveAssignmentForMachine (Machine.ID item));
  match active with
  | Err err => mret (if (Code err =? InstallationAssignmentNotFound)%string then Ok (base, "", "") else Err err)
  | Ok active =>
    if negb (Secureboot.AllowsProvision (s_secureBootPolicy s) (Machine.SecureBootState item))
    then mret (Ok (Boot.mkDecision Boot.ActionLocal "secure_boot_required", "", ""))
    else
      spec ← call (StoreInstallations.InstallationSpec (Assignment.InstallationID active));
      match spec with
      | Err err => mret (Err err)
      | Ok spec =>
        if negb (Installation.MachineID spec =? Machine.ID item)%string
           || negb (Assignment.MachineID active =? Machine.ID item)%string
           || negb (Assignment.a_State active =? Assignment.StateArmed)%string
        then mret (Err (New InstallationAssignmentInvalid "armed installation assignment is inconsistent" None))
        else
          let gate := Boot.Evaluate (Machine.m_Policy item) true false in
          if negb (Boot.PublicBootAllowed gate)
          then mret (Ok (Boot.mkDecision Boot.ActionLocal (Boot.gate_Reason gate), "", ""))
          else mret (Ok (Boot.mkDecision Boot.ActionProvision "installation_armed",
                         Installation.spec_ID spec, Assignment.ID active))
      end
  end.

(* internal/httpapi/server.go:57-66 discoveryResponse *)
Record discoveryResponse := mkDiscoveryResponse {
  dr_MachineID : string; dr_Created : bool; dr_Policy : Machine.Policy; dr_SecureBoot : Secureboot.State;
  dr_Action : string; dr_Reason : string; dr_InstallationID : string; dr_AssignmentID : string }.

(* internal/httpapi/server.go:221-266 Server.discover *)
Definition discover (observation : Machine.Observation) (requestID : string) : handler (result discoveryResponse) :=
  found ← call (StoreMachines.DiscoverMachine observation requestID);
  match found with
  | Err err => mret (Err err)
  | Ok (item, created) =>
    decision ← assignmentDecision item;
    match decision with
    | Err err => mret (Err err)
    | Ok (decision, installationID, assignmentID) =>
      mret (Ok (mkDiscoveryResponse (Machine.ID item) created (Machine.m_Policy item) (Machine.SecureBootState item)
                  (Boot.Action decision) (Boot.Reason decision) installationID assignmentID))
    end
  end.

(** The body is a JSON object or a form. *)
(* internal/httpapi/server.go:367-404 decodeObservation *)
Definition decodeObservation (r : Request) : result Machine.Observation :=
  if (content_type r =? "application/json")%string then
    content ← or_fail (read_body r maxDiscoveryBody) (Wrapped "decode discovery JSON");
    or_fail (decode_observation content) (Wrapped "decode discovery JSON")
  else
    form ← or_fail (q_Form r) (Wrapped "decode discovery form");
    let value := Get form in
    Ok (Machine.mkObservation (value "mac") (firstNonEmpty [value "smbios_uuid"; value "uuid"])
          (value "architecture") (value "firmware") (value "secure_boot") (value "setup_mode")).

(* internal/httpapi/server.go:328-344 Server.writeDiscoveryError *)
Definition writeDiscoveryError (err : error) : Response :=
  let code := Code err in
  let status :=
    if (code =? MachineIdentityInvalid)%string || (code =? SecureBootEvidenceInvalid)%string then StatusBadRequest
    else if (code =? MachineIdentityConflict)%string then StatusConflict
    else if (code =? StorageFailure)%string then StatusServiceUnavailable
    else StatusInternalServerError in
  writeAPIError status (code_or err StorageFailure) (Error err).

Definition discovery_json (d : discoveryResponse) : json :=
  JObject ([("machine_id", JString (dr_MachineID d)); ("created", JBool (dr_Created d)); ("policy", JString (dr_Policy d));
            ("secure_boot_state", JString (dr_SecureBoot d)); ("action", JString (dr_Action d)); ("reason", JString (dr_Reason d))]
           ++ (if (dr_InstallationID d =? "")%string then [] else [("installation_id", JString (dr_InstallationID d))])).

(* internal/httpapi/server.go:148-171 Server.discoveryJSON *)
Definition discoveryJSON : Handler := λ r requestID,
  Allow (q_RemoteAddr r) (λ allowed,
    if negb allowed
    then mret (set_header "Retry-After" "60" (writeAPIError StatusTooManyRequests DiscoveryRateLimited "discovery rate limit exceeded"))
    else match decodeObservation r with
    | Err err => mret (writeAPIError StatusBadRequest MachineIdentityInvalid (Error err))
    | Ok observation =>
      response ← discover observation requestID;
      match response with
      | Err err => mret (writeDiscoveryError err)
      | Ok response => mret (writeJSON (if dr_Created response then StatusCreated else StatusOK) (discovery_json response))
      end
    end).

(* internal/httpapi/server.go:212-218 Server.discoveryIPXE *)
Definition local_message (d : discoveryResponse) : string :=
  if (dr_Reason d =? "secure_boot_required")%string
  then "Machine " +:+ dr_MachineID d +:+ " requires UEFI Secure Boot before provisioning"
  else if (dr_Action d =? Boot.ActionBlocked)%string
  then "Machine " +:+ dr_MachineID d +:+ " is blocked by AegisPXE policy"
  else "Machine " +:+ dr_MachineID d +:+ " registered (" +:+ dr_Policy d +:+ ")".

(* internal/httpapi/server.go:173-219 Server.discoveryIPXE *)
Definition discoveryIPXE : Handler := λ r requestID,
  Allow (q_RemoteAddr r) (λ allowed,
    if negb allowed then mret (writeIPXE "Discovery rate limit reached; exiting safely" "rate_limited")
    else match decodeObservation r with
    | Err _ => mret (writeIPXE "Discovery request rejected" "invalid_observation")
    | Ok observation =>
      response ← discover observation requestID;
      match response with
      | Err _ => mret (writeIPXE "Discovery failed safely" "server_rejected")
      | Ok response =>
        if (dr_Action response =? Boot.ActionProvision)%string && negb (dr_InstallationID response =? "")%string then
          recorded ← call (StoreTelemetry.RecordServerLifecycle (dr_InstallationID response) Lifecycle.StagePXEBooted
                             ("server:pxe_booted:" +:+ dr_InstallationID response)
                             "PXE bootloader checked in for armed installation" requestID);
          match recorded with
          | Err _ => mret (writeIPXE "Provisioning lifecycle state rejected safely" "server_rejected")
          | Ok _ => mret (writeProvisioningChain r (dr_InstallationID response))
          end
        else mret (writeIPXE (local_message response) (dr_Reason response))
      end
    end).

(** ** Health and machine views *)

(* internal/httpapi/server.go:134-146 Server.health *)
Definition health : Handler := λ _ _,
  ok ← call Ping;
  match ok with
  | Err _ => mret (writeJSON StatusServiceUnavailable (JObject [("status", JString "unhealthy")]))
  | Ok _ => mret (writeJSON StatusOK (JObject [("status", JString "ok"); ("version", JString (s_version s));
      ("secure_boot_policy", JString (s_secureBootPolicy s)); ("secure_boot_assets_valid", JBool (s_secureBootAssetsValid s))]))
  end.

(* internal/httpapi/server.go:68-83 machineResponse *)
Definition identifier_json (i : Machine.Identifier) : json :=
  JObject [("kind", JString (Machine.Kind i)); ("value", JString (Machine.Value i))].

(* internal/httpapi/server.go:406-416 machineView *)
Definition machineView (item : Machine.Machine) (identifiers : list Machine.Identifier) : json :=
  JObject ([("id", JString (Machine.ID item)); ("policy", JString (Machine.m_Policy item));
            ("architecture", JString (Machine.Architecture item)); ("firmware", JString (Machine.Firmware item));
            ("secure_boot_state", JString (Machine.SecureBootState item));
            ("secure_boot_observed_at", JTime (Machine.SecureBootObserved item));
            ("first_seen", JTime (Machine.FirstSeen item)); ("last_seen", JTime (Machine.LastSeen item))]
           ++ match identifiers with [] => [] | _ => [("identifiers", JList (identifier_json <$> identifiers))] end).

(* internal/httpapi/server.go:346-352 Server.writeMachineReadError *)
Definition writeMachineReadError (err : error) : Response :=
  if (Code err =? MachineNotFound)%string then writeAPIError StatusNotFound MachineNotFound "machine not found"
  else writeAPIError StatusInternalServerError StorageFailure "could not load machine".

(* internal/httpapi/server.go:282-293 Server.machines *)
Definition machines_ : Handler := λ _ _,
  items ← call StoreMachines.Machines;
  match items with
  | Err _ => mret (writeAPIError StatusInternalServerError StorageFailure "could not load machines")
  | Ok items => mret (writeJSON StatusOK (JObject [("machines", JList ((λ item, machineView item []) <$> items))]))
  end.

(* internal/httpapi/server.go:295-308 Server.machine *)
Definition machine_ : Handler := λ r _,
  let id := TrimSpace (q_ID r) in
  item ← call (StoreMachines.Store_Machine id);
  match item with
  | Err err => mret (writeMachineReadError err)
  | Ok item =>
    identifiers ← call (StoreMachines.MachineIdentifiers id);
    match identifiers with
    | Err err => mret (writeMachineReadError err)
    | Ok identifiers => mret (writeJSON StatusOK (machineView item identifiers))
    end
  end.

Definition omit_empty (k v : string) : list (string * json) := if (v =? "")%string then [] else [(k, JString v)].

(* internal/httpapi/server.go:85-93 eventResponse *)
Definition event_json (e : Event.Event) : json :=
  JObject ([("sequence", JInt (Event.Sequence e)); ("type", JString (Event.Type_ e)); ("occurred_at", JTime (Event.OccurredAt e))]
           ++ omit_empty "request_id" (Event.RequestID e) ++ omit_empty "actor" (Event.Actor e)
           ++ omit_empty "message" (Event.Message e) ++ omit_empty "error_code" (Event.ErrorCode e)).

(* internal/httpapi/server.go:310-326 Server.machineEvents *)
Definition machineEvents : Handler := λ r _,
  let id := TrimSpace (q_ID r) in
  item ← call (StoreMachines.Store_Machine id);
  match item with
  | Err err => mret (writeMachineReadError err)
  | Ok _ =>
    items ← call (StoreMachines.Events Event.EntityMachine id);
    match items with
    | Err _ => mret (writeAPIError StatusInternalServerError StorageFailure "could not load machine events")
    | Ok items => mret (writeJSON StatusOK (JObject [("events", JList (event_json <$> items))]))
    end
  end.
End Discovery.
