(* ===== verification/HttpProvisioning.v ===== *)
(** * Boot material of an armed installation (internal/httpapi/provisioning.go)

    The boot script, the artifacts and the preseed are public: they are served
    to whoever asks for an installation that is armed, on a machine an operator
    set to provision, under the Secure Boot policy.  Serving the preseed consumes
    the assignment. *)

From S2P Require Import Prelude GoStrings Fault Encoding StringFacts Op Db Http HttpDiscovery.
From S2P Require Artifact Machine Boot Secureboot Installation Assignment Debian13 StoreMachines StoreInstallations.

(* internal/httpapi/provisioning.go:23-27 publicBootContext *)
Record publicBootContext := mkContext {
  pc_Machine : Machine.Machine; pc_Assignment : Assignment.Assignment; pc_Spec : Installation.Spec }.

(** ** iPXE arguments *)

(** Only ASCII bytes are safe, so that ranging over runes is ranging over
    bytes. *)
(* internal/httpapi/provisioning.go:501-516 ipxeArgumentSafe *)
Definition ipxeArgumentSafe (value : string) : bool :=
  all_bytes (λ c, is_lower c || is_upper c || is_digit c || byte_in c "._/:,+-") value.

Fixpoint argument_parts (args : list Boot.Argument) : result (list string) :=
  match args with
  | [] => Ok []
  | arg :: args =>
    _ ← fail_if (negb (ipxeArgumentSafe (Boot.Key arg)) || negb (ipxeArgumentSafe (Boot.Value arg)))
          (Plain "kernel argument contains unsupported iPXE characters");
    parts ← argument_parts args;
    Ok ((if (Boot.Value arg =? "")%string then Boot.Key arg else Boot.Key arg +:+ "=" +:+ Boot.Value arg) :: parts)
  end.

(* internal/httpapi/provisioning.go:483-499 renderIPXEKernelArguments *)
Definition renderIPXEKernelArguments (args : list Boot.Argument) : result string :=
  match args with
  | [] => Ok ""
  | _ => parts ← argument_parts args; Ok (" " +:+ Join parts " ")
  end.

(* internal/httpapi/provisioning.go:518-525 installationArtifactByName *)
Definition installationArtifactByName (items : list Artifact.Descriptor) (name : string) : option Artifact.Descriptor :=
  head (filter (λ a, Artifact.Name a = name) items).

(** ** The authorisation *)

Section Provisioning.
Context (s : Server).

(* internal/httpapi/provisioning.go:386-433 Server.loadPublicBootContext *)
Definition loadPublicBootContext (installationID : string) : handler (result publicBootContext) :=
  let installationID := TrimSpace installationID in
  if (installationID =? "")%string
  then mret (Err (New InstallationAssignmentInvalid "installation identifier is required" None)) else
  spec ← call (StoreInstallations.InstallationSpec installationID);
  match spec with
  | Err err => mret (Err err)
  | Ok spec =>
    item ← call (StoreMachines.Store_Machine (Installation.MachineID spec));
    match item with
    | Err err => mret (Err err)
    | Ok item =>
      active ← call (StoreInstallations.AssignmentForInstallation installationID);
      match active with
      | Err err => mret (Err err)
      | Ok active =>
        mret (
          _ ← fail_if (negb (Assignment.MachineID active =? Machine.ID item)%string
                       || negb (Assignment.InstallationID active =? Installation.spec_ID spec)%string)
                (New InstallationAssignmentInvalid "installation assignment binding is invalid" None);
          _ ← fail_if (negb (Secureboot.AllowsProvision (s_secureBootPolicy s) (Machine.SecureBootState item)))
                (New SecureBootRequired "UEFI Secure Boot is required before installation material may be served" None);
          let gate := Boot.Evaluate (Machine.m_Policy item) (Assignment.a_State active =? Assignment.StateArmed)%string false in
          _ ← fail_if (negb (Boot.PublicBootAllowed gate))
                (New InstallationAssignmentInvalid "installation public boot material is not authorized" None);
          Ok (mkContext item active spec))
      end
    end
  end.

(* internal/httpapi/provisioning.go:452-468 Server.writeBootMaterialError *)
Definition writeBootMaterialError (err : error) : Response :=
  let code := Code err in
  let status :=
    if (code =? InstallationNotFound)%string || (code =? InstallationAssignmentNotFound)%string || (code =? MachineNotFound)%string
    then StatusNotFound
    else if (code =? SecureBootRequired)%string then StatusForbidden
    else if (code =? StorageFailure)%string || (code =? "")%string then StatusServiceUnavailable
    else StatusConflict in
  writeAPIError status (code_or err StorageFailure) "installation boot material unavailable".

(** ** The boot script *)

(* internal/httpapi/provisioning.go:153-175 Server.installationBootScript *)
Definition boot_script_lines (base installationID args : string) : list string :=
  let url := base +:+ "/boot/installations/" +:+ PathEscape installationID in
  [ "#!ipxe";
    "echo AegisPXE Debian 13 Secure Boot installation " +:+ ipxeSafe installationID;
    "imgfree";
    "kernel " +:+ url +:+ "/artifacts/linux" +:+ args +:+ " || goto boot_failed";
    "initrd " +:+ url +:+ "/artifacts/initrd.gz || goto boot_failed";
    "shim " +:+ url +:+ "/artifacts/bootnetx64.efi || goto secure_boot_failed";
    "initrd " +:+ url +:+ "/preseed.cfg /preseed.cfg || goto boot_failed";
    "boot || goto boot_failed";
    ":secure_boot_failed";
    "echo AegisPXE Secure Boot shim fetch or configuration failed";
    "exit 1";
    ":boot_failed";
    "echo AegisPXE installer boot failed safely";
    "exit 1" ].

(* internal/httpapi/provisioning.go:95-192 Server.installationBootScript *)
Definition installationBootScript : Handler := λ r _,
  material ← loadPublicBootContext (q_ID r);
  mret match material with
  | Err err => writeBootMaterialError err
  | Ok material =>
    match Debian13.RenderBoot (pc_Spec material) with
    | Err _ => writeAPIError StatusConflict DriverRenderFailed "installation boot specification could not be rendered"
    | Ok bootSpec =>
      match renderIPXEKernelArguments (Boot.Arguments bootSpec) with
      | Err _ => writeAPIError StatusConflict DriverRenderFailed "installation boot arguments are unsafe"
      | Ok args =>
        match installationArtifactByName (Installation.Artifacts (pc_Spec material)) "bootnetx64.efi" with
        | None => writeAPIError StatusConflict SecureBootAssetsInvalid "signed Debian Secure Boot shim is missing"
        | Some _ => write_text (boot_script_lines (requestBaseURL r) (Installation.spec_ID (pc_Spec material)) args)
        end
      end
    end
  end.

(** ** The preseed *)

Definition octets (media content : string) : Response :=
  mkResponse StatusOK [("Content-Type", media); ("Content-Length", FormatInt (len content)); ("Cache-Control", "no-store")]
    (Text content).

(** The assignment is consumed before the first byte is written. *)
(* internal/httpapi/provisioning.go:194-277 Server.installationPreseed *)
Definition installationPreseed : Handler := λ r requestID,
  material ← loadPublicBootContext (q_ID r);
  match material with
  | Err err => mret (writeBootMaterialError err)
  | Ok material =>
    match Debian13.RenderSeed (pc_Spec material) requestID with
    | Err err => mret (writeAPIError StatusConflict (code_or err DriverRenderFailed) "installation preseed could not be rendered")
    | Ok bundle =>
      consumed ← call (StoreInstallations.ConsumeAssignment (Installation.spec_ID (pc_Spec material)) requestID "system:pxe");
      match consumed with
      | Err err => mret (writeAPIError StatusConflict (code_or err StorageFailure) "installation boot handoff could not be committed")
      | Ok _ => mret (octets (Debian13.MediaType bundle) (Debian13.Content bundle))
      end
    end
  end.

(** ** Artifacts *)

Context `{Artifact.Crypto} (fetch : string → result (Z * result string)).

(* internal/httpapi/provisioning.go:279-384 Server.installationArtifact *)
Definition installationArtifact : Handler := λ r requestID,
  material ← loadPublicBootContext (q_ID r);
  mret match material with
  | Err err => writeBootMaterialError err
  | Ok material =>
    match Debian13.ValidateSpec (pc_Spec material) with
    | Err _ => writeAPIError StatusConflict DriverSpecUnsupported "installation is not bootable by the pinned driver"
    | Ok _ =>
      let name := TrimSpace (q_Name r) in
      if negb (name =? "linux")%string && negb (name =? "initrd.gz")%string && negb (name =? "bootnetx64.efi")%string
      then writeAPIError StatusBadRequest ArtifactFetchFailed "invalid boot artifact role"
      else match installationArtifactByName (Installation.Artifacts (pc_Spec material)) name with
      | None => writeAPIError StatusConflict DriverRenderFailed "installation boot artifact is missing"
      | Some descriptor =>
        match Artifact.Load fetch descriptor requestID (Installation.spec_ID (pc_Spec material)) with
        | Err err => writeAPIError StatusBadGateway (code_or err ArtifactFetchFailed) "verified boot artifact unavailable"
        | Ok content => octets "application/octet-stream" content
        end
      end
    end
  end.
End Provisioning.
