(* ===== verification/HttpTelemetry.v ===== *)
(** * Installer telemetry and boot trust over HTTP
    (internal/httpapi/telemetry.go, reporter_telemetry.go, boot_trust.go) *)

From S2P Require Import Prelude GoStrings Fault Encoding GoParse Op Db Http.
From S2P Require Artifact Lifecycle Telemetry Boottrust Installation StoreInstallations StoreTelemetry StoreTrust.

(* internal/httpapi/telemetry.go:17-17 maxTelemetryEventBody *)
Definition maxTelemetryEventBody : Z := Z.shiftl 32 10.
(* internal/httpapi/telemetry.go:18-18 maxTelemetryLogBody *)
Definition maxTelemetryLogBody : Z := (Telemetry.MaxLogChunkBytes + Z.shiftl 32 10)%Z.
(* internal/httpapi/boot_trust.go:11-11 maxBootTrustBody *)
Definition maxBootTrustBody : Z := Z.shiftl 16 10.

Section Telemetry.
Context `{Decoders} `{Artifact.Crypto}.

(* internal/httpapi/telemetry.go:217-232 decodeTelemetryJSON *)
Definition decodeTelemetryJSON {A} (decode : string → result A) (r : Request) (limit : Z) : result A :=
  _ ← fail_if (negb (content_type r =? "application/json")%string) (Plain "content type must be application/json");
  content ← read_body r limit;
  decode content.

(* internal/httpapi/telemetry.go:234-244 parseOptionalClientTime *)
Definition parseOptionalClientTime (value : string) : result time :=
  let value := TrimSpace value in
  if (value =? "")%string then Ok zeroTime else time_Parse value.

(* internal/httpapi/telemetry.go:180-202 Server.writeTelemetryError *)
Definition writeTelemetryError (err : error) : Response :=
  let code := Code err in
  let status :=
    if (code =? InstallationNotFound)%string then StatusNotFound
    else if (code =? InstallerTelemetryInvalid)%string then StatusBadRequest
    else if (code =? InstallerTelemetryConflict)%string then StatusConflict
    else if (code =? InstallerLogLimitExceeded)%string then StatusRequestEntityTooLarge
    else if (code =? InstallerCredentialRequired)%string || (code =? InstallerCredentialInvalid)%string
            || (code =? InstallerCredentialExpired)%string then StatusUnauthorized
    else if (code =? StorageFailure)%string then StatusServiceUnavailable
    else StatusInternalServerError in
  writeAPIError status (code_or err StorageFailure) "installer telemetry request rejected".

Definition challenged (p : Response) : Response :=
  set_header "WWW-Authenticate" ("Bearer realm=" +:+ String (byte_of 34) "aegispxe-installer" +:+ String (byte_of 34) "") p.

(** The refusal, or [None] when the credential is accepted. *)
(* internal/httpapi/telemetry.go:152-178 Server.authenticateInstallerTelemetry *)
Definition authenticateInstallerTelemetry (r : Request) (installationID : string) : handler (option Response) :=
  if (installationID =? "")%string
  then mret (Some (writeAPIError StatusNotFound InstallationNotFound "installation not found")) else
  let authorization := TrimSpace (header r "Authorization") in
  let secret := TrimSpace (TrimPrefix authorization "Bearer ") in
  if negb (HasPrefix authorization "Bearer ") || (secret =? "")%string
  then mret (Some (challenged (writeAPIError StatusUnauthorized InstallerCredentialRequired "installation-scoped credential required"))) else
  accepted ← call (StoreTelemetry.AuthenticateLifecycleCredential installationID secret);
  mret match accepted with
  | Err err => Some (challenged (writeAPIError StatusUnauthorized (code_or err InstallerCredentialInvalid)
                                   "installation-scoped credential rejected"))
  | Ok _ => None
  end.

(** ** Events and logs, whoever authenticated *)

(* internal/httpapi/telemetry.go:85-92 Server.installationTelemetryEvent *)
Definition event_accepted (installationID : string) (e : Lifecycle.Event) (duplicate : bool) : Response :=
  writeJSON (if duplicate then StatusOK else StatusAccepted)
    (JObject [("installation_id", JString installationID); ("sequence", JInt (Lifecycle.Sequence e));
              ("stage", JString (Lifecycle.Event_Stage e)); ("source", JString (Lifecycle.Event_Source e));
              ("received_at", JTime (Lifecycle.ReceivedAt e)); ("duplicate", JBool duplicate)]).

(* internal/httpapi/telemetry.go:142-149 Server.installationTelemetryLog *)
Definition log_accepted (installationID : string) (c : Telemetry.LogChunk) (duplicate : bool) : Response :=
  writeJSON (if duplicate then StatusOK else StatusAccepted)
    (JObject [("installation_id", JString installationID); ("sequence", JInt (Telemetry.l_Sequence c));
              ("source", JString (Telemetry.l_Source c)); ("received_at", JTime (Telemetry.l_ReceivedAt c));
              ("digest", JString (Telemetry.l_Digest c)); ("duplicate", JBool duplicate)]).

(** The report of a decoded event. *)
(* internal/httpapi/telemetry.go:67-76 Server.installationTelemetryEvent *)
Definition event_report (installationID idempotencyKey : string) (payload : telemetryEventRequest) (clientTime : time) : Lifecycle.Report :=
  Lifecycle.mkReport installationID (te_Stage payload) (te_Source payload) clientTime idempotencyKey
    (TrimSpace (te_Message payload)) (TrimSpace (te_ErrorCode payload)) (te_Metadata payload).

(* internal/httpapi/telemetry.go:125-133 Server.installationTelemetryLog *)
Definition log_chunk (installationID idempotencyKey requestID : string) (payload : telemetryLogRequest) (clientTime : time) : Telemetry.LogChunk :=
  Telemetry.mkLogChunk 0 installationID (tl_Sequence payload) (tl_Source payload) zeroTime clientTime requestID idempotencyKey
    (tl_Content payload) "".

Definition invalid_telemetry (message : string) : Response := writeAPIError StatusBadRequest InstallerTelemetryInvalid message.

(* internal/httpapi/telemetry.go:60-92 Server.installationTelemetryEvent *)
Definition append_event (installationID idempotencyKey requestID : string) (payload : telemetryEventRequest) : handler Response :=
  match parseOptionalClientTime (te_ClientTime payload) with
  | Err _ => mret (invalid_telemetry "client_time must be RFC3339 when supplied")
  | Ok clientTime =>
    accepted ← call (StoreTelemetry.AppendLifecycleEvent (event_report installationID idempotencyKey payload clientTime) requestID);
    mret match accepted with
    | Err err => writeTelemetryError err
    | Ok (e, duplicate) => event_accepted installationID e duplicate
    end
  end.

(* internal/httpapi/telemetry.go:113-149 Server.installationTelemetryLog *)
Definition append_log (installationID idempotencyKey requestID : string) (payload : telemetryLogRequest) : handler Response :=
  if (Telemetry.MaxLogChunkBytes <? len (tl_Content payload))%Z
  then mret (writeAPIError StatusRequestEntityTooLarge InstallerTelemetryInvalid "installer log chunk exceeds size limit") else
  match parseOptionalClientTime (tl_ClientTime payload) with
  | Err _ => mret (invalid_telemetry "client_time must be RFC3339 when supplied")
  | Ok clientTime =>
    accepted ← call (StoreTelemetry.AppendInstallationLogChunk (log_chunk installationID idempotencyKey requestID payload clientTime));
    mret match accepted with
    | Err err => writeTelemetryError err
    | Ok (c, duplicate) => log_accepted installationID c duplicate
    end
  end.

(** ** Bearer-authenticated telemetry *)

(* internal/httpapi/telemetry.go:42-93 Server.installationTelemetryEvent *)
Definition installationTelemetryEvent : Handler := λ r requestID,
  let installationID := TrimSpace (q_ID r) in
  refused ← authenticateInstallerTelemetry r installationID;
  match refused with
  | Some p => mret p
  | None =>
    let idempotencyKey := TrimSpace (header r "Idempotency-Key") in
    match Lifecycle.ValidateIdempotencyKey idempotencyKey with
    | Err _ => mret (invalid_telemetry "valid Idempotency-Key header is required")
    | Ok _ =>
      match decodeTelemetryJSON decode_event r maxTelemetryEventBody with
      | Err _ => mret (invalid_telemetry "invalid telemetry event body")
      | Ok payload => append_event installationID idempotencyKey requestID payload
      end
    end
  end.

(* internal/httpapi/telemetry.go:95-150 Server.installationTelemetryLog *)
Definition installationTelemetryLog : Handler := λ r requestID,
  let installationID := TrimSpace (q_ID r) in
  refused ← authenticateInstallerTelemetry r installationID;
  match refused with
  | Some p => mret p
  | None =>
    let idempotencyKey := TrimSpace (header r "Idempotency-Key") in
    match Lifecycle.ValidateIdempotencyKey idempotencyKey with
    | Err _ => mret (invalid_telemetry "valid Idempotency-Key header is required")
    | Ok _ =>
      match decodeTelemetryJSON decode_log r maxTelemetryLogBody with
      | Err _ => mret (invalid_telemetry "invalid telemetry log body")
      | Ok payload => append_log installationID idempotencyKey requestID payload
      end
    end
  end.

(** ** Signed reporter telemetry *)

(* internal/telemetryauth/auth.go:13-13 Scheme *)
Definition Scheme : string := "Aegis-HMAC-SHA256".

(** The body with its signature verified, or the refusal. *)
(* internal/httpapi/reporter_telemetry.go:112-145 Server.authenticateReporterBody *)
Definition authenticateReporterBody (r : Request) (installationID idempotencyKey : string) (limit : Z)
    : handler (Response + string) :=
  match read_body r limit with
  | Err _ => mret (inl (invalid_telemetry "invalid reporter request body"))
  | Ok content =>
    let authorization := TrimSpace (header r "Authorization") in
    let prefix := Scheme +:+ " " in
    if negb (HasPrefix authorization prefix)
    then mret (inl (writeAPIError StatusUnauthorized InstallerCredentialRequired "HMAC installation authentication required")) else
    match ParseInt (TrimSpace (header r "X-Aegis-Timestamp")) with
    | Some timestamp =>
      if (timestamp <=? 0)%Z
      then mret (inl (writeAPIError StatusUnauthorized InstallerCredentialInvalid "invalid telemetry authentication timestamp"))
      else
        verified ← call (StoreTelemetry.VerifyLifecycleMAC installationID (q_Method r) (q_Path r) idempotencyKey timestamp content
                           (TrimSpace (TrimPrefix authorization prefix)));
        mret match verified with
        | Err err => inl (writeAPIError StatusUnauthorized (code_or err InstallerCredentialInvalid)
                            "reporter telemetry authentication rejected")
        | Ok _ => inr content
        end
    | None => mret (inl (writeAPIError StatusUnauthorized InstallerCredentialInvalid "invalid telemetry authentication timestamp"))
    end
  end.

(* internal/httpapi/reporter_telemetry.go:23-64 Server.reporterTelemetryEvent *)
Definition reporterTelemetryEvent : Handler := λ r requestID,
  let installationID := TrimSpace (q_ID r) in
  let idempotencyKey := TrimSpace (header r "Idempotency-Key") in
  match Lifecycle.ValidateIdempotencyKey idempotencyKey with
  | Err _ => mret (invalid_telemetry "valid Idempotency-Key header is required")
  | Ok _ =>
    authenticated ← authenticateReporterBody r installationID idempotencyKey maxTelemetryEventBody;
    match authenticated with
    | inl p => mret p
    | inr content =>
      match decode_event content with
      | Err _ => mret (invalid_telemetry "invalid reporter event body")
      | Ok payload => append_event installationID idempotencyKey requestID payload
      end
    end
  end.

(* internal/httpapi/reporter_telemetry.go:66-110 Server.reporterTelemetryLog *)
Definition reporterTelemetryLog : Handler := λ r requestID,
  let installationID := TrimSpace (q_ID r) in
  let idempotencyKey := TrimSpace (header r "Idempotency-Key") in
  match Lifecycle.ValidateIdempotencyKey idempotencyKey with
  | Err _ => mret (invalid_telemetry "valid Idempotency-Key header is required")
  | Ok _ =>
    authenticated ← authenticateReporterBody r installationID idempotencyKey maxTelemetryLogBody;
    match authenticated with
    | inl p => mret p
    | inr content =>
      match decode_log content with
      | Err _ => mret (invalid_telemetry "invalid reporter log body")
      | Ok payload => append_log installationID idempotencyKey requestID payload
      end
    end
  end.

(** ** Boot trust *)

(* internal/httpapi/boot_trust.go:142-164 Server.writeBootTrustError *)
Definition writeBootTrustError (err : error) : Response :=
  let code := Code err in
  let status :=
    if (code =? InstallationNotFound)%string || (code =? InstallationAssignmentNotFound)%string then StatusNotFound
    else if (code =? BootTrustKeyInvalid)%string || (code =? BootTrustProofInvalid)%string then StatusBadRequest
    else if (code =? BootTrustEnrollmentRequired)%string then StatusPreconditionRequired
    else if (code =? BootTrustChallengeExpired)%string then StatusGone
    else if (code =? BootTrustReplayRejected)%string || (code =? InstallerTelemetryConflict)%string then StatusConflict
    else if (code =? StorageFailure)%string then StatusServiceUnavailable
    else StatusInternalServerError in
  writeAPIError status (code_or err StorageFailure) "boot trust request rejected".

(* internal/httpapi/boot_trust.go:34-58 Server.bootTrustEnroll *)
Definition bootTrustEnroll : Handler := λ r requestID,
  let installationID := TrimSpace (q_ID r) in
  match decodeTelemetryJSON decode_enroll r maxBootTrustBody with
  | Err _ => mret (writeAPIError StatusBadRequest BootTrustKeyInvalid "invalid boot trust enrollment")
  | Ok payload =>
    registered ← call (StoreTrust.RegisterBootTrustKey installationID (en_PublicKeyPEM payload) (en_EKFingerprint payload) requestID);
    mret match registered with
    | Err err => writeBootTrustError err
    | Ok (item, created) =>
      writeJSON (if (created : bool) then StatusAccepted else StatusOK)
        (JObject [("installation_id", JString installationID); ("machine_id", JString (Boottrust.k_MachineID item));
                  ("fingerprint", JString (Boottrust.k_Fingerprint item)); ("state", JString (Boottrust.k_State item));
                  ("created", JBool created)])
    end
  end.

(* internal/httpapi/boot_trust.go:60-84 Server.bootTrustStatus *)
Definition bootTrustStatus : Handler := λ r _,
  let installationID := TrimSpace (q_ID r) in
  let fingerprint := TrimSpace (Get (q_Query r) "fingerprint") in
  spec ← call (StoreInstallations.InstallationSpec installationID);
  match spec with
  | Err err => mret (writeBootTrustError err)
  | Ok spec =>
    item ← call (StoreTrust.BootTrustKey (Installation.MachineID spec) fingerprint);
    let known := [("installation_id", JString installationID); ("machine_id", JString (Installation.MachineID spec))] in
    mret match item with
    | Err err =>
      if (Code err =? BootTrustEnrollmentRequired)%string
      then writeJSON StatusOK (JObject (known ++ [("fingerprint", JString fingerprint); ("state", JString "not_enrolled")]))
      else writeBootTrustError err
    | Ok item =>
      writeJSON StatusOK (JObject (known ++ [("fingerprint", JString (Boottrust.k_Fingerprint item));
                                             ("state", JString (Boottrust.k_State item));
                                             ("approved_at", JTime (Boottrust.k_ApprovedAt item))]))
    end
  end.

(* internal/httpapi/boot_trust.go:86-108 Server.bootTrustChallenge *)
Definition bootTrustChallenge : Handler := λ r requestID,
  let installationID := TrimSpace (q_ID r) in
  match decodeTelemetryJSON decode_challenge r maxBootTrustBody with
  | Err _ => mret (writeAPIError StatusBadRequest BootTrustKeyInvalid "invalid boot trust challenge request")
  | Ok payload =>
    challenge ← call (StoreTrust.CreateBootTrustChallenge installationID (TrimSpace (cq_Fingerprint payload)) requestID);
    mret match challenge with
    | Err err => writeBootTrustError err
    | Ok c =>
      writeJSON StatusCreated
        (JObject [("challenge_id", JString (Boottrust.ch_ID c)); ("installation_id", JString (Boottrust.ch_InstallationID c));
                  ("machine_id", JString (Boottrust.ch_MachineID c)); ("fingerprint", JString (Boottrust.ch_KeyFingerprint c));
                  ("nonce", JString (RawURLEncoding_EncodeToString (Boottrust.ch_Nonce c)));
                  ("expires_at", JTime (Boottrust.ch_ExpiresAt c)); ("proof_format", JString "AEGISPXE-BOOT-TRUST-V1")])
    end
  end.

(* internal/httpapi/boot_trust.go:110-140 Server.bootTrustProve *)
Definition bootTrustProve : Handler := λ r requestID,
  let installationID := TrimSpace (q_ID r) in
  match decodeTelemetryJSON decode_prove r maxBootTrustBody with
  | Err _ => mret (writeAPIError StatusBadRequest BootTrustProofInvalid "invalid boot trust proof")
  | Ok payload =>
    match RawURLEncoding_DecodeString (TrimSpace (pv_Signature payload)) with
    | None => mret (writeAPIError StatusBadRequest BootTrustProofInvalid "invalid boot trust signature")
    | Some signature =>
      release ← call (StoreTrust.CompleteBootTrustChallenge installationID (TrimSpace (pv_ChallengeID payload)) signature requestID);
      mret match release with
      | Err err => writeBootTrustError err
      | Ok x =>
        writeJSON (if Boottrust.rl_Duplicate x then StatusOK else StatusCreated)
          (JObject [("challenge_id", JString (Boottrust.rl_ChallengeID x)); ("algorithm", JString (Boottrust.rl_Algorithm x));
                    ("ciphertext", JString (RawURLEncoding_EncodeToString (Boottrust.rl_Ciphertext x)));
                    ("credential_expires", JTime (Boottrust.rl_CredentialExpiry x)); ("duplicate", JBool (Boottrust.rl_Duplicate x))])
      end
    end
  end.
End Telemetry.
