(* ===== verification/Netip.v ===== *)
(** * Addresses and prefixes of Go's standard library: net/netip, net.ParseIP

    An address is its family, its value as an integer and its zone.  Sixteen-bit
    groups are the unit in which the text of an IPv6 address is read. *)

From S2P Require Import Prelude GoStrings Encoding GoParse.

(** [netip.Addr], valid. *)
Record Addr := mkAddr { Is4 : bool; value : Z; Zone : string }.

#[global] Instance Addr_eq_dec : EqDecision Addr.
Proof. solve_decision. Defined.

Definition BitLen (a : Addr) : Z := if Is4 a then 32 else 128.

(** ** Parsing *)

(** An octet: decimal digits without a leading zero, at most 255. *)
Definition octet (s : string) : option Z :=
  match s with
  | String c t =>
    if byte_is 48 c && negb (t =? "")%string then None else
    n ← digits_value s; if (255 <? n)%Z then None else Some n
  | "" => None
  end.

Definition parseIPv4Fields (s : string) : option Z :=
  match split_byte "." s with
  | [a; b; c; d] =>
    a ← octet a; b ← octet b; c ← octet c; d ← octet d;
    Some (((a * 256 + b) * 256 + c) * 256 + d)%Z
  | _ => None
  end.

(** The hexadecimal digits [s] starts with: their number, value and the rest. *)
Fixpoint hex_run (n : nat) (acc : Z) (s : string) : nat * Z * string :=
  match s with
  | String c t =>
    match hex_value c with
    | Some x => hex_run (S n) (16 * acc + Z.of_nat x) t
    | None => (n, acc, s)
    end
  | "" => (n, acc, "")
  end.

(** The loop over the groups of [s]: [i] groups read before, [ellipsis] the
    place of "::".  There are at most eight groups; [fuel] counts those left. *)
Fixpoint groups (fuel : nat) (i : nat) (ellipsis : option nat) (s : string) : option (list Z * option nat) :=
  match fuel with
  | O => if (s =? "")%string then Some ([], ellipsis) else None
  | S fuel =>
    let '(off, acc, rest) := hex_run 0 0 s in
    if (off =? 0)%nat || (4 <? off)%nat then None else
    match rest with
    | String "." _ =>
      if (match ellipsis with None => negb (i =? 6)%nat | Some _ => false end) || (8 <? i + 2)%nat then None else
      v ← parseIPv4Fields s; Some ([v / 65536; v mod 65536]%Z, ellipsis)
    | "" => Some ([acc], ellipsis)
    | String ":" "" => None
    | String ":" (String ":" rest) =>
      match ellipsis with
      | Some _ => None
      | None =>
        if (rest =? "")%string then Some ([acc], Some (S i)) else
        '(l, e) ← groups fuel (S i) (Some (S i)) rest; Some (acc :: l, e)
      end
    | String ":" rest => '(l, e) ← groups fuel (S i) ellipsis rest; Some (acc :: l, e)
    | _ => None
    end
  end.

Definition join_groups (l : list Z) : Z := foldl (λ acc g, (acc * 65536 + g)%Z) 0%Z l.

(** Zeros in the place of the ellipsis, which stands for at least one group. *)
Definition expand (l : list Z) (ellipsis : option nat) : option (list Z) :=
  if (length l <? 8)%nat
  then e ← ellipsis; Some (take e l ++ replicate (8 - length l) 0%Z ++ drop e l)
  else match ellipsis with Some _ => None | None => Some l end.

Definition parseIPv6 (s : string) : option Addr :=
  let '(s, zone) := match cut_byte "%" s with Some (s, z) => (s, Some z) | None => (s, None) end in
  if (match zone with Some z => (z =? "")%string | None => false end) then None else
  let zone := default "" zone in
  l ← match s with
      | String ":" (String ":" "") => Some (replicate 8 0%Z)
      | String ":" (String ":" rest) => '(l, e) ← groups 8 0 (Some 0) rest; expand l e
      | _ => '(l, e) ← groups 8 0 None s; expand l e
      end;
  Some (mkAddr false (join_groups l) zone).

(** The first of the bytes '.', ':' and '%' decides. *)
Fixpoint addr_kind (s : string) : option ascii :=
  match s with
  | "" => None
  | String c t => if byte_in c ".:%" then Some c else addr_kind t
  end.

Definition ParseAddr (s : string) : option Addr :=
  match addr_kind s with
  | Some "."%char => v ← parseIPv4Fields s; Some (mkAddr true v "")
  | Some ":"%char => parseIPv6 s
  | _ => None
  end.

(** [netip.Prefix], valid. *)
Record Prefix := mkPrefix { p_addr : Addr; Bits : Z }.

Definition withoutZone (a : Addr) : Addr := mkAddr (Is4 a) (value a) "".

(** [Masked] clears the bits after the prefix. *)
Definition Masked (p : Prefix) : Prefix :=
  let host := (BitLen (p_addr p) - Bits p)%Z in
  mkPrefix (mkAddr (Is4 (p_addr p)) (Z.shiftl (Z.shiftr (value (p_addr p)) host) host) "") (Bits p).

Definition ParsePrefix (s : string) : option Prefix :=
  '(a, bits) ← cut_last "/" s;
  ip ← ParseAddr a;
  if negb (Zone ip =? "")%string then None else
  if (1 <? len bits)%Z && negb (match bits with String c _ => in_range 49 57 c | "" => false end) then None else
  n ← ParseInt bits;
  if (n <? 0)%Z || (BitLen ip <? n)%Z then None else Some (mkPrefix ip n).

Definition PrefixFrom (a : Addr) (bits : Z) : Prefix := mkPrefix (withoutZone a) bits.

(** [Prefix.Contains]. *)
Definition Prefix_Contains (p : Prefix) (ip : Addr) : bool :=
  (Zone ip =? "")%string && Bool.eqb (Is4 (p_addr p)) (Is4 ip)
  && (Z.shiftr (Z.lxor (value ip) (value (p_addr p))) (BitLen ip - Bits p) =? 0)%Z.

(** [Addr.IsLoopback]: 127.0.0.0/8, also mapped into IPv6, and ::1. *)
Definition IsLoopback (a : Addr) : bool :=
  if Is4 a then (Z.shiftr (value a) 24 =? 127)%Z
  else if (Z.shiftr (value a) 32 =? 65535)%Z then (Z.shiftr (Z.land (value a) (Z.ones 32)) 24 =? 127)%Z
  else (value a =? 1)%Z.

(** [net.ParseIP]: an address without a zone. *)
Definition ParseIP (s : string) : option Addr :=
  a ← ParseAddr s; if (Zone a =? "")%string then Some a else None.

Example ParseAddr_examples :
  ParseAddr <$> ["127.0.0.1"; "01.2.3.4"; "256.1.1.1"; "1.2.3"; "::1"; "fe80::1%eth0"; "1::2::3"; "::ffff:10.0.0.1"; "1:2:3:4:5:6:7:8"; "1:2:3:4:5:6:7::8"; ":1"; "::"; "1:2:3:4:5:6:7:8:9"; "1::%"; "12345::"]
  = [Some (mkAddr true 2130706433 ""); None; None; None; Some (mkAddr false 1 ""); Some (mkAddr false (65152 * 2 ^ 112 + 1) "eth0"); None;
     Some (mkAddr false (65535 * 2 ^ 32 + 167772161) ""); Some (mkAddr false 5192455318486707404433266433261576 "");
     None; None; Some (mkAddr false 0 ""); None; None; None].
Proof. by vm_compute. Qed.

Example Prefix_examples :
  (λ '(p, a), p ← ParsePrefix p; a ← ParseAddr a; Some (Prefix_Contains (Masked p) a, IsLoopback a)) <$>
    [("10.1.2.3/8", "10.200.0.1"); ("10.1.2.3/8", "11.0.0.1"); ("fd00::/8", "fd12::1"); ("10.0.0.0/8", "::ffff:10.0.0.1"); ("10.0.0.0/08", "10.0.0.1"); ("0.0.0.0/0", "127.9.9.9"); ("::/0", "::ffff:127.0.0.1"); ("fe80::/10", "fe80::1%x")]
  = [Some (true, false); Some (false, false); Some (true, false); Some (false, false); None; Some (true, true); Some (true, true); Some (false, false)].
Proof. by vm_compute. Qed.

(** ** Facts *)

Lemma Masked_Contains_self a bits :
  Zone a = "" → Prefix_Contains (PrefixFrom a (BitLen a)) a = true ∧
  ((0 <= bits <= BitLen a)%Z → Prefix_Contains (Masked (mkPrefix a bits)) a = true).
Proof.
  intros Hz. unfold Prefix_Contains, PrefixFrom, Masked, withoutZone. cbn [p_addr Bits Is4 value Zone]. rewrite Hz, eqb_reflx.
  split; [by rewrite Z.lxor_nilpotent, Z.sub_diag|]. intros Hb. apply Z.eqb_eq.
  rewrite Z.shiftr_lxor, Z.shiftr_shiftl_l, Z.sub_diag by lia. apply Z.lxor_nilpotent.
Qed.

(** A masked prefix contains exactly the addresses that agree on its bits. *)
Lemma Masked_Contains a b bits :
  Zone b = "" → Is4 a = Is4 b → (0 <= bits <= BitLen a)%Z →
  Prefix_Contains (Masked (mkPrefix a bits)) b = true ↔
  Z.shiftr (value b) (BitLen a - bits) = Z.shiftr (value a) (BitLen a - bits).
Proof.
  intros Hz Hf Hb. unfold Prefix_Contains, Masked. cbn [p_addr Bits Is4 value]. rewrite Hz, Hf, eqb_reflx.
  assert (BitLen b = BitLen a) as -> by (unfold BitLen; by rewrite Hf). cbn [String.eqb andb].
  rewrite Z.eqb_eq, Z.shiftr_lxor, Z.shiftr_shiftl_l, Z.sub_diag by lia. cbn [Z.shiftl]. rewrite Z.lxor_eq_0_iff. done.
Qed.
