(* ===== verification/TrustedProxy.v ===== *)
(** * The trusted proxy in front of the operator interface
    (internal/operatorui/trusted_proxy.go, dashboard_common.go)

    A configured reverse proxy vouches for the identity of the browser's user
    and for the transport; requests from elsewhere reach the interface only
    from the loopback. *)

From S2P Require Import Prelude GoStrings Encoding GoParse Netip Fault Http.
From S2P Require Identity.

(* internal/operatorui/trusted_proxy.go:17-17 trustedProxyProvider *)
Definition trustedProxyProvider : string := "trusted-proxy".

(* internal/operatorui/trusted_proxy.go:19-22 externalIdentity *)
Record externalIdentity := mkExternal { e_Provider : string; e_Subject : string }.

(** A request as the interface sees it: [TLS] is [r.TLS != nil], [external] the
    identity in the request's context, [session_cookie] the session cookie,
    [PostForm] the outcome of [r.ParseForm] with the body limited to
    [maxFormBody], [q_fingerprint] the path value of that name. *)
Record UIRequest := mkUI {
  http : Request;
  TLS : bool;
  external : option externalIdentity;
  session_cookie : option string;
  PostForm : result (list (string * string));
  q_fingerprint : string }.

(** ** Header names and fields *)

(* internal/operatorui/trusted_proxy.go:218-233 validHeaderName *)
Definition validHeaderName (v : string) : bool :=
  negb ((v =? "")%string || (128 <? len v)%Z)
  && all_bytes (λ c, is_lower c || is_upper c || is_digit c || byte_in c "!#$%&'*+-.^_`|~") v.

(** [strings.FieldsFunc] for separators that are ASCII bytes. *)
Fixpoint fields_func (sep : ascii → bool) (cur s : string) : list string :=
  match s with
  | "" => emit_field cur []
  | String c t => if sep c then emit_field cur (fields_func sep "" t) else fields_func sep (cur +:+ String c "") t
  end.

Definition FieldsFunc (sep : ascii → bool) (s : string) : list string := fields_func sep "" s.

(** [strings.EqualFold]: simple Unicode folding identifies an ASCII letter with
    its other case, and besides U+017F with [s], U+212A with [k]. *)
Fixpoint fold_go (skip : nat) (s : string) : string :=
  match s with
  | "" => ""
  | String a t =>
    match skip with
    | S k => fold_go k t
    | O =>
      if byte_is 197 a && byte_at 0 (byte_is 191) t then String "s" (fold_go 1 t)
      else if byte_is 226 a && byte_at 0 (byte_is 132) t && byte_at 1 (byte_is 170) t then String "k" (fold_go 2 t)
      else String (lower_byte a) (fold_go 0 t)
    end
  end.

(** For a text [t] of lower-case ASCII letters. *)
Definition EqualFold (s t : string) : bool := (fold_go 0 s =? t)%string.

Definition list_separator (c : ascii) : bool := byte_in c ",; " || byte_is 9 c || byte_is 10 c.

(** ** The proxy *)

(* internal/operatorui/trusted_proxy.go:26-30 TrustedProxy *)
Record TrustedProxy := mkProxy { prefixes : list Prefix; identityHeader : string; protoHeader : string }.

(** One entry of the list: a prefix, else an address. *)
(* internal/operatorui/trusted_proxy.go:48-65 ParseTrustedProxy *)
Definition parse_entry (v : string) : result Prefix :=
  match ParsePrefix v with
  | Some prefix => Ok (Masked prefix)
  | None =>
    match ParseAddr v with
    | Some addr => Ok (PrefixFrom addr (if Is4 addr then 32 else 128))
    | None => Err (Plain "trusted proxy CIDR contains an invalid address")
    end
  end.

Fixpoint parse_entries (parts : list string) : result (list Prefix) :=
  match parts with
  | [] => Ok []
  | v :: parts =>
    let v := TrimSpace v in
    if (v =? "")%string then parse_entries parts else
    p ← parse_entry v; l ← parse_entries parts; Ok (p :: l)
  end.

(* internal/operatorui/trusted_proxy.go:32-70 ParseTrustedProxy *)
Definition ParseTrustedProxy (cidrs identityHeader protoHeader : string) : result TrustedProxy :=
  let cidrs := TrimSpace cidrs in
  if (cidrs =? "")%string then Ok (mkProxy [] "" "") else
  let identityHeader := TrimSpace identityHeader in
  let protoHeader := TrimSpace protoHeader in
  _ ← fail_if (negb (validHeaderName identityHeader) || negb (validHeaderName protoHeader))
        (Plain "trusted proxy header names are invalid");
  l ← parse_entries (FieldsFunc list_separator cidrs);
  _ ← fail_if (bool_decide (l = [])) (Plain "trusted proxy CIDRs are empty");
  Ok (mkProxy l identityHeader protoHeader).

(* internal/operatorui/trusted_proxy.go:72-74 TrustedProxy.Enabled *)
Definition Enabled (p : TrustedProxy) : bool := negb (bool_decide (prefixes p = [])).

(* internal/operatorui/trusted_proxy.go:200-207 TrustedProxy.contains *)
Definition contains (p : TrustedProxy) (addr : Addr) : bool := existsb (λ x, Prefix_Contains x addr) (prefixes p).

(* internal/operatorui/trusted_proxy.go:209-216 remoteAddr *)
Definition remoteAddr (v : string) : option Addr :=
  ParseAddr (match SplitHostPort (TrimSpace v) with Some (host, _) => host | None => TrimSpace v end).

(* internal/operatorui/trusted_proxy.go:76-85 TrustedProxy.SecureSource *)
Definition SecureSource (p : TrustedProxy) (r : UIRequest) : bool :=
  Enabled p
  && match remoteAddr (q_RemoteAddr (http r)) with Some addr => contains p addr | None => false end
  && EqualFold (TrimSpace (header (http r) (protoHeader p))) "https".

(* internal/operatorui/trusted_proxy.go:87-101 TrustedProxy.Identity *)
Definition Identity_ (p : TrustedProxy) (r : UIRequest) : option string :=
  if negb (SecureSource p r) then None else
  let identity := TrimSpace (header (http r) (identityHeader p)) in
  if (identity =? "")%string || (120 <? len identity)%Z || has_ascii_control identity then None else Some identity.

(* internal/operatorui/trusted_proxy.go:147-153 externalIdentityFromRequest *)
Definition externalIdentityFromRequest (r : UIRequest) : option externalIdentity :=
  identity ← external r; if blank (e_Subject identity) then None else Some identity.

(** ** Helpers of dashboard_common.go *)

(* internal/operatorui/dashboard_common.go:102-115 secureTransport *)
Definition secureTransport (r : UIRequest) : bool :=
  TLS r ||
  match ParseIP (match SplitHostPort (TrimSpace (q_RemoteAddr (http r))) with
                 | Some (host, _) => host | None => TrimSpace (q_RemoteAddr (http r)) end) with
  | Some ip => IsLoopback ip
  | None => false
  end.

(* internal/operatorui/dashboard_common.go:117-129 remoteHost *)
Definition ui_remoteHost (r : UIRequest) : string := remoteHost (q_RemoteAddr (http r)).

(* internal/operatorui/dashboard_common.go:131-136 requestID *)
Definition requestID (r : UIRequest) : string := TrimSpace (header (http r) "X-Request-ID").

(** ** The gate

    What [RequireTrustedProxyOrLoopback] does with a request. *)
(* internal/operatorui/trusted_proxy.go:155-198 RequireTrustedProxyOrLoopback *)
Definition gate_allows (p : TrustedProxy) (r : UIRequest) : bool :=
  negb (Enabled p)
  || ((q_Path (http r) =? "/healthz")%string && ((q_Method (http r) =? "GET")%string || (q_Method (http r) =? "HEAD")%string))
  || match remoteAddr (q_RemoteAddr (http r)) with Some addr => IsLoopback addr | None => false end
  || SecureSource p r.
