(* ===== verification/Passkeys.v ===== *)
(** * Passkey ceremonies and recovery tickets (internal/operatorpasskey)

    The WebAuthn protocol is the third-party package go-webauthn, here the
    operations of the class [WebAuthn]; what the program adds is that a ceremony
    belongs to one user and one purpose, ends after five minutes and can be
    finished once. *)

From S2P Require Import Prelude GoStrings Encoding Fault Op Http Sessions.
From S2P Require Artifact Identity StoreUsers.

(** A user with the credentials that WebAuthn sees. *)
Abbreviation webauthn_user := (Identity.User * list string)%type (only parsing).

(** What the code calls of the WebAuthn package.  [SessionData] is the state of
    a ceremony kept by the server, the options sent to the browser are JSON. *)
Class WebAuthn := {
  wa_Instance : Type;
  SessionData : Type;
  wa_New : string → list string → result wa_Instance;
  wa_BeginRegistration : wa_Instance → ambient → webauthn_user → result (json * SessionData);
  wa_FinishRegistration : wa_Instance → ambient → webauthn_user → SessionData → Request → result StoreUsers.WebAuthnCredential;
  wa_BeginLogin : wa_Instance → ambient → webauthn_user → result (json * SessionData);
  wa_FinishLogin : wa_Instance → ambient → webauthn_user → SessionData → Request → result StoreUsers.WebAuthnCredential }.

(* internal/operatorpasskey/service.go:20-20 flowTokenBytes *)
Definition flowTokenBytes : nat := 32.
(* internal/operatorpasskey/service.go:21-21 flowLifetime *)
Definition flowLifetime : Z := (5 * Minute)%Z.
(* internal/operatorpasskey/service.go:22-22 maxActiveFlows *)
Definition maxActiveFlows : nat := 256.

Abbreviation Mode := string (only parsing).
(* internal/operatorpasskey/service.go:28-28 ModeLogin *)
Definition ModeLogin : Mode := "login".
(* internal/operatorpasskey/service.go:29-29 ModeEnrollment *)
Definition ModeEnrollment : Mode := "enrollment".
(* internal/operatorpasskey/service.go:30-30 ModeRecovery *)
Definition ModeRecovery : Mode := "recovery".

Section Service.
Context `{Artifact.Crypto} `{WebAuthn}.

(* internal/operatorpasskey/service.go:33-38 flow *)
Record flow := mkFlow {
  f_UserID : string;
  f_Mode : Mode;
  f_Session : SessionData;
  f_ExpiresAt : time }.

#[global] Instance flow_expires : Expires flow := f_ExpiresAt.

(** The configuration of the service; its flows, under the mutex, are the
    [gmap] its operations take. *)
(* internal/operatorpasskey/service.go:40-47 Service *)
Record Service := mkService { RPID : string; wa : wa_Instance }.

(** [Ok None] is the nil service of a server without WebAuthn. *)
(* internal/operatorpasskey/service.go:49-82 New *)
Definition New (rpID : string) (origins : list string) : result (option Service) :=
  let rpID := TrimSpace rpID in
  let cleanOrigins := filter (λ o, o ≠ "") (TrimSpace <$> origins) in
  if (rpID =? "")%string && bool_decide (cleanOrigins = []) then Ok None else
  _ ← fail_if ((rpID =? "")%string || bool_decide (cleanOrigins = []))
        (Plain "WebAuthn requires both RP ID and at least one origin");
  wa ← wa_New rpID cleanOrigins;
  Ok (Some (mkService rpID wa)).

(* internal/operatorpasskey/service.go:176-182 Service.cleanupLocked *)
Definition cleanup_flows (now : time) (flows : gmap string flow) : gmap string flow := sweep now flows.

(* internal/operatorpasskey/service.go:143-157 Service.saveFlow *)
Definition saveFlow (userID : string) (mode : Mode) (session : SessionData) (a : ambient) (flows : gmap string flow)
    : result string * gmap string flow :=
  match Sessions.randomToken a 0 flowTokenBytes with
  | Err e => (Err e, flows)
  | Ok token =>
    let now := clock a in
    let flows := cleanup_flows now flows in
    if (maxActiveFlows <=? size flows)%nat then (Err (Plain "too many active passkey ceremonies"), flows)
    else (Ok token, <[Artifact.sha256 token := mkFlow userID mode session (now + flowLifetime)%Z]> flows)
  end.

(** The entry is taken out whether or not it fits. *)
(* internal/operatorpasskey/service.go:159-174 Service.takeFlow *)
Definition takeFlow (token userID : string) (mode : Mode) (now : time) (flows : gmap string flow)
    : result flow * gmap string flow :=
  if blank token then (Err (Plain "passkey ceremony is missing"), flows) else
  let digest := Artifact.sha256 token in
  let flows := cleanup_flows now flows in
  (match flows !! digest with
   | Some entry =>
     if After (f_ExpiresAt entry) now && (f_UserID entry =? userID)%string && (f_Mode entry =? mode)%string
     then Ok entry else Err (Plain "passkey ceremony is invalid or expired")
   | None => Err (Plain "passkey ceremony is invalid or expired")
   end, delete digest flows).

(* internal/operatorpasskey/service.go:91-107 Service.BeginRegistration *)
Definition BeginRegistration (s : Service) (user : webauthn_user) (a : ambient) (flows : gmap string flow)
    : result (json * string) * gmap string flow :=
  match wa_BeginRegistration (wa s) a user with
  | Err e => (Err e, flows)
  | Ok (creation, session) =>
    let '(r, flows) := saveFlow (Identity.ID user.1) ModeEnrollment session a flows in
    (token ← r; Ok (creation, token), flows)
  end.

(* internal/operatorpasskey/service.go:109-115 Service.FinishRegistration *)
Definition FinishRegistration (s : Service) (user : webauthn_user) (token : string) (r : Request) (a : ambient)
    (flows : gmap string flow) : result StoreUsers.WebAuthnCredential * gmap string flow :=
  let '(entry, flows) := takeFlow token (Identity.ID user.1) ModeEnrollment (clock a) flows in
  (entry ← entry; wa_FinishRegistration (wa s) a user (f_Session entry) r, flows).

(* internal/operatorpasskey/service.go:117-131 Service.BeginLogin *)
Definition BeginLogin (s : Service) (user : webauthn_user) (mode : Mode) (a : ambient) (flows : gmap string flow)
    : result (json * string) * gmap string flow :=
  if negb ((mode =? ModeLogin)%string || (mode =? ModeRecovery)%string)
  then (Err (Plain "invalid passkey login mode"), flows) else
  match wa_BeginLogin (wa s) a user with
  | Err e => (Err e, flows)
  | Ok (assertion, session) =>
    let '(r, flows) := saveFlow (Identity.ID user.1) mode session a flows in
    (token ← r; Ok (assertion, token), flows)
  end.

(* internal/operatorpasskey/service.go:135-141 Service.FinishLogin *)
Definition FinishLogin (s : Service) (user : webauthn_user) (token : string) (mode : Mode) (r : Request) (a : ambient)
    (flows : gmap string flow) : result StoreUsers.WebAuthnCredential * gmap string flow :=
  let '(entry, flows) := takeFlow token (Identity.ID user.1) mode (clock a) flows in
  (entry ← entry; wa_FinishLogin (wa s) a user (f_Session entry) r, flows).
End Service.
Arguments flow {_}.
Arguments Service {_}.

(** ** Recovery tickets *)

(* internal/operatorpasskey/recovery.go:12-12 recoveryTicketLifetime *)
Definition recoveryTicketLifetime : Z := (5 * Minute)%Z.
(* internal/operatorpasskey/recovery.go:13-13 maxRecoveryTickets *)
Definition maxRecoveryTickets : nat := 128.

(* internal/operatorpasskey/recovery.go:16-19 recoveryTicket *)
Record recoveryTicket := mkTicket { k_UserID : string; k_ExpiresAt : time }.

#[global] Instance ticket_expires : Expires recoveryTicket := k_ExpiresAt.

Section Tickets.
Context `{Artifact.Crypto}.

(* internal/operatorpasskey/recovery.go:57-63 cleanupRecoveryTicketsLocked *)
Definition cleanup_tickets (now : time) (items : gmap string recoveryTicket) : gmap string recoveryTicket := sweep now items.

(* internal/operatorpasskey/recovery.go:26-44 IssueRecoveryTicket *)
Definition IssueRecoveryTicket (userID : string) (a : ambient) (items : gmap string recoveryTicket)
    : result string * gmap string recoveryTicket :=
  let userID := TrimSpace userID in
  if (userID =? "")%string then (Err (Plain "recovery user is missing"), items) else
  match Sessions.randomToken a 0 flowTokenBytes with
  | Err e => (Err e, items)
  | Ok token =>
    let now := clock a in
    let items := cleanup_tickets now items in
    if (maxRecoveryTickets <=? size items)%nat then (Err (Plain "too many active recovery tickets"), items)
    else (Ok token, <[Artifact.sha256 token := mkTicket userID (now + recoveryTicketLifetime)%Z]> items)
  end.

(* internal/operatorpasskey/recovery.go:46-55 ConsumeRecoveryTicket *)
Definition ConsumeRecoveryTicket (token userID : string) (now : time) (items : gmap string recoveryTicket)
    : bool * gmap string recoveryTicket :=
  let digest := Artifact.sha256 (TrimSpace token) in
  let items := cleanup_tickets now items in
  (match items !! digest with
   | Some ticket => (k_UserID ticket =? TrimSpace userID)%string && After (k_ExpiresAt ticket) now
   | None => false
   end, delete digest items).
End Tickets.
