(* ===== verification/LogBuffer.v ===== *)
(** * The log of the running server (internal/observability)

    The newest lines are kept in a buffer of fixed capacity that the operator
    interface reads; the values of attributes with a sensitive name are
    replaced before a record is written.  [buffer_of] is the specification of
    the buffer: what it must hold after a stream of bytes, however the stream
    was cut into writes. *)

From S2P Require Import Prelude GoStrings Encoding.
From S2P Require Import StringFacts.

(* internal/observability/logbuffer.go:8-11 LogEntry *)
Record LogEntry := mkEntry { Sequence : Z; Line : string }.

(* internal/observability/logbuffer.go:13-19 LogBuffer *)
Record LogBuffer := mkBuffer {
  capacity : nat;
  entries : list LogEntry;
  next : Z;              (* uint64 *)
  pending : string }.

(* internal/observability/logbuffer.go:21-26 NewLogBuffer *)
Definition NewLogBuffer (capacity : nat) : LogBuffer := mkBuffer (Nat.max 1 capacity) [] 1 "".

Definition wrap64u (z : Z) : Z := (z mod 2 ^ 64)%Z.

(** A full buffer drops its oldest line. *)
(* internal/observability/logbuffer.go:108-117 LogBuffer.appendLocked *)
Definition appendLocked (line : string) (b : LogBuffer) : LogBuffer :=
  let entry := mkEntry (next b) line in
  mkBuffer (capacity b)
    (if (length (entries b) <? capacity b)%nat then entries b ++ [entry] else tail (entries b) ++ [entry])
    (wrap64u (next b + 1)) (pending b).

Definition set_pending (p : string) (b : LogBuffer) : LogBuffer := mkBuffer (capacity b) (entries b) (next b) p.

(** The loop of [Write]: every turn takes a line out of the pending bytes. *)
(* internal/observability/logbuffer.go:32-43 LogBuffer.Write *)
Fixpoint write_loop (fuel : nat) (b : LogBuffer) : LogBuffer :=
  match fuel with
  | O => b
  | S fuel =>
    match cut_byte (byte_of 10) (pending b) with
    | None => b
    | Some (line, rest) =>
      let line := TrimSpace line in
      let b := set_pending rest b in
      write_loop fuel (if (line =? "")%string then b else appendLocked line b)
    end
  end.

(* internal/observability/logbuffer.go:28-45 LogBuffer.Write *)
Definition Write (p : string) (b : LogBuffer) : LogBuffer :=
  let b := set_pending (pending b +:+ p) b in write_loop (String.length (pending b)) b.

(** A limit that is not positive or too large is the capacity. *)
Definition clamp_limit (limit : Z) (b : LogBuffer) : nat :=
  if (limit <=? 0)%Z || (Z.of_nat (capacity b) <? limit)%Z then capacity b else Z.to_nat limit.

(* internal/observability/logbuffer.go:47-67 LogBuffer.Snapshot *)
Definition Snapshot (after : Z) (limit : Z) (b : LogBuffer) : list LogEntry :=
  take (clamp_limit limit b) (filter (λ e, (after < Sequence e)%Z) (entries b)).

(** The entries without those at the end that are after [sequence]. *)
Fixpoint through (sequence : Z) (l : list LogEntry) : list LogEntry :=
  match l with
  | [] => []
  | e :: l => match through sequence l with
              | [] => if (sequence <? Sequence e)%Z then [] else [e]
              | l => e :: l
              end
  end.

(* internal/observability/logbuffer.go:73-93 LogBuffer.TailThrough *)
Definition TailThrough (sequence : Z) (limit : Z) (b : LogBuffer) : list LogEntry :=
  let l := through sequence (entries b) in drop (length l - clamp_limit limit b) l.

(* internal/observability/logbuffer.go:69-71 LogBuffer.Tail *)
Definition Tail (limit : Z) (b : LogBuffer) : list LogEntry := TailThrough (2 ^ 64 - 1) limit b.

(* internal/observability/logbuffer.go:96-106 LogBuffer.LatestSequence *)
Definition LatestSequence (b : LogBuffer) : Z :=
  match last (entries b) with Some e => Sequence e | None => 0 end.

(** ** Redaction of attributes

    A resolved [slog.Value]: a group of attributes or anything else, given by
    its text. *)
Inductive value := Leaf (text : string) | Group (attrs : list (string * value)).

Abbreviation attr := (string * value)%type (only parsing).

(* internal/observability/logger.go:10-10 redacted *)
Definition redacted : string := "[REDACTED]".

Fixpoint underscores (s : string) : string :=
  match s with
  | "" => ""
  | String c t => String (if byte_in c "-." then "_"%char else c) (underscores t)
  end.

Fixpoint HasSuffix (s suffix : string) : bool :=
  (s =? suffix)%string || match s with "" => false | String _ t => HasSuffix t suffix end.

(* internal/observability/logger.go:62-73 sensitiveKey *)
Definition sensitiveKey (key : string) : bool :=
  let key := ToLower (underscores key) in
  existsb (String.eqb key) ["authorization"; "cookie"; "password"; "secret"; "private_key"; "recovery_key"]
  || existsb (HasSuffix key) ["_token"; "_password"; "_secret"; "_cookie"; "_private_key"; "_recovery_key"].

Definition is_empty_group (a : attr) : bool := match a.2 with Group [] => true | _ => false end.

(** [slog.GroupValue] leaves out empty groups. *)
(* internal/observability/logger.go:46-60 redactAttr *)
Fixpoint redact_value (v : value) : value :=
  match v with
  | Leaf _ => v
  | Group l =>
    Group (filter (λ a, is_empty_group a = false)
      (map (λ a, (a.1, if sensitiveKey a.1 then Leaf redacted else redact_value a.2)) l))
  end.

(* internal/observability/logger.go:46-60 redactAttr *)
Definition redactAttr (a : attr) : attr := (a.1, if sensitiveKey a.1 then Leaf redacted else redact_value a.2).

(** [Record.AddAttrs] leaves out empty groups too. *)
(* internal/observability/logger.go:25-32 redactingHandler.Handle *)
Definition Handle (attrs : list (string * value)) : list (string * value) :=
  filter (λ a, is_empty_group a = false) (map redactAttr attrs).

(** ** Lines of a stream *)

Abbreviation newline := (byte_of 10).

Definition kept (segment : string) : option string :=
  if (TrimSpace segment =? "")%string then None else Some (TrimSpace segment).

(** The complete lines of a stream that are not blank, trimmed, and the rest
    after its last line feed. *)
Definition lines_of (stream : string) : list string := omap kept (removelast (split_byte newline stream)).
Definition rest_of (stream : string) : string := List.last (split_byte newline stream) "".

(** Numbered from one, modulo [2 ^ 64]. *)
Definition numbered (lines : list string) : list LogEntry := imap (λ i l, mkEntry (wrap64u (Z.of_nat (S i))) l) lines.

Definition newest {A} (n : nat) (l : list A) : list A := drop (length l - n) l.

Definition buffer_of (capacity : nat) (stream : string) : LogBuffer :=
  mkBuffer capacity (newest capacity (numbered (lines_of stream)))
    (wrap64u (Z.of_nat (S (length (lines_of stream))))) (rest_of stream).

(** ** Splitting *)

Lemma split_byte_join c s t :
  split_byte c (s +:+ t) =
  removelast (split_byte c s) ++ split_byte c (List.last (split_byte c s) "" +:+ t).
Proof.
  induction s as [|d s IH]; [done|]. cbn [split_byte String.append]. destruct (Ascii.eqb d c) eqn:E.
  - rewrite IH. destruct (split_byte c s) as [|x xs] eqn:Es; [by destruct (split_byte_nonempty c s)|]. done.
  - rewrite IH. destruct (split_byte c s) as [|x [|y xs]] eqn:Es; [by destruct (split_byte_nonempty c s)| |].
    + cbn [removelast List.last app String.append split_byte]. by rewrite E.
    + cbn [removelast List.last app]. done.
Qed.

Lemma removelast_app_nonempty {A} (l l' : list A) : l' ≠ [] → removelast (l ++ l') = l ++ removelast l'.
Proof. apply List.removelast_app. Qed.

Lemma last_app_nonempty {A} (l l' : list A) d : l' ≠ [] → List.last (l ++ l') d = List.last l' d.
Proof.
  induction l as [|x l IH]; intros Hl; [done|]. cbn [app]. rewrite <- (IH Hl). destruct (l ++ l') eqn:E; [|done].
  apply app_eq_nil in E as [_ ->]. done.
Qed.

(** A stream goes on from its rest. *)
Lemma lines_of_app s t : lines_of (s +:+ t) = lines_of s ++ lines_of (rest_of s +:+ t).
Proof.
  unfold lines_of, rest_of. rewrite (split_byte_join newline s t), removelast_app_nonempty by apply split_byte_nonempty.
  apply omap_app.
Qed.

Lemma rest_of_app s t : rest_of (s +:+ t) = rest_of (rest_of s +:+ t).
Proof. unfold rest_of. rewrite (split_byte_join newline s t). apply last_app_nonempty, split_byte_nonempty. Qed.

(** ** The loop *)

Definition feed (lines : list string) (b : LogBuffer) : LogBuffer := foldl (λ b l, appendLocked l b) b lines.

Lemma feed_pending lines : ∀ b p, feed lines (set_pending p b) = set_pending p (feed lines b).
Proof. induction lines as [|l lines IH]; intros b p; [done|]. cbn [feed foldl]. apply (IH (appendLocked l b) p). Qed.

Lemma cut_byte_split c s :
  split_byte c s = match cut_byte c s with Some (l, rest) => l :: split_byte c rest | None => [s] end.
Proof.
  induction s as [|d s IH]; [done|]. cbn [split_byte cut_byte]. destruct (Ascii.eqb d c); [done|]. rewrite IH.
  destruct (cut_byte c s) as [[l rest]|]; done.
Qed.

Lemma cut_byte_length c s l rest : cut_byte c s = Some (l, rest) → String.length rest < String.length s.
Proof.
  revert l. induction s as [|d s IH]; intros l; cbn [cut_byte]; [done|]. destruct (Ascii.eqb d c); [intros [= _ <-]; cbn; lia|].
  destruct (cut_byte c s) as [[x y]|]; cbn; [|done]. intros [= _ <-]. specialize (IH x eq_refl). cbn. lia.
Qed.

(** With fuel for every byte the loop consumes all lines. *)
Lemma write_loop_feed fuel : ∀ b, String.length (pending b) ≤ fuel →
  write_loop fuel b = set_pending (rest_of (pending b)) (feed (lines_of (pending b)) b).
Proof.
  induction fuel as [|fuel IH]; intros b Hf.
  - destruct b as [c es n p]. cbn in Hf. destruct p; [done|cbn in Hf; lia].
  - cbn [write_loop]. unfold lines_of, rest_of. rewrite (cut_byte_split newline (pending b)).
    destruct (cut_byte newline (pending b)) as [[l rest]|] eqn:E; [|by destruct b].
    pose proof (cut_byte_length _ _ _ _ E) as Hlen. pose proof (split_byte_nonempty newline rest) as Hne.
    replace (removelast (l :: split_byte newline rest)) with (l :: removelast (split_byte newline rest)) by (by destruct (split_byte newline rest)).
    replace (List.last (l :: split_byte newline rest) "") with (rest_of rest) by (unfold rest_of; by destruct (split_byte newline rest)).
    fold (lines_of rest) in *. cbn [omap list_omap]. unfold kept at 1. destruct (TrimSpace l =? "")%string.
    + rewrite IH by (cbn; lia). cbn [pending set_pending]. rewrite feed_pending. by destruct b.
    + rewrite IH by (cbn; lia). change (pending (appendLocked (TrimSpace l) (set_pending rest b))) with rest.
      change (feed (TrimSpace l :: omap kept (removelast (split_byte newline rest))) b)
        with (feed (lines_of rest) (appendLocked (TrimSpace l) b)).
      change (appendLocked (TrimSpace l) (set_pending rest b)) with (set_pending rest (appendLocked (TrimSpace l) b)).
      by rewrite feed_pending.
Qed.

(** ** The buffer against its specification *)

Lemma newest_snoc {A} n (l : list A) x : 0 < n → 
  newest n (l ++ [x]) = (if (length (newest n l) <? n)%nat then newest n l ++ [x] else tail (newest n l) ++ [x]).
Proof.
  intros Hn. unfold newest. rewrite length_app, length_drop. cbn [length]. case_match eqn:E.
  - apply Nat.ltb_lt in E. rewrite drop_app_le by lia. f_equal. f_equal. lia.
  - apply Nat.ltb_ge in E. rewrite drop_app_le by lia. f_equal.
    replace (length l + 1 - n) with (S (length l - n)) by lia.
    destruct (drop (length l - n) l) as [|y ys] eqn:Ed.
    + apply (f_equal length) in Ed. rewrite length_drop in Ed. cbn in Ed. lia.
    + cbn [tail]. replace (S (length l - n)) with (length l - n + 1) by lia. by rewrite <- drop_drop, Ed.
Qed.

(** A buffer that holds the newest of [lines], numbered. *)
Definition holds (c : nat) (lines : list string) (b : LogBuffer) : Prop :=
  capacity b = c ∧ entries b = newest c (numbered lines) ∧ next b = wrap64u (Z.of_nat (S (length lines))).

Lemma wrap64u_succ n : wrap64u (wrap64u (Z.of_nat n) + 1) = wrap64u (Z.of_nat (S n)).
Proof. unfold wrap64u. rewrite Zplus_mod_idemp_l. f_equal. lia. Qed.

Lemma appendLocked_holds c lines l b : 0 < c → holds c lines b → holds c (lines ++ [l]) (appendLocked l b).
Proof.
  intros Hc (Hb & He & Hn). unfold holds, appendLocked. cbn [capacity entries next]. split; [done|]. rewrite Hb, He, Hn. split.
  - unfold numbered. rewrite imap_app. cbn [imap]. rewrite newest_snoc by done. unfold compose. by rewrite Nat.add_0_r.
  - rewrite length_app. cbn [length]. rewrite wrap64u_succ. do 2 f_equal. lia.
Qed.

Lemma feed_holds c new : 0 < c → ∀ lines b, holds c lines b → holds c (lines ++ new) (feed new b).
Proof.
  intros Hc. induction new as [|l new IH]; intros lines b Hb; [by rewrite app_nil_r|].
  rewrite cons_middle, app_assoc. cbn [feed foldl]. apply (IH (lines ++ [l])), appendLocked_holds; done.
Qed.

Lemma buffer_of_iff c s b : b = buffer_of c s ↔ holds c (lines_of s) b ∧ pending b = rest_of s.
Proof.
  split; [intros ->; done|]. destruct b as [c' es n p]. intros [(Hc & He & Hn) Hp]. cbn in *. by subst.
Qed.

Lemma Write_buffer_of c s p : 0 < c → Write p (buffer_of c s) = buffer_of c (s +:+ p).
Proof.
  intros Hc. apply buffer_of_iff. unfold Write. rewrite write_loop_feed by done.
  cbn [pending set_pending]. rewrite feed_pending. cbn [pending set_pending buffer_of]. rewrite <- rest_of_app. split; [|done].
  rewrite lines_of_app. change (holds c (lines_of s ++ lines_of (rest_of s +:+ p)) (feed (lines_of (rest_of s +:+ p)) (buffer_of c s))).
  by apply feed_holds.
Qed.

Lemma Writes_buffer_of c ps : 0 < c → ∀ s, foldl (λ b p, Write p b) (buffer_of c s) ps = buffer_of c (s +:+ String.concat "" ps).
Proof.
  intros Hc. induction ps as [|p ps IH]; intros s; [cbn; by rewrite app_nil_r_s|].
  cbn [foldl]. rewrite Write_buffer_of by done. rewrite IH. f_equal. rewrite app_assoc_s. f_equal.
  destruct ps; [cbn; by rewrite app_nil_r_s|done].
Qed.

(** C32. However the bytes of the log are cut into writes, the buffer holds the
    newest lines of the whole stream that are not blank, at most its capacity
    of them, trimmed and numbered from one, and keeps the bytes after the last
    line feed for later. *)
Theorem log_buffer_keeps_newest (size : nat) (ps : list string) :
  foldl (λ b p, Write p b) (NewLogBuffer size) ps = buffer_of (Nat.max 1 size) (String.concat "" ps).
Proof.
  change (NewLogBuffer size) with (buffer_of (Nat.max 1 size) ""). by rewrite Writes_buffer_of by lia.
Qed.

(** ** Redaction *)

(** The attribute with value [v] that a path of keys leads to. *)
Inductive at_path : list (string * value) → list string → value → Prop :=
  | at_here l key v : (key, v) ∈ l → at_path l [key] v
  | at_inside l key g path v : (key, Group g) ∈ l → at_path g path v → at_path l (key :: path) v.

Lemma elem_of_Handle key v l :
  (key, v) ∈ Handle l ↔
  is_empty_group (key, v) = false ∧ ∃ v0, (key, v0) ∈ l ∧ v = (if sensitiveKey key then Leaf redacted else redact_value v0).
Proof.
  unfold Handle. rewrite list_elem_of_filter, list_elem_of_fmap. split.
  - intros [He ([k v0] & [= -> ->] & Hin)]. eauto.
  - intros [He (v0 & Hin & ->)]. split; [done|]. by exists (key, v0).
Qed.

Lemma at_path_one l key v : at_path l [key] v ↔ (key, v) ∈ l.
Proof. split; [|apply at_here]. inversion 1 as [|? ? ? ? ? ? Hp]; subst; [done|inversion Hp]. Qed.

Lemma at_path_cons l key k path v : at_path l (key :: k :: path) v ↔ ∃ g, (key, Group g) ∈ l ∧ at_path g (k :: path) v.
Proof. split; [inversion 1; subst; eauto|intros (g & Hin & Hp); by eapply at_inside]. Qed.

Lemma at_path_nonempty l path v : at_path l path v → l ≠ [].
Proof. intros H ->. inversion H; subst; by eapply elem_of_nil. Qed.

(** The group behind an insensitive key is cleaned like a record. *)
Lemma Handle_group l key g : (key, Group g) ∈ Handle l ↔
  g ≠ [] ∧ sensitiveKey key = false ∧ ∃ g0, (key, Group g0) ∈ l ∧ g = Handle g0.
Proof.
  rewrite elem_of_Handle. split.
  - intros (He & v0 & Hin & Hv). destruct (sensitiveKey key); [done|]. destruct v0 as [|g0]; [done|].
    apply (f_equal (λ v, match v with Group g => g | Leaf _ => [] end)) in Hv. split; [by destruct g|]. eauto.
  - intros (Hg & Hk & g0 & Hin & ->). split; [by destruct (Handle g0)|]. exists (Group g0). by rewrite Hk.
Qed.

(** The text at a path, in terms of [sensitiveKey]. *)
Lemma cleaned_text (pre : list string) (key text : string) (l : list (string * value)) :
  at_path (Handle l) (pre ++ [key]) (Leaf text) ↔
  Forall (λ k, sensitiveKey k = false) pre ∧
  ∃ v, at_path l (pre ++ [key]) v ∧ (if sensitiveKey key then text = redacted else v = Leaf text).
Proof.
  revert l. induction pre as [|k pre IH]; intros l; cbn [app].
  - rewrite at_path_one, elem_of_Handle. split.
    + intros (_ & v0 & Hin & Hv). split; [done|]. exists v0. rewrite at_path_one. split; [done|].
      destruct (sensitiveKey key); [by injection Hv|]. by destruct v0.
    + intros (_ & v & Hin & Hv). rewrite at_path_one in Hin. split; [done|]. exists v. split; [done|].
      destruct (sensitiveKey key); by subst.
  - assert (∃ k' path, pre ++ [key] = k' :: path) as (k' & path & Hpath) by (destruct pre; cbn; eauto).
    rewrite Forall_cons. rewrite Hpath in *. rewrite at_path_cons. setoid_rewrite at_path_cons. setoid_rewrite Handle_group. split.
    + intros (g & (_ & Hk & g0 & Hin & ->) & Hp). apply IH in Hp as (Hpre & v & Hv & Ht). split; [done|]. eauto.
    + intros ((Hk & Hpre) & v & (g & Hin & Hv) & Ht). exists (Handle g).
      assert (at_path (Handle g) (k' :: path) (Leaf text)) as Hp by (apply IH; eauto).
      split; [|done]. split; [by eapply at_path_nonempty|]. eauto.
Qed.

(** ** Sensitive names *)

(** The name in lower case, with an underscore for each dash and dot. *)
Definition folded (key : string) : string :=
  ToLower (String.string_of_list_ascii
    (map (λ c, if decide (c = "-"%char ∨ c = "."%char) then "_"%char else c) (String.list_ascii_of_string key))).

(** Credentials by their name: alone, or after a qualifier and an underscore; a
    token only with a qualifier. *)
Definition sensitive_name (key : string) : Prop :=
  folded key = "authorization" ∨
  (∃ word, word ∈ ["cookie"; "password"; "secret"; "private_key"; "recovery_key"] ∧
     (folded key = word ∨ ∃ qualifier, folded key = qualifier +:+ "_" +:+ word)) ∨
  ∃ qualifier, folded key = qualifier +:+ "_token".

Lemma folded_underscores key : folded key = ToLower (underscores key).
Proof.
  unfold folded. f_equal. induction key as [|c key IH]; [done|]. cbn. rewrite IH. f_equal.
  destruct (Ascii.eqb_spec c "-"), (Ascii.eqb_spec c "."); cbn; subst; try done; by rewrite decide_False by naive_solver.
Qed.

Lemma HasSuffix_spec s suffix : HasSuffix s suffix = true ↔ ∃ p, s = p +:+ suffix.
Proof.
  split.
  - induction s as [|c s IH]; cbn [HasSuffix]; rewrite orb_true_iff, String.eqb_eq.
    + intros [->|?]; [|done]. by exists "".
    + intros [->|(p & ->)%IH]; [by exists ""|]. by exists (String c p).
  - intros [p ->]. induction p as [|c p IH]; [destruct suffix; cbn; by rewrite ?Ascii.eqb_refl, ?String.eqb_refl|].
    cbn. by rewrite IH, orb_true_r.
Qed.

Lemma sensitiveKey_spec key : sensitiveKey key = true ↔ sensitive_name key.
Proof.
  unfold sensitiveKey, sensitive_name. rewrite folded_underscores. set (k := ToLower (underscores key)).
  rewrite orb_true_iff, !existsb_exists. setoid_rewrite <- list_elem_of_In. setoid_rewrite String.eqb_eq. setoid_rewrite HasSuffix_spec. split.
  - intros [(x & Hx & ->)|(x & Hx & p & Hp)].
    + rewrite !elem_of_cons, elem_of_nil in Hx. destruct Hx as [->|Hx]; [by left|]. right; left. exists x. split; [set_solver|by left].
    + rewrite !elem_of_cons, elem_of_nil in Hx. right. destruct Hx as [->|Hx]; [right; eauto|]. left.
      destruct Hx as [->|[->|[->|[->|[->|[]]]]]]; eexists; (split; [|right; exists p; exact Hp]); set_solver.
  - intros [->|[(word & Hw & [->|[p ->]])|[p ->]]].
    + left. exists "authorization". split; [set_solver|done].
    + left. exists word. split; [set_solver|done].
    + right. exists ("_" +:+ word). split; [|eauto]. rewrite !elem_of_cons, elem_of_nil in Hw.
      destruct Hw as [->|[->|[->|[->|[->|[]]]]]]; set_solver.
    + right. exists "_token". split; [set_solver|eauto].
Qed.

(** C33. What a record says after cleaning: the text at a path of keys is there
    exactly when no key on the way is sensitive and the record has an
    attribute at that path; it is the record's text if the last key is not
    sensitive, and a fixed mark, whatever the attribute was, if it is.  A key is
    sensitive when it is authorization, or is or ends in cookie, password,
    secret, private_key or recovery_key, or ends in _token, whatever the case
    and with dashes and dots for underscores; a bare token, which the
    documentation lists too, is not. *)
Theorem sensitive_values_are_redacted (pre : list string) (key text : string) (l : list (string * value)) :
  at_path (Handle l) (pre ++ [key]) (Leaf text) ↔
  Forall (λ k, ¬ sensitive_name k) pre ∧
  ∃ v, at_path l (pre ++ [key]) v ∧ (sensitive_name key → text = redacted) ∧ (¬ sensitive_name key → v = Leaf text).
Proof.
  rewrite cleaned_text. setoid_rewrite <- sensitiveKey_spec. setoid_rewrite not_true_iff_false.
  destruct (sensitiveKey key); naive_solver.
Qed.
