(* ===== verification/Console.v ===== *)
(** * Programs of the operator interface

    A handler of internal/operatorui is a program of calls: to the store, to the
    session manager, to the passkey service, to the recovery tickets and to the
    log buffer.  Each call is atomic (a transaction, or a critical section under
    a mutex); between two calls other requests run.  The calls are a signature,
    so that what a request did is a list of happenings that properties can
    speak of. *)

From S2P Require Import Prelude GoStrings Fault Op Db Store Http Sessions Passkeys LogBuffer TrustedProxy.
From S2P Require Artifact Identity Machine Installation Assignment Boottrust.
From S2P Require Import StoreMachines StoreInstallations StoreTrust StoreUsers StoreDeletion.

(** ** Changes of the store

    The operations that change the database, with their results. *)
Inductive mutation : Type → Type :=
| SetNickname (machineID nickname requestID actor : string) : mutation Machine.Machine
| SetPolicy (machineID policy requestID actor : string) : mutation Machine.Machine
| CreateSpec (spec : Installation.Spec) (requestID : string) : mutation Installation.Spec
| Arm (machineID installationID requestID actor : string) : mutation Assignment.Assignment
| Cancel (installationID requestID actor : string) : mutation Assignment.Assignment
| DeleteInst (installationID requestID actor : string) : mutation unit
| DeleteMach (machineID requestID actor : string) : mutation unit
| ApproveKey (machineID fingerprint requestID actor : string) : mutation Boottrust.Key
| RevokeKey (machineID fingerprint requestID actor : string) : mutation Boottrust.Key
| ResolveUser (provider subject displayName email requestID : string) : mutation (Identity.User * bool)
| ClaimAdmin (userID requestID actor : string) : mutation Identity.User
| ApproveUser (userID role requestID actor : string) : mutation Identity.User
| BlockUser (userID requestID actor : string) : mutation Identity.User
| SaveCredential (userID rpID : string) (credential : WebAuthnCredential) (requestID actor : string) (enrollment : bool) : mutation unit.

Section Console.
Context `{Artifact.Crypto} `{WebAuthn}.

Definition exec_mutation {B} (m : mutation B) : M DB B :=
  match m with
  | SetNickname mid n rid actor => SetMachineNickname mid n rid actor
  | SetPolicy mid p rid actor => SetMachinePolicy mid p rid actor
  | CreateSpec s rid => CreateInstallationSpec s rid
  | Arm mid iid rid actor => ArmInstallation mid iid rid actor
  | Cancel iid rid actor => CancelAssignment iid rid actor
  | DeleteInst iid rid actor => DeleteInstallation iid rid actor
  | DeleteMach mid rid actor => DeleteMachine mid rid actor
  | ApproveKey mid fp rid actor => ApproveBootTrustKey mid fp rid actor
  | RevokeKey mid fp rid actor => RevokeBootTrustKey mid fp rid actor
  | ResolveUser p s d e rid => ResolveOperatorUser p s d e rid
  | ClaimAdmin u rid actor => ClaimInitialAdmin u rid actor
  | ApproveUser u role rid actor => ApproveOperatorUser u role rid actor
  | BlockUser u rid actor => BlockOperatorUser u rid actor
  | SaveCredential u rp c rid actor e => SaveOperatorCredential u rp c rid actor e
  end.

(** The operation of the store a change is. *)
Definition mutation_op {B} (m : mutation B) : op :=
  match m with
  | SetNickname mid n rid actor => SetMachineNickname_ mid n rid actor
  | SetPolicy mid p rid actor => SetMachinePolicy_ mid p rid actor
  | CreateSpec s rid => CreateInstallationSpec_ s rid
  | Arm mid iid rid actor => ArmInstallation_ mid iid rid actor
  | Cancel iid rid actor => CancelAssignment_ iid rid actor
  | DeleteInst iid rid actor => DeleteInstallation_ iid rid actor
  | DeleteMach mid rid actor => DeleteMachine_ mid rid actor
  | ApproveKey mid fp rid actor => ApproveBootTrustKey_ mid fp rid actor
  | RevokeKey mid fp rid actor => RevokeBootTrustKey_ mid fp rid actor
  | ResolveUser p s d e rid => ResolveOperatorUser_ p s d e rid
  | ClaimAdmin u rid actor => ClaimInitialAdmin_ u rid actor
  | ApproveUser u role rid actor => ApproveOperatorUser_ u role rid actor
  | BlockUser u rid actor => BlockOperatorUser_ u rid actor
  | SaveCredential u rp c rid actor e => SaveOperatorCredential_ u rp c rid actor e
  end.

Lemma mutation_op_exec {B} (m : mutation B) : exec_op (mutation_op m) = discard (exec_mutation m).
Proof. by destruct m. Qed.

(** ** The state of the interface *)

Record console := mkConsole {
  c_manager : Manager;
  c_flows : gmap string flow;
  c_tickets : gmap string recoveryTicket;
  c_logs : LogBuffer }.

Definition set_manager (m : Manager) (c : console) : console := mkConsole m (c_flows c) (c_tickets c) (c_logs c).
Definition set_flows (f : gmap string flow) (c : console) : console := mkConsole (c_manager c) f (c_tickets c) (c_logs c).
Definition set_tickets (t : gmap string recoveryTicket) (c : console) : console := mkConsole (c_manager c) (c_flows c) t (c_logs c).
Definition set_logs (b : LogBuffer) (c : console) : console := mkConsole (c_manager c) (c_flows c) (c_tickets c) b.

(** ** Calls *)

Inductive call : Type → Type :=
| Query {B} (m : M DB B) : call (result B)
| Mutate {B} (m : mutation B) : call (result B)
| LookupSession (token : string) : call (option Session)
| EndSession (token : string) : call unit
| IssueSession (user : Identity.User) (authMethod : string) : call (result (string * Session))
| CheckRecoveryKey (remote key : string) : call verification
| StartRegistration (s : Service) (user : webauthn_user) : call (result (json * string))
| EndRegistration (s : Service) (user : webauthn_user) (token : string) (r : Request) : call (result WebAuthnCredential)
| StartLogin (s : Service) (user : webauthn_user) (mode : Mode) : call (result (json * string))
| EndLogin (s : Service) (user : webauthn_user) (token : string) (mode : Mode) (r : Request) : call (result WebAuthnCredential)
| IssueTicket (userID : string) : call (result string)
| ConsumeTicket (token userID : string) : call bool
| ReadLogs {B} (f : LogBuffer → B) : call B.

(** The database and the interface's state. *)
Definition world : Type := DB * console.

Definition on_db {B} (r : B * DB) (c : console) : B * world := (r.1, (r.2, c)).
Definition on_console {B S} (set : S → console → console) (r : B * S) (w : world) : B * world := (r.1, (w.1, set r.2 w.2)).

Definition perform {B} (c : call B) (a : ambient) (w : world) : B * world :=
  match c with
  | Query m => on_db (run m a w.1) w.2
  | Mutate m => on_db (run (exec_mutation m) a w.1) w.2
  | LookupSession token => on_console set_manager (Session_ token (clock a) (c_manager w.2)) w
  | EndSession token => (tt, (w.1, set_manager (Logout token (c_manager w.2)) w.2))
  | IssueSession user method => on_console set_manager (IssueUserSession user method a (c_manager w.2)) w
  | CheckRecoveryKey remote key => on_console set_manager (VerifyRecoveryKey remote key (clock a) (c_manager w.2)) w
  | StartRegistration s user => on_console set_flows (BeginRegistration s user a (c_flows w.2)) w
  | EndRegistration s user token r => on_console set_flows (FinishRegistration s user token r a (c_flows w.2)) w
  | StartLogin s user mode => on_console set_flows (BeginLogin s user mode a (c_flows w.2)) w
  | EndLogin s user token mode r => on_console set_flows (FinishLogin s user token mode r a (c_flows w.2)) w
  | IssueTicket userID => on_console set_tickets (IssueRecoveryTicket userID a (c_tickets w.2)) w
  | ConsumeTicket token userID => on_console set_tickets (ConsumeRecoveryTicket token userID (clock a) (c_tickets w.2)) w
  | ReadLogs f => (f (c_logs w.2), w)
  end.

(** ** Programs *)

Inductive prog (A : Type) : Type :=
| Return (x : A)
| Do {B : Type} (c : call B) (k : B → prog A).
#[global] Arguments Return {_} _.
#[global] Arguments Do {_ _} _ _.

#[global] Instance prog_ret : MRet prog := @Return.
#[global] Instance prog_bind : MBind prog := λ A B f,
  fix go (h : prog A) : prog B :=
    match h with
    | Return x => f x
    | Do c k => Do c (λ r, go (k r))
    end.

Definition do {B} (c : call B) : prog B := Do c Return.

(** A handler goes on with the value or answers. *)
Definition or_answer {A B} (h : prog (A + B)) (k : A → prog B) : prog B :=
  x ← h; match x with inl x => k x | inr answer => mret answer end.

(** Runs a program without interleaving: the [n]-th call sees the [n]-th
    ambient. *)
Fixpoint attend {A} (h : prog A) (env : nat → ambient) (n : nat) (w : world) : A * world :=
  match h with
  | Return x => (x, w)
  | Do c k => let '(r, w) := perform c (env n) w in attend (k r) env (S n) w
  end.

(** ** Happenings *)

(** A call that was performed: when, in which world, and with what result. *)
Record happening := Happened {
  h_type : Type;
  h_call : call h_type;
  h_at : ambient;
  h_before : world;
  h_result : h_type }.

Definition happen {B} (c : call B) (a : ambient) (w : world) : happening := Happened B c a w (perform c a w).1.
End Console.
Arguments console {_}.
Arguments world {_}.
Arguments call {_}.
Arguments prog {_}.
Arguments happening {_}.
