(* ===== verification/StudioAuth.v ===== *)
(** * The operator interface: sessions and authentication
    (internal/operatorui/dashboard.go, dashboard_auth.go)

    Pages are the values their templates are executed with. *)

From S2P Require Import Prelude GoStrings Fault Op Db Http Sessions Passkeys LogBuffer TrustedProxy Console.
From S2P Require Artifact Identity Machine Installation Assignment Boot Boottrust Event.
From S2P Require Import StoreUsers.

(** ** Replies *)

Definition StatusSeeOther : Z := 303.
Definition StatusPermanentRedirect : Z := 308.
Definition StatusUpgradeRequired : Z := 426.

(* internal/operatorui/dashboard_auth.go:14-20 authView *)
Record authView := mkAuthView { v_Title : string; v_Description : string; v_Subject : string; v_State : string; v_CanPasskey : bool }.

(* internal/operatorui/dashboard_common.go:26-37 wizardValues *)
Record wizardValues := mkWizard {
  w_MachineID : string; w_Hostname : string; w_Locale : string; w_Keyboard : string; w_Timezone : string;
  w_AdminUsername : string; w_AdminFullName : string; w_SSHKeys : string; w_Packages : string; w_TargetDisk : string }.

(* internal/operatorui/dashboard_pages.go:22-27 dashboardInstallationRow *)
Record dashboardInstallationRow := mkRow {
  r_Spec : Installation.Spec; r_Machine : Machine.Machine; r_Assignment : option Assignment.Assignment; r_Gate : Boot.Gate }.

(** The fields of the view that a page sets; the others are zero. *)
Inductive page_data :=
| OverviewData (machines : list Machine.Machine) (rows : list dashboardInstallationRow) (users : list Identity.User)
    (recent : list Event.Event) (known provision armed pendingUsers : Z)
| MachinesData (machines : list Machine.Machine)
| MachineData (machine : Machine.Machine) (identifiers : list Machine.Identifier) (events : list Event.Event)
| InstallationsData (rows : list dashboardInstallationRow)
| InstallationData (machine : Machine.Machine) (spec : Installation.Spec) (assignment : option Assignment.Assignment)
    (gate : Boot.Gate) (events : list Event.Event)
| WizardData (machines : list Machine.Machine) (values : wizardValues) (error : string)
| UsersData (users : list Identity.User)
| LogsData (after : Z).

(* internal/operatorui/dashboard_pages.go:29-51 dashboardView *)
Record dashboardView := mkView { d_Page : string; d_Title : string; d_Description : string; d_Session : Session; d_Data : page_data }.

(* internal/operatorui/dashboard_trust.go:12-18 bootTrustView *)
Record bootTrustView := mkTrustView {
  bv_Session : Session; bv_InstallationID : string; bv_MachineID : string; bv_Hostname : string; bv_Keys : list Boottrust.Key }.

(* internal/operatorui/dashboard_management.go:13-16 machineManagementView *)
Record machineManagementView := mkMachineManagement { mm_Session : Session; mm_Machine : Machine.Machine }.
(* internal/operatorui/dashboard_management.go:18-23 installationManagementView *)
Record installationManagementView := mkInstallationManagement {
  im_Session : Session; im_InstallationID : string; im_MachineID : string; im_Hostname : string }.

Inductive content :=
| Written (b : body)
| AuthPage (v : authView)
| DashboardPage (v : dashboardView)
| TrustPage (v : bootTrustView)
| MachineManagementPage (v : machineManagementView)
| InstallationManagementPage (v : installationManagementView)
| StyleSheet
| Script.

Record Cookie := mkCookie {
  ck_Name : string; ck_Value : string; ck_Path : string; ck_HttpOnly : bool; ck_Secure : bool; ck_SameSite : string;
  ck_Expires : option time; ck_MaxAge : Z }.

Record Reply := mkReply { y_Status : Z; y_Header : list (string * string); y_Cookie : option Cookie; y_Content : content }.

Definition plain (p : Response) : Reply := mkReply (p_Status p) (p_Header p) None (Written (p_Body p)).
Definition error_reply (status : Z) (message : string) : Reply := plain (http_Error status message).
Definition redirect (location : string) (status : Z) : Reply := mkReply status [("Location", location)] None (Written (Text "")).
Definition html (c : content) : Reply := mkReply StatusOK [("Content-Type", "text/html; charset=utf-8")] None c.
Definition with_cookie (c : Cookie) (y : Reply) : Reply := mkReply (y_Status y) (y_Header y) (Some c) (y_Content y).
Definition see_other (location : string) : Reply := redirect location StatusSeeOther.

(* internal/operatorui/dashboard_auth.go:339-343 writeDashboardJSON *)
Definition writeDashboardJSON (status : Z) (v : json) : Reply := plain (writeJSON status v).
Definition message_json (message : string) : json := JObject [("message", JString message)].

(* internal/operatorui/dashboard_auth.go:333-337 DashboardHandler.renderAuth *)
Definition renderAuth (v : authView) : Reply := html (AuthPage v).

(* internal/operatorui/dashboard_auth.go:328-331 DashboardHandler.authJSONFailure *)
Definition authJSONFailure : Reply := writeDashboardJSON StatusUnauthorized (message_json "Authentication failed.").

(* internal/operatorui/dashboard_pages.go:298-304 DashboardHandler.renderDashboard *)
Definition renderDashboard (v : dashboardView) : Reply := html (DashboardPage v).

(* internal/operatorui/dashboard_pages.go:306-325 DashboardHandler.writeDashboardError *)
Definition writeDashboardError (err : error) : Reply :=
  let code := Code err in
  let status :=
    if existsb (String.eqb code) [MachineNotFound; InstallationNotFound; InstallationAssignmentNotFound; OperatorUserNotFound]
    then StatusNotFound
    else if (code =? InstallationAssignmentConflict)%string then StatusConflict
    else if (code =? OperatorAuthorizationDenied)%string then StatusForbidden
    else if (code =? StorageFailure)%string then StatusServiceUnavailable
    else StatusBadRequest in
  if (code =? "")%string then error_reply StatusInternalServerError ("dashboard operation failed: " +:+ StorageFailure)
  else error_reply status ("dashboard operation failed: " +:+ code).

Section Auth.
Context `{Artifact.Crypto} `{WebAuthn}.

(** The handler's configuration: the passkey service may be absent. *)
(* internal/operatorui/dashboard.go:16-25 DashboardHandler *)
Record DashboardHandler := mkDashboard { passkeys : option Service }.

Variable h : DashboardHandler.
Definition CanPasskey : bool := match passkeys h with Some _ => true | None => false end.

(** ** Cookies *)

(* internal/operatorui/dashboard_common.go:16-16 sessionCookieName *)
Definition sessionCookieName : string := "aegispxe_operator_session".

(* internal/operatorui/dashboard.go:233-248 DashboardHandler.setDashboardSessionCookie *)
Definition setDashboardSessionCookie (r : UIRequest) (token : string) (s : Session) : Cookie :=
  mkCookie sessionCookieName token "/ui/" true (TLS r) "Strict" (Some (ExpiresAt s)) (SessionDuration / Second).

(* internal/operatorui/dashboard.go:250-260 DashboardHandler.clearDashboardSessionCookie *)
Definition clearDashboardSessionCookie (r : UIRequest) : Cookie :=
  mkCookie sessionCookieName "" "/ui/" true (TLS r) "Strict" None (-1).

(** ** Sessions *)

(** The principal of the session is read again on every request; when it has
    changed the session ends. *)
(* internal/operatorui/dashboard.go:151-184 DashboardHandler.dashboardSession *)
Definition dashboardSession (r : UIRequest) : prog (option (Session * string)) :=
  if negb (secureTransport r) then mret None else
  match session_cookie r with
  | None => mret None
  | Some cookie =>
    found ← do (LookupSession cookie);
    match found with
    | None => mret None
    | Some session =>
      if blank (UserID session) then mret None else
      user ← do (Query (OperatorUser (UserID session)));
      match user with
      | Ok user =>
        if negb (Identity.u_Status user =? "active")%string || negb (Identity.u_Role user =? s_Role session)%string
           || negb (Actor session =? "user:" +:+ Identity.Subject user)%string
        then _ ← do (EndSession cookie); mret None
        else mret (Some (session, cookie))
      | Err _ => _ ← do (EndSession cookie); mret None
      end
    end
  end.

(* internal/operatorui/dashboard.go:186-193 DashboardHandler.requireDashboardPage *)
Definition requireDashboardPage (r : UIRequest) : prog (Session + Reply) :=
  found ← dashboardSession r;
  mret (match found with Some (session, _) => inl session | None => inr (see_other "/ui/") end).

(* internal/operatorui/dashboard.go:195-219 DashboardHandler.requireDashboardAction *)
Definition requireDashboardAction (r : UIRequest) (admin : bool) : prog (Session + Reply) :=
  if negb (secureTransport r) then mret (inr (error_reply StatusUpgradeRequired "secure transport required")) else
  found ← dashboardSession r;
  mret (match found with
        | None => inr (error_reply StatusUnauthorized "dashboard session required")
        | Some (session, _) =>
          if admin && negb (IsAdmin session) then inr (error_reply StatusForbidden "administrator role required") else
          match PostForm r with
          | Ok form => if ValidateCSRF session (Get form "csrf") then inl session
                       else inr (error_reply StatusForbidden "invalid dashboard request")
          | Err _ => inr (error_reply StatusForbidden "invalid dashboard request")
          end
        end).

(* internal/operatorui/dashboard_pages.go:264-271 DashboardHandler.requireDashboardPageJSON *)
Definition requireDashboardPageJSON (r : UIRequest) : prog (Session + Reply) :=
  found ← dashboardSession r;
  mret (match found with
        | Some (session, _) => inl session
        | None => inr (writeDashboardJSON StatusUnauthorized (message_json "dashboard session required"))
        end).

(** ** The entry page *)

Definition resolve_identity (r : UIRequest) (i : externalIdentity) : prog (result (Identity.User * bool)) :=
  do (Mutate (ResolveUser (e_Provider i) (e_Subject i) (e_Subject i) "" (requestID r))).

Definition auth_page (title description subject state : string) : Reply :=
  renderAuth (mkAuthView title description subject state CanPasskey).

(* internal/operatorui/dashboard_auth.go:34-71 DashboardHandler.dashboardEntry *)
Definition dashboardEntry (overview : Session → prog Reply) (r : UIRequest) : prog Reply :=
  found ← dashboardSession r;
  match found with
  | Some (session, _) => overview session
  | None =>
    match externalIdentityFromRequest r with
    | None => mret (auth_page "Emergency access" "No trusted upstream identity was supplied." "" "recovery")
    | Some identity =>
      resolved ← resolve_identity r identity;
      match resolved with
      | Err _ => mret (auth_page "Authentication unavailable" "AegisPXE could not resolve this identity." (e_Subject identity) "error")
      | Ok (user, _) =>
        let page title description state := auth_page title description (Identity.Subject user) state in
        if (Identity.u_Status user =? Identity.StatusPendingReview)%string then
          hasAdmin ← do (Query HasOperatorAdmin);
          mret (match hasAdmin with
                | Err _ => page "Authentication unavailable" "AegisPXE could not verify bootstrap state." "error"
                | Ok false => page "Create initial administrator" "Your trusted identity is the first AegisPXE user. Confirm the local recovery key before passkey enrollment." "bootstrap"
                | Ok true => page "Pending review" "An AegisPXE administrator must approve this identity before passkey enrollment." "pending"
                end)
        else if (Identity.u_Status user =? Identity.StatusEnrollmentRequired)%string then
          mret (page "Enroll your passkey" "Administrator approval is complete. Register the second AegisPXE authentication factor." "enroll")
        else if (Identity.u_Status user =? Identity.StatusActive)%string then
          mret (page "AegisPXE passkey" "The outer identity is accepted. Complete the independent AegisPXE passkey challenge." "login")
        else if (Identity.u_Status user =? Identity.StatusBlocked)%string then
          mret (page "Access blocked" "The outer identity is valid, but AegisPXE authorization denies access." "blocked")
        else mret (page "Authentication unavailable" "AegisPXE rejected this account state." "error")
      end
    end
  end.

(* internal/operatorui/dashboard_auth.go:73-101 DashboardHandler.bootstrapInitialAdmin *)
Definition bootstrapInitialAdmin (r : UIRequest) : prog Reply :=
  match externalIdentityFromRequest r with
  | None => mret (error_reply StatusForbidden "trusted identity required")
  | Some identity =>
    if negb (secureTransport r) then mret (error_reply StatusForbidden "trusted identity required") else
    match PostForm r with
    | Err _ => mret (error_reply StatusBadRequest "invalid bootstrap request")
    | Ok form =>
      let rejected := error_reply StatusForbidden "initial administrator claim rejected" in
      resolved ← resolve_identity r identity;
      match resolved with
      | Err _ => mret rejected
      | Ok (user, _) =>
        if negb (Identity.u_Status user =? Identity.StatusPendingReview)%string then mret rejected else
        verified ← do (CheckRecoveryKey (ui_remoteHost r) (Get form "key"));
        match verified with
        | Verified =>
          claimed ← do (Mutate (ClaimAdmin (Identity.ID user) (requestID r) ("bootstrap:" +:+ Identity.Subject user)));
          mret (match claimed with
                | Err _ => error_reply StatusConflict "initial administrator claim rejected"
                | Ok _ => see_other "/ui/"
                end)
        | _ => mret rejected
        end
      end
    end
  end.

(** ** Passkeys *)

Definition unauthenticated : Reply := writeDashboardJSON StatusUnauthorized (message_json "Authentication failed.").

(** The user behind the outer identity, with the credentials, in the status the
    ceremony is for. *)
(* internal/operatorui/dashboard_auth.go:303-326 DashboardHandler.externalWebAuthnUser *)
Definition externalWebAuthnUser (r : UIRequest) (required : Identity.Status) : prog ((Service * webauthn_user) + Reply) :=
  match externalIdentityFromRequest r, passkeys h with
  | Some identity, Some service =>
    resolved ← resolve_identity r identity;
    match resolved with
    | Err _ => mret (inr unauthenticated)
    | Ok (user, _) =>
      if negb (Identity.u_Status user =? required)%string then mret (inr unauthenticated) else
      loaded ← do (Query (OperatorUserForWebAuthn (Identity.ID user) (RPID service)));
      mret (match loaded with
            | Err _ => inr authJSONFailure
            | Ok user =>
              if (required =? Identity.StatusActive)%string && bool_decide (user.2 = []) then inr unauthenticated
              else inl (service, user)
            end)
    end
  | _, _ => mret (inr unauthenticated)
  end.

Definition ceremony_json (started : json * string) : json := JObject [("options", started.1); ("flow", JString started.2)].

(** The reply to a ceremony that was started. *)
Definition started_reply (started : result (json * string)) : Reply :=
  match started with
  | Err _ => authJSONFailure
  | Ok started => writeDashboardJSON StatusOK (ceremony_json started)
  end.

Definition ceremony_token (r : UIRequest) : string := TrimSpace (header (http r) "X-AegisPXE-Ceremony").

(** A session for the user, in a cookie. *)
Definition issue_session (r : UIRequest) (user : Identity.User) (authMethod : string) (failure success : Reply) : prog Reply :=
  issued ← do (IssueSession user authMethod);
  mret (match issued with
        | Err _ => failure
        | Ok (token, session) => with_cookie (setDashboardSessionCookie r token session) success
        end).

Definition status_ok : Reply := writeDashboardJSON StatusOK (JObject [("status", JString "ok")]).

(* internal/operatorui/dashboard_auth.go:103-114 DashboardHandler.beginExternalPasskeyLogin *)
Definition beginExternalPasskeyLogin (r : UIRequest) : prog Reply :=
  or_answer (externalWebAuthnUser r Identity.StatusActive) (λ '(service, user),
    started ← do (StartLogin service user ModeLogin);
    mret (started_reply started)).

(* internal/operatorui/dashboard_auth.go:116-138 DashboardHandler.finishExternalPasskeyLogin *)
Definition finishExternalPasskeyLogin (r : UIRequest) : prog Reply :=
  or_answer (externalWebAuthnUser r Identity.StatusActive) (λ '(service, user),
    finished ← do (EndLogin service user (ceremony_token r) ModeLogin (http r));
    match finished with
    | Err _ => mret authJSONFailure
    | Ok credential =>
      saved ← do (Mutate (SaveCredential (Identity.ID user.1) (RPID service) credential (requestID r) ("user:" +:+ Identity.Subject user.1) false));
      match saved with
      | Err _ => mret authJSONFailure
      | Ok _ => issue_session r user.1 "zoraxy+passkey" authJSONFailure status_ok
      end
    end).

(* internal/operatorui/dashboard_auth.go:140-151 DashboardHandler.beginPasskeyEnrollment *)
Definition beginPasskeyEnrollment (r : UIRequest) : prog Reply :=
  or_answer (externalWebAuthnUser r Identity.StatusEnrollmentRequired) (λ '(service, user),
    started ← do (StartRegistration service user);
    mret (started_reply started)).

(* internal/operatorui/dashboard_auth.go:153-180 DashboardHandler.finishPasskeyEnrollment *)
Definition finishPasskeyEnrollment (r : UIRequest) : prog Reply :=
  or_answer (externalWebAuthnUser r Identity.StatusEnrollmentRequired) (λ '(service, user),
    finished ← do (EndRegistration service user (ceremony_token r) (http r));
    match finished with
    | Err _ => mret authJSONFailure
    | Ok credential =>
      saved ← do (Mutate (SaveCredential (Identity.ID user.1) (RPID service) credential (requestID r) ("user:" +:+ Identity.Subject user.1) true));
      match saved with
      | Err _ => mret authJSONFailure
      | Ok _ =>
        reloaded ← do (Query (OperatorUser (Identity.ID user.1)));
        match reloaded with
        | Err _ => mret authJSONFailure
        | Ok active => issue_session r active "zoraxy+passkey" authJSONFailure status_ok
        end
      end
    end).

(** ** Recovery

    Without an outer identity: a passkey, then a ticket and the recovery key. *)

Definition recovery_json (status : Z) : Reply := writeDashboardJSON status (message_json "Recovery authentication failed.").
Definition recovery_error (status : Z) : Reply := error_reply status "recovery authentication failed".

(** The active user of that name. *)
Definition recovery_user (subject : string) : prog (option Identity.User) :=
  found ← do (Query (OperatorUserByExternalIdentity trustedProxyProvider subject));
  mret (match found with
        | Ok user => if (Identity.u_Status user =? Identity.StatusActive)%string then Some user else None
        | Err _ => None
        end).

(* internal/operatorui/dashboard_auth.go:182-215 DashboardHandler.beginRecoveryPasskey *)
Definition beginRecoveryPasskey (r : UIRequest) : prog Reply :=
  match externalIdentityFromRequest r with
  | Some _ => mret (writeDashboardJSON StatusForbidden (message_json "Recovery authentication is unavailable while an outer identity is present."))
  | None =>
    match passkeys h with
    | None => mret (recovery_json StatusServiceUnavailable)
    | Some service =>
      match PostForm r with
      | Err _ => mret (recovery_json StatusBadRequest)
      | Ok form =>
        user ← recovery_user (TrimSpace (Get form "subject"));
        match user with
        | None => mret (recovery_json StatusUnauthorized)
        | Some user =>
          loaded ← do (Query (OperatorUserForWebAuthn (Identity.ID user) (RPID service)));
          match loaded with
          | Err _ => mret (recovery_json StatusUnauthorized)
          | Ok user =>
            if bool_decide (user.2 = []) then mret (recovery_json StatusUnauthorized) else
            started ← do (StartLogin service user ModeRecovery);
            mret (started_reply started)
          end
        end
      end
    end
  end.

(* internal/operatorui/dashboard_auth.go:217-248 DashboardHandler.finishRecoveryPasskey *)
Definition finishRecoveryPasskey (r : UIRequest) : prog Reply :=
  match externalIdentityFromRequest r, passkeys h with
  | None, Some service =>
    user ← recovery_user (TrimSpace (header (http r) "X-AegisPXE-Recovery-Subject"));
    match user with
    | None => mret (recovery_json StatusUnauthorized)
    | Some user =>
      loaded ← do (Query (OperatorUserForWebAuthn (Identity.ID user) (RPID service)));
      match loaded with
      | Err _ => mret authJSONFailure
      | Ok user =>
        finished ← do (EndLogin service user (ceremony_token r) ModeRecovery (http r));
        match finished with
        | Err _ => mret authJSONFailure
        | Ok credential =>
          saved ← do (Mutate (SaveCredential (Identity.ID user.1) (RPID service) credential (requestID r) ("recovery:" +:+ Identity.Subject user.1) false));
          match saved with
          | Err _ => mret authJSONFailure
          | Ok _ =>
            ticket ← do (IssueTicket (Identity.ID user.1));
            mret (match ticket with
                  | Err _ => authJSONFailure
                  | Ok ticket => writeDashboardJSON StatusOK (JObject [("ticket", JString ticket)])
                  end)
          end
        end
      end
    end
  | _, _ => mret (recovery_json StatusUnauthorized)
  end.

(* internal/operatorui/dashboard_auth.go:250-284 DashboardHandler.finishRecoveryLogin *)
Definition finishRecoveryLogin (r : UIRequest) : prog Reply :=
  match externalIdentityFromRequest r with
  | Some _ => mret (recovery_error StatusForbidden)
  | None =>
    if negb (secureTransport r) then mret (recovery_error StatusForbidden) else
    match PostForm r with
    | Err _ => mret (recovery_error StatusBadRequest)
    | Ok form =>
      user ← recovery_user (TrimSpace (Get form "subject"));
      match user with
      | None => mret (recovery_error StatusUnauthorized)
      | Some user =>
        verified ← do (CheckRecoveryKey (ui_remoteHost r) (Get form "key"));
        match verified with
        | Verified =>
          consumed ← do (ConsumeTicket (Get form "ticket") (Identity.ID user));
          if negb consumed then mret (recovery_error StatusUnauthorized)
          else issue_session r user "recovery+passkey+key" (recovery_error StatusUnauthorized) (see_other "/ui/")
        | _ => mret (recovery_error StatusUnauthorized)
        end
      end
    end
  end.

(* internal/operatorui/dashboard_auth.go:289-301 DashboardHandler.dashboardLogout *)
Definition dashboardLogout (r : UIRequest) : prog Reply :=
  found ← dashboardSession r;
  match found with
  | None => mret (see_other "/ui/")
  | Some (session, token) =>
    match PostForm r with
    | Ok form =>
      if ValidateCSRF session (Get form "csrf")
      then _ ← do (EndSession token); mret (with_cookie (clearDashboardSessionCookie r) (see_other "/ui/"))
      else mret (error_reply StatusForbidden "invalid dashboard request")
    | Err _ => mret (error_reply StatusForbidden "invalid dashboard request")
    end
  end.
End Auth.
