(* ===== verification/StudioPages.v ===== *)
(** * The operator interface: pages and actions
    (internal/operatorui/dashboard_pages.go, dashboard_management.go,
    dashboard_trust.go, dashboard_provisioning.go, dashboard_log_*.go)

    Every handler first asks for a session, then calls the store.  An identifier
    in the path is trimmed. *)

From stdpp Require Import sorting.
From S2P Require Import Prelude GoStrings GoParse Fault Op Db Http Sessions Passkeys LogBuffer TrustedProxy Console StudioAuth.
From S2P Require Artifact Identity Machine Installation Assignment Boot Boottrust Event Debian13 DebianRelease.
From S2P Require Import StoreMachines StoreInstallations StoreTrust StoreUsers.

(** ** Form values (dashboard_common.go) *)

(* internal/operatorui/dashboard_common.go:18-18 builtinProfileID *)
Definition builtinProfileID : string := "builtin:debian13-standard".
(* internal/operatorui/dashboard_common.go:19-19 builtinProfileRevision *)
Definition builtinProfileRevision : string := "1".

(* internal/operatorui/dashboard_common.go:43-53 defaultWizardValues *)
Definition defaultWizardValues : wizardValues :=
  mkWizard "" "debian13" "de_DE.UTF-8" "de" "Europe/Berlin" "guardian" "Aegis Administrator" "" "" "/dev/vda".

(* internal/operatorui/dashboard_common.go:55-68 wizardValuesFromRequest *)
Definition wizardValuesFromForm (form : list (string * string)) : wizardValues :=
  mkWizard (TrimSpace (Get form "machine_id")) (Get form "hostname") (Get form "locale") (Get form "keyboard")
    (Get form "timezone") (Get form "admin_username") (Get form "admin_full_name") (Get form "ssh_keys")
    (Get form "packages") (Get form "target_disk").

(* internal/operatorui/dashboard_common.go:70-79 parseSSHKeys *)
Definition parseSSHKeys (v : string) : list string :=
  filter (λ l, l ≠ "") (TrimSpace <$> split_byte (byte_of 10) v).

(** [strings.FieldsFunc] for white space, commas and semicolons. *)
Fixpoint package_fields (skip : nat) (cur s : string) : list string :=
  match s with
  | "" => emit_field cur []
  | String c t =>
    match skip with
    | S k => package_fields k cur t
    | O =>
      if byte_in c ",;" then emit_field cur (package_fields 0 "" t) else
      match ws_prefix s with
      | O => package_fields 0 (cur +:+ String c "") t
      | S k => emit_field cur (package_fields k "" t)
      end
    end
  end.

(** The loop over the fields: [seen] has the names added before. *)
Fixpoint new_names (seen : gset string) (l : list string) : list string :=
  match l with
  | [] => []
  | field :: l =>
    let name := TrimSpace field in
    if (name =? "")%string || bool_decide (name ∈ seen) then new_names seen l else name :: new_names ({[name]} ∪ seen) l
  end.

Definition string_le (x y : string) : Prop := String.leb x y = true.
#[global] Instance string_le_dec x y : Decision (string_le x y) := bool_eq_dec _ _.

(* internal/operatorui/dashboard_common.go:81-100 parsePackages *)
Definition parsePackages (v : string) : list string := merge_sort string_le (new_names ∅ (package_fields 0 "" v)).

(** [strconv.ParseUint(s, 10, 64)]. *)
Definition ParseUint (s : string) : option Z :=
  n ← digits_value s; if (2 ^ 64 <=? n)%Z then None else Some n.

Section Pages.
Context `{Artifact.Crypto} `{WebAuthn}.
Variable h : DashboardHandler.

Definition path_id (r : UIRequest) : string := TrimSpace (q_ID (http r)).
Definition path_fingerprint (r : UIRequest) : string := TrimSpace (q_fingerprint r).
(** [r.PostForm.Get] after [r.ParseForm] has succeeded. *)
Definition form_value (r : UIRequest) (key : string) : string :=
  match PostForm r with Ok form => Get form key | Err _ => "" end.

(** [v, err := m; if err != nil { writeDashboardError }]. *)
Definition or_dashboard_error {B} (c : call (result B)) (k : B → prog Reply) : prog Reply :=
  v ← do c; match v with Ok v => k v | Err err => mret (writeDashboardError err) end.

Definition page (name title description : string) (session : Session) (data : page_data) : Reply :=
  renderDashboard (mkView name title description session data).

(** ** Machines *)

Definition machines_page := page "machines" "Machines" "Discovered PXE clients, explicit provisioning policy and audit history.".
Definition machine_page := page "machines" "Machine" "Discovery identity is inventory data, never authentication. Recent persisted events remain visible for audit and troubleshooting.".

(* internal/operatorui/dashboard_provisioning.go:20-20 dashboardEventLimit *)
Definition dashboardEventLimit : Z := 200.

(* internal/operatorui/dashboard_provisioning.go:22-33 DashboardHandler.dashboardMachines *)
Definition dashboardMachines (r : UIRequest) : prog Reply :=
  or_answer (requireDashboardPage r) (λ session,
    or_dashboard_error (Query Machines) (λ machines, mret (machines_page session (MachinesData machines)))).

(* internal/operatorui/dashboard_provisioning.go:35-57 DashboardHandler.dashboardMachine *)
Definition dashboardMachine (r : UIRequest) : prog Reply :=
  or_answer (requireDashboardPage r) (λ session,
    let machineID := path_id r in
    or_dashboard_error (Query (Store_Machine machineID)) (λ item,
    or_dashboard_error (Query (MachineIdentifiers machineID)) (λ identifiers,
    or_dashboard_error (Query (RecentEvents Event.EntityMachine machineID dashboardEventLimit)) (λ events,
    mret (machine_page session (MachineData item identifiers events)))))).

(* internal/operatorui/dashboard_provisioning.go:59-71 DashboardHandler.dashboardMachinePolicy *)
Definition dashboardMachinePolicy (r : UIRequest) : prog Reply :=
  or_answer (requireDashboardAction r false) (λ session,
    let machineID := path_id r in
    or_dashboard_error (Mutate (SetPolicy machineID (TrimSpace (form_value r "policy")) (requestID r) (Actor session))) (λ _,
    mret (see_other ("/ui/machines/" +:+ machineID)))).

(* internal/operatorui/dashboard_management.go:29-49 DashboardHandler.dashboardMachineMetadata *)
Definition dashboardMachineMetadata (r : UIRequest) : prog Reply :=
  or_answer (requireDashboardPage r) (λ session,
    or_dashboard_error (Query Machines) (λ items,
    mret (writeDashboardJSON StatusOK (JObject [("machines", JObject ((λ item, (Machine.ID item,
      JObject [("nickname", JString (Machine.Nickname item)); ("secure_boot_state", JString (Machine.SecureBootState item))])) <$> items))])))).

(* internal/operatorui/dashboard_management.go:51-65 DashboardHandler.dashboardMachineManagement *)
Definition dashboardMachineManagement (r : UIRequest) : prog Reply :=
  or_answer (requireDashboardPage r) (λ session,
    or_dashboard_error (Query (Store_Machine (path_id r))) (λ item,
    mret (html (MachineManagementPage (mkMachineManagement session item))))).

(* internal/operatorui/dashboard_management.go:67-78 DashboardHandler.dashboardMachineNickname *)
Definition dashboardMachineNickname (r : UIRequest) : prog Reply :=
  or_answer (requireDashboardAction r false) (λ session,
    let machineID := path_id r in
    or_dashboard_error (Mutate (SetNickname machineID (form_value r "nickname") (requestID r) (Actor session))) (λ _,
    mret (see_other ("/ui/machines/" +:+ machineID +:+ "/manage")))).

(* internal/operatorui/dashboard_management.go:80-99 DashboardHandler.dashboardDeleteMachine *)
Definition dashboardDeleteMachine (r : UIRequest) : prog Reply :=
  or_answer (requireDashboardAction r true) (λ session,
    let machineID := path_id r in
    if negb (TrimSpace (form_value r "confirm") =? machineID)%string
    then mret (error_reply StatusBadRequest "machine deletion confirmation does not match") else
    deleted ← do (Mutate (DeleteMach machineID (requestID r) (Actor session)));
    mret (match deleted with
          | Ok _ => see_other "/ui/machines"
          | Err err => if (Code err =? MachineDeleteConflict)%string
                       then error_reply StatusConflict "delete this machine's installations first"
                       else writeDashboardError err
          end)).

(** ** Installations *)

(** The assignment, when there is one. *)
Definition stored_assignment (installationID : string) : prog (result (option Assignment.Assignment)) :=
  stored ← do (Query (AssignmentForInstallation installationID));
  mret (match stored with
        | Ok stored => Ok (Some stored)
        | Err err => if (Code err =? InstallationAssignmentNotFound)%string then Ok None else Err err
        end).

Definition is_armed (a : option Assignment.Assignment) : bool :=
  match a with Some a => (Assignment.a_State a =? Assignment.StateArmed)%string | None => false end.

(** The loop over the specifications, ended by the first error. *)
(* internal/operatorui/dashboard_pages.go:279-295 DashboardHandler.loadInstallationRows *)
Fixpoint load_rows (specs : list Installation.Spec) : prog (result (list dashboardInstallationRow)) :=
  match specs with
  | [] => mret (Ok [])
  | spec :: specs =>
    item ← do (Query (Store_Machine (Installation.MachineID spec)));
    match item with
    | Err err => mret (Err err)
    | Ok item =>
      assigned ← stored_assignment (Installation.spec_ID spec);
      match assigned with
      | Err err => mret (Err err)
      | Ok assigned =>
        let row := mkRow spec item assigned (Boot.Evaluate (Machine.m_Policy item) (is_armed assigned) false) in
        rows ← load_rows specs;
        mret (rows ← rows; Ok (row :: rows))
      end
    end
  end.

(* internal/operatorui/dashboard_pages.go:273-296 DashboardHandler.loadInstallationRows *)
Definition loadInstallationRows : prog (result (list dashboardInstallationRow)) :=
  specs ← do (Query InstallationSpecs);
  match specs with Err err => mret (Err err) | Ok specs => load_rows specs end.

(* internal/operatorui/dashboard_provisioning.go:73-84 DashboardHandler.dashboardInstallations *)
Definition dashboardInstallations (r : UIRequest) : prog Reply :=
  or_answer (requireDashboardPage r) (λ session,
    rows ← loadInstallationRows;
    mret (match rows with
          | Err err => writeDashboardError err
          | Ok rows => page "installations" "Installations" "Immutable specifications, assignment state and trust gates. Arming remains a separate explicit action." session (InstallationsData rows)
          end)).

(* internal/operatorui/dashboard_provisioning.go:86-118 DashboardHandler.dashboardInstallation *)
Definition dashboardInstallation (r : UIRequest) : prog Reply :=
  or_answer (requireDashboardPage r) (λ session,
    let installationID := path_id r in
    or_dashboard_error (Query (InstallationSpec installationID)) (λ spec,
    or_dashboard_error (Query (Store_Machine (Installation.MachineID spec))) (λ item,
    assigned ← stored_assignment installationID;
    match assigned with
    | Err err => mret (writeDashboardError err)
    | Ok assigned =>
      or_dashboard_error (Query (RecentEvents Event.EntityInstallation installationID dashboardEventLimit)) (λ events,
      mret (page "installations" "Installation" "Immutable target state, trust gates and recent persisted provisioning activity." session
        (InstallationData item spec assigned (Boot.Evaluate (Machine.m_Policy item) (is_armed assigned) false) events)))
    end))).

(* internal/operatorui/dashboard_provisioning.go:272-284 DashboardHandler.provisionMachines *)
Definition provisionMachines : prog (result (list Machine.Machine)) :=
  items ← do (Query Machines);
  mret (items ← items; Ok (filter (λ item, Machine.m_Policy item = Machine.PolicyProvision) items)).

Definition wizard_page (session : Session) (machines : list Machine.Machine) (values : wizardValues) (error : string) : Reply :=
  page "installations" "New installation" "Debian 13 Standard with verified artifacts, signed Debian shim and security baseline." session (WizardData machines values error).

Definition with_machine (id : string) (v : wizardValues) : wizardValues :=
  mkWizard id (w_Hostname v) (w_Locale v) (w_Keyboard v) (w_Timezone v) (w_AdminUsername v) (w_AdminFullName v) (w_SSHKeys v) (w_Packages v) (w_TargetDisk v).

(* internal/operatorui/dashboard_provisioning.go:120-140 DashboardHandler.dashboardInstallationWizard *)
Definition dashboardInstallationWizard (r : UIRequest) : prog Reply :=
  or_answer (requireDashboardPage r) (λ session,
    machines ← provisionMachines;
    mret (match machines with
          | Err err => writeDashboardError err
          | Ok machines =>
            let asked := TrimSpace (Get (q_Query (http r)) "machine_id") in
            let id := if (asked =? "")%string then default "" (Machine.ID <$> head machines) else asked in
            wizard_page session machines (with_machine id defaultWizardValues)
              (if bool_decide (machines = []) then "No PROVISION-approved machine is available. Approve a machine first." else "")
          end)).

(* internal/operatorui/dashboard_provisioning.go:286-297 DashboardHandler.renderDashboardWizardError *)
Definition renderDashboardWizardError (session : Session) (values : wizardValues) (message : string) : prog Reply :=
  machines ← provisionMachines;
  mret (match machines with Err err => writeDashboardError err | Ok machines => wizard_page session machines values message end).

(** The profile the form describes. *)
(* internal/operatorui/dashboard_provisioning.go:163-176 DashboardHandler.dashboardCreateInstallation *)
Definition profile_of (v : wizardValues) : Installation.Snapshot :=
  Installation.mkSnapshot Installation.SchemaVersion (TrimSpace (w_Hostname v)) (TrimSpace (w_Locale v)) (TrimSpace (w_Keyboard v))
    (TrimSpace (w_Timezone v))
    (Installation.mkAdmin (TrimSpace (w_AdminUsername v)) (TrimSpace (w_AdminFullName v)) (parseSSHKeys (w_SSHKeys v)) true)
    (parsePackages (w_Packages v)).

(* internal/operatorui/dashboard_provisioning.go:222-229 DashboardHandler.dashboardCreateInstallation *)
Definition spec_of (item : Machine.Machine) (v : wizardValues) (resolution : DebianRelease.Resolution) (credentialID actor : string) : Installation.Spec :=
  Installation.mkSpec "" (Machine.ID item) Debian13.DriverID Debian13.DriverVersion "13" "amd64" builtinProfileID builtinProfileRevision
    (profile_of v)
    [Artifact.v_Descriptor (DebianRelease.r_Kernel resolution); Artifact.v_Descriptor (DebianRelease.r_Initrd resolution);
     Artifact.v_Descriptor (DebianRelease.r_Shim resolution)]
    (Installation.mkStorage "whole-disk" "ext4" (TrimSpace (w_TargetDisk v)) false false)
    (Installation.mkSecurity false false true)
    credentialID zeroTime actor.

(** [w] is what the Debian mirror and gpgv answer while the request runs. *)
(* internal/operatorui/dashboard_provisioning.go:142-239 DashboardHandler.dashboardCreateInstallation *)
Definition dashboardCreateInstallation (w : DebianRelease.outside) (r : UIRequest) : prog Reply :=
  or_answer (requireDashboardAction r false) (λ session,
    let values := wizardValuesFromForm (match PostForm r with Ok form => form | Err _ => [] end) in
    let rejected := renderDashboardWizardError session values in
    found ← do (Query (Store_Machine (w_MachineID values)));
    match found with
    | Err _ => rejected "Selected machine could not be loaded."
    | Ok item =>
      let architecture := Machine.Architecture item in
      if negb (Machine.m_Policy item =? Machine.PolicyProvision)%string
      then rejected "Machine must be approved with policy PROVISION before creating an installation." else
      if negb ((architecture =? "") || (architecture =? "x86_64") || (architecture =? "amd64"))%string
      then rejected "Debian 13 Standard currently supports amd64/x86_64 machines only." else
      match Installation.Snapshot_Validate (profile_of values) with
      | Err err => rejected ("Profile input is invalid: " +:+ Error err)
      | Ok _ =>
        match Installation.ValidateTargetDisk (TrimSpace (w_TargetDisk values)) with
        | Err _ => rejected "Target disk is invalid. Use a whole device such as /dev/vda, /dev/sda or /dev/nvme0n1."
        | Ok _ =>
          match DebianRelease.Resolve w with
          | Err err => rejected ("Debian installer artifacts could not be verified. Check the server log for " +:+ code_or err ArtifactTrustFailed +:+ ".")
          | Ok resolution =>
            allocated ← do (Query (idgen_New "lc_"));
            match allocated with
            | Err _ => rejected "Could not allocate installation identity metadata."
            | Ok credentialID =>
              let spec := spec_of item values resolution credentialID (Actor session) in
              match Debian13.ValidateSpec spec with
              | Err err => rejected ("Debian 13 Standard rejected the requested installation: " +:+ Error err)
              | Ok _ =>
                created ← do (Mutate (CreateSpec spec (requestID r)));
                match created with
                | Err err => rejected ("InstallationSpec could not be created. Check the server log for " +:+ code_or err StorageFailure +:+ ".")
                | Ok created => mret (see_other ("/ui/installations/" +:+ Installation.spec_ID created))
                end
              end
            end
          end
        end
      end
    end).

(* internal/operatorui/dashboard_provisioning.go:241-257 DashboardHandler.dashboardArmInstallation *)
Definition dashboardArmInstallation (r : UIRequest) : prog Reply :=
  or_answer (requireDashboardAction r false) (λ session,
    let installationID := path_id r in
    or_dashboard_error (Query (InstallationSpec installationID)) (λ spec,
    or_dashboard_error (Mutate (Arm (Installation.MachineID spec) (Installation.spec_ID spec) (requestID r) (Actor session))) (λ _,
    mret (see_other ("/ui/installations/" +:+ installationID))))).

(* internal/operatorui/dashboard_provisioning.go:259-270 DashboardHandler.dashboardCancelInstallation *)
Definition dashboardCancelInstallation (r : UIRequest) : prog Reply :=
  or_answer (requireDashboardAction r false) (λ session,
    let installationID := path_id r in
    or_dashboard_error (Mutate (Cancel installationID (requestID r) (Actor session))) (λ _,
    mret (see_other ("/ui/installations/" +:+ installationID)))).

(* internal/operatorui/dashboard_management.go:101-116 DashboardHandler.dashboardInstallationManagement *)
Definition dashboardInstallationManagement (r : UIRequest) : prog Reply :=
  or_answer (requireDashboardPage r) (λ session,
    or_dashboard_error (Query (InstallationSpec (path_id r))) (λ spec,
    mret (html (InstallationManagementPage (mkInstallationManagement session (Installation.spec_ID spec) (Installation.MachineID spec)
      (Installation.Hostname (Installation.Profile spec))))))).

(* internal/operatorui/dashboard_management.go:118-137 DashboardHandler.dashboardDeleteInstallation *)
Definition dashboardDeleteInstallation (r : UIRequest) : prog Reply :=
  or_answer (requireDashboardAction r true) (λ session,
    let installationID := path_id r in
    if negb (TrimSpace (form_value r "confirm") =? installationID)%string
    then mret (error_reply StatusBadRequest "installation deletion confirmation does not match") else
    deleted ← do (Mutate (DeleteInst installationID (requestID r) (Actor session)));
    mret (match deleted with
          | Ok _ => see_other "/ui/installations"
          | Err err => if (Code err =? InstallationDeleteConflict)%string
                       then error_reply StatusConflict "cancel the armed assignment before deleting this installation"
                       else writeDashboardError err
          end)).

(** ** Boot trust keys *)

(* internal/operatorui/dashboard_trust.go:33-51 DashboardHandler.dashboardInstallationTrust *)
Definition dashboardInstallationTrust (r : UIRequest) : prog Reply :=
  or_answer (requireDashboardPage r) (λ session,
    or_dashboard_error (Query (InstallationSpec (path_id r))) (λ spec,
    or_dashboard_error (Query (BootTrustKeys (Installation.MachineID spec))) (λ keys,
    mret (html (TrustPage (mkTrustView session (Installation.spec_ID spec) (Installation.MachineID spec)
      (Installation.Hostname (Installation.Profile spec)) keys)))))).

(** Approval and revocation differ in the change they make. *)
Definition change_trust_key (change : string → mutation Boottrust.Key) (r : UIRequest) : prog Reply :=
  let installationID := path_id r in
  or_dashboard_error (Query (InstallationSpec installationID)) (λ spec,
  or_dashboard_error (Mutate (change (Installation.MachineID spec))) (λ _,
  mret (see_other ("/ui/installations/" +:+ installationID +:+ "/trust")))).

(* internal/operatorui/dashboard_trust.go:53-70 DashboardHandler.dashboardApproveBootTrustKey *)
Definition dashboardApproveBootTrustKey (r : UIRequest) : prog Reply :=
  or_answer (requireDashboardAction r true) (λ session,
    change_trust_key (λ mid, ApproveKey mid (path_fingerprint r) (requestID r) (Actor session)) r).

(* internal/operatorui/dashboard_trust.go:72-89 DashboardHandler.dashboardRevokeBootTrustKey *)
Definition dashboardRevokeBootTrustKey (r : UIRequest) : prog Reply :=
  or_answer (requireDashboardAction r true) (λ session,
    change_trust_key (λ mid, RevokeKey mid (path_fingerprint r) (requestID r) (Actor session)) r).

(** ** Users *)

(* internal/operatorui/dashboard_pages.go:187-202 DashboardHandler.dashboardUsers *)
Definition dashboardUsers (r : UIRequest) : prog Reply :=
  or_answer (requireDashboardPage r) (λ session,
    if negb (IsAdmin session) then mret (error_reply StatusForbidden "administrator role required") else
    or_dashboard_error (Query OperatorUsers) (λ users,
    mret (page "users" "Users" "AegisPXE authorization stays independent from the outer identity provider." session (UsersData users)))).

(* internal/operatorui/dashboard_pages.go:204-215 DashboardHandler.dashboardApproveUser *)
Definition dashboardApproveUser (r : UIRequest) : prog Reply :=
  or_answer (requireDashboardAction r true) (λ session,
    or_dashboard_error (Mutate (ApproveUser (path_id r) (TrimSpace (form_value r "role")) (requestID r) (Actor session))) (λ _,
    mret (see_other "/ui/users"))).

(* internal/operatorui/dashboard_pages.go:217-227 DashboardHandler.dashboardBlockUser *)
Definition dashboardBlockUser (r : UIRequest) : prog Reply :=
  or_answer (requireDashboardAction r true) (λ session,
    or_dashboard_error (Mutate (BlockUser (path_id r) (requestID r) (Actor session))) (λ _,
    mret (see_other "/ui/users"))).

(** ** Logs *)

(* internal/operatorui/dashboard_pages.go:229-235 DashboardHandler.dashboardLogs *)
Definition dashboardLogs (r : UIRequest) : prog Reply :=
  or_answer (requireDashboardPage r) (λ session,
    after ← do (ReadLogs LatestSequence);
    mret (page "logs" "Logs" "Live redacted structured logs with client-side filtering and NDJSON export." session (LogsData after))).

Definition quote_mark : string := String (byte_of 34) "".

Definition entries_json (entries : list LogEntry) : json :=
  JObject [("entries", JList ((λ e, JObject [("sequence", JInt (Sequence e)); ("line", JString (Line e))]) <$> entries))].

(* internal/operatorui/dashboard_log_hardening.go:11-33 DashboardHandler.dashboardStableLogFeed *)
Definition dashboardStableLogFeed (r : UIRequest) : prog Reply :=
  or_answer (requireDashboardPageJSON r) (λ _,
    let rawAfter := TrimSpace (Get (q_Query (http r)) "after") in
    match (if (rawAfter =? "")%string then Some 0%Z else ParseUint rawAfter) with
    | None => mret (writeDashboardJSON StatusBadRequest (message_json "after must be an unsigned sequence number"))
    | Some after =>
      entries ← do (ReadLogs (Snapshot after 500));
      mret (writeDashboardJSON StatusOK (entries_json entries))
    end).

(* internal/operatorui/dashboard_log_tail.go:9-9 dashboardInitialLogTail *)
Definition dashboardInitialLogTail : Z := 200.

(** The newest sequence number is read even when the request names one. *)
(* internal/operatorui/dashboard_log_tail.go:11-31 DashboardHandler.dashboardLogTail *)
Definition dashboardLogTail (r : UIRequest) : prog Reply :=
  or_answer (requireDashboardPageJSON r) (λ _,
    let rawBefore := TrimSpace (Get (q_Query (http r)) "before") in
    latest ← do (ReadLogs LatestSequence);
    match (if (rawBefore =? "")%string then Some latest else ParseUint rawBefore) with
    | None => mret (writeDashboardJSON StatusBadRequest (message_json "invalid log sequence"))
    | Some before =>
      entries ← do (ReadLogs (TailThrough before dashboardInitialLogTail));
      mret (writeDashboardJSON StatusOK (entries_json entries))
    end).

(* internal/operatorui/dashboard_log_hardening.go:35-48 DashboardHandler.dashboardStableLogExport *)
Definition dashboardStableLogExport (r : UIRequest) : prog Reply :=
  or_answer (requireDashboardPage r) (λ _,
    entries ← do (ReadLogs (Snapshot 0 100000));
    mret (mkReply StatusOK [("Content-Type", "application/x-ndjson; charset=utf-8");
                            ("Content-Disposition", "attachment; filename=" +:+ quote_mark +:+ "aegispxe-logs.ndjson" +:+ quote_mark);
                            ("X-Content-Type-Options", "nosniff")] None
      (Written (Text (foldr (λ e rest, Line e +:+ nl +:+ rest) "" entries))))).

(** ** The overview *)

(** The events of the first entities, one after the other. *)
Fixpoint events_of (entities : list (string * string)) : prog (result (list Event.Event)) :=
  match entities with
  | [] => mret (Ok [])
  | (entityType, id) :: entities =>
    events ← do (Query (Events entityType id));
    match events with
    | Err err => mret (Err err)
    | Ok events => rest ← events_of entities; mret (rest ← rest; Ok (events ++ rest))
    end
  end.

(** [sort.SliceStable], the newest first: an event goes before those it is not
    older than. *)
Fixpoint insert_event (e : Event.Event) (l : list Event.Event) : list Event.Event :=
  match l with
  | [] => [e]
  | x :: l => if After (Event.OccurredAt x) (Event.OccurredAt e) then x :: insert_event e l else e :: x :: l
  end.

Definition newest_first (l : list Event.Event) : list Event.Event := foldr insert_event [] l.

(* internal/operatorui/dashboard_pages.go:156-185 DashboardHandler.collectRecentEvents *)
Definition collectRecentEvents (machines : list Machine.Machine) (rows : list dashboardInstallationRow) (limit : nat)
    : prog (result (list Event.Event)) :=
  items ← events_of (((λ m, (Event.EntityMachine, Machine.ID m)) <$> take 6 machines) ++
                     ((λ row, (Event.EntityInstallation, Installation.spec_ID (r_Spec row))) <$> take 6 rows));
  mret (items ← items; Ok (take limit (newest_first items))).

Definition count_if {A} (p : A → bool) (l : list A) : Z := Z.of_nat (length (filter (λ x, p x = true) l)).

(* internal/operatorui/dashboard_pages.go:110-154 DashboardHandler.renderDashboardOverview *)
Definition renderDashboardOverview (session : Session) : prog Reply :=
  or_dashboard_error (Query Machines) (λ machines,
  rows ← loadInstallationRows;
  match rows with
  | Err err => mret (writeDashboardError err)
  | Ok rows =>
    or_dashboard_error (Query OperatorUsers) (λ users,
    recent ← collectRecentEvents machines rows 12;
    mret (match recent with
          | Err err => writeDashboardError err
          | Ok recent =>
            page "dashboard" "Dashboard" "Provisioning state, trust and activity without invented lifecycle progress." session
              (OverviewData (take 6 machines) (take 6 rows) users recent (Z.of_nat (length machines))
                (count_if (λ m, (Machine.m_Policy m =? Machine.PolicyProvision)%string) machines)
                (count_if (λ row, is_armed (r_Assignment row)) rows)
                (count_if (λ u, (Identity.u_Status u =? Identity.StatusPendingReview)%string) users))
          end))
  end).

(** ** Assets *)

Definition asset_headers (media : string) : list (string * string) :=
  [("Content-Type", media); ("Cache-Control", "no-cache, max-age=0, must-revalidate"); ("Pragma", "no-cache")].

(* internal/operatorui/dashboard_stable_assets.go:5-10 DashboardHandler.dashboardStableStyle *)
Definition dashboardStableStyle (r : UIRequest) : prog Reply := mret (mkReply StatusOK (asset_headers "text/css; charset=utf-8") None StyleSheet).
(* internal/operatorui/dashboard_stable_assets.go:12-17 DashboardHandler.dashboardStableScript *)
Definition dashboardStableScript (r : UIRequest) : prog Reply :=
  mret (mkReply StatusOK (asset_headers "application/javascript; charset=utf-8") None Script).
End Pages.
