(* ===== verification/Invariant.v ===== *)
(** * The well-formedness invariant of the database

    One predicate per group of tables; [wf] is their conjunction.  Each table
    update of the store has a lemma stating that it preserves them; Reachable.v
    combines these into the invariant of every reachable database. *)

From Stdlib Require Import Sorted.
From S2P Require Import Prelude GoStrings Encoding StringFacts Fault Lifecycle Telemetry Op Db.
From S2P Require Artifact Machine Secureboot Installation Assignment Boottrust Event Identity.
From S2P Require Import StoreTelemetry StoreMachines StoreInstallations StoreTrust StoreUsers StoreDeletion.

(** ** Machines and identifiers *)

Record machines_ok (ms : gmap string Machine.Machine) (ids : gmap (string * string) IdentifierRow) : Prop := {
  mo_row id m : ms !! id = Some m → Machine.ID m = id ∧ validPolicy (Machine.m_Policy m) = true;
  mo_trim id m : ms !! id = Some m → TrimSpace id = id;
  mo_owner k r : ids !! k = Some r → is_Some (ms !! id_machine r);
}.

Definition specs_ok (ms : gmap string Machine.Machine) (ss : gmap string Installation.Spec) : Prop :=
  ∀ id s, ss !! id = Some s →
    Installation.spec_ID s = id ∧ is_Some (ms !! Installation.MachineID s) ∧ Installation.spec_ok s.

(** ** Assignments *)

Record assignments_ok (ss : gmap string Installation.Spec) (xs : gmap string Assignment.Assignment) : Prop := {
  ao_row id x : xs !! id = Some x → Assignment.ID x = id ∧ Assignment.Validate x = Ok tt;
  ao_spec id x : xs !! id = Some x → ∃ s, ss !! Assignment.InstallationID x = Some s ∧
    Installation.MachineID s = Assignment.MachineID x;
  ao_once i j x y : xs !! i = Some x → xs !! j = Some y →
    Assignment.InstallationID x = Assignment.InstallationID y → i = j;
  ao_armed i j x y : xs !! i = Some x → xs !! j = Some y →
    Assignment.a_State x = Assignment.StateArmed → Assignment.a_State y = Assignment.StateArmed →
    Assignment.MachineID x = Assignment.MachineID y → i = j;
}.

(** ** Credentials, lifecycle events and logs *)

Definition credentials_ok (ss : gmap string Installation.Spec) (cs : gmap string CredentialRow) : Prop :=
  ∀ id c, cs !! id = Some c → String.length (cr_secret_sha256 c) = 32 ∧
    ∃ s, ss !! cr_installation c = Some s ∧ Installation.LifecycleCredentialID s = id.

Definition history (iid : string) (es : list Lifecycle.Event) : list Lifecycle.Event :=
  filter (λ e, Lifecycle.InstallationID e = iid) es.

Record lifecycle_ok (ss : gmap string Installation.Spec) (es : list Lifecycle.Event) (seq : Z) : Prop := {
  lo_row e : e ∈ es → is_Some (ss !! Lifecycle.InstallationID e) ∧
    SourceAllowed (Event_Stage e) (Event_Source e) = true ∧ (0 < Lifecycle.Sequence e ≤ seq)%Z;
  lo_seq : (0 ≤ seq)%Z;
  lo_sorted : StronglySorted (λ x y, Lifecycle.Sequence x < Lifecycle.Sequence y)%Z es;
  lo_chain iid : chain "" (Event_Stage <$> history iid es);
  lo_keys iid : NoDup (Lifecycle.IdempotencyKey <$> history iid es);
}.

Definition chunks (iid : string) (cs : list LogChunk) : list LogChunk :=
  filter (λ c, l_InstallationID c = iid) cs.

(** 1, 2, ..., n. *)
Definition upto (n : nat) : list Z := Z.of_nat <$> seq 1 n.

Record logs_ok `{Artifact.Crypto} (ss : gmap string Installation.Spec) (cs : list LogChunk) : Prop := {
  go_row c : c ∈ cs → is_Some (ss !! l_InstallationID c) ∧ LogChunk_Validate c = Ok tt ∧
    RedactLogContent (l_Content c) = l_Content c ∧ l_Digest c = Artifact.SHA256 (l_Content c);
  go_contiguous iid : l_Sequence <$> chunks iid cs = upto (length (chunks iid cs));
  go_size iid : (total_bytes (chunks iid cs) ≤ MaxInstallationLogBytes)%Z;
  go_keys iid : NoDup (l_IdempotencyKey <$> chunks iid cs);
}.

(** ** Boot trust *)

Record keys_ok `{Artifact.Crypto} (ms : gmap string Machine.Machine) (ks : gmap string Boottrust.Key) : Prop := {
  ko_row fp k : ks !! fp = Some k → Boottrust.k_Fingerprint k = fp ∧ is_Some (ms !! Boottrust.k_MachineID k) ∧
    ∃ pub, Boottrust.ParseRSAPublicKeyPEM (Boottrust.k_PublicKeyPEM k) = Ok (pub, fp);
  ko_approved i j x y : ks !! i = Some x → ks !! j = Some y →
    Boottrust.k_State x = Boottrust.KeyApproved → Boottrust.k_State y = Boottrust.KeyApproved →
    Boottrust.k_MachineID x = Boottrust.k_MachineID y → i = j;
}.

Record challenges_ok (ss : gmap string Installation.Spec) (ks : gmap string Boottrust.Key)
    (cs : gmap string CredentialRow) (chs : gmap string ChallengeRow) : Prop := {
  co_spec id r : chs !! id = Some r →
    ∃ s, ss !! cl_installation r = Some s ∧ Installation.MachineID s = cl_machine r;
  co_key id r : chs !! id = Some r →
    ∃ k, ks !! cl_key r = Some k ∧ Boottrust.k_MachineID k = cl_machine r;
  co_used id r : chs !! id = Some r → cl_used_at r ≠ None →
    ∃ cid c, cs !! cid = Some c ∧ cr_installation c = cl_installation r;
}.

(** ** Users and audit events *)

Record users_ok (us : gmap string Identity.User) (ucs : gmap (string * string) OperatorCredentialRow) : Prop := {
  uo_row id u : us !! id = Some u → Identity.ID u = id ∧
    (Identity.u_Status u = Identity.StatusPendingReview → Identity.u_Role u = "") ∧
    (Identity.u_Status u = Identity.StatusEnrollmentRequired ∨ Identity.u_Status u = Identity.StatusActive →
     Identity.u_Role u = Identity.RoleAdmin ∨ Identity.u_Role u = Identity.RoleOperator);
  uo_trim id u : us !! id = Some u → TrimSpace id = id;
  uo_identity i j x y : us !! i = Some x → us !! j = Some y →
    Identity.Provider x = Identity.Provider y → Identity.Subject x = Identity.Subject y → i = j;
  uo_owner k r : ucs !! k = Some r → is_Some (us !! oc_user r);
}.

Record events_ok (es : list Event.Event) (seq : Z) : Prop := {
  eo_seq : (0 ≤ seq)%Z;
  eo_bound e : e ∈ es → (0 < Event.Sequence e ≤ seq)%Z;
  eo_sorted : StronglySorted (λ x y, Event.Sequence x < Event.Sequence y)%Z es;
}.

Record wf `{Artifact.Crypto} (db : DB) : Prop := {
  wf_machines : machines_ok (machines db) (identifiers db);
  wf_specs : specs_ok (machines db) (specs db);
  wf_assignments : assignments_ok (specs db) (assignments db);
  wf_credentials : credentials_ok (specs db) (credentials db);
  wf_lifecycle : lifecycle_ok (specs db) (lifecycle_events db) (lifecycle_seq db);
  wf_logs : logs_ok (specs db) (log_chunks db);
  wf_keys : keys_ok (machines db) (trust_keys db);
  wf_challenges : challenges_ok (specs db) (trust_keys db) (credentials db) (challenges db);
  wf_users : users_ok (users db) (user_credentials db);
  wf_events : events_ok (events db) (event_seq db);
}.

(** ** The empty database *)

Lemma wf_empty `{Artifact.Crypto} : wf empty_db.
Proof.
  unfold empty_db. constructor; simpl.
  all: try (intros ? ?; rewrite lookup_empty; done).
  all: constructor; simpl; try done; try (intros *; rewrite lookup_empty; done); try (intros ?; constructor); intros.
  all: first [match goal with He : _ ∈ [] |- _ => by apply elem_of_nil in He end|constructor].
Qed.

(** ** Lists *)

Lemma StronglySorted_app_snoc {A} (R : A → A → Prop) l x :
  StronglySorted R l → (∀ y, y ∈ l → R y x) → StronglySorted R (l ++ [x]).
Proof.
  induction l as [|y l IH]; intros Hs Hx; simpl; [repeat constructor|].
  apply StronglySorted_inv in Hs as [Hs Hy]. constructor.
  - apply IH; [done|]. intros z Hz. apply Hx. by right.
  - apply Forall_app. split; [done|]. apply Forall_singleton, Hx. by left.
Qed.

Lemma StronglySorted_filter {A} (R : A → A → Prop) (P : A → Prop) `{!∀ x, Decision (P x)} l :
  StronglySorted R l → StronglySorted R (filter P l).
Proof.
  induction 1 as [|x l Hs IH Hx]; [constructor|]. rewrite filter_cons. destruct (decide (P x)); [|done].
  constructor; [done|]. apply Forall_forall. intros y Hy. apply list_elem_of_filter in Hy as [_ Hy].
  rewrite Forall_forall in Hx. by apply Hx.
Qed.

Lemma filter_comm_ne {A} (f : A → string) i j (l : list A) :
  filter (λ x, f x = j) (filter (λ x, f x ≠ i) l) = if decide (i = j) then [] else filter (λ x, f x = j) l.
Proof.
  destruct (decide (i = j)) as [->|Hne].
  - apply elem_of_nil_inv. intros x [? [? _]%list_elem_of_filter]%list_elem_of_filter. done.
  - rewrite list_filter_filter. apply list_filter_iff. intros x. split; [tauto|]. intros <-. auto.
Qed.

Lemma upto_snoc n : upto (S n) = upto n ++ [Z.of_nat (S n)].
Proof. unfold upto. rewrite seq_S, fmap_app. done. Qed.

(** ** Preservation, table by table *)

(** Tables that refer to machines only need the machines to stay. *)
Definition keeps_rows {V} (m m' : gmap string V) : Prop := ∀ k, is_Some (m !! k) → is_Some (m' !! k).

Lemma keeps_rows_insert {V} (m : gmap string V) k v : keeps_rows m (<[k := v]> m).
Proof. intros j Hj. destruct (decide (j = k)) as [->|]; [by rewrite lookup_insert_eq|by rewrite lookup_insert_ne]. Qed.

Lemma keeps_rows_alter {V} (m : gmap string V) f k : keeps_rows m (alter f k m).
Proof. intros j. by rewrite lookup_alter_is_Some. Qed.

Lemma specs_ok_machines ms ms' ss : keeps_rows ms ms' → specs_ok ms ss → specs_ok ms' ss.
Proof. intros Hk H id s Hs. destruct (H id s Hs) as (? & ? & ?). eauto. Qed.

Section Crypto.
Context `{Artifact.Crypto}.

Lemma keys_ok_machines ms ms' ks : keeps_rows ms ms' → keys_ok ms ks → keys_ok ms' ks.
Proof.
  intros Hk [Hr Ha]. split; [|done]. intros fp k Hf. destruct (Hr fp k Hf) as (? & ? & ?). eauto.
Qed.

Lemma machines_ok_alter ms ids f id :
  machines_ok ms ids →
  (∀ m, ms !! id = Some m → Machine.ID (f m) = Machine.ID m ∧ validPolicy (Machine.m_Policy (f m)) = true) →
  machines_ok (alter f id ms) ids.
Proof.
  intros [Hr Ht Ho] Hf. constructor.
  - intros j m [(-> & y & Hy & Hm)|(Hne & Hy)]%lookup_alter_Some.
    + destruct (Hr _ _ Hy), (Hf _ Hy). subst m. split; [congruence|done].
    + subst. by apply Hr.
  - intros j m [(-> & y & Hy & Hm)|(Hne & Hy)]%lookup_alter_Some; by eapply Ht.
  - intros k r Hk. by apply keeps_rows_alter, (Ho k r).
Qed.

Lemma machines_ok_insert ms ids m :
  machines_ok ms ids → ms !! Machine.ID m = None → validPolicy (Machine.m_Policy m) = true →
  TrimSpace (Machine.ID m) = Machine.ID m → machines_ok (<[Machine.ID m := m]> ms) ids.
Proof.
  intros [Hr Ht Ho] Hf Hp Htr. constructor.
  - intros j y [[<- <-]|[? ?]]%lookup_insert_Some; [done|by apply Hr].
  - intros j y [[<- <-]|[? ?]]%lookup_insert_Some; [done|by eapply Ht].
  - intros k r Hk. by apply keeps_rows_insert, (Ho k r).
Qed.

Lemma machines_ok_persist ms ids db' mid stamp l db :
  persist_all mid stamp l db = Ok db' → machines db = ms → identifiers db = ids →
  is_Some (ms !! mid) → machines_ok ms ids → machines_ok ms (identifiers db').
Proof.
  intros (_ & Hall)%persist_all_Ok <- <- Hmid [Hr Ht Ho]. constructor; [done|done|].
  intros k r Hk. specialize (Hall k). rewrite Hk in Hall. simpl in Hall.
  destruct (identifiers db !! k) as [r0|] eqn:E; simpl in Hall.
  - injection Hall as ->. by apply (Ho k r0).
  - case_bool_decide; [|done]. by injection Hall as ->.
Qed.

Lemma machines_ok_delete ms ids mid :
  machines_ok ms ids →
  machines_ok (delete mid ms) (filter (λ p : (string * string) * IdentifierRow, id_machine p.2 ≠ mid) ids).
Proof.
  intros [Hr Ht Ho]. constructor.
  - intros j m [_ ?]%lookup_delete_Some. by apply Hr.
  - intros j m [_ ?]%lookup_delete_Some. by eapply Ht.
  - intros k r [Hk Hne]%map_lookup_filter_Some. simpl in Hne. rewrite lookup_delete_ne by done. by apply (Ho k r).
Qed.

(** *** Specifications *)

Lemma specs_ok_insert ms ss s :
  specs_ok ms ss → is_Some (ms !! Installation.MachineID s) → Installation.spec_ok s →
  specs_ok ms (<[Installation.spec_ID s := s]> ss).
Proof. intros Hs Hm Hok j y [[<- <-]|[_ ?]]%lookup_insert_Some; [done|by apply Hs]. Qed.

Lemma specs_ok_delete ms ss id : specs_ok ms ss → specs_ok ms (delete id ss).
Proof. intros Hs j y [_ ?]%lookup_delete_Some. by apply Hs. Qed.

Lemma specs_ok_delete_machine ms ss mid :
  specs_ok ms ss → map_Forall (λ _ s, Installation.MachineID s ≠ mid) ss → specs_ok (delete mid ms) ss.
Proof.
  intros Hs Hf id s Hid. destruct (Hs id s Hid) as (? & ? & ?). split_and!; try done.
  rewrite lookup_delete_ne; [done|]. intros E. by apply (Hf id s Hid).
Qed.

Lemma keys_ok_delete_machine ms ks mid :
  keys_ok ms ks → map_Forall (λ _ k, Boottrust.k_MachineID k ≠ mid) ks → keys_ok (delete mid ms) ks.
Proof.
  intros [Hr Ha] Hf. split; [|done]. intros fp k Hk. destruct (Hr fp k Hk) as (? & ? & ?). split_and!; try done.
  rewrite lookup_delete_ne; [done|]. intros E. by apply (Hf fp k Hk).
Qed.

Lemma keys_ok_filter ms ks (P : string * Boottrust.Key → Prop) `{!∀ x, Decision (P x)} :
  keys_ok ms ks → keys_ok ms (filter P ks).
Proof.
  intros [Hr Ha]. split.
  - intros fp k [? _]%map_lookup_filter_Some. by apply Hr.
  - intros i j x y [Hi _]%map_lookup_filter_Some [Hj _]%map_lookup_filter_Some. by apply Ha.
Qed.

(** More specifications: the tables that refer to them keep their rows. *)
Lemma tables_more_specs ss ss' xs cs es n lcs ks chs :
  ss ⊆ ss' → assignments_ok ss xs → credentials_ok ss cs → lifecycle_ok ss es n → logs_ok ss lcs →
  challenges_ok ss ks cs chs →
  assignments_ok ss' xs ∧ credentials_ok ss' cs ∧ lifecycle_ok ss' es n ∧ logs_ok ss' lcs ∧
  challenges_ok ss' ks cs chs.
Proof.
  intros Hsub [A1 A2 A3 A4] Hc [L1 L2 L3 L4 L5] [G1 G2 G3 G4] [C1 C2 C3].
  assert (∀ k s, ss !! k = Some s → ss' !! k = Some s) as Hl by (intros; by eapply lookup_weaken).
  split_and!.
  - split; [done| |done|done]. intros id x Hx. destruct (A2 id x Hx) as (s & ? & ?). exists s. auto.
  - intros id c Hid. destruct (Hc id c Hid) as (? & s & ? & ?). split; [done|]. exists s. auto.
  - split; [|done..]. intros e He. destruct (L1 e He) as ([s ?] & ? & ?). split_and!; eauto; lia.
  - split; [|done..]. intros c Hin. destruct (G1 c Hin) as ([s ?] & ? & ? & ?). split_and!; eauto.
  - split; [|done..]. intros id r Hr. destruct (C1 id r Hr) as (s & ? & ?). exists s. auto.
Qed.

(** Removing an installation together with everything that refers to it. *)
Lemma tables_without_spec iid ss xs cs es n lcs ks chs :
  assignments_ok ss xs → credentials_ok ss cs → lifecycle_ok ss es n → logs_ok ss lcs →
  challenges_ok ss ks cs chs →
  let cs' := filter (λ p : string * CredentialRow, cr_installation p.2 ≠ iid) cs in
  assignments_ok (delete iid ss) (filter (λ p : string * Assignment.Assignment, Assignment.InstallationID p.2 ≠ iid) xs) ∧
  credentials_ok (delete iid ss) cs' ∧
  lifecycle_ok (delete iid ss) (filter (λ e, Lifecycle.InstallationID e ≠ iid) es) n ∧
  logs_ok (delete iid ss) (filter (λ c, l_InstallationID c ≠ iid) lcs) ∧
  challenges_ok (delete iid ss) ks cs' (filter (λ p : string * ChallengeRow, cl_installation p.2 ≠ iid) chs).
Proof.
  intros [A1 A2 A3 A4] Hc [L1 L2 L3 L4 L5] [G1 G2 G3 G4] [C1 C2 C3]. split_and!.
  - split.
    + intros id x [Hx _]%map_lookup_filter_Some. by apply A1.
    + intros id x [Hx Hne]%map_lookup_filter_Some. destruct (A2 id x Hx) as (s & ? & ?).
      exists s. by rewrite lookup_delete_ne.
    + intros i j x y [? _]%map_lookup_filter_Some [? _]%map_lookup_filter_Some. by apply A3.
    + intros i j x y [? _]%map_lookup_filter_Some [? _]%map_lookup_filter_Some. by apply A4.
  - intros id c [Hid Hne]%map_lookup_filter_Some. destruct (Hc id c Hid) as (? & s & ? & ?).
    split; [done|]. exists s. by rewrite lookup_delete_ne.
  - split; [|done|by apply StronglySorted_filter|..].
    + intros e [Hne He]%list_elem_of_filter. destruct (L1 e He) as (? & ? & ?).
      by rewrite lookup_delete_ne.
    + intros j. unfold history. rewrite filter_comm_ne. destruct (decide (iid = j)); [done|apply L4].
    + intros j. unfold history. rewrite filter_comm_ne. destruct (decide (iid = j)); [constructor|apply L5].
  - split.
    + intros c [Hne He]%list_elem_of_filter. destruct (G1 c He) as (? & ? & ?). by rewrite lookup_delete_ne.
    + intros j. unfold chunks. rewrite filter_comm_ne. destruct (decide (iid = j)); [done|apply G2].
    + intros j. unfold chunks. rewrite filter_comm_ne. destruct (decide (iid = j)); [done|apply G3].
    + intros j. unfold chunks. rewrite filter_comm_ne. destruct (decide (iid = j)); [constructor|apply G4].
  - split.
    + intros id r [Hr Hne]%map_lookup_filter_Some. destruct (C1 id r Hr) as (s & ? & ?).
      exists s. by rewrite lookup_delete_ne.
    + intros id r [Hr Hne]%map_lookup_filter_Some. by apply (C2 id).
    + intros id r [Hr Hne]%map_lookup_filter_Some Hu. destruct (C3 id r Hr Hu) as (cid & c & Hcid & E).
      exists cid, c. split; [|done]. apply map_lookup_filter_Some. split; [done|]. simpl in *. congruence.
Qed.

(** *** Assignments *)

Lemma assignments_ok_insert ss xs x :
  assignments_ok ss xs → Assignment.Validate x = Ok tt →
  (∃ s, ss !! Assignment.InstallationID x = Some s ∧ Installation.MachineID s = Assignment.MachineID x) →
  map_Forall (λ _ y, Assignment.InstallationID y ≠ Assignment.InstallationID x) xs →
  (Assignment.a_State x = Assignment.StateArmed → map_Forall (λ _ y,
     ¬ (Assignment.MachineID y = Assignment.MachineID x ∧ Assignment.a_State y = Assignment.StateArmed)) xs) →
  assignments_ok ss (<[Assignment.ID x := x]> xs).
Proof.
  intros [A1 A2 A3 A4] Hv Hs Hone Harm. split.
  - intros id y [[<- <-]|[_ Hy]]%lookup_insert_Some; [done|by apply A1].
  - intros id y [[<- <-]|[_ Hy]]%lookup_insert_Some; [done|by apply (A2 id)].
  - intros i j y z [[<- <-]|[_ Hy]]%lookup_insert_Some [[<- <-]|[_ Hz]]%lookup_insert_Some E; [done|..].
    + by destruct (Hone _ _ Hz).
    + by destruct (Hone _ _ Hy).
    + by apply (A3 i j y z).
  - intros i j y z [[<- <-]|[_ Hy]]%lookup_insert_Some [[<- <-]|[_ Hz]]%lookup_insert_Some Ey Ez E; [done|..].
    + destruct (Harm Ey _ _ Hz). by split.
    + destruct (Harm Ez _ _ Hy). by split.
    + by apply (A4 i j y z).
Qed.

(** An armed assignment becomes cancelled or consumed. *)
Lemma assignments_ok_update ss xs id x y :
  assignments_ok ss xs → xs !! id = Some x → Assignment.Validate y = Ok tt →
  Assignment.ID y = Assignment.ID x → Assignment.MachineID y = Assignment.MachineID x →
  Assignment.InstallationID y = Assignment.InstallationID x → Assignment.a_State y ≠ Assignment.StateArmed →
  assignments_ok ss (<[id := y]> xs).
Proof.
  intros [A1 A2 A3 A4] Hx Hv Ei Em En Hs. split.
  - intros j z [[<- <-]|[_ Hz]]%lookup_insert_Some; [|by apply A1]. split; [|done]. rewrite Ei. by apply A1.
  - intros j z [[<- <-]|[_ Hz]]%lookup_insert_Some; [|by apply (A2 j)]. rewrite En, Em. by apply (A2 id).
  - intros i j y' z [[<- <-]|[_ Hy]]%lookup_insert_Some [[<- <-]|[_ Hz]]%lookup_insert_Some E; [done|..].
    + apply (A3 _ _ x z); try done. congruence.
    + apply (A3 _ _ y' x); try done. congruence.
    + by apply (A3 i j y' z).
  - intros i j y' z [[<- <-]|[_ Hy]]%lookup_insert_Some [[<- <-]|[_ Hz]]%lookup_insert_Some Ey Ez E; try done.
    by apply (A4 i j y' z).
Qed.

Lemma Validate_cancelled x t :
  (0 < t)%Z → Assignment.Validate x = Ok tt → Assignment.a_State x = Assignment.StateArmed →
  Assignment.Validate (cancelled t x) = Ok tt.
Proof.
  intros Ht Hv Hs. unfold Assignment.Validate in *. rewrite Hs in Hv. simpl in *. ok_inv. bool_inv.
  unfold IsZero in *. repeat match goal with Hz : _ = _ |- _ => rewrite Hz end. simpl.
  rewrite !(proj2 (String.eqb_neq _ _)), !(proj2 (Z.eqb_neq _ _)) by (done || unfold zeroTime; lia). done.
Qed.

Lemma Validate_consumed x t :
  (0 < t)%Z → Assignment.Validate x = Ok tt → Assignment.a_State x = Assignment.StateArmed →
  Assignment.Validate (consumed t x) = Ok tt.
Proof.
  intros Ht Hv Hs. unfold Assignment.Validate in *. rewrite Hs in Hv. simpl in *. ok_inv. bool_inv.
  unfold IsZero in *. repeat match goal with Hz : _ = _ |- _ => rewrite Hz end. simpl.
  rewrite !(proj2 (String.eqb_neq _ _)), !(proj2 (Z.eqb_neq _ _)) by (done || unfold zeroTime; lia). done.
Qed.

(** *** Credentials *)

Lemma credentials_ok_insert ss cs id c s :
  credentials_ok ss cs → String.length (cr_secret_sha256 c) = 32 → ss !! cr_installation c = Some s →
  Installation.LifecycleCredentialID s = id → credentials_ok ss (<[id := c]> cs).
Proof. intros Hc Hl Hs Hid j d [[<- <-]|[_ Hd]]%lookup_insert_Some; [eauto|by apply Hc]. Qed.

(** Rows that keep their installation and secret. *)
Definition same_credential (c d : CredentialRow) : Prop :=
  cr_installation d = cr_installation c ∧ cr_secret_sha256 d = cr_secret_sha256 c.

Lemma credentials_ok_fmap ss cs f :
  (∀ c, same_credential c (f c)) → credentials_ok ss cs → credentials_ok ss (f <$> cs).
Proof.
  intros Hf Hc id d (c & <- & Hid)%lookup_fmap_Some. destruct (Hf c) as [-> ->]. by apply Hc.
Qed.

Lemma credentials_ok_alter ss cs f id :
  (∀ c, same_credential c (f c)) → credentials_ok ss cs → credentials_ok ss (alter f id cs).
Proof.
  intros Hf Hc j d [(-> & c & Hid & ->)|(_ & Hd)]%lookup_alter_Some; [|by apply Hc].
  destruct (Hf c) as [-> ->]. by apply Hc.
Qed.

Lemma same_revoke iid t c : same_credential c (revoke_credential_row iid t c).
Proof. unfold revoke_credential_row. by case_bool_decide. Qed.

Lemma same_touch t c : same_credential c (touch_credential_row t c).
Proof. done. Qed.

(** The challenges need every released credential to stay. *)
Definition covers (cs cs' : gmap string CredentialRow) : Prop :=
  ∀ id c, cs !! id = Some c → ∃ id' c', cs' !! id' = Some c' ∧ cr_installation c' = cr_installation c.

Lemma challenges_ok_credentials ss ks cs cs' chs :
  covers cs cs' → challenges_ok ss ks cs chs → challenges_ok ss ks cs' chs.
Proof.
  intros Hc [C1 C2 C3]. split; [done..|]. intros id r Hr Hu.
  destruct (C3 id r Hr Hu) as (cid & c & Hcid & E). destruct (Hc _ _ Hcid) as (i' & c' & ? & ?).
  exists i', c'. split; congruence.
Qed.

Lemma covers_insert cs id c : cs !! id = None → covers cs (<[id := c]> cs).
Proof.
  intros Hf j d Hd. exists j, d. split; [|done]. rewrite lookup_insert_ne; [done|]. intros ->. congruence.
Qed.
Lemma covers_fmap cs f : (∀ c, same_credential c (f c)) → covers cs (f <$> cs).
Proof. intros Hf j d Hd. exists j, (f d). rewrite lookup_fmap, Hd. split; [done|apply Hf]. Qed.
Lemma covers_alter cs f id : (∀ c, same_credential c (f c)) → covers cs (alter f id cs).
Proof.
  intros Hf j d Hd. destruct (decide (id = j)) as [->|Hne].
  - exists j, (f d). rewrite lookup_alter_eq, Hd. split; [done|apply Hf].
  - exists j, d. by rewrite lookup_alter_ne.
Qed.

(** *** Lifecycle events and logs *)

Lemma history_snoc iid es e :
  history iid (es ++ [e]) =
  if decide (Lifecycle.InstallationID e = iid) then history iid es ++ [e] else history iid es.
Proof.
  unfold history. rewrite filter_app, filter_cons, filter_nil.
  destruct (decide (Lifecycle.InstallationID e = iid)); [done|by rewrite app_nil_r].
Qed.

Lemma lifecycle_ok_snoc ss es seq e :
  lifecycle_ok ss es seq → is_Some (ss !! Lifecycle.InstallationID e) →
  SourceAllowed (Event_Stage e) (Event_Source e) = true → Lifecycle.Sequence e = (seq + 1)%Z →
  CanAdvance (match last (history (Lifecycle.InstallationID e) es) with Some x => Event_Stage x | None => "" end)
    (Event_Stage e) = true →
  head (filter (λ x, Lifecycle.IdempotencyKey x = Lifecycle.IdempotencyKey e)
          (history (Lifecycle.InstallationID e) es)) = None →
  lifecycle_ok ss (es ++ [e]) (seq + 1).
Proof.
  intros [L1 L2 L3 L4 L5] Hs Hsrc Hseq Hadv Hkey. split; [|lia| | |].
  - intros x [Hx| ->%list_elem_of_singleton]%elem_of_app.
    + destruct (L1 x Hx) as (? & ? & ?). split_and!; try done; lia.
    + split_and!; try done; lia.
  - apply StronglySorted_app_snoc; [done|]. intros y Hy. destruct (L1 y Hy) as (_ & _ & ?). lia.
  - intros iid. rewrite history_snoc. destruct (decide _) as [<-|]; [|apply L4].
    rewrite fmap_app. apply chain_snoc. split; [apply L4|]. rewrite fmap_last.
    by destruct (last (history (Lifecycle.InstallationID e) es)).
  - intros iid. rewrite history_snoc. destruct (decide _) as [<-|]; [|apply L5].
    rewrite fmap_app. apply NoDup_app. split_and!; [apply L5| |apply NoDup_singleton].
    intros k Hk ->%list_elem_of_singleton. apply list_elem_of_fmap in Hk as (x & Ex & Hx).
    apply head_None in Hkey. apply (elem_of_nil x). rewrite <- Hkey. by apply list_elem_of_filter.
Qed.

Lemma chunks_snoc iid cs c :
  chunks iid (cs ++ [c]) = if decide (l_InstallationID c = iid) then chunks iid cs ++ [c] else chunks iid cs.
Proof.
  unfold chunks. rewrite filter_app, filter_cons, filter_nil.
  destruct (decide (l_InstallationID c = iid)); [done|by rewrite app_nil_r].
Qed.

Lemma total_bytes_app l1 l2 : total_bytes (l1 ++ l2) = (total_bytes l1 + total_bytes l2)%Z.
Proof. induction l1 as [|c l1 IH]; simpl; [done|]. rewrite IH. lia. Qed.

(** With contiguous sequence numbers the largest is their number. *)
Lemma last_sequence_upto l n : l_Sequence <$> l = upto n → last_sequence l = Z.of_nat n.
Proof.
  assert (∀ l, last_sequence l = foldr Z.max 0%Z (l_Sequence <$> l)) as E
    by (intros l'; induction l' as [|c l' IH]; simpl; [done|f_equal; apply IH]).
  intros Hu. rewrite E, Hu. clear.
  assert (∀ l x, foldr Z.max 0%Z (l ++ [x]) = Z.max (foldr Z.max 0%Z l) (Z.max x 0)) as Happ
    by (intros l x; induction l as [|y l IH]; simpl; lia).
  induction n as [|n IH]; [done|]. rewrite upto_snoc, Happ, IH. lia.
Qed.

Lemma logs_ok_snoc ss cs c :
  logs_ok ss cs → is_Some (ss !! l_InstallationID c) → LogChunk_Validate c = Ok tt →
  RedactLogContent (l_Content c) = l_Content c → l_Digest c = Artifact.SHA256 (l_Content c) →
  l_Sequence c = (last_sequence (chunks (l_InstallationID c) cs) + 1)%Z →
  (total_bytes (chunks (l_InstallationID c) cs) + len (l_Content c) ≤ MaxInstallationLogBytes)%Z →
  head (filter (λ x, l_IdempotencyKey x = l_IdempotencyKey c) (chunks (l_InstallationID c) cs)) = None →
  logs_ok ss (cs ++ [c]).
Proof.
  intros [G1 G2 G3 G4] Hs Hv Hr Hd Hseq Hsize Hkey. split.
  - intros x [Hx| ->%list_elem_of_singleton]%elem_of_app; [by apply G1|done].
  - intros iid. rewrite chunks_snoc. destruct (decide _) as [<-|]; [|apply G2].
    pose proof (G2 (l_InstallationID c)) as Hc. rewrite fmap_app, length_app, Hc. simpl.
    rewrite Nat.add_1_r, upto_snoc. f_equal. f_equal. rewrite Hseq, (last_sequence_upto _ _ Hc). lia.
  - intros iid. rewrite chunks_snoc. destruct (decide _) as [<-|]; [|apply G3].
    rewrite total_bytes_app. simpl. lia.
  - intros iid. rewrite chunks_snoc. destruct (decide _) as [<-|]; [|apply G4].
    rewrite fmap_app. apply NoDup_app. split_and!; [apply G4| |apply NoDup_singleton].
    intros k Hk ->%list_elem_of_singleton. apply list_elem_of_fmap in Hk as (x & Ex & Hx).
    apply head_None in Hkey. apply (elem_of_nil x). rewrite <- Hkey. by apply list_elem_of_filter.
Qed.

(** *** Boot trust *)

Lemma keys_ok_insert ms ks k pub :
  keys_ok ms ks → ks !! Boottrust.k_Fingerprint k = None → is_Some (ms !! Boottrust.k_MachineID k) →
  Boottrust.ParseRSAPublicKeyPEM (Boottrust.k_PublicKeyPEM k) = Ok (pub, Boottrust.k_Fingerprint k) →
  Boottrust.k_State k = Boottrust.KeyPending → keys_ok ms (<[Boottrust.k_Fingerprint k := k]> ks).
Proof.
  intros [Hr Ha] Hf Hm Hp Hs. split.
  - intros fp x [[<- <-]|[_ Hx]]%lookup_insert_Some; [eauto|by apply Hr].
  - intros i j x y [[<- <-]|[_ Hx]]%lookup_insert_Some [[<- <-]|[_ Hy]]%lookup_insert_Some Ex Ey E;
      rewrite ?Hs in *; try done. by apply (Ha i j x y).
Qed.

(** A key keeps its identity; it becomes approved only when no other key of the
    machine is. *)
Lemma keys_ok_update ms ks fp k k' :
  keys_ok ms ks → ks !! fp = Some k →
  Boottrust.k_Fingerprint k' = Boottrust.k_Fingerprint k → Boottrust.k_MachineID k' = Boottrust.k_MachineID k →
  Boottrust.k_PublicKeyPEM k' = Boottrust.k_PublicKeyPEM k →
  (Boottrust.k_State k' = Boottrust.KeyApproved → Boottrust.k_State k = Boottrust.KeyApproved ∨
     map_Forall (λ f x, ¬ (Boottrust.k_MachineID x = Boottrust.k_MachineID k ∧
                           Boottrust.k_State x = Boottrust.KeyApproved ∧ f ≠ fp)) ks) →
  keys_ok ms (<[fp := k']> ks).
Proof.
  intros [Hr Ha] Hk E1 E2 E3 Hs. split.
  - intros f x [[<- <-]|[_ Hx]]%lookup_insert_Some; [|by apply Hr]. rewrite E1, E2, E3. by apply Hr.
  - intros i j x y [[<- <-]|[Hi Hx]]%lookup_insert_Some [[<- <-]|[Hj Hy]]%lookup_insert_Some Ex Ey E; [done|..].
    + destruct (Hs Ex) as [Hk'|Hall]; [apply (Ha _ _ k y); congruence|].
      destruct (Hall _ _ Hy). split_and!; congruence.
    + destruct (Hs Ey) as [Hk'|Hall]; [apply (Ha _ _ x k); congruence|].
      destruct (Hall _ _ Hx). split_and!; congruence.
    + by apply (Ha i j x y).
Qed.

(** Keys that stay with the same machine keep the challenges. *)
Lemma challenges_ok_keys ss ks ks' cs chs :
  (∀ fp k, ks !! fp = Some k → ∃ k', ks' !! fp = Some k' ∧ Boottrust.k_MachineID k' = Boottrust.k_MachineID k) →
  challenges_ok ss ks cs chs → challenges_ok ss ks' cs chs.
Proof.
  intros Hk [C1 C2 C3]. split; [done| |done]. intros id r Hr. destruct (C2 id r Hr) as (k & Hf & E).
  destruct (Hk _ _ Hf) as (k' & ? & ?). exists k'. split; congruence.
Qed.

Lemma challenges_ok_insert ss ks cs chs id r s k :
  challenges_ok ss ks cs chs → ss !! cl_installation r = Some s → Installation.MachineID s = cl_machine r →
  ks !! cl_key r = Some k → Boottrust.k_MachineID k = cl_machine r →
  (cl_used_at r ≠ None → ∃ cid c, cs !! cid = Some c ∧ cr_installation c = cl_installation r) →
  challenges_ok ss ks cs (<[id := r]> chs).
Proof.
  intros [C1 C2 C3] Hs Es Hk Ek Hu. split; intros j x [[<- <-]|[_ Hx]]%lookup_insert_Some; eauto.
Qed.

(** *** Users *)

Lemma users_ok_insert us ucs u :
  users_ok us ucs → us !! Identity.ID u = None → TrimSpace (Identity.ID u) = Identity.ID u →
  Identity.u_Role u = "" → Identity.u_Status u = Identity.StatusPendingReview →
  map_Forall (λ _ y, ¬ (Identity.Provider y = Identity.Provider u ∧ Identity.Subject y = Identity.Subject u)) us →
  users_ok (<[Identity.ID u := u]> us) ucs.
Proof.
  intros [U1 U2 U3 U4] Hf Ht Hr Hs Hone. split.
  - intros j y [[<- <-]|[_ Hy]]%lookup_insert_Some; [|by apply U1]. split; [done|]. rewrite Hs.
    split; [done|]. by intros [?|?].
  - intros j y [[<- <-]|[_ Hy]]%lookup_insert_Some; [done|by eapply U2].
  - intros i j x y [[<- <-]|[_ Hx]]%lookup_insert_Some [[<- <-]|[_ Hy]]%lookup_insert_Some E1 E2; [done|..].
    + by destruct (Hone _ _ Hy).
    + by destruct (Hone _ _ Hx).
    + by apply (U3 i j x y).
  - intros k r Hk. by apply keeps_rows_insert, (U4 k r).
Qed.

Lemma users_ok_update us ucs id u f :
  users_ok us ucs → us !! id = Some u →
  Identity.ID (f u) = Identity.ID u → Identity.Provider (f u) = Identity.Provider u →
  Identity.Subject (f u) = Identity.Subject u →
  (Identity.u_Status (f u) = Identity.StatusPendingReview → Identity.u_Role (f u) = "") →
  (Identity.u_Status (f u) = Identity.StatusEnrollmentRequired ∨ Identity.u_Status (f u) = Identity.StatusActive →
   Identity.u_Role (f u) = Identity.RoleAdmin ∨ Identity.u_Role (f u) = Identity.RoleOperator) →
  users_ok (alter f id us) ucs.
Proof.
  intros [U1 U2 U3 U4] Hu E1 E2 E3 Hp Hr. split.
  - intros j y [(-> & z & Hz & ->)|(_ & Hy)]%lookup_alter_Some; [|by apply U1]. simplify_eq.
    rewrite E1. split; [by apply U1|done].
  - intros j y [(-> & z & Hz & ->)|(_ & Hy)]%lookup_alter_Some; by eapply U2.
  - intros i j x y [(-> & z & Hz & ->)|(_ & Hx)]%lookup_alter_Some [(-> & z' & Hz' & ->)|(_ & Hy)]%lookup_alter_Some Ea Eb;
      simplify_eq; try done.
    + apply (U3 _ _ u y); congruence.
    + apply (U3 _ _ x u); congruence.
    + by apply (U3 i j x y).
  - intros k r Hk. by apply keeps_rows_alter, (U4 k r).
Qed.

Lemma users_ok_credential us ucs k r :
  users_ok us ucs → is_Some (us !! oc_user r) → users_ok us (<[k := r]> ucs).
Proof.
  intros [U1 U2 U3 U4] Hr. split; try done. intros j x [[<- <-]|[_ Hx]]%lookup_insert_Some; [done|by apply (U4 j)].
Qed.

(** *** Audit events *)

Lemma events_ok_audit e db : events_ok (events db) (event_seq db) → events_ok (events (audit e db)) (event_seq (audit e db)).
Proof.
  intros [E1 E2 E3]. unfold audit. simpl. split; [lia| |].
  - intros x [Hx| ->%list_elem_of_singleton]%elem_of_app; [destruct (E2 x Hx); lia|simpl; lia].
  - apply StronglySorted_app_snoc; [done|]. intros y Hy. destruct (E2 y Hy). simpl. lia.
Qed.

Lemma events_ok_filter es seq (P : Event.Event → Prop) `{!∀ x, Decision (P x)} :
  events_ok es seq → events_ok (filter P es) seq.
Proof.
  intros [E1 E2 E3]. split; [done| |by apply StronglySorted_filter].
  intros e [_ He]%list_elem_of_filter. by apply E2.
Qed.

Lemma wf_audit e db : wf db → wf (audit e db).
Proof. intros []. split; try done. by apply events_ok_audit. Qed.

End Crypto.
