(* ===== verification/Reachable.v ===== *)
(** * Every reachable database is well formed

    One lemma per operation of the store, then the invariant by induction on
    the steps. *)

From Stdlib Require Import Sorted.
From stdpp Require Import relations.
From S2P Require Import Prelude GoStrings Regex Encoding StringFacts Fault Lifecycle Telemetry Op Db.
From S2P Require Artifact Machine Secureboot Installation Assignment Boottrust Event Identity.
From S2P Require Import StoreTelemetry StoreMachines StoreInstallations StoreTrust StoreUsers StoreDeletion.
From S2P Require Import Store Invariant.

(** Identifiers made of a prefix and hexadecimal digits have no white space. *)
Lemma TrimSpace_id prefix raw :
  all_bytes is_graph prefix = true → TrimSpace (prefix +:+ hex_encode raw) = prefix +:+ hex_encode raw.
Proof.
  intros Hp. apply TrimSpace_graph. rewrite all_bytes_app, Hp. simpl. auto with aegis.
Qed.

Section Reachable.
Context `{Artifact.Crypto}.

(** ** Machines *)

(** A machine row can change in place. *)
Lemma wf_alter_machine db f id :
  wf db → (∀ m, machines db !! id = Some m → Machine.ID (f m) = Machine.ID m ∧ validPolicy (Machine.m_Policy (f m)) = true) →
  wf (set_machines (alter f id (machines db)) db).
Proof.
  intros [] Hf. pose proof (keeps_rows_alter (machines db) f id) as Hk. split; try done; simpl.
  - by apply machines_ok_alter.
  - by eapply specs_ok_machines.
  - by eapply keys_ok_machines.
Qed.

Lemma wf_insert_machine db m :
  wf db → machines db !! Machine.ID m = None → validPolicy (Machine.m_Policy m) = true →
  TrimSpace (Machine.ID m) = Machine.ID m → wf (set_machines (<[Machine.ID m := m]> (machines db)) db).
Proof.
  intros [] Hf Hp Ht. pose proof (keeps_rows_insert (machines db) (Machine.ID m) m) as Hk. split; try done; simpl.
  - by apply machines_ok_insert.
  - by eapply specs_ok_machines.
  - by eapply keys_ok_machines.
Qed.

Lemma wf_persist db db' mid stamp l :
  wf db → persist_all mid stamp l db = Ok db' → is_Some (machines db !! mid) → wf db'.
Proof.
  intros [] Hp Hm. pose proof (persist_all_Ok _ _ _ _ _ Hp) as [E _]. rewrite E.
  split; try done; simpl. by eapply machines_ok_persist.
Qed.

Lemma wf_DiscoverMachine obs rid a db m created db' :
  wf db → run (DiscoverMachine obs rid) a db = (Ok (m, created), db') → wf db'.
Proof.
  intros Hwf (state & ids & id & db1 & db2 & e & Hs & Hids & Hp & -> & (row & Hrow & _) & Hcase)%DiscoverMachine_Ok.
  apply wf_audit. pose proof (persist_all_Ok _ _ _ _ _ Hp) as [E _].
  eapply (wf_persist db1); [|exact Hp|rewrite E in Hrow; exists row; exact Hrow].
  destruct Hcase as [(_ & _ & (raw & ->) & Hi)|(_ & _ & ->)].
  - apply insert_machine_Ok in Hi as [Hf ->].
    apply (wf_insert_machine db _ Hwf Hf); [done|by apply TrimSpace_id].
  - apply wf_alter_machine; [done|]. intros m0 Hm. split; [done|].
    by destruct (mo_row _ _ (wf_machines _ Hwf) _ _ Hm).
Qed.

Lemma wf_SetMachineNickname mid n rid actor a db m db' :
  wf db → run (SetMachineNickname mid n rid actor) a db = (Ok m, db') → wf db'.
Proof.
  intros Hwf (n' & row & _ & Hrow & [[-> _]|[e ->]])%SetMachineNickname_Ok; [done|].
  apply wf_audit, wf_alter_machine; [done|]. intros m0 Hm. split; [done|].
  by destruct (mo_row _ _ (wf_machines _ Hwf) _ _ Hm).
Qed.

Lemma wf_SetMachinePolicy mid p rid actor a db m db' :
  wf db → run (SetMachinePolicy mid p rid actor) a db = (Ok m, db') → wf db'.
Proof.
  intros Hwf (Hp & _ & row & Hrow & [(-> & _ & _)|(_ & _ & e & ->)])%SetMachinePolicy_Ok; [done|].
  by apply wf_audit, wf_alter_machine.
Qed.

(** ** Installations *)

(** The server's own event, repeated or appended. *)
Lemma wf_server_step iid stage key message rid db db' :
  wf db → SourceAllowed stage SourceServer = true → server_step iid stage key message rid db db' → wf db'.
Proof.
  intros Hwf Hsrc [(-> & _)|(Hk & Hadv & Hs & t1 & ->)]; [done|].
  destruct Hwf. split; try done. simpl. by apply lifecycle_ok_snoc.
Qed.

Lemma spec_ok_assign id t s : Installation.spec_ok s → Installation.spec_ok (assign_identity id t s).
Proof. intros []. by constructor. Qed.

Lemma wf_insert_spec s db db' :
  wf db → Installation.spec_ok s → insert_spec s db = Ok db' → wf db'.
Proof.
  intros [] Hok (Hf & Hm & ->)%insert_spec_Ok.
  destruct (tables_more_specs (specs db) (<[Installation.spec_ID s := s]> (specs db)) (assignments db)
    (credentials db) (lifecycle_events db) (lifecycle_seq db) (log_chunks db) (trust_keys db) (challenges db))
    as (? & ? & ? & ? & ?); try done; [by apply insert_subseteq|].
  split; try done. by apply specs_ok_insert.
Qed.

Lemma wf_CreateInstallationSpec spec rid a db s db' :
  wf db → run (CreateInstallationSpec spec rid) a db = (Ok s, db') → wf db'.
Proof.
  intros Hwf (Hv & id & rid' & e & db1 & db2 & -> & Hi & Hstep & -> & _)%CreateInstallationSpec_Ok.
  apply wf_audit. eapply wf_server_step; [| |exact Hstep]; [|done].
  eapply wf_insert_spec; [done| |exact Hi]. by apply spec_ok_assign, (Installation.Spec_Validate_ok _ tt).
Qed.

Lemma wf_ArmInstallation mid iid rid actor a db x db' :
  wf db → run (ArmInstallation mid iid rid actor) a db = (Ok x, db') → wf db'.
Proof.
  intros Hwf (_ & _ & _ & _ & (s & Hs & Em) & Ha & Hm & id & rid' & db1 & db2 & -> & Hv & Hi & Hstep & ->)%ArmInstallation_Ok.
  apply wf_audit. eapply wf_server_step; [| |exact Hstep]; [|done].
  apply insert_assignment_Ok in Hi as (Hf & _ & _ & Hone & Harm & ->). destruct Hwf. split; try done.
  apply assignments_ok_insert; try done. by exists s.
Qed.

(** The state of an armed assignment is changed once. *)
Lemma wf_update_armed f id db db' n :
  wf db → (∀ x, Assignment.Validate x = Ok tt → Assignment.a_State x = Assignment.StateArmed →
    Assignment.Validate (f x) = Ok tt ∧ Assignment.ID (f x) = Assignment.ID x ∧
    Assignment.MachineID (f x) = Assignment.MachineID x ∧
    Assignment.InstallationID (f x) = Assignment.InstallationID x ∧
    Assignment.a_State (f x) ≠ Assignment.StateArmed) →
  update_armed f id db = (db', n) → wf db'.
Proof.
  intros Hwf Hf [(x & Hx & Hs & _ & ->)|[_ ->]]%update_armed_inv; [|done].
  destruct Hwf. destruct (ao_row _ _ wf_assignments _ _ Hx) as [_ Hv].
  destruct (Hf x Hv Hs) as (? & ? & ? & ? & ?). split; try done. by eapply assignments_ok_update.
Qed.

Lemma wf_CancelAssignment iid rid actor a db x db' :
  wf db → sane a → run (CancelAssignment iid rid actor) a db = (Ok x, db') → wf db'.
Proof.
  intros Hwf [Ht _] (y & [db1 n] & e & _ & _ & _ & _ & Hu & ->)%CancelAssignment_Ok. apply wf_audit. simpl.
  eapply wf_update_armed; [done| |exact Hu]. intros z Hv Hs. split_and!; try done. by apply Validate_cancelled.
Qed.

Lemma wf_ConsumeAssignment iid rid actor a db x db' :
  wf db → sane a → run (ConsumeAssignment iid rid actor) a db = (Ok x, db') → wf db'.
Proof.
  intros Hwf [Ht _] (y & db1 & e & _ & _ & _ & _ & Hu & ->)%ConsumeAssignment_Ok. apply wf_audit.
  eapply wf_update_armed; [done| |exact Hu]. intros z Hv Hs. split_and!; try done. by apply Validate_consumed.
Qed.

Lemma wf_DeleteInstallation iid rid actor a db u db' :
  wf db → run (DeleteInstallation iid rid actor) a db = (Ok u, db') → wf db'.
Proof.
  intros [] (_ & _ & _ & _ & ->)%DeleteInstallation_Ok. apply wf_audit.
  destruct (tables_without_spec (TrimSpace iid) (specs db) (assignments db) (credentials db) (lifecycle_events db)
    (lifecycle_seq db) (log_chunks db) (trust_keys db) (challenges db)) as (? & ? & ? & ? & ?); try done.
  split; try done; simpl; [by apply specs_ok_delete|by apply events_ok_filter].
Qed.

Lemma wf_DeleteMachine mid rid actor a db u db' :
  wf db → run (DeleteMachine mid rid actor) a db = (Ok u, db') → wf db'.
Proof.
  intros [] (m & db1 & Hm & Hch & Hd & ->)%DeleteMachine_Ok. apply wf_audit.
  apply delete_machine_Ok in Hd as [(? & _)|(_ & _ & Hss & Hxs & Hks & Hcs & ->)]; [done|].
  split; try done; simpl in *.
  - by apply machines_ok_delete.
  - by apply specs_ok_delete_machine.
  - by apply keys_ok_delete_machine, Hks; apply keys_ok_filter.
  - destruct wf_challenges as [C1 C2 C3]. split; [done| |done]. intros id r Hr.
    destruct (C2 id r Hr) as (k & Hk & Ek). exists k. split; [|done]. apply map_lookup_filter_Some. split; [done|].
    simpl. rewrite Ek. by apply (Hcs id r).
  - by apply events_ok_filter.
Qed.

(** ** Credentials and telemetry *)

Lemma wf_fmap_credentials db f :
  (∀ c, same_credential c (f c)) → wf db → wf (set_credentials (f <$> credentials db) db).
Proof.
  intros Hf []. split; try done; simpl; [by apply credentials_ok_fmap|].
  by eapply challenges_ok_credentials; [apply covers_fmap|].
Qed.

Lemma wf_alter_credentials db f id :
  (∀ c, same_credential c (f c)) → wf db → wf (set_credentials (alter f id (credentials db)) db).
Proof.
  intros Hf []. split; try done; simpl; [by apply credentials_ok_alter|].
  by eapply challenges_ok_credentials; [apply covers_alter|].
Qed.

Lemma wf_insert_credential db db' id c s :
  wf db → insert_credential id c db = Ok db' → specs db !! cr_installation c = Some s →
  Installation.LifecycleCredentialID s = id → wf db'.
Proof.
  intros [] (-> & Hf & _ & _ & Hl)%insert_credential_Ok Hs Hid. split; try done; simpl.
  - by eapply credentials_ok_insert.
  - by eapply challenges_ok_credentials; [apply covers_insert|].
Qed.

Lemma wf_revoke db iid t : wf db → wf (revoke_credentials iid t db).1.
Proof. apply wf_fmap_credentials. intros c. apply same_revoke. Qed.

Lemma wf_IssueLifecycleCredential iid rid actor ttl a db ic db' :
  wf db → run (IssueLifecycleCredential iid rid actor ttl) a db = (Ok ic, db') → wf db'.
Proof.
  intros Hwf (_ & spec & secret & db1 & e & Hs & _ & Hi & -> & _)%IssueLifecycleCredential_Ok.
  apply wf_audit. by eapply wf_insert_credential.
Qed.

Lemma wf_AuthenticateLifecycleCredential iid s a db c db' :
  wf db → run (AuthenticateLifecycleCredential iid s) a db = (Ok c, db') → wf db'.
Proof.
  intros Hwf (id & row & _ & _ & _ & _ & -> & _)%AuthenticateLifecycleCredential_Ok.
  apply wf_alter_credentials; [|done]. intros d. apply same_touch.
Qed.

Lemma wf_VerifyLifecycleMAC iid m p k t b s a db u db' :
  wf db → run (VerifyLifecycleMAC iid m p k t b s) a db = (Ok u, db') → wf db'.
Proof.
  intros Hwf (id & row & text & _ & _ & _ & _ & _ & _ & ->)%VerifyLifecycleMAC_Ok.
  apply wf_fmap_credentials; [|done]. intros d. by case_bool_decide.
Qed.

Lemma wf_RevokeLifecycleCredential iid rid actor a db u db' :
  wf db → run (RevokeLifecycleCredential iid rid actor) a db = (Ok u, db') → wf db'.
Proof. intros Hwf ->%RevokeLifecycleCredential_Ok. by apply wf_revoke. Qed.

Lemma wf_AppendLifecycleEvent report rid a db e dup db' :
  wf db → run (AppendLifecycleEvent report rid) a db = (Ok (e, dup), db') → wf db'.
Proof.
  intros Hwf (Hv & Hs & [(_ & -> & _)|(_ & Hk & Hadv & -> & ->)])%AppendLifecycleEvent_Ok; [done|].
  apply Report_Validate_Ok in Hv as (_ & _ & Hsrc & _).
  unfold accept_report. set (db1 := audit _ _).
  assert (wf db1) as Hwf1.
  { apply wf_audit. destruct Hwf. split; try done. simpl. by apply lifecycle_ok_snoc. }
  unfold revoke_if_terminal. destruct (Terminal (r_Stage report)); [by apply wf_revoke|done].
Qed.

Lemma wf_AppendInstallationLogChunk chunk a db c dup db' :
  wf db → run (AppendInstallationLogChunk chunk) a db = (Ok (c, dup), db') → wf db'.
Proof.
  intros Hwf (Hv & Hs & [(_ & -> & _)|(_ & Hk & Hseq & Hsize & -> & ->)])%AppendInstallationLogChunk_Ok; [done|].
  destruct Hwf. split; try done. simpl. apply logs_ok_snoc; try done. simpl. apply Redact_idem.
Qed.

(** ** Boot trust *)

(** A key changes its state or its timestamps. *)
Lemma wf_update_key db mid fp (P : Boottrust.Key → bool) f :
  wf db → (∀ k, Boottrust.k_Fingerprint (f k) = Boottrust.k_Fingerprint k ∧
    Boottrust.k_MachineID (f k) = Boottrust.k_MachineID k ∧ Boottrust.k_PublicKeyPEM (f k) = Boottrust.k_PublicKeyPEM k) →
  (∀ k, key_of mid fp db = Some k → Boottrust.k_State (f k) = Boottrust.KeyApproved →
    Boottrust.k_State k = Boottrust.KeyApproved ∨ approved_unique mid fp db = true) →
  wf (update_key mid fp P f db).
Proof.
  intros Hwf Hf Hs. unfold update_key. destruct (key_of mid fp db) as [k|] eqn:Ek; [|done].
  destruct (P k); [|done]. apply key_of_Some in Ek as [Hk Em]. destruct (Hf k) as (E1 & E2 & E3).
  destruct Hwf. split; try done; simpl.
  - eapply keys_ok_update; try done. intros Ha. destruct (Hs k eq_refl Ha) as [?|Hu]; [by left|].
    right. unfold approved_unique in Hu. apply bool_decide_eq_true in Hu. by rewrite Em.
  - eapply challenges_ok_keys; [|done]. intros fp' k' Hk'. destruct (decide (fp = fp')) as [<-|Hne].
    + exists (f k). rewrite lookup_insert_eq. split; [done|]. congruence.
    + exists k'. by rewrite lookup_insert_ne.
Qed.

Lemma wf_RegisterBootTrustKey iid pem ek rid a db k created db' :
  wf db → run (RegisterBootTrustKey iid pem ek rid) a db = (Ok (k, created), db') → wf db'.
Proof.
  intros Hwf (key & fp & mid & Hp & _ & [(_ & k0 & Hk & _ & _ & ->)|(_ & Hst & Hfp & _ & Hpem & db1 & e & Hi & ->)])%RegisterBootTrustKey_Ok.
  - apply wf_update_key; [done|by intros|]. intros k1 _ Hs. by left.
  - apply wf_audit. apply insert_trust_key_Ok in Hi as (Hf & Hm & ->).
    destruct Hwf. split; try done; simpl.
    + eapply keys_ok_insert; try done. by rewrite Hpem, Hfp.
    + eapply challenges_ok_keys; [|done]. intros fp' k' Hk'. exists k'. split; [|done].
      rewrite lookup_insert_ne; [done|]. intros E. congruence.
Qed.

Lemma wf_ApproveBootTrustKey mid fp rid actor a db k db' :
  wf db → run (ApproveBootTrustKey mid fp rid actor) a db = (Ok k, db') → wf db'.
Proof.
  intros Hwf (_ & k0 & Hk & _ & [(_ & _ & ->)|(_ & Hu & e & ->)])%ApproveBootTrustKey_Ok; [done|].
  apply wf_audit, wf_update_key; [done|by intros|]. intros. by right.
Qed.

Lemma wf_RevokeBootTrustKey mid fp rid actor a db k db' :
  wf db → run (RevokeBootTrustKey mid fp rid actor) a db = (Ok k, db') → wf db'.
Proof.
  intros Hwf (k0 & Hk & [(_ & _ & ->)|(_ & e & ->)])%RevokeBootTrustKey_Ok; [done|].
  apply wf_audit, wf_update_key; [done|by intros|]. intros k1 _ Hs. done.
Qed.

Lemma wf_CreateBootTrustChallenge iid fp rid a db c db' :
  wf db → run (CreateBootTrustChallenge iid fp rid) a db = (Ok c, db') → wf db'.
Proof.
  intros Hwf (mid & k & (s & x & m & Hs & Em & _ & _ & Hm & _) & [Hk Ek]%key_of_Some & _ & _ & _ & _ & _ & Hi)%CreateBootTrustChallenge_Ok.
  apply insert_challenge_Ok in Hi as (_ & _ & _ & _ & ->). destruct Hwf. split; try done; simpl.
  eapply challenges_ok_insert; try done. simpl. rewrite Ek. by apply (mo_trim _ _ wf_machines _ _ Hm).
Qed.

(** The used challenge has its credential. *)
Lemma wf_use_challenge db t ct expiry id r :
  wf db → challenges db !! id = Some r →
  (∃ cid c, credentials db !! cid = Some c ∧ cr_installation c = cl_installation r) →
  wf (use_challenge t ct expiry id db).
Proof.
  intros Hwf Hr Hc. unfold use_challenge. rewrite Hr. case_bool_decide; [|done].
  destruct Hwf. split; try done; simpl. destruct wf_challenges as [C1 C2 C3].
  destruct (C1 _ _ Hr) as (s & ? & ?), (C2 _ _ Hr) as (k & ? & ?). by eapply challenges_ok_insert.
Qed.

Lemma wf_CompleteBootTrustChallenge iid id s rid a db rel db' :
  wf db → run (CompleteBootTrustChallenge iid id s rid) a db = (Ok rel, db') → wf db'.
Proof.
  intros Hwf [(_ & -> & _)|(_ & r & k & pub & spec & secret & seed & db1 & e & Hp & _ & _ & Hi & ->)]%CompleteBootTrustChallenge_Ok;
    [done|]. destruct Hp.
  apply wf_audit. eapply wf_use_challenge.
  - by eapply wf_insert_credential.
  - apply insert_credential_Ok in Hi as (-> & _). simpl. exact pr_row.
  - apply insert_credential_Ok in Hi as (-> & _). simpl. do 2 eexists. rewrite lookup_insert_eq. by split.
Qed.

(** ** Users *)

Lemma wf_update_user db id f :
  wf db → (∀ u, users db !! id = Some u → Identity.ID (f u) = Identity.ID u ∧
    Identity.Provider (f u) = Identity.Provider u ∧ Identity.Subject (f u) = Identity.Subject u ∧
    (Identity.u_Status (f u) = Identity.StatusPendingReview → Identity.u_Role (f u) = "") ∧
    (Identity.u_Status (f u) = Identity.StatusEnrollmentRequired ∨ Identity.u_Status (f u) = Identity.StatusActive →
     Identity.u_Role (f u) = Identity.RoleAdmin ∨ Identity.u_Role (f u) = Identity.RoleOperator)) →
  wf (update_user f id db).
Proof.
  intros Hwf Hf. destruct (users db !! id) as [u|] eqn:Eu.
  - destruct (Hf u eq_refl) as (? & ? & ? & ? & ?). destruct Hwf. split; try done. simpl. by eapply users_ok_update.
  - unfold update_user. assert (alter f id (users db) = users db) as ->; [|by destruct db].
    apply alter_id. by rewrite Eu.
Qed.

Lemma wf_ResolveOperatorUser p s d e rid a db u created db' :
  wf db → run (ResolveOperatorUser p s d e rid) a db = (Ok (u, created), db') → wf db'.
Proof.
  intros Hwf [(_ & -> & _)|(_ & Hnone & [raw Hid] & Hp & Hs & Hr & Hst & db1 & ev & Hi & ->)]%ResolveOperatorUser_Ok; [done|].
  apply wf_audit. apply insert_user_Ok in Hi as (Hf & Hall & ->). destruct Hwf. split; try done; simpl.
  apply users_ok_insert; try done.
  - rewrite Hid. by apply TrimSpace_id.
  - intros i y Hy. apply (Hall i y Hy).
Qed.

Lemma wf_approve_user db role actor t id e :
  wf db → role = Identity.RoleAdmin ∨ role = Identity.RoleOperator →
  wf (audit e (update_user (approve_user role actor t) id db)).
Proof. intros Hwf Hr. apply wf_audit, wf_update_user; [done|]. intros u _. by split_and!. Qed.

Lemma wf_ClaimInitialAdmin uid rid actor a db r db' :
  wf db → run (ClaimInitialAdmin uid rid actor) a db = (r, db') → wf db'.
Proof.
  intros Hwf Hr. apply run_bind_keeps in Hr as [(u & Hr)|(e & Hr & _)]; [..|intros; apply keeps_OperatorUser].
  - apply claim_tx_Ok in Hr as (_ & _ & _ & e & ->). apply wf_approve_user; auto.
  - apply run_atomic in Hr as ->; [done|apply atomic_claim_tx].
Qed.

Lemma wf_ApproveOperatorUser uid role rid actor a db r db' :
  wf db → run (ApproveOperatorUser uid role rid actor) a db = (r, db') → wf db'.
Proof.
  intros Hwf Hr. apply run_bind_keeps in Hr as [(u & Hr)|(e & Hr & _)]; [..|intros; apply keeps_OperatorUser].
  - apply approve_tx_Ok in Hr as (Hv & _ & _ & e & ->). apply wf_approve_user; [done|].
    unfold Identity.ValidateRole in Hv. ok_inv. bool_inv.
    match goal with Hd : _ ∨ _ |- _ => destruct Hd; bool_inv; auto end.
  - apply run_atomic in Hr as ->; [done|apply atomic_approve_tx].
Qed.

Lemma wf_BlockOperatorUser uid rid actor a db r db' :
  wf db → run (BlockOperatorUser uid rid actor) a db = (r, db') → wf db'.
Proof.
  intros Hwf Hr. apply run_bind_keeps in Hr as [(u & Hr)|(e & Hr & _)]; [..|intros; apply keeps_OperatorUser].
  - apply block_tx_Ok in Hr as (_ & _ & e & ->). apply wf_audit, wf_update_user; [done|].
    intros v _. split_and!; try done. by intros [?|?].
  - apply run_atomic in Hr as ->; [done|apply atomic_block_tx].
Qed.

Lemma upsert_user_credential_Ok uid rp c t db db' :
  upsert_user_credential uid rp c t db = Ok db' →
  ∃ k r, db' = set_user_credentials (<[k := r]> (user_credentials db)) db ∧ oc_user r = uid ∧
    (is_Some (users db !! uid) ∨ ∃ r0, user_credentials db !! k = Some r0 ∧ oc_user r0 = uid).
Proof.
  unfold upsert_user_credential. destruct (user_credentials db !! (rp, wc_ID c)) as [r0|] eqn:E; intros Hu; constraint_inv;
    do 2 eexists; split_and!; eauto.
Qed.

Lemma wf_SaveOperatorCredential uid rp c rid actor en a db u db' :
  wf db → run (SaveOperatorCredential uid rp c rid actor en) a db = (Ok u, db') → wf db'.
Proof.
  intros Hwf (user & db1 & Hu & Hup & Hcase)%SaveOperatorCredential_Ok.
  apply upsert_user_credential_Ok in Hup as (k & r & -> & Hr & Hown).
  destruct (uo_row _ _ (wf_users _ Hwf) _ _ Hu) as (Hid & _ & Hrole).
  assert (wf (set_user_credentials (<[k := r]> (user_credentials db)) db)) as Hwf1.
  { destruct Hwf. split; try done. simpl. apply users_ok_credential; [done|]. rewrite Hr, Hid. by eexists. }
  destruct Hcase as [[_ ->]|(_ & Hst & e & ->)]; [done|].
  apply wf_audit, wf_update_user; [done|]. intros v Hv. simpl in Hv. rewrite Hid, Hu in Hv. injection Hv as <-.
  split_and!; try done. intros _. apply Hrole. by left.
Qed.

(** ** All operations *)

(** The lemma of the operation a successful run is of. *)
Ltac by_operation Hwf Ha Hr :=
  lazymatch type of Hr with
  | run (DiscoverMachine _ _) _ _ = (Ok ?x, _) => destruct x; eapply wf_DiscoverMachine; [exact Hwf|exact Hr]
  | run (SetMachineNickname _ _ _ _) _ _ = _ => eapply wf_SetMachineNickname; [exact Hwf|exact Hr]
  | run (SetMachinePolicy _ _ _ _) _ _ = _ => eapply wf_SetMachinePolicy; [exact Hwf|exact Hr]
  | run (CreateInstallationSpec _ _) _ _ = _ => eapply wf_CreateInstallationSpec; [exact Hwf|exact Hr]
  | run (ArmInstallation _ _ _ _) _ _ = _ => eapply wf_ArmInstallation; [exact Hwf|exact Hr]
  | run (CancelAssignment _ _ _) _ _ = _ => eapply wf_CancelAssignment; [exact Hwf|exact Ha|exact Hr]
  | run (ConsumeAssignment _ _ _) _ _ = _ => eapply wf_ConsumeAssignment; [exact Hwf|exact Ha|exact Hr]
  | run (DeleteInstallation _ _ _) _ _ = _ => eapply wf_DeleteInstallation; [exact Hwf|exact Hr]
  | run (DeleteMachine _ _ _) _ _ = _ => eapply wf_DeleteMachine; [exact Hwf|exact Hr]
  | run (IssueLifecycleCredential _ _ _ _) _ _ = _ => eapply wf_IssueLifecycleCredential; [exact Hwf|exact Hr]
  | run (AuthenticateLifecycleCredential _ _) _ _ = _ => eapply wf_AuthenticateLifecycleCredential; [exact Hwf|exact Hr]
  | run (VerifyLifecycleMAC _ _ _ _ _ _ _) _ _ = _ => eapply wf_VerifyLifecycleMAC; [exact Hwf|exact Hr]
  | run (RevokeLifecycleCredential _ _ _) _ _ = _ => eapply wf_RevokeLifecycleCredential; [exact Hwf|exact Hr]
  | run (AppendLifecycleEvent _ _) _ _ = (Ok ?x, _) => destruct x; eapply wf_AppendLifecycleEvent; [exact Hwf|exact Hr]
  | run (AppendInstallationLogChunk _) _ _ = (Ok ?x, _) => destruct x; eapply wf_AppendInstallationLogChunk; [exact Hwf|exact Hr]
  | run (RegisterBootTrustKey _ _ _ _) _ _ = (Ok ?x, _) => destruct x; eapply wf_RegisterBootTrustKey; [exact Hwf|exact Hr]
  | run (ApproveBootTrustKey _ _ _ _) _ _ = _ => eapply wf_ApproveBootTrustKey; [exact Hwf|exact Hr]
  | run (RevokeBootTrustKey _ _ _ _) _ _ = _ => eapply wf_RevokeBootTrustKey; [exact Hwf|exact Hr]
  | run (CreateBootTrustChallenge _ _ _) _ _ = _ => eapply wf_CreateBootTrustChallenge; [exact Hwf|exact Hr]
  | run (CompleteBootTrustChallenge _ _ _ _) _ _ = _ => eapply wf_CompleteBootTrustChallenge; [exact Hwf|exact Hr]
  | run (ResolveOperatorUser _ _ _ _ _) _ _ = (Ok ?x, _) => destruct x; eapply wf_ResolveOperatorUser; [exact Hwf|exact Hr]
  | run (SaveOperatorCredential _ _ _ _ _ _) _ _ = _ => eapply wf_SaveOperatorCredential; [exact Hwf|exact Hr]
  end.

Lemma wf_exec_op o a db r db' : wf db → sane a → run (exec_op o) a db = (r, db') → wf db'.
Proof.
  intros Hwf Ha Hr. destruct (rereads o) eqn:Eo.
  - destruct o; try done; cbn [exec_op] in Hr; apply run_discard in Hr as [(x & Hr & _)|(e & Hr & _)];
      first [eapply wf_ClaimInitialAdmin; [exact Hwf|exact Hr]|eapply wf_ApproveOperatorUser; [exact Hwf|exact Hr]
            |eapply wf_BlockOperatorUser; [exact Hwf|exact Hr]].
  - destruct r as [u|e]; [|by apply run_atomic in Hr as ->; [|apply atomic_exec_op]].
    destruct o; try discriminate Eo; cbn [exec_op] in Hr; apply run_discard in Hr as [(x & Hr & _)|(e & _ & [=])];
      by_operation Hwf Ha Hr.
Qed.

Lemma wf_step db db' : wf db → step db db' → wf db'.
Proof. intros Hwf (o & a & r & Ha & Hr). by eapply wf_exec_op. Qed.

Lemma wf_steps db db' : wf db → rtc step db db' → wf db'.
Proof. intros Hwf. induction 1 as [|x y z Hs _ IH]; [done|]. by apply IH, (wf_step x). Qed.

Lemma wf_reachable db : reachable db → wf db.
Proof. apply wf_steps, wf_empty. Qed.

End Reachable.
