(* ===== verification/Evolution.v ===== *)
(** * How a step changes the records of an installation

    [persists iid db db']: the installation's specification is the same in both
    databases, its lifecycle history and its log only grew at the end, its
    assignment is unchanged or left the armed state, its credential kept its
    secret and, once revoked, its revocation.  Every step of the store either
    makes the installation persist or deletes it. *)

From stdpp Require Import relations.
From S2P Require Import Prelude GoStrings Encoding StringFacts Fault Lifecycle Telemetry Op Db.
From S2P Require Artifact Machine Installation Assignment Boottrust Event Identity.
From S2P Require Import StoreTelemetry StoreMachines StoreInstallations StoreTrust StoreUsers StoreDeletion.
From S2P Require Import Store Invariant Reachable.
From S2P Require Import Regex.

Definition assignment_step (x y : Assignment.Assignment) : Prop :=
  y = x ∨ (Assignment.a_State x = Assignment.StateArmed ∧ Assignment.a_State y ≠ Assignment.StateArmed ∧
           Assignment.InstallationID y = Assignment.InstallationID x ∧ Assignment.MachineID y = Assignment.MachineID x).

Definition credential_step (c d : CredentialRow) : Prop :=
  cr_installation d = cr_installation c ∧ cr_secret_sha256 d = cr_secret_sha256 c ∧
  cr_expires_at d = cr_expires_at c ∧ (cr_revoked_at c ≠ None → cr_revoked_at d = cr_revoked_at c).

(** A used challenge keeps its response. *)
Definition challenge_step (r r' : ChallengeRow) : Prop :=
  cl_installation r' = cl_installation r ∧ (cl_used_at r ≠ None → r' = r).

Record persists (iid : string) (db db' : DB) : Prop := {
  pe_spec : specs db' !! iid = specs db !! iid;
  pe_history : installation_history iid db `prefix_of` installation_history iid db';
  pe_logs : installation_logs iid db `prefix_of` installation_logs iid db';
  pe_assignment id x : assignments db !! id = Some x → Assignment.InstallationID x = iid →
    ∃ y, assignments db' !! id = Some y ∧ assignment_step x y;
  pe_credential id c : credentials db !! id = Some c → cr_installation c = iid →
    ∃ d, credentials db' !! id = Some d ∧ credential_step c d;
  pe_challenge id r : challenges db !! id = Some r → cl_installation r = iid →
    ∃ r', challenges db' !! id = Some r' ∧ challenge_step r r';
}.

(** ** A preorder *)

#[global] Instance persists_refl iid : Reflexive (persists iid).
Proof.
  intros db. split; try done.
  - intros id x Hx _. exists x. split; [done|by left].
  - intros id c Hc _. by exists c.
  - intros id r Hr _. by exists r.
Qed.

#[global] Instance persists_trans iid : Transitive (persists iid).
Proof.
  intros db1 db2 db3 [S1 H1 L1 A1 C1 G1] [S2 H2 L2 A2 C2 G2]. split.
  - congruence.
  - by etrans.
  - by etrans.
  - intros id x Hx Ex. destruct (A1 id x Hx Ex) as (y & Hy & Sy).
    assert (Assignment.InstallationID y = iid) as Ey by (destruct Sy as [->|(_ & _ & ? & _)]; congruence).
    destruct (A2 id y Hy Ey) as (z & Hz & Sz). exists z. split; [done|].
    destruct Sy as [->|(? & ? & ? & ?)]; [done|]. destruct Sz as [->|(? & _)]; [by right|done].
  - intros id c Hc Ec. destruct (C1 id c Hc Ec) as (d & Hd & E1 & E2 & E3 & R1).
    destruct (C2 id d Hd) as (e & He & F1 & F2 & F3 & R2); [congruence|]. exists e. split; [done|].
    split_and!; try congruence. intros Hn. rewrite R2; rewrite R1; done.
  - intros id r Hr Er. destruct (G1 id r Hr Er) as (r1 & Hr1 & E1 & U1).
    destruct (G2 id r1 Hr1) as (r2 & Hr2 & E2 & U2); [congruence|]. exists r2. split; [done|].
    split; [congruence|]. intros Hu. rewrite U2; rewrite U1; done.
Qed.

(** A change to the other tables. *)
Lemma persists_other iid db db' :
  specs db' = specs db → assignments db' = assignments db → credentials db' = credentials db →
  lifecycle_events db' = lifecycle_events db → log_chunks db' = log_chunks db →
  challenges db' = challenges db → persists iid db db'.
Proof.
  intros E1 E2 E3 E4 E5 E6. split.
  - by rewrite E1.
  - unfold installation_history. by rewrite E4.
  - unfold installation_logs. by rewrite E5.
  - intros id x Hx _. exists x. rewrite E2. split; [done|by left].
  - intros id c Hc _. exists c. by rewrite E3.
  - intros id r Hr _. exists r. by rewrite E6.
Qed.

Lemma persists_audit iid e db : persists iid db (audit e db).
Proof. by apply persists_other. Qed.

Lemma persists_event iid e db : persists iid db (add_lifecycle_event e db).
Proof.
  split; try done.
  - unfold installation_history. simpl. rewrite filter_app. by apply prefix_app_r.
  - intros id x Hx _. exists x. split; [done|by left].
  - intros id c Hc _. by exists c.
  - intros id r Hr _. by exists r.
Qed.

Lemma persists_chunk iid c db : persists iid db (add_log_chunk c db).
Proof.
  split; try done.
  - unfold installation_logs. simpl. rewrite filter_app. by apply prefix_app_r.
  - intros id x Hx _. exists x. split; [done|by left].
  - intros id d Hd _. by exists d.
  - intros id r Hr _. by exists r.
Qed.

Lemma persists_credentials iid db cs :
  (∀ id c, credentials db !! id = Some c → ∃ d, cs !! id = Some d ∧ credential_step c d) →
  persists iid db (set_credentials cs db).
Proof.
  intros Hc. split; try done.
  - intros id x Hx _. exists x. split; [done|by left].
  - intros id c Hid _. by apply Hc.
  - intros id r Hr _. by exists r.
Qed.

Lemma persists_assignments iid db xs :
  (∀ id x, assignments db !! id = Some x → ∃ y, xs !! id = Some y ∧ assignment_step x y) →
  persists iid db (set_assignments xs db).
Proof.
  intros Hx. split; try done.
  - intros id x Hid _. by apply Hx.
  - intros id d Hd _. by exists d.
  - intros id r Hr _. by exists r.
Qed.

Lemma persists_challenges iid db cs :
  (∀ id r, challenges db !! id = Some r → ∃ r', cs !! id = Some r' ∧ challenge_step r r') →
  persists iid db (set_challenges cs db).
Proof.
  intros Hc. split; try done.
  - intros id x Hx _. exists x. split; [done|by left].
  - intros id d Hd _. by exists d.
  - intros id r Hr _. by apply Hc.
Qed.

Lemma credential_step_revoke iid t c : credential_step c (revoke_credential_row iid t c).
Proof. unfold revoke_credential_row. case_bool_decide as Hd; [|done]. split_and!; try done. by destruct Hd as [_ ->]. Qed.

Lemma persists_revoke iid j t db : persists iid db (revoke_credentials j t db).1.
Proof.
  apply persists_credentials. intros id c Hc. exists (revoke_credential_row j t c).
  rewrite lookup_fmap, Hc. split; [done|apply credential_step_revoke].
Qed.

Lemma persists_insert_credential iid id c db db' : insert_credential id c db = Ok db' → persists iid db db'.
Proof.
  unfold insert_credential. intros Hi. constraint_inv. apply persists_credentials.
  intros j d Hd. exists d. split; [|done]. rewrite lookup_insert_ne; [done|]. congruence.
Qed.

Lemma persists_server_step iid j stage key message rid db db' :
  server_step j stage key message rid db db' → persists iid db db'.
Proof. intros [(-> & _)|(_ & _ & _ & t & ->)]; [done|]. apply persists_event. Qed.

Lemma persists_update_armed iid f id db db' n :
  (∀ x, Assignment.a_State (f x) ≠ Assignment.StateArmed ∧ Assignment.InstallationID (f x) = Assignment.InstallationID x
        ∧ Assignment.MachineID (f x) = Assignment.MachineID x) →
  update_armed f id db = (db', n) → persists iid db db'.
Proof.
  intros Hf [(x & Hx & Hs & _ & ->)|[_ ->]]%update_armed_inv; [|done].
  apply persists_assignments. intros j y Hy. destruct (decide (id = j)) as [<-|Hne].
  - assert (y = x) as -> by congruence. exists (f x). rewrite lookup_insert_eq. split; [done|right].
    destruct (Hf x) as (? & ? & ?). done.
  - exists y. rewrite lookup_insert_ne by done. split; [done|by left].
Qed.

Lemma persists_update_key iid mid fp P f db : persists iid db (update_key mid fp P f db).
Proof. unfold update_key. repeat case_match; try done; by apply persists_other. Qed.

Lemma persists_use_challenge iid t ct e id db : persists iid db (use_challenge t ct e id db).
Proof.
  unfold use_challenge. destruct (challenges db !! id) as [r|] eqn:Hr; [|done]. case_bool_decide as Hu; [|done].
  apply persists_challenges. intros j x Hx. destruct (decide (id = j)) as [<-|Hne].
  - eexists. rewrite lookup_insert_eq. split; [done|]. split; [by simplify_eq|]. intros Hn. simplify_eq.
  - exists x. by rewrite lookup_insert_ne.
Qed.

Lemma persists_persist_all iid mid stamp l db db' : persist_all mid stamp l db = Ok db' → persists iid db db'.
Proof. intros [-> _]%persist_all_Ok. by apply persists_other. Qed.

Section Evolution.
Context `{Artifact.Crypto}.

(** ** The operations *)

Lemma persists_insert_spec iid s db db' : is_Some (specs db !! iid) → insert_spec s db = Ok db' → persists iid db db'.
Proof.
  intros Hi (Hf & _ & ->)%insert_spec_Ok. split; try done; simpl.
  - rewrite lookup_insert_ne; [done|]. intros E. rewrite <- E, Hf in Hi. by destruct Hi.
  - intros id x Hx _. exists x. split; [done|by left].
  - intros id c Hc _. by exists c.
  - intros id r Hr _. by exists r.
Qed.

Lemma persists_insert_assignment iid x db db' : insert_assignment x db = Ok db' → persists iid db db'.
Proof.
  intros (Hf & _ & _ & _ & _ & ->)%insert_assignment_Ok. apply persists_assignments. intros j y Hy.
  exists y. rewrite lookup_insert_ne by congruence. split; [done|by left].
Qed.

(** Deleting another installation. *)
Lemma persists_delete_dependents iid j db :
  j ≠ iid → persists iid db (set_specs (delete j (specs db)) (delete_dependents j db)).
Proof.
  intros Hne. split; simpl.
  - by rewrite lookup_delete_ne.
  - unfold installation_history. simpl. rewrite list_filter_filter_l; [done|]. congruence.
  - unfold installation_logs. simpl. rewrite list_filter_filter_l; [done|]. congruence.
  - intros id x Hx E. exists x. split; [|by left]. apply map_lookup_filter_Some. split; [done|]. simpl. congruence.
  - intros id c Hc E. exists c. split; [|done]. apply map_lookup_filter_Some. split; [done|]. simpl. congruence.
  - intros id r Hr E. exists r. split; [|done]. apply map_lookup_filter_Some. split; [done|]. simpl. congruence.
Qed.

Lemma persists_accept_report iid report rid t db : persists iid db (accept_report report rid t db).
Proof.
  unfold accept_report, revoke_if_terminal. etrans; [apply persists_event|].
  etrans; [apply persists_audit|]. destruct (Terminal (r_Stage report)); [apply persists_revoke|done].
Qed.
(** A change, then an audit event. *)
Lemma persists_then_audit iid e db db' : persists iid db db' → persists iid db (audit e db').
Proof. intros Hp. etrans; [exact Hp|apply persists_audit]. Qed.

Lemma persists_machines iid ms db : persists iid db (set_machines ms db).
Proof. by apply persists_other. Qed.

Lemma persists_users iid us db : persists iid db (set_users us db).
Proof. by apply persists_other. Qed.

Lemma persists_DiscoverMachine iid obs rid a db x db' :
  run (DiscoverMachine obs rid) a db = (Ok x, db') → persists iid db db'.
Proof.
  destruct x as [m created]. intros (state & ids & id & db1 & db2 & e & _ & _ & Hp & -> & _ & Hcase)%DiscoverMachine_Ok.
  apply persists_then_audit. etrans; [|by eapply persists_persist_all].
  destruct Hcase as [(_ & _ & _ & [_ ->]%insert_machine_Ok)|(_ & _ & ->)]; apply persists_machines.
Qed.

Lemma persists_SetMachineNickname iid mid n rid actor a db x db' :
  run (SetMachineNickname mid n rid actor) a db = (Ok x, db') → persists iid db db'.
Proof.
  intros (? & row & _ & _ & [[-> _]|[e ->]])%SetMachineNickname_Ok; [done|].
  apply persists_then_audit, persists_machines.
Qed.

Lemma persists_SetMachinePolicy iid mid p rid actor a db x db' :
  run (SetMachinePolicy mid p rid actor) a db = (Ok x, db') → persists iid db db'.
Proof.
  intros (_ & _ & row & _ & [(-> & _)|(_ & _ & e & ->)])%SetMachinePolicy_Ok; [done|].
  apply persists_then_audit, persists_machines.
Qed.

Lemma persists_CreateInstallationSpec iid spec rid a db x db' :
  is_Some (specs db !! iid) → run (CreateInstallationSpec spec rid) a db = (Ok x, db') → persists iid db db'.
Proof.
  intros Hi (_ & id & rid' & e & db1 & db2 & _ & Hs & Hstep & -> & _)%CreateInstallationSpec_Ok.
  apply persists_then_audit. etrans; [by eapply persists_insert_spec|by eapply persists_server_step].
Qed.

Lemma persists_ArmInstallation iid mid j rid actor a db x db' :
  run (ArmInstallation mid j rid actor) a db = (Ok x, db') → persists iid db db'.
Proof.
  intros (_ & _ & _ & _ & _ & _ & _ & id & rid' & db1 & db2 & _ & _ & Hi & Hstep & ->)%ArmInstallation_Ok.
  apply persists_then_audit. etrans; [by eapply persists_insert_assignment|by eapply persists_server_step].
Qed.

Lemma persists_CancelAssignment iid j rid actor a db x db' :
  run (CancelAssignment j rid actor) a db = (Ok x, db') → persists iid db db'.
Proof.
  intros (y & [db1 n] & e & _ & _ & _ & _ & Hu & ->)%CancelAssignment_Ok. apply persists_then_audit.
  by eapply persists_update_armed; [|exact Hu].
Qed.

Lemma persists_ConsumeAssignment iid j rid actor a db x db' :
  run (ConsumeAssignment j rid actor) a db = (Ok x, db') → persists iid db db'.
Proof.
  intros (y & db1 & e & _ & _ & _ & _ & Hu & ->)%ConsumeAssignment_Ok. apply persists_then_audit.
  by eapply persists_update_armed; [|exact Hu].
Qed.

Lemma persists_DeleteInstallation iid j rid actor a db x db' :
  run (DeleteInstallation j rid actor) a db = (Ok x, db') → persists iid db db' ∨ specs db' !! iid = None.
Proof.
  intros (_ & _ & _ & _ & ->)%DeleteInstallation_Ok. destruct (decide (TrimSpace j = iid)) as [->|Hne].
  - right. apply lookup_delete_eq.
  - left. by apply persists_then_audit, persists_delete_dependents.
Qed.

Lemma persists_DeleteMachine iid mid rid actor a db x db' :
  run (DeleteMachine mid rid actor) a db = (Ok x, db') → persists iid db db'.
Proof.
  intros (m & db1 & _ & _ & [(? & _)|(_ & _ & _ & _ & _ & _ & ->)]%delete_machine_Ok & ->)%DeleteMachine_Ok; [done|].
  by apply persists_then_audit, persists_other.
Qed.

Lemma persists_IssueLifecycleCredential iid j rid actor ttl a db x db' :
  run (IssueLifecycleCredential j rid actor ttl) a db = (Ok x, db') → persists iid db db'.
Proof.
  intros (_ & spec & secret & db1 & e & _ & _ & Hi & -> & _)%IssueLifecycleCredential_Ok.
  by eapply persists_then_audit, persists_insert_credential.
Qed.

Lemma persists_AuthenticateLifecycleCredential iid j s a db x db' :
  run (AuthenticateLifecycleCredential j s) a db = (Ok x, db') → persists iid db db'.
Proof.
  intros (id & row & _ & _ & _ & _ & -> & _)%AuthenticateLifecycleCredential_Ok.
  apply persists_credentials. intros k c Hc. destruct (decide (id = k)) as [->|Hne].
  - exists (touch_credential_row (clock a) c). by rewrite lookup_alter_eq, Hc.
  - exists c. by rewrite lookup_alter_ne.
Qed.

Lemma persists_VerifyLifecycleMAC iid j m p k t b s a db x db' :
  run (VerifyLifecycleMAC j m p k t b s) a db = (Ok x, db') → persists iid db db'.
Proof.
  intros (id & row & text & _ & _ & _ & _ & _ & _ & ->)%VerifyLifecycleMAC_Ok.
  apply persists_credentials. intros i c Hc. eexists. rewrite lookup_fmap, Hc. split; [done|]. by case_bool_decide.
Qed.

Lemma persists_RevokeLifecycleCredential iid j rid actor a db x db' :
  run (RevokeLifecycleCredential j rid actor) a db = (Ok x, db') → persists iid db db'.
Proof. intros ->%RevokeLifecycleCredential_Ok. apply persists_revoke. Qed.

Lemma persists_AppendLifecycleEvent iid report rid a db x db' :
  run (AppendLifecycleEvent report rid) a db = (Ok x, db') → persists iid db db'.
Proof.
  destruct x as [e dup]. intros (_ & _ & [(_ & -> & _)|(_ & _ & _ & _ & ->)])%AppendLifecycleEvent_Ok; [done|].
  apply persists_accept_report.
Qed.

Lemma persists_AppendInstallationLogChunk iid chunk a db x db' :
  run (AppendInstallationLogChunk chunk) a db = (Ok x, db') → persists iid db db'.
Proof.
  destruct x as [c dup].
  intros (_ & _ & [(_ & -> & _)|(_ & _ & _ & _ & _ & ->)])%AppendInstallationLogChunk_Ok; [done|]. apply persists_chunk.
Qed.

Lemma persists_RegisterBootTrustKey iid j pem ek rid a db x db' :
  run (RegisterBootTrustKey j pem ek rid) a db = (Ok x, db') → persists iid db db'.
Proof.
  destruct x as [k created].
  intros (key & fp & mid & _ & _ & [(_ & k0 & _ & _ & _ & ->)|(_ & _ & _ & _ & _ & db1 & e & Hi & ->)])%RegisterBootTrustKey_Ok.
  - apply persists_update_key.
  - apply persists_then_audit. apply insert_trust_key_Ok in Hi as (_ & _ & ->). by apply persists_other.
Qed.

Lemma persists_ApproveBootTrustKey iid mid fp rid actor a db x db' :
  run (ApproveBootTrustKey mid fp rid actor) a db = (Ok x, db') → persists iid db db'.
Proof.
  intros (_ & k0 & _ & _ & [(_ & _ & ->)|(_ & _ & e & ->)])%ApproveBootTrustKey_Ok; [done|].
  apply persists_then_audit, persists_update_key.
Qed.

Lemma persists_RevokeBootTrustKey iid mid fp rid actor a db x db' :
  run (RevokeBootTrustKey mid fp rid actor) a db = (Ok x, db') → persists iid db db'.
Proof.
  intros (k0 & _ & [(_ & _ & ->)|(_ & e & ->)])%RevokeBootTrustKey_Ok; [done|].
  apply persists_then_audit, persists_update_key.
Qed.

Lemma persists_CreateBootTrustChallenge iid j fp rid a db x db' :
  run (CreateBootTrustChallenge j fp rid) a db = (Ok x, db') → persists iid db db'.
Proof.
  intros (mid & k & _ & _ & _ & _ & _ & _ & _ & (Hf & _ & _ & _ & ->)%insert_challenge_Ok)%CreateBootTrustChallenge_Ok.
  apply persists_challenges. intros i r Hr. exists r. by rewrite lookup_insert_ne by congruence.
Qed.

Lemma persists_CompleteBootTrustChallenge iid j id s rid a db x db' :
  run (CompleteBootTrustChallenge j id s rid) a db = (Ok x, db') → persists iid db db'.
Proof.
  intros [(_ & -> & _)|(_ & r & k & pub & spec & secret & seed & db1 & e & _ & _ & _ & Hi & ->)]%CompleteBootTrustChallenge_Ok;
    [done|]. apply persists_then_audit. etrans; [by eapply persists_insert_credential|apply persists_use_challenge].
Qed.

Lemma persists_ResolveOperatorUser iid p s d e rid a db x db' :
  run (ResolveOperatorUser p s d e rid) a db = (Ok x, db') → persists iid db db'.
Proof.
  destruct x as [u created]. intros [(_ & -> & _)|(_ & _ & _ & _ & _ & _ & _ & db1 & ev & (_ & _ & ->)%insert_user_Ok & ->)]%ResolveOperatorUser_Ok;
    [done|]. apply persists_then_audit, persists_users.
Qed.

Lemma persists_ClaimInitialAdmin iid u rid actor a db r db' :
  run (ClaimInitialAdmin u rid actor) a db = (r, db') → persists iid db db'.
Proof.
  intros [(x & (_ & _ & _ & e & ->)%claim_tx_Ok)|(e & ->%run_atomic & _)]%run_bind_keeps;
    [apply persists_then_audit, persists_users|done|apply atomic_claim_tx|intros; apply keeps_OperatorUser].
Qed.

Lemma persists_ApproveOperatorUser iid u role rid actor a db r db' :
  run (ApproveOperatorUser u role rid actor) a db = (r, db') → persists iid db db'.
Proof.
  intros [(x & (_ & _ & _ & e & ->)%approve_tx_Ok)|(e & ->%run_atomic & _)]%run_bind_keeps;
    [apply persists_then_audit, persists_users|done|apply atomic_approve_tx|intros; apply keeps_OperatorUser].
Qed.

Lemma persists_BlockOperatorUser iid u rid actor a db r db' :
  run (BlockOperatorUser u rid actor) a db = (r, db') → persists iid db db'.
Proof.
  intros [(x & (_ & _ & e & ->)%block_tx_Ok)|(e & ->%run_atomic & _)]%run_bind_keeps;
    [apply persists_then_audit, persists_users|done|apply atomic_block_tx|intros; apply keeps_OperatorUser].
Qed.

Lemma persists_SaveOperatorCredential iid u rp c rid actor en a db x db' :
  run (SaveOperatorCredential u rp c rid actor en) a db = (Ok x, db') → persists iid db db'.
Proof.
  intros (user & db1 & _ & (k & r & -> & _)%upsert_user_credential_Ok & [[_ ->]|(_ & _ & e & ->)])%SaveOperatorCredential_Ok;
    [by apply persists_other|]. by apply persists_then_audit, persists_other.
Qed.

(** ** A step *)

Create HintDb evolution.
#[local] Hint Resolve persists_DiscoverMachine persists_SetMachineNickname persists_SetMachinePolicy
  persists_CreateInstallationSpec persists_ArmInstallation persists_CancelAssignment persists_ConsumeAssignment
  persists_DeleteMachine persists_IssueLifecycleCredential persists_AuthenticateLifecycleCredential
  persists_VerifyLifecycleMAC persists_RevokeLifecycleCredential persists_AppendLifecycleEvent
  persists_AppendInstallationLogChunk persists_RegisterBootTrustKey persists_ApproveBootTrustKey
  persists_RevokeBootTrustKey persists_CreateBootTrustChallenge persists_CompleteBootTrustChallenge
  persists_ResolveOperatorUser persists_ClaimInitialAdmin persists_ApproveOperatorUser
  persists_BlockOperatorUser persists_SaveOperatorCredential : evolution.

Lemma persists_exec_op o a db r db' iid :
  is_Some (specs db !! iid) → run (exec_op o) a db = (r, db') → persists iid db db' ∨ specs db' !! iid = None.
Proof.
  intros Hi Hr. destruct (rereads o) eqn:Eo.
  - left. destruct o; try done; cbn [exec_op] in Hr; apply run_discard in Hr as [(x & Hr & _)|(e & Hr & _)];
      eauto with evolution.
  - destruct r as [u|e]; [|by apply run_atomic in Hr as ->; [left|apply atomic_exec_op]].
    destruct o; try discriminate Eo; cbn [exec_op] in Hr; apply run_discard in Hr as [(x & Hr & _)|(e & _ & [=])];
      first [by eapply persists_DeleteInstallation|left; eauto with evolution].
Qed.

End Evolution.

(** ** Many steps *)

Section Alive.
Context `{Artifact.Crypto}.

(** Steps in which the installation is never deleted. *)
Definition alive_step (iid : string) (x y : DB) : Prop := step x y ∧ is_Some (specs y !! iid).
Definition later (iid : string) : DB → DB → Prop := rtc (alive_step iid).

Lemma later_persists iid x y : is_Some (specs x !! iid) → later iid x y → persists iid x y.
Proof.
  intros Hx Hl. induction Hl as [|x y z [(o & a & r & _ & Hr) Hy] _ IH]; [done|].
  destruct (persists_exec_op _ _ _ _ _ iid Hx Hr) as [Hp|Hn]; [|rewrite Hn in Hy; by destruct Hy].
  etrans; [exact Hp|]. by apply IH.
Qed.

Lemma later_steps iid x y : later iid x y → rtc step x y.
Proof. apply rtc_subrel. by intros ? ? [? _]. Qed.

Lemma later_alive iid x y : is_Some (specs x !! iid) → later iid x y → is_Some (specs y !! iid).
Proof. intros Hx Hl. by rewrite (pe_spec _ _ _ (later_persists _ _ _ Hx Hl)). Qed.

Lemma later_wf iid x y : wf x → later iid x y → wf y.
Proof. intros Hx Hl. eapply wf_steps; [exact Hx|by eapply later_steps]. Qed.

End Alive.

(** ** Assignments that ended *)

Section Assignments.
Context `{Artifact.Crypto}.

(** The assignment that ended is the one the operations find. *)
Lemma ended_assignment_later db db' iid id x :
  wf db → is_Some (specs db !! iid) → later iid db db' →
  assignments db !! id = Some x → Assignment.InstallationID x = iid → Assignment.a_State x ≠ Assignment.StateArmed →
  assignment_of iid db' = Some x.
Proof.
  intros Hwf Hs Hl Hx Ex Hst.
  destruct (pe_assignment _ _ _ (later_persists _ _ _ Hs Hl) _ _ Hx Ex) as (y & Hy & [->|(Ha & _)]); [|done].
  destruct (later_wf _ _ _ Hwf Hl) as [_ _ [_ _ A3 _] _ _ _ _ _ _ _].
  unfold assignment_of. erewrite find_row_unique; [reflexivity|exact Hy|done|].
  intros k v Hv Hp. simpl in Hp. eapply A3; [exact Hv|exact Hy|congruence].
Qed.

(** An assignment that ended never starts again. *)
Lemma ended_refuses db iid x j :
  assignment_of iid db = Some x → Assignment.a_State x ≠ Assignment.StateArmed → TrimSpace j = iid →
  (∀ a mid rid actor, is_ok (run (ArmInstallation mid j rid actor) a db).1 = false) ∧
  (∀ a rid actor, is_ok (run (CancelAssignment j rid actor) a db).1 = false) ∧
  (∀ a rid actor, is_ok (run (ConsumeAssignment j rid actor) a db).1 = false).
Proof.
  intros Hx Hst Hj.
  split_and!; intros; destruct (run _ a db) as [[y|] db'] eqn:Hr; try done.
  - apply ArmInstallation_Ok in Hr as (_ & _ & _ & _ & _ & Hn & _). rewrite Hj in Hn. congruence.
  - apply CancelAssignment_Ok in Hr as (z & ? & ? & Hz & Hs & _). rewrite Hj in Hz. congruence.
  - apply ConsumeAssignment_Ok in Hr as (z & ? & ? & Hz & Hs & _). rewrite Hj in Hz. congruence.
Qed.

Lemma update_armed_row f iid db db' id :
  wf db → assignment_of iid db = Some id → update_armed f (Assignment.ID id) db = (db', 1) →
  db' = set_assignments (<[Assignment.ID id := f id]> (assignments db)) db.
Proof.
  intros Hwf (k & Hk & _)%assignment_of_Some [(x & Hx & _ & _ & ->)|[? _]]%update_armed_inv; [|done].
  destruct (ao_row _ _ (wf_assignments _ Hwf) _ _ Hk) as [<- _]. by simplify_eq.
Qed.

(** A consumed assignment is the one found afterwards. *)
Lemma consumed_assignment_of iid rid actor a db x db' :
  wf db → sane a → run (ConsumeAssignment iid rid actor) a db = (Ok x, db') →
  ∃ y, assignment_of (TrimSpace iid) db' = Some y ∧ Assignment.a_State y = Assignment.StateConsumed.
Proof.
  intros Hwf Ha Hr. pose proof (wf_ConsumeAssignment _ _ _ _ _ _ _ Hwf Ha Hr) as Hwf1.
  apply ConsumeAssignment_Ok in Hr as (y & db0 & e & Hy & Hst & _ & -> & Hu & E1).
  pose proof (update_armed_row _ _ _ _ _ Hwf Hy Hu) as E0. destruct (assignment_of_Some _ _ _ Hy) as (k & Hk & Ek).
  destruct (ao_spec _ _ (wf_assignments _ Hwf) _ _ Hk) as (s & Hs & _). rewrite Ek in Hs.
  exists (consumed (clock a) y). split; [|done].
  eapply (ended_assignment_later db' db'); [exact Hwf1| |by apply rtc_refl| |exact Ek|done]; rewrite E1, E0; simpl; [by exists s|].
  apply lookup_insert_eq.
Qed.

End Assignments.
