(* ===== verification/BootAssets.v ===== *)
(** * The signed iPXE files of the server (internal/secureboot/assets.go)

    The file system answers through [filesystem]: each path is inspected and
    read at most once, so that its answers may differ between the two.
    encoding/json is a parameter. *)

From S2P Require Import Prelude GoStrings Fault Encoding StringFacts GoParse.
From S2P Require Artifact.

(** ** The file system *)

(** The bits of [os.FileMode]. *)
Definition ModeDir : Z := 2 ^ 31.
Definition ModeSymlink : Z := 2 ^ 27.
(** Directory, link, named pipe, socket, device, character device, irregular. *)
Definition ModeType : Z := 2 ^ 31 + 2 ^ 27 + 2 ^ 25 + 2 ^ 24 + 2 ^ 26 + 2 ^ 21 + 2 ^ 19.

Record FileInfo := mkInfo { Mode : Z; info_Size : Z }.

Definition IsDir (mode : Z) : bool := negb (Z.land mode ModeDir =? 0)%Z.
Definition IsRegular (mode : Z) : bool := (Z.land mode ModeType =? 0)%Z.
Definition IsSymlink (mode : Z) : bool := negb (Z.land mode ModeSymlink =? 0)%Z.

(** An open file: its bytes up to its end, or to an error. *)
Record file := mkFile { f_bytes : string; f_error : option error }.

Record filesystem := mkFS { Lstat : string → result FileInfo; Open : string → result file }.

(** [io.ReadAll(io.LimitReader(f, limit))]. *)
Definition ReadAll (limit : Z) (f : file) : result string :=
  if (limit <=? len (f_bytes f))%Z then Ok (String.substring 0 (Z.to_nat limit) (f_bytes f))
  else match f_error f with Some e => Err e | None => Ok (f_bytes f) end.

(** ** Data *)

(* internal/secureboot/assets.go:16-16 ExpectedIPXERelease *)
Definition ExpectedIPXERelease : string := "v2.0.0".
(* internal/secureboot/assets.go:17-17 ExpectedIPXECommit *)
Definition ExpectedIPXECommit : string := "12798ec29aa8a64d8675c4378b99f5fe28447afb".
(* internal/secureboot/assets.go:18-18 manifestName *)
Definition manifestName : string := "manifest.json".
(* internal/secureboot/assets.go:19-19 maxManifestBytes *)
Definition maxManifestBytes : Z := 65536.
(* internal/secureboot/assets.go:20-20 maxEFIBytes *)
Definition maxEFIBytes : Z := 33554432.

(* internal/secureboot/assets.go:23-23 requiredFiles *)
Definition requiredFiles : list string := ["ipxe-shim.efi"; "ipxe.efi"].

(* internal/secureboot/assets.go:25-28 ManifestFile *)
Record ManifestFile := mkManifestFile { mf_SHA256 : string; mf_Size : Z }.

(* internal/secureboot/assets.go:30-35 Manifest *)
Record Manifest := mkManifest {
  UpstreamRelease : string; UpstreamCommit : string; ReleaseAssetSHA256 : string; Files : gmap string ManifestFile }.

(* internal/secureboot/assets.go:37-43 AssetReport *)
Record AssetReport := mkReport {
  r_Directory : string; r_UpstreamRelease : string; r_UpstreamCommit : string; r_ReleaseAssetSHA256 : string;
  r_Files : gmap string ManifestFile }.

(** [Decode] of the first value of the text with unknown fields disallowed,
    and whether the next [Decode] finds the end of the text. *)
Class ManifestDecoder := {
  decode_manifest : string → result Manifest;
  at_EOF : string → bool }.

Section Assets.
Context `{Artifact.Crypto} `{ManifestDecoder} (fs : filesystem).

(* internal/secureboot/assets.go:138-144 validSHA256 *)
Definition validSHA256 (value : string) : bool :=
  if negb (HasPrefix value "sha256:") || negb (len value =? len "sha256:" + 64)%Z then false
  else match hex_decode (TrimPrefix value "sha256:") with Some _ => true | None => false end.

(* internal/secureboot/assets.go:112-136 readRegularBounded *)
Definition readRegularBounded (path : string) (max : Z) : result string :=
  info ← Lstat fs path;
  _ ← fail_if (IsSymlink (Mode info) || negb (IsRegular (Mode info))) (Plain "path is not a regular non-symlink file");
  _ ← fail_if ((info_Size info <=? 0)%Z || (max <? info_Size info)%Z) (Plain "file size is outside accepted bounds");
  file ← Open fs path;
  content ← ReadAll (max + 1) file;
  _ ← fail_if (max <? len content)%Z (Plain "file exceeds accepted size");
  Ok content.

(** The loop over the required files; [verified] are those before. *)
(* internal/secureboot/assets.go:82-101 ValidateAssets *)
Fixpoint verify_files (directory : string) (files : gmap string ManifestFile) (names : list string)
    (verified : gmap string ManifestFile) : result (gmap string ManifestFile) :=
  match names with
  | [] => Ok verified
  | name :: names =>
    match files !! name with
    | None => Err (Plain "Secure Boot manifest entry is invalid")
    | Some expected =>
      _ ← fail_if ((mf_Size expected <=? 0)%Z || (maxEFIBytes <? mf_Size expected)%Z || negb (validSHA256 (mf_SHA256 expected)))
            (Plain "Secure Boot manifest entry is invalid");
      content ← or_fail (readRegularBounded (Join_path directory name) maxEFIBytes) (Wrapped "read Secure Boot asset");
      _ ← fail_if (negb (len content =? mf_Size expected)%Z) (Plain "Secure Boot asset size mismatch");
      let digest := "sha256:" +:+ hex_encode (Artifact.sha256 content) in
      _ ← fail_if (negb (digest =? mf_SHA256 expected)%string) (Plain "Secure Boot asset digest mismatch");
      verify_files directory files names (<[name := expected]> verified)
    end
  end.

(* internal/secureboot/assets.go:45-110 ValidateAssets *)
Definition ValidateAssets (directory : string) : result AssetReport :=
  let directory := Clean (TrimSpace directory) in
  _ ← fail_if (negb (IsAbs directory)) (Plain "Secure Boot asset directory must be absolute");
  info ← or_fail (Lstat fs directory) (Wrapped "inspect Secure Boot asset directory");
  _ ← fail_if (IsSymlink (Mode info) || negb (IsDir (Mode info))) (Plain "Secure Boot asset directory must be a real directory");
  manifestBytes ← or_fail (readRegularBounded (Join_path directory manifestName) maxManifestBytes) (Wrapped "read Secure Boot manifest");
  manifest ← or_fail (decode_manifest manifestBytes) (Wrapped "decode Secure Boot manifest");
  _ ← fail_if (negb (at_EOF manifestBytes)) (Plain "Secure Boot manifest must contain one JSON object");
  _ ← fail_if (negb (UpstreamRelease manifest =? ExpectedIPXERelease)%string || negb (UpstreamCommit manifest =? ExpectedIPXECommit)%string)
        (Plain "Secure Boot manifest references an unpinned iPXE release");
  _ ← fail_if (negb (validSHA256 (ReleaseAssetSHA256 manifest))) (Plain "Secure Boot release asset digest is invalid");
  _ ← fail_if (negb (size (Files manifest) =? length requiredFiles)%nat) (Plain "Secure Boot manifest contains an unexpected file set");
  verified ← verify_files directory (Files manifest) requiredFiles ∅;
  Ok (mkReport directory (UpstreamRelease manifest) (UpstreamCommit manifest) (ReleaseAssetSHA256 manifest) verified).

(** ** What an accepted directory holds *)

(** The regular file at [path], not a link, holds [text]: not empty when it was
    inspected, and at most [max] bytes long. *)
Definition holds (path : string) (max : Z) (text : string) : Prop :=
  (∃ info, Lstat fs path = Ok info ∧ IsRegular (Mode info) = true ∧ (0 < info_Size info ≤ max)%Z) ∧
  Open fs path = Ok (mkFile text None) ∧ (len text ≤ max)%Z.

Record accepted (directory : string) (r : AssetReport) : Prop := mkAccepted {
  acc_directory : IsAbs directory = true ∧
    ∃ info, Lstat fs directory = Ok info ∧ IsDir (Mode info) = true ∧ IsSymlink (Mode info) = false;
  acc_manifest : ∃ text manifest, holds (Join_path directory manifestName) maxManifestBytes text ∧
    decode_manifest text = Ok manifest ∧ at_EOF text = true ∧
    r = mkReport directory (UpstreamRelease manifest) (UpstreamCommit manifest) (ReleaseAssetSHA256 manifest) (Files manifest);
  acc_release : r_UpstreamRelease r = "v2.0.0" ∧ r_UpstreamCommit r = "12798ec29aa8a64d8675c4378b99f5fe28447afb" ∧
    validSHA256 (r_ReleaseAssetSHA256 r) = true;
  acc_names : dom (r_Files r) = {["ipxe-shim.efi"; "ipxe.efi"]};
  acc_files : map_Forall (λ name f, ∃ content, holds (Join_path directory name) maxEFIBytes content ∧ content ≠ "" ∧
    f = mkManifestFile (Artifact.SHA256 content) (len content)) (r_Files r) }.

Lemma IsRegular_not_symlink mode : IsRegular mode = true → IsSymlink mode = false.
Proof.
  unfold IsRegular, IsSymlink. rewrite negb_false_iff, !Z.eqb_eq. intros Hm.
  assert (ModeSymlink = Z.land ModeType ModeSymlink) as -> by done. by rewrite Z.land_assoc, Hm.
Qed.

Lemma len_positive s : (0 < len s)%Z ↔ s ≠ "".
Proof. unfold len. destruct s as [|c s]; cbn; [split; [lia|done]|split; [done|lia]]. Qed.

Lemma substring_length n : ∀ s, n ≤ String.length s → String.length (String.substring 0 n s) = n.
Proof. induction n as [|n IH]; intros [|c s] Hn; cbn in *; [done|done|lia|]. rewrite IH by lia. done. Qed.

Lemma readRegularBounded_holds path max text : (0 ≤ max)%Z → readRegularBounded path max = Ok text ↔ holds path max text.
Proof.
  intros Hmax. unfold readRegularBounded, holds, ReadAll. split.
  - intros Hr. destruct (Lstat fs path) as [info|]; [|done]. cbn [mbind result_bind] in Hr. ok_inv. bool_inv. split; [by exists info|].
    destruct (Open fs path) as [[bytes err]|]; [|done]. simplify_eq. cbn [f_bytes f_error] in *.
    destruct (Z.leb_spec (max + 1) (len bytes)) as [Hl|Hl]; [|destruct err; by simplify_eq].
    exfalso. simplify_eq. unfold len in *. pose proof (substring_length (Z.to_nat (max + 1)) bytes ltac:(lia)) as Hs. lia.
  - intros ((info & -> & Hreg & Hs) & -> & Hl). cbn [mbind result_bind f_bytes f_error].
    rewrite (IsRegular_not_symlink _ Hreg), Hreg. cbn [orb negb fail_if mbind result_bind].
    assert ((info_Size info <=? 0)%Z = false) as -> by (apply Z.leb_gt; lia).
    assert ((max <? info_Size info)%Z = false) as -> by (apply Z.ltb_ge; lia).
    assert ((max + 1 <=? len text)%Z = false) as -> by (apply Z.leb_gt; lia).
    assert ((max <? len text)%Z = false) as Hlt by (apply Z.ltb_ge; lia). cbn. by rewrite Hlt.
Qed.

Lemma validSHA256_SHA256 `{!Artifact.CryptoLaws _} content : validSHA256 (Artifact.SHA256 content) = true.
Proof.
  unfold validSHA256, Artifact.SHA256, len. rewrite HasPrefix_self, TrimPrefix_app, hex_decode_encode.
  by rewrite length_app_s, hex_encode_length, Artifact.sha256_length.
Qed.

(** The entry of the manifest for a file. *)
Definition pinned (directory name : string) (f : ManifestFile) : Prop :=
  ∃ content, holds (Join_path directory name) maxEFIBytes content ∧ content ≠ "" ∧
    f = mkManifestFile (Artifact.SHA256 content) (len content).

Lemma verify_file_step directory files name names verified r :
  verify_files directory files (name :: names) verified = Ok r →
  ∃ f, files !! name = Some f ∧ pinned directory name f ∧ verify_files directory files names (<[name := f]> verified) = Ok r.
Proof.
  cbn [verify_files]. destruct (files !! name) as [[digest n]|]; [|done]. cbn [mf_SHA256 mf_Size]. intros Hr. ok_inv. bool_inv.
  exists (mkManifestFile digest n). split; [done|]. split; [|done].
  match goal with H : readRegularBounded _ _ = Ok ?c |- _ => exists c; apply readRegularBounded_holds in H; [|done] end.
  split; [done|]. split; [apply len_positive; lia|]. by subst.
Qed.
Lemma verify_file_pinned `{!Artifact.CryptoLaws _} directory files name names verified f :
  files !! name = Some f → pinned directory name f →
  verify_files directory files (name :: names) verified = verify_files directory files names (<[name := f]> verified).
Proof.
  intros Hf (content & Hc & Hne%len_positive & ->). cbn [verify_files]. rewrite Hf. cbn [mf_SHA256 mf_Size].
  rewrite validSHA256_SHA256. pose proof Hc as (_ & _ & Hl). apply readRegularBounded_holds in Hc as ->; [|done].
  assert ((len content <=? 0)%Z = false) as -> by (by apply Z.leb_gt).
  assert ((maxEFIBytes <? len content)%Z = false) as -> by (by apply Z.ltb_ge).
  cbn [orb negb fail_if mbind result_bind or_fail]. rewrite Z.eqb_refl. cbn [negb fail_if mbind result_bind].
  fold (Artifact.SHA256 content). by rewrite String.eqb_refl.
Qed.

Lemma verify_all_pinned directory files verified :
  size files = 2 → verify_files directory files requiredFiles ∅ = Ok verified →
  verified = files ∧ dom files = {["ipxe-shim.efi"; "ipxe.efi"]} ∧ map_Forall (pinned directory) files.
Proof.
  intros Hsize (f & Hf & Hpf & (g & Hg & Hpg & [= <-])%verify_file_step)%verify_file_step.
  set (m := <["ipxe.efi" := g]> (<["ipxe-shim.efi" := f]> ∅)).
  assert (m = files) as Hm.
  { apply map_subseteq_size_eq.
    - apply insert_subseteq_l; [done|]. apply insert_subseteq_l; [done|]. apply map_empty_subseteq.
    - rewrite Hsize. done. }
  split; [exact Hm|]. rewrite <- Hm. unfold m. split; [rewrite !dom_insert_L; set_solver|].
  apply map_Forall_insert_2; [done|]. apply map_Forall_insert_2; [done|]. apply map_Forall_empty.
Qed.

(** A directory is accepted exactly when it is a real directory at an absolute
    path whose manifest, one JSON object in a regular file of at most 64 KiB,
    names the pinned iPXE release and commit and exactly the two EFI files, and
    each file is a regular file, not a link, of at most 32 MiB whose size and
    SHA-256 digest are those the manifest gives; the report is the manifest's. *)
Theorem accepted_assets_iff `{!Artifact.CryptoLaws _} directory r :
  ValidateAssets directory = Ok r ↔ accepted (Clean (TrimSpace directory)) r.
Proof.
  unfold ValidateAssets. cbv zeta. generalize (Clean (TrimSpace directory)). clear directory. intros directory. split.
  - intros Hr. ok_inv. bool_inv.
    match goal with H : readRegularBounded _ _ = Ok _ |- _ => apply readRegularBounded_holds in H; [|done] end.
    match goal with H : verify_files _ _ _ _ = Ok _ |- _ => apply verify_all_pinned in H as (-> & Hdom & Hall); [|by apply Nat.eqb_eq] end.
    constructor; cbn; try done.
    + split; [done|]. by eexists.
    + by eexists _, _.
  - intros [(Habs & info & Hl & Hdir & Hlink) (text & manifest & Ht & Hdec & Heof & ->) (Hrel & Hcom & Hdig) Hdom Hall].
    cbn in Hrel, Hcom, Hdig, Hdom, Hall. apply readRegularBounded_holds in Ht; [|done].
    rewrite Habs, Hl. cbn [negb fail_if or_fail mbind result_bind]. rewrite Hlink, Hdir.
    cbn [orb negb fail_if mbind result_bind]. rewrite Ht. cbn [or_fail mbind result_bind]. rewrite Hdec.
    cbn [or_fail mbind result_bind]. rewrite Heof, Hrel, Hcom, Hdig.
    assert (size (Files manifest) = 2) as Hsize by (rewrite <- size_dom, Hdom; by vm_compute).
    rewrite Hsize. cbn [negb String.eqb orb fail_if mbind result_bind].
    change (negb (2 =? length requiredFiles)) with false. cbn [negb orb fail_if mbind result_bind].
    assert (∀ name, name ∈ requiredFiles → ∃ f, Files manifest !! name = Some f ∧ pinned directory name f) as Hreq.
    { intros name Hn. assert (name ∈ dom (Files manifest)) as [f Hf]%elem_of_dom.
      { rewrite Hdom. unfold requiredFiles in Hn. set_solver. }
      exists f. split; [done|]. by apply Hall. }
    destruct (Hreq "ipxe-shim.efi") as (f & Hf & Hpf); [by left|]. destruct (Hreq "ipxe.efi") as (g & Hg & Hpg); [by right; left|].
    assert (verify_files directory (Files manifest) requiredFiles ∅ = Ok (<["ipxe.efi" := g]> (<["ipxe-shim.efi" := f]> ∅))) as Hv.
    { unfold requiredFiles. by rewrite (verify_file_pinned _ _ _ _ _ f), (verify_file_pinned _ _ _ _ _ g). }
    rewrite Hv. apply verify_all_pinned in Hv as (-> & _); done.
Qed.
End Assets.
