(* ===== verification/System.v ===== *)
(** * The boot server as a system of concurrent requests

    [handle] is the composition of the handlers and their middleware;
    [sys_step] lets requests arrive, run one call at a time in any order, and
    be answered.  The operations of the operator interface and of other
    processes on the database are steps of the store. *)

From stdpp Require Import relations.
From S2P Require Import Prelude GoStrings Fault Encoding Op Db Store Http HttpDiscovery HttpProvisioning HttpTelemetry.
From S2P Require Artifact.

(** ** Routes *)

Inductive route :=
| Root | Health | Bootstrap | DiscoveryJSON | DiscoveryIPXE | ListMachines | ViewMachine | MachineHistory
| BootScript | Preseed | ArtifactFile | TelemetryEvent | TelemetryLog
| TrustEnroll | TrustStatus | TrustChallenge | TrustProve | ReporterEvent | ReporterLog.

#[global] Instance route_eq_dec : EqDecision route.
Proof. solve_decision. Defined.

(** The patterns the handlers are registered with. *)
(* internal/httpapi/server.go:116-132 Server.Handler *)
Definition core_pattern (x : route) : option string :=
  match x with
  | Root => Some "GET /"
  | Health => Some "GET /healthz"
  | Bootstrap => Some "GET /boot/discovery.ipxe"
  | DiscoveryJSON => Some "POST /api/v1/discovery"
  | DiscoveryIPXE => Some "GET /api/v1/discovery.ipxe" (* and POST *)
  | ListMachines => Some "GET /api/v1/machines"
  | ViewMachine => Some "GET /api/v1/machines/{id}"
  | MachineHistory => Some "GET /api/v1/machines/{id}/events"
  | BootScript => Some "GET /boot/installations/{id}/boot.ipxe"
  | Preseed => Some "GET /boot/installations/{id}/preseed.cfg"
  | ArtifactFile => Some "GET /boot/installations/{id}/artifacts/{name}"
  | TelemetryEvent => Some "POST /api/v1/installations/{id}/telemetry/events"
  | TelemetryLog => Some "POST /api/v1/installations/{id}/telemetry/logs"
  | _ => None
  end.

(* internal/httpapi/handler_trust.go:11-17 Server.HandlerWithBootTrust *)
Definition outer_pattern (x : route) : option string :=
  match x with
  | TrustEnroll => Some "POST /api/v1/installations/{id}/trust/enroll"
  | TrustStatus => Some "GET /api/v1/installations/{id}/trust/status"
  | TrustChallenge => Some "POST /api/v1/installations/{id}/trust/challenge"
  | TrustProve => Some "POST /api/v1/installations/{id}/trust/prove"
  | ReporterEvent => Some "POST /api/v1/installations/{id}/reporter/events"
  | ReporterLog => Some "POST /api/v1/installations/{id}/reporter/logs"
  | _ => None
  end.

(** [http.Redirect] to the operator interface. *)
Definition redirect_ui : Handler := λ _ _,
  mret (mkResponse StatusTemporaryRedirect [("Location", "/ui/")] (Text "")).

(** Segments equal those of the pattern; a wildcard is any nonempty one. *)
Fixpoint segments_match (pattern segments : list string) : bool :=
  match pattern, segments with
  | [], [] => true
  | p :: pattern, x :: segments =>
    (if HasPrefix p "{" then negb (x =? "")%string else (p =? x)%string) && segments_match pattern segments
  | _, _ => false
  end.

(** The path (without escapes) matches the pattern "METHOD /path". *)
Definition pattern_matches (pattern path : string) : bool :=
  match cut_byte " " pattern with
  | Some (_, p) => segments_match (split_byte "/" p) (split_byte "/" path)
  | None => false
  end.

(** ** Listeners

    What a listener does with a path. *)
Inductive exposure := Serves | RedirectsToUI | Hides.

(* cmd/aegispxe-server/main.go:227-236 pxeSurface *)
Definition pxeSurface (path : string) : exposure :=
  if (path =? "/healthz")%string || HasPrefix path "/boot/" || (path =? "/api/v1/discovery")%string
     || (path =? "/api/v1/discovery.ipxe")%string
  then Serves else Hides.

(* cmd/aegispxe-server/main.go:238-251 studioSurface *)
Definition studioSurface (path : string) : exposure :=
  if (path =? "/")%string then RedirectsToUI
  else if (path =? "/healthz")%string || HasPrefix path "/ui/" then Serves else Hides.

Section System.
Context `{Decoders} `{Artifact.Crypto} (server : Server).

(** [fetch] is what the artifact sources answer while the request runs. *)
Definition handler_of (fetch : string → result (Z * result string)) (x : route) : Handler :=
  match x with
  | Root => redirect_ui
  | Health => health server
  | Bootstrap => discoveryBootstrap
  | DiscoveryJSON => discoveryJSON server
  | DiscoveryIPXE => discoveryIPXE server
  | ListMachines => machines_
  | ViewMachine => machine_
  | MachineHistory => machineEvents
  | BootScript => installationBootScript server
  | Preseed => installationPreseed server
  | ArtifactFile => installationArtifact server fetch
  | TelemetryEvent => installationTelemetryEvent
  | TelemetryLog => installationTelemetryLog
  | TrustEnroll => bootTrustEnroll
  | TrustStatus => bootTrustStatus
  | TrustChallenge => bootTrustChallenge
  | TrustProve => bootTrustProve
  | ReporterEvent => reporterTelemetryEvent
  | ReporterLog => reporterTelemetryLog
  end.

(** The core routes log requests inside the correlation middleware. *)
(* internal/httpapi/handler_trust.go:11-17 Server.HandlerWithBootTrust *)
Definition handle (fetch : string → result (Z * result string)) (x : route) (r : Request) : handler Response :=
  match core_pattern x with
  | Some _ => ensureRequestContext (λ r _, requestLog (handler_of fetch x) r) r
  | None => ensureRequestContext (handler_of fetch x) r
  end.

(** [http.NotFound]. *)
Definition not_found : Response := http_Error StatusNotFound "404 page not found".

(** The listener for booting machines. *)
(* cmd/aegispxe-server/main.go:227-236 pxeSurface *)
Definition on_pxe (fetch : string → result (Z * result string)) (x : route) (r : Request) : handler Response :=
  match pxeSurface (q_Path r) with Serves => handle fetch x r | _ => mret not_found end.

(** ** Concurrent requests *)

Record task := mkTask { t_route : route; t_request : Request; t_program : handler Response }.
Record answer := mkAnswer { a_route : route; a_request : Request; a_response : Response }.

Record system := mkSystem {
  sys_db : DB;
  sys_limiter : discoveryLimiter;
  sys_pool : gmap nat task;
  sys_answers : list answer }.

Definition advance (n : nat) (t : task) (h : handler Response) (pool : gmap nat task) : gmap nat task :=
  <[n := mkTask (t_route t) (t_request t) h]> pool.

Inductive sys_step : system → system → Prop :=
| Arrive db l pool out n fetch x r :
    pool !! n = None →
    sys_step (mkSystem db l pool out) (mkSystem db l (<[n := mkTask x r (handle fetch x r)]> pool) out)
| RunCall db db' l pool out n t B (m : M DB B) k a r :
    pool !! n = Some t → t_program t = Call m k → sane a → run m a db = (r, db') →
    sys_step (mkSystem db l pool out) (mkSystem db' l (advance n t (k r) pool) out)
| RunAllow db l pool out n t remote k (now : time) :
    pool !! n = Some t → t_program t = Allow remote k → (0 < now)%Z →
    sys_step (mkSystem db l pool out)
      (mkSystem db (allowDiscovery remote now l).2 (advance n t (k (allowDiscovery remote now l).1) pool) out)
| Reply db l pool out n t p :
    pool !! n = Some t → t_program t = Done p →
    sys_step (mkSystem db l pool out) (mkSystem db l (delete n pool) (out ++ [mkAnswer (t_route t) (t_request t) p]))
| Outside db db' l pool out :
    step db db' → sys_step (mkSystem db l pool out) (mkSystem db' l pool out).

(** A server that has just started on a database. *)
Definition booted (db : DB) : system := mkSystem db ∅ ∅ [].

Definition sys_reachable (s : system) : Prop := ∃ db, reachable db ∧ rtc sys_step (booted db) s.

(** ** Schedules

    A step as a value, so that runs can be evaluated. *)
Inductive action :=
| Arrives (n : nat) (fetch : string → result (Z * result string)) (x : route) (r : Request)
| Runs (n : nat) (a : ambient)
| Asks (n : nat) (now : time)
| Answers (n : nat)
| Operates (o : op) (a : ambient).

Definition action_ok (c : action) : Prop :=
  match c with Runs _ a | Operates _ a => sane a | Asks _ now => (0 < now)%Z | _ => True end.

Definition act (s : system) (c : action) : option system :=
  let '(mkSystem db l pool out) := s in
  match c with
  | Arrives n fetch x r =>
    match pool !! n with None => Some (mkSystem db l (<[n := mkTask x r (handle fetch x r)]> pool) out) | Some _ => None end
  | Runs n a =>
    match pool !! n with
    | Some t => match t_program t with
                | Call m k => let '(r, db') := run m a db in Some (mkSystem db' l (advance n t (k r) pool) out)
                | _ => None end
    | None => None end
  | Asks n now =>
    match pool !! n with
    | Some t => match t_program t with
                | Allow remote k => let '(b, l') := allowDiscovery remote now l in Some (mkSystem db l' (advance n t (k b) pool) out)
                | _ => None end
    | None => None end
  | Answers n =>
    match pool !! n with
    | Some t => match t_program t with
                | Done p => Some (mkSystem db l (delete n pool) (out ++ [mkAnswer (t_route t) (t_request t) p]))
                | _ => None end
    | None => None end
  | Operates o a => Some (mkSystem (run (exec_op o) a db).2 l pool out)
  end.

Lemma act_step s c s' : action_ok c → act s c = Some s' → sys_step s s'.
Proof.
  destruct s as [db l pool out]. intros Hc Ha. destruct c; simpl in *.
  - destruct (pool !! n) eqn:E; simplify_eq. by constructor.
  - destruct (pool !! n) as [t|] eqn:E; [|done]. destruct (t_program t) as [|B m k|] eqn:Et; try done.
    destruct (run m a db) as [r db'] eqn:Er. simplify_eq. by eapply RunCall.
  - destruct (pool !! n) as [t|] eqn:E; [|done]. destruct (t_program t) as [| |remote k] eqn:Et; try done.
    destruct (allowDiscovery remote now l) as [b l'] eqn:Er. simplify_eq.
    pose proof (RunAllow db l pool out n t remote k now E Et Hc) as Hs. by rewrite Er in Hs.
  - destruct (pool !! n) as [t|] eqn:E; [|done]. destruct (t_program t) as [p| |] eqn:Et; try done. simplify_eq. by eapply Reply.
  - simplify_eq. constructor. exists o, a, (run (exec_op o) a db).1. split; [done|]. by destruct (run _ _ _).
Qed.

(** A schedule, in which [P] holds after every action. *)
Fixpoint acts (P : system → bool) (s : system) (l : list action) : option system :=
  match l with
  | [] => Some s
  | c :: l => match act s c with Some s' => if P s' then acts P s' l else None | None => None end
  end.

Lemma acts_steps (P : system → bool) l : ∀ s s',
  Forall action_ok l → acts P s l = Some s' → rtc (λ s s', sys_step s s' ∧ P s' = true) s s'.
Proof.
  induction l as [|c l IH]; intros s s' Hl Ha; cbn [acts] in Ha; [simplify_eq; apply rtc_refl|].
  apply Forall_cons in Hl as [Hc Hl]. destruct (act s c) as [s1|] eqn:E; [|done]. destruct (P s1) eqn:EP; [|done].
  eapply rtc_l; [|by apply IH]. split; [by eapply act_step|done].
Qed.
End System.
