(* ===== verification/Studio.v ===== *)
(** * The operator interface as a system of concurrent requests
    (internal/operatorui/dashboard.go, trusted_proxy.go)

    [studio] composes the gate, the listener's surface, the proxy's identity and
    the routes.  [studio_step] lets requests arrive and run one call at a time
    in any order, while the boot server, other processes and the logger change
    the database and the log buffer.  The trace records every call with the
    calls the same request made before it. *)

From stdpp Require Import relations.
From S2P Require Import Prelude GoStrings Fault Op Db Store Http Sessions Passkeys LogBuffer TrustedProxy Console StudioAuth StudioPages.
From S2P Require Artifact DebianRelease System.

(** ** Routes *)

Inductive studio_route :=
| Entry | Style | ScriptAsset
| BootstrapAdmin | LoginStart | LoginFinish | EnrollStart | EnrollFinish | RecoveryStart | RecoveryPasskey | RecoveryFinish | SignOut
| MachinesList | MachineDetail | MachineManage | MachinePolicy | MachineNickname | MachineDelete | MachineMetadata
| InstallationsList | InstallationWizard | InstallationCreate | InstallationDetail | InstallationManage | InstallationArm
| InstallationCancel | InstallationDelete | TrustKeys | TrustApprove | TrustRevoke
| UsersList | UserApprove | UserBlock
| LogsPage | LogFeed | LogTail | LogExport
| OldOperator | OldLogin | OldWizard.

#[global] Instance studio_route_eq_dec : EqDecision studio_route.
Proof. solve_decision. Defined.

(* internal/operatorui/dashboard.go:59-113 DashboardHandler.registerDashboardRoutes *)
Definition studio_pattern (x : studio_route) : string :=
  match x with
  | Entry => "GET /ui/{$}"
  | Style => "GET /ui/assets/dashboard.css"
  | ScriptAsset => "GET /ui/assets/dashboard.js"
  | BootstrapAdmin => "POST /ui/auth/bootstrap"
  | LoginStart => "POST /ui/api/passkey/login/start"
  | LoginFinish => "POST /ui/api/passkey/login/finish"
  | EnrollStart => "POST /ui/api/passkey/enroll/start"
  | EnrollFinish => "POST /ui/api/passkey/enroll/finish"
  | RecoveryStart => "POST /ui/api/recovery/start"
  | RecoveryPasskey => "POST /ui/api/recovery/passkey"
  | RecoveryFinish => "POST /ui/recovery/finish"
  | SignOut => "POST /ui/logout"
  | MachinesList => "GET /ui/machines"
  | MachineDetail => "GET /ui/machines/{id}"
  | MachineManage => "GET /ui/machines/{id}/manage"
  | MachinePolicy => "POST /ui/machines/{id}/policy"
  | MachineNickname => "POST /ui/machines/{id}/nickname"
  | MachineDelete => "POST /ui/machines/{id}/delete"
  | MachineMetadata => "GET /ui/api/machine-metadata"
  | InstallationsList => "GET /ui/installations"
  | InstallationWizard => "GET /ui/installations/new"
  | InstallationCreate => "POST /ui/installations"
  | InstallationDetail => "GET /ui/installations/{id}"
  | InstallationManage => "GET /ui/installations/{id}/manage"
  | InstallationArm => "POST /ui/installations/{id}/arm"
  | InstallationCancel => "POST /ui/installations/{id}/cancel"
  | InstallationDelete => "POST /ui/installations/{id}/delete"
  | TrustKeys => "GET /ui/installations/{id}/trust"
  | TrustApprove => "POST /ui/installations/{id}/trust/{fingerprint}/approve"
  | TrustRevoke => "POST /ui/installations/{id}/trust/{fingerprint}/revoke"
  | UsersList => "GET /ui/users"
  | UserApprove => "POST /ui/users/{id}/approve"
  | UserBlock => "POST /ui/users/{id}/block"
  | LogsPage => "GET /ui/logs"
  | LogFeed => "GET /ui/api/logs"
  | LogTail => "GET /ui/api/logs/tail"
  | LogExport => "GET /ui/logs/export"
  | OldOperator => "GET /ui/operator/{$}"
  | OldLogin => "GET /ui/operator/login"
  | OldWizard => "GET /ui/operator/installations/new"
  end.

Section Studio.
Context `{Artifact.Crypto} `{WebAuthn}.
Variable h : DashboardHandler.
Variable proxy : TrustedProxy.

(** [w] is what the Debian mirror and gpgv answer while the request runs. *)
Definition studio_handler (w : DebianRelease.outside) (x : studio_route) (r : UIRequest) : prog Reply :=
  match x with
  | Entry => dashboardEntry h renderDashboardOverview r
  | Style => dashboardStableStyle r
  | ScriptAsset => dashboardStableScript r
  | BootstrapAdmin => bootstrapInitialAdmin r
  | LoginStart => beginExternalPasskeyLogin h r
  | LoginFinish => finishExternalPasskeyLogin h r
  | EnrollStart => beginPasskeyEnrollment h r
  | EnrollFinish => finishPasskeyEnrollment h r
  | RecoveryStart => beginRecoveryPasskey h r
  | RecoveryPasskey => finishRecoveryPasskey h r
  | RecoveryFinish => finishRecoveryLogin r
  | SignOut => dashboardLogout r
  | MachinesList => dashboardMachines r
  | MachineDetail => dashboardMachine r
  | MachineManage => dashboardMachineManagement r
  | MachinePolicy => dashboardMachinePolicy r
  | MachineNickname => dashboardMachineNickname r
  | MachineDelete => dashboardDeleteMachine r
  | MachineMetadata => dashboardMachineMetadata r
  | InstallationsList => dashboardInstallations r
  | InstallationWizard => dashboardInstallationWizard r
  | InstallationCreate => dashboardCreateInstallation w r
  | InstallationDetail => dashboardInstallation r
  | InstallationManage => dashboardInstallationManagement r
  | InstallationArm => dashboardArmInstallation r
  | InstallationCancel => dashboardCancelInstallation r
  | InstallationDelete => dashboardDeleteInstallation r
  | TrustKeys => dashboardInstallationTrust r
  | TrustApprove => dashboardApproveBootTrustKey r
  | TrustRevoke => dashboardRevokeBootTrustKey r
  | UsersList => dashboardUsers r
  | UserApprove => dashboardApproveUser r
  | UserBlock => dashboardBlockUser r
  | LogsPage => dashboardLogs r
  | LogFeed => dashboardStableLogFeed r
  | LogTail => dashboardLogTail r
  | LogExport => dashboardStableLogExport r
  | OldOperator | OldLogin => mret (redirect "/ui/" StatusPermanentRedirect)
  | OldWizard => mret (redirect "/ui/installations/new" StatusPermanentRedirect)
  end.

(** ** Middleware *)

Definition set_http (q : Request) (r : UIRequest) : UIRequest :=
  mkUI q (TLS r) (external r) (session_cookie r) (PostForm r) (q_fingerprint r).
Definition add_reply_headers (l : list (string * string)) (y : Reply) : Reply :=
  mkReply (y_Status y) (l ++ y_Header y) (y_Cookie y) (y_Content y).

Definition studio_headers : list (string * string) :=
  [("X-Content-Type-Options", "nosniff"); ("Referrer-Policy", "no-referrer");
   ("Content-Security-Policy", "default-src 'self'; style-src 'self'; script-src 'self'; connect-src 'self'; img-src 'self' data:; object-src 'none'; frame-ancestors 'none'; base-uri 'none'; form-action 'self'");
   ("Permissions-Policy", "camera=(), microphone=(), geolocation=(), payment=(), usb=(), serial=()");
   ("Cache-Control", "no-store")].

(** What becomes of a request: the interface answers it, or the boot server
    behind it does ([h.next]). *)
Inductive outcome := Answered (y : Reply) | Delegated.

(* internal/operatorui/dashboard.go:124-147 DashboardHandler.ServeHTTP *)
Definition ServeHTTP (w : DebianRelease.outside) (x : studio_route) (r : UIRequest) : prog outcome :=
  if (q_Path (http r) =? "/ui")%string then mret (Answered (redirect "/ui/" StatusPermanentRedirect)) else
  if negb (HasPrefix (q_Path (http r)) "/ui/") then mret Delegated else
  let given := requestID r in
  rid ← (if (given =? "")%string || (128 <? len given)%Z then do (Query (idgen_New "req_")) else mret (Ok given));
  match rid with
  | Err _ => mret (Answered (error_reply StatusServiceUnavailable "dashboard unavailable"))
  | Ok rid =>
    y ← studio_handler w x (set_http (set_request_header "X-Request-ID" rid (http r)) r);
    mret (Answered (add_reply_headers (("X-Request-ID", rid) :: studio_headers) y))
  end.

(** The request as the proxy vouches for it. *)
(* internal/operatorui/trusted_proxy.go:109-143 trustedProxyIdentityHandler.ServeHTTP *)
Definition with_proxy_identity (next : UIRequest → prog outcome) (r : UIRequest) : prog outcome :=
  if negb (SecureSource proxy r) then next r else
  rid ← (if (requestID r =? "")%string then do (Query (idgen_New "req_")) else mret (Ok ""));
  match rid with
  | Err _ => mret (Answered (error_reply StatusServiceUnavailable "operator service unavailable"))
  | Ok rid =>
    let q := if (rid =? "")%string then http r else set_request_header "X-Request-ID" rid (http r) in
    next (mkUI q true
            (match Identity_ proxy r with Some subject => Some (mkExternal trustedProxyProvider subject) | None => external r end)
            (session_cookie r) (PostForm r) (q_fingerprint r))
  end.

(* internal/operatorui/dashboard.go:48-57 NewDashboardWithTrustedProxy *)
Definition NewDashboardWithTrustedProxy (next : UIRequest → prog outcome) : UIRequest → prog outcome :=
  if Enabled proxy then with_proxy_identity next else next.

(* cmd/aegispxe-server/main.go:238-251 studioSurface *)
Definition on_surface (next : UIRequest → prog outcome) (r : UIRequest) : prog outcome :=
  match System.studioSurface (q_Path (http r)) with
  | System.RedirectsToUI => mret (Answered (redirect "/ui/" StatusTemporaryRedirect))
  | System.Serves => next r
  | System.Hides => mret (Answered (error_reply StatusNotFound "404 page not found"))
  end.

(* internal/operatorui/trusted_proxy.go:155-198 RequireTrustedProxyOrLoopback *)
Definition RequireTrustedProxyOrLoopback (next : UIRequest → prog outcome) (r : UIRequest) : prog outcome :=
  if gate_allows proxy r then next r else mret (Answered (error_reply StatusForbidden "dashboard access denied")).

(** The studio listener. *)
Definition studio (w : DebianRelease.outside) (x : studio_route) : UIRequest → prog outcome :=
  RequireTrustedProxyOrLoopback (on_surface (NewDashboardWithTrustedProxy (ServeHTTP w x))).

(** A request as it comes off the wire has no identity in its context, and the
    listener speaks plain HTTP. *)
Definition from_wire (r : UIRequest) : Prop := external r = None ∧ TLS r = false.

(** ** The system *)

Record studio_task := mkStudioTask {
  k_request : UIRequest;
  k_past : list happening;
  k_program : prog outcome }.

(** A call of the trace: the request that made it, what that request had done
    before, and the call. *)
Record trace_entry := mkTraceEntry { te_request : UIRequest; te_past : list happening; te_now : happening }.

Record studio_system := mkStudio {
  ss_world : world;
  ss_pool : gmap nat studio_task;
  ss_trace : list trace_entry }.

Inductive studio_step : studio_system → studio_system → Prop :=
| StudioArrive w pool trace n outside x r :
    pool !! n = None → from_wire r →
    studio_step (mkStudio w pool trace) (mkStudio w (<[n := mkStudioTask r [] (studio outside x r)]> pool) trace)
| StudioRun w pool trace n t B (c : call B) k a :
    pool !! n = Some t → k_program t = Do c k → sane a →
    studio_step (mkStudio w pool trace)
      (mkStudio (perform c a w).2
         (<[n := mkStudioTask (k_request t) (k_past t ++ [happen c a w]) (k (perform c a w).1)]> pool)
         (trace ++ [mkTraceEntry (k_request t) (k_past t) (happen c a w)]))
| StudioReply w pool trace n t y :
    pool !! n = Some t → k_program t = Return y →
    studio_step (mkStudio w pool trace) (mkStudio w (delete n pool) trace)
| StudioStore db db' c pool trace :
    step db db' → studio_step (mkStudio (db, c) pool trace) (mkStudio (db', c) pool trace)
| StudioLog db c pool trace bytes :
    studio_step (mkStudio (db, c) pool trace) (mkStudio (db, set_logs (Write bytes (c_logs c)) c) pool trace).

(** A process that has just started: its recovery key has been loaded. *)
Definition started_console (m : Manager) (logs : nat) : console := mkConsole m ∅ ∅ (NewLogBuffer logs).

Definition started (s : studio_system) : Prop :=
  ∃ db key m logs, reachable db ∧ Sessions.New key = Ok m ∧ s = mkStudio (db, started_console m logs) ∅ [].

Definition studio_reachable (s : studio_system) : Prop := ∃ s0, started s0 ∧ rtc studio_step s0 s.
End Studio.
