(* ===== verification/Startup.v ===== *)
(** * Starting and stopping the server (cmd/aegispxe-server/main.go)

    [main] reads its configuration from the environment and, in the order of
    the code, checks the log level, the Secure Boot policy and files, opens the
    store, loads the recovery key, configures passkeys and the trusted proxy,
    and decides which listeners there are.  What the process finds outside of
    itself is [surroundings]; its log is left out. *)

From S2P Require Import Prelude GoStrings Fault Encoding GoParse Op Db Store Http HttpDiscovery Netip TrustedProxy.
From S2P Require Import Sessions Passkeys LogBuffer Console StudioAuth Studio BootAssets.
From S2P Require Artifact Secureboot System Telemetry.
From S2P Require Import StringFacts.

(** [store.Open] opens the database file and brings its schema up to date. *)
Record surroundings := mkSurroundings {
  Getenv : string → string;
  asset_files : filesystem;
  store_Open : string → result DB;
  key_files : string → KeyFile;
  random : ambient }.

(** [level.UnmarshalText] of log/slog: a name and an offset. *)
Fixpoint cut_sign (s : string) : string * string :=
  match s with
  | "" => ("", "")
  | String c t => if byte_in c "+-" then ("", s) else let '(name, offset) := cut_sign t in (String c name, offset)
  end.

Definition UnmarshalLevel (text : string) : option Z :=
  let '(name, offset) := cut_sign text in
  offset ← (if (offset =? "")%string then Some 0%Z else ParseInt offset);
  let name := Telemetry.ToUpper name in
  let level := if (name =? "DEBUG")%string then Some (-4)%Z else if (name =? "INFO")%string then Some 0%Z
               else if (name =? "WARN")%string then Some 4%Z else if (name =? "ERROR")%string then Some 8%Z else None in
  level ← level; Some (level + offset)%Z.

Example UnmarshalLevel_examples :
  UnmarshalLevel <$> ["info"; "Warn-1"; "debug+"; "trace"; ""] = [Some 0; Some 3; None; None; None]%Z.
Proof. by vm_compute. Qed.

(** ** Configuration *)

(* cmd/aegispxe-server/main.go:31-31 serverWriteTimeout *)
Definition serverWriteTimeout : Z := (10 * Minute)%Z.
(* cmd/aegispxe-server/main.go:32-32 studioLogCapacity *)
Definition studioLogCapacity : nat := 2000.

(* cmd/aegispxe-server/main.go:283-288 env *)
Definition env (w : surroundings) (name fallback : string) : string :=
  let value := TrimSpace (Getenv w name) in if negb (value =? "")%string then value else fallback.

(* cmd/aegispxe-server/main.go:274-281 envFirst *)
Fixpoint envFirst (w : surroundings) (fallback : string) (names : list string) : string :=
  match names with
  | [] => fallback
  | name :: names =>
    let value := TrimSpace (Getenv w name) in if negb (value =? "")%string then value else envFirst w fallback names
  end.

(* cmd/aegispxe-server/main.go:268-272 splitConfigList *)
Definition splitConfigList (value : string) : list string := FieldsFunc list_separator value.

(* cmd/aegispxe-server/main.go:253-266 validateStudioListen *)
Definition validateStudioListen (address : string) (trustedProxyEnabled : bool) : result unit :=
  match SplitHostPort (TrimSpace address) with
  | None => Err (Plain "studio listener must be a host:port address")
  | Some (host, port) =>
    _ ← fail_if (port =? "")%string (Plain "studio listener must be a host:port address");
    match ParseIP host with
    | None => Err (Plain "studio listener must use an IP literal")
    | Some ip =>
      fail_if (negb (IsLoopback ip) && negb trustedProxyEnabled)
        (Plain "non-loopback studio listener requires trusted proxy configuration")
    end
  end.

Example validateStudioListen_examples :
  (λ a, (match validateStudioListen a false with Ok _ => true | Err _ => false end,
         match validateStudioListen a true with Ok _ => true | Err _ => false end)) <$>
    ["127.0.0.1:8091"; "[::1]:8091"; "0.0.0.0:8091"; "[::]:8091"; "localhost:8091"; "127.0.0.1:"; "[::ffff:127.0.0.1]:80"]
  = [(true, true); (true, true); (false, true); (false, true); (false, false); (false, false); (true, true)].
Proof. by vm_compute. Qed.

(** ** Listeners *)

Inductive surface := PXE | StudioUI.

Record http_Server := mkHTTPServer {
  Addr : string; handler_surface : surface; ReadHeaderTimeout : Z; ReadTimeout : Z; WriteTimeout : Z; IdleTimeout : Z }.

(* cmd/aegispxe-server/main.go:223-225 newHTTPServer *)
Definition newHTTPServer (address : string) (handler : surface) : http_Server :=
  mkHTTPServer address handler (5 * Second)%Z (15 * Second)%Z serverWriteTimeout (60 * Second)%Z.

(* cmd/aegispxe-server/main.go:35-38 namedHTTPServer *)
Record namedHTTPServer := mkNamed { name : string; server : http_Server }.

(** ** Start *)

Section Startup.
Context `{Artifact.Crypto} `{WebAuthn} `{ManifestDecoder}.

(** The running server: its configuration, the store and what it keeps in
    memory. *)
Record running := mkRunning {
  run_server : Server;
  run_proxy : TrustedProxy;
  run_passkeys : option Service;
  run_db : DB;
  run_console : console;
  run_listeners : list namedHTTPServer }.

Inductive startup := Exits (code : Z) | Serving (r : running).

Definition asset_directory (w : surroundings) : string :=
  env w "AEGISPXE_SECURE_BOOT_ASSET_DIR" "/usr/lib/aegispxe/secureboot".

(** The Secure Boot policy and whether the files are valid. *)
(* cmd/aegispxe-server/main.go:58-83 main *)
Definition secure_boot (w : surroundings) : result (Secureboot.Policy * bool) :=
  policy ← Secureboot.ParsePolicy (env w "AEGISPXE_SECURE_BOOT_POLICY" Secureboot.PolicyRequired);
  let assets := ValidateAssets (asset_files w) (asset_directory w) in
  match assets with
  | Ok _ => Ok (policy, true)
  | Err e => _ ← fail_if (policy =? Secureboot.PolicyRequired)%string e; Ok (policy, false)
  end.

(* cmd/aegispxe-server/main.go:141-155 main *)
Definition listen_addresses (w : surroundings) (proxy : TrustedProxy) : result (string * option string) :=
  let pxeAddress := envFirst w "0.0.0.0:8090" ["AEGISPXE_PXE_LISTEN"; "AEGISPXE_LISTEN"] in
  let studioAddress := envFirst w "127.0.0.1:8091" ["AEGISPXE_STUDIO_LISTEN"; "AEGISPXE_OPERATOR_LISTEN"] in
  if EqualFold studioAddress "disabled" then Ok (pxeAddress, None) else
  _ ← validateStudioListen studioAddress (Enabled proxy); Ok (pxeAddress, Some studioAddress).

(* cmd/aegispxe-server/main.go:121-139 main *)
Definition operator_access (w : surroundings) : result (option Service * TrustedProxy) :=
  passkeys ← Passkeys.New (env w "AEGISPXE_WEBAUTHN_RP_ID" "") (splitConfigList (env w "AEGISPXE_WEBAUTHN_ORIGINS" ""));
  proxyTrust ← ParseTrustedProxy (env w "AEGISPXE_TRUSTED_PROXY_CIDRS" "")
                 (env w "AEGISPXE_TRUSTED_PROXY_IDENTITY_HEADER" "Remote-User")
                 (env w "AEGISPXE_TRUSTED_PROXY_PROTO_HEADER" "X-Forwarded-Proto");
  Ok (passkeys, proxyTrust).

(* cmd/aegispxe-server/main.go:162-171 main *)
Definition listeners (pxeAddress : string) (studioAddress : option string) : list namedHTTPServer :=
  mkNamed "pxe" (newHTTPServer pxeAddress PXE) ::
  match studioAddress with
  | Some address => [mkNamed "studio" (newHTTPServer address StudioUI)]
  | None => []
  end.

(** After the recovery key has been loaded. *)
(* cmd/aegispxe-server/main.go:121-171 main *)
Definition configure (version : string) (w : surroundings) (policy : Secureboot.Policy) (assetsValid : bool) (db : DB) (operatorAuth : Manager)
    : result running :=
  '(passkeys, proxyTrust) ← operator_access w;
  '(pxeAddress, studioAddress) ← listen_addresses w proxyTrust;
  Ok (mkRunning (NewWithConfig version policy assetsValid) proxyTrust passkeys db
        (started_console operatorAuth studioLogCapacity) (listeners pxeAddress studioAddress)).

(** How the start ends, and the recovery key's file if it was created. *)
(* cmd/aegispxe-server/main.go:40-171 main *)
Definition main (version : string) (w : surroundings) : startup * option string :=
  match UnmarshalLevel (env w "AEGISPXE_LOG_LEVEL" "info") with
  | None => (Exits 2, None)
  | Some _ =>
    match ('(policy, valid) ← secure_boot w; db ← store_Open w (env w "AEGISPXE_DB" "/var/lib/aegispxe/aegispxe.db"); Ok (policy, valid, db)) with
    | Err _ => (Exits 1, None)
    | Ok (policy, valid, db) =>
      let '(auth, file) := LoadOrCreate (env w "AEGISPXE_OPERATOR_KEY" "/var/lib/aegispxe/operator.key") (key_files w) (random w) in
      (match (auth ← auth; configure version w policy valid db auth) with Err _ => Exits 1 | Ok r => Serving r end, file)
    end
  end.

(** ** End *)

(** What the process waits for: a signal, or the end of a listener with the
    error of [ListenAndServe] unless it was closed. *)
Inductive ending := Signalled | ListenerEnds (listener : string) (serveErr : option error).

(** Every listener is shut down before the process ends. *)
(* cmd/aegispxe-server/main.go:200-221 main *)
Definition exit_code (first : ending) : Z :=
  match first with
  | Signalled => 0
  | ListenerEnds _ serveErr => match serveErr with Some _ => 1 | None => 0 end
  end.

(** ** What a running server has been checked for *)

Lemma secure_boot_Ok `{!Artifact.CryptoLaws _} w policy valid :
  secure_boot w = Ok (policy, valid) →
  policy ∈ [Secureboot.PolicyRequired; Secureboot.PolicyAudit; Secureboot.PolicyDisabled] ∧
  (valid = true ↔ ∃ report, accepted (asset_files w) (Clean (TrimSpace (asset_directory w))) report) ∧
  (policy = Secureboot.PolicyRequired → valid = true).
Proof.
  unfold secure_boot. fold (asset_directory w). intros Hs. destruct (Secureboot.ParsePolicy _) as [q|] eqn:Hq; [|done].
  cbn [mbind result_bind] in Hs.
  assert (q ∈ [Secureboot.PolicyRequired; Secureboot.PolicyAudit; Secureboot.PolicyDisabled]) as Hin.
  { unfold Secureboot.ParsePolicy in Hq. cbv zeta in Hq. destruct (_ || _ || _) eqn:E; [|done]. injection Hq as <-.
    rewrite !elem_of_cons. rewrite !orb_true_iff, !String.eqb_eq in E. tauto. }
  destruct (ValidateAssets _ _) as [report|e] eqn:Hv.
  - injection Hs as -> <-. pose proof (proj1 (accepted_assets_iff _ _ _) Hv). split; [done|]. split; [|done]. split; [by exists report|done].
  - ok_inv. bool_inv. split; [done|]. split; [|done]. split; [done|]. intros [report Hr]. pose proof (proj2 (accepted_assets_iff _ _ _) Hr). congruence.
Qed.

Lemma validateStudioListen_Ok address enabled :
  validateStudioListen address enabled = Ok tt → ∃ host port ip,
    SplitHostPort (TrimSpace address) = Some (host, port) ∧ port ≠ "" ∧ ParseIP host = Some ip ∧ (IsLoopback ip = true ∨ enabled = true).
Proof.
  unfold validateStudioListen. destruct (SplitHostPort _) as [[host port]|]; [|done]. intros Hs. ok_inv. bool_inv.
  destruct (ParseIP host) as [ip|] eqn:Hip; [|done]. ok_inv. exists host, port, ip. split_and!; try done.
  destruct (IsLoopback ip), enabled; auto.
Qed.

(** C13. A server that starts has one of the three Secure Boot policies, takes its
    files for valid exactly when they are the pinned ones, and never lacks them
    under the required policy; each of its listeners is the boot listener or is
    bound to an IP literal that is a loopback address unless trusted proxies are
    configured; and its console is an initial state of the operator interface. *)
Theorem startup_is_guarded `{!Artifact.CryptoLaws _} version w r created :
  main version w = (Serving r, created) →
  s_secureBootPolicy (run_server r) ∈ [Secureboot.PolicyRequired; Secureboot.PolicyAudit; Secureboot.PolicyDisabled] ∧
  (s_secureBootAssetsValid (run_server r) = true ↔
    ∃ report, accepted (asset_files w) (Clean (TrimSpace (asset_directory w))) report) ∧
  (s_secureBootPolicy (run_server r) = Secureboot.PolicyRequired → s_secureBootAssetsValid (run_server r) = true) ∧
  (∀ l, l ∈ run_listeners r → handler_surface (server l) = PXE ∨
    ∃ host port ip, SplitHostPort (TrimSpace (Addr (server l))) = Some (host, port) ∧ port ≠ "" ∧
      ParseIP host = Some ip ∧ (IsLoopback ip = true ∨ prefixes (run_proxy r) ≠ [])) ∧
  (reachable (run_db r) → started (mkStudio (run_db r, run_console r) ∅ [])).
Proof.
  unfold main. destruct (UnmarshalLevel _); [|done].
  destruct (secure_boot w) as [[policy valid]|] eqn:Hsb; [|done]. cbn [mbind result_bind].
  destruct (store_Open w _) as [db|]; [|done]. cbn [mbind result_bind].
  destruct (LoadOrCreate _ _ _) as [[auth|] file] eqn:Hl; [|done]. cbn [mbind result_bind].
  destruct (configure _ _ _ _ _ _) as [r'|] eqn:Hc; [|done]. intros [= <- <-].
  unfold configure in Hc. apply bind_Ok in Hc as ([passkeys proxy] & Ho & Hc).
  apply bind_Ok in Hc as ([pxe studio_] & Haddr & [= <-]). cbn.
  apply secure_boot_Ok in Hsb as (Hp & Hv & Hr). unfold NewWithConfig. cbn.
  assert (match Secureboot.ParsePolicy policy with Ok _ => policy | Err _ => Secureboot.PolicyAudit end = policy) as ->.
  { rewrite !elem_of_cons, elem_of_nil in Hp. by destruct Hp as [->|[->|[->|[]]]]. }
  split_and!; [done..| |].
  - intros l Hin. unfold listen_addresses in Haddr. cbv zeta in Haddr. destruct (EqualFold _ _); ok_inv.
    + unfold listeners in Hin. apply list_elem_of_singleton in Hin as ->. by left.
    + match goal with H : validateStudioListen _ _ = Ok _ |- _ => apply validateStudioListen_Ok in H as (host & port & ip & Hs & Hport & Hip & He) end.
      unfold listeners in Hin. rewrite elem_of_cons, list_elem_of_singleton in Hin. destruct Hin as [->| ->]; [by left|]. right.
      exists host, port, ip. split_and!; try done. destruct He as [He|He]; [by left|right]. unfold Enabled in He. by bool_inv.
  - intros Hreach. unfold LoadOrCreate in Hl. destruct (negb _); [done|]. destruct (loadOrCreateRecoveryKey _ _) as [[[key created]|] f]; [|done].
    cbn in Hl. injection Hl as Hn <-. by exists db, key, auth, studioLogCapacity.
Qed.

(** ** The recovery key *)

Lemma trim_right_line s : all_bytes is_graph s = true → trim_right (s +:+ nl) = s.
Proof.
  induction s as [|c s IH]; [done|]. cbn [all_bytes String.append trim_right]. intros Hs. bool_inv.
  unfold all_space, trim_left. cbn [trim_left_go]. rewrite is_graph_nospace by done. cbn. by rewrite IH.
Qed.

Lemma TrimSpace_line s : all_bytes is_graph s = true → TrimSpace (s +:+ nl) = s.
Proof.
  intros Hs. unfold TrimSpace. destruct s as [|c s]; [done|]. rewrite <- (trim_right_line _ Hs) at 2. f_equal.
  cbn [all_bytes] in Hs. bool_inv. unfold trim_left. cbn [String.append trim_left_go]. by rewrite is_graph_nospace.
Qed.

(** The file that is created holds the key. *)
Lemma created_key fs a key created text :
  loadOrCreateRecoveryKey fs a = (Ok (key, created), Some text) → all_bytes is_graph key = true ∧ text = key +:+ nl.
Proof.
  unfold loadOrCreateRecoveryKey. destruct (kf_lstat fs); [|done|intros Hl; simplify_eq].
  destruct (kf_MkdirAll fs); [|done]. cbn [or_fail mbind result_bind]. unfold randomToken.
  destruct (entropy a 0 32) as [bytes|]; [|done]. cbn [mbind result_bind]. destruct (kf_OpenFile fs); [|done].
  cbn [or_fail mbind result_bind]. destruct (_ ≫= _) as [u|]; [|done]. intros [= <- _ <-]. split; [apply b64_encode_graph|done].
Qed.

(** A server that restarts finds the recovery key it has created: loading the
    file as it was written, with the mode it was created with, gives the same
    manager and writes nothing. *)
Theorem recovery_key_survives_restart path disk a m text disk' a' :
  LoadOrCreate path disk a = (Ok m, Some text) →
  kf_lstat (disk' (Clean (TrimSpace path))) = Present true 384 →
  kf_ReadFile (disk' (Clean (TrimSpace path))) = Ok text →
  LoadOrCreate path disk' a' = (Ok m, None).
Proof.
  unfold LoadOrCreate. destruct (negb _); [done|]. generalize (Clean (TrimSpace path)). intros p Hl Hs Hr.
  destruct (loadOrCreateRecoveryKey (disk p) a) as [[[key created]|] file] eqn:E; [|done]. cbn in Hl. injection Hl as Hn ->.
  apply created_key in E as (Hg & ->). unfold loadOrCreateRecoveryKey. rewrite Hs, Hr. cbn [negb fail_if mbind result_bind or_fail].
  change (Z.land 384 63 =? 0)%Z with true. cbn [negb fail_if mbind result_bind fst].
  rewrite (TrimSpace_line _ Hg). by rewrite Hn.
Qed.
End Startup.
