(* ===== verification/ReporterHost.v ===== *)
(** * The machine the reporter runs on

    The reporter (internal/reporter) is a set of processes -- the daemon, the
    hooks of the installer, the hand-over to the installed system -- that share
    files, one of them under a lock.  A process is a program of calls to the
    operating system, the TPM and the network; [perform] is what a call does.
    Between two calls of a process others may run. *)

From S2P Require Import Prelude GoStrings Fault Encoding.
From S2P Require Artifact.
From S2P Require Import Http.

(** ** Requests of the client *)

Record http_request := mkHttp {
  h_Method : string;
  h_URL : URL;
  h_Header : list (string * string);   (* under canonical keys *)
  h_Body : string }.

(** ** Calls

    [None] in the result of a read is a file that does not exist. *)
Inductive sys : Type → Type :=
| MkdirAll (path : string) : sys (result unit)
| ReadFile (path : string) : sys (result (option string))
| ReadAt (path : string) (offset : Z) (size : nat) : sys (result (option string))
| WriteFile (path content : string) (mode : Z) : sys (result unit)      (* truncates; creates with the mode *)
| Chmod (path : string) (mode : Z) : sys (result unit)
| Rename (old new : string) : sys (result unit)
| Remove (path : string) : sys (result (option unit))
| Symlink (target link : string) : sys (result unit)
| Stat (path : string) : sys (result (option (Z * bool * Z)))           (* size, regular, permissions *)
| OpenFile (path : string) (mode : Z) : sys (result unit)               (* O_CREATE *)
| Flock (path : string) : sys (result unit)                             (* LOCK_EX; waits *)
| Unlock (path : string) : sys unit                                     (* LOCK_UN, or the close *)
| Append (path content : string) : sys (result unit)                    (* O_APPEND *)
| Truncate (path : string) : sys (result unit)
| WriteStart (path content : string) : sys (result unit)                (* from offset 0 *)
| Executable : sys (result string)
| Now : sys time
| Wait (duration : Z) : sys bool                                        (* true: the context is done *)
| Exchange (r : http_request) : sys (result (Z * result string))        (* status and body *)
| TPMOpen (device : string) : sys (result unit)
| TPMCreatePrimary : sys (result (option Artifact.rsa_PublicKey))       (* None: not an RSA key *)
| TPMSign (digest : string) : sys (result (option string))              (* None: not an RSA signature of a SHA-256 digest *)
| TPMDecrypt (ciphertext label : string) : sys (result string)
| TPMClose : sys unit
| Close : sys (result unit)                                              (* of a file written to *)
| Sshd_t : sys (string * bool).                                          (* sshd -t: output, success *)

(** ** Programs

    [Panic] is a run-time panic, which ends the process. *)
Inductive proc (A : Type) : Type :=
| Ret (x : A)
| Panic
| Sys {B : Type} (c : sys B) (k : B → proc A).
#[global] Arguments Ret {_} _.
#[global] Arguments Panic {_}.
#[global] Arguments Sys {_ _} _ _.

#[global] Instance proc_ret : MRet proc := @Ret.
#[global] Instance proc_bind : MBind proc := λ A B f,
  fix go (p : proc A) : proc B :=
    match p with
    | Ret x => f x
    | Panic => Panic
    | Sys c k => Sys c (λ r, go (k r))
    end.

Definition sys_ {B} (c : sys B) : proc B := Sys c Ret.

(** [if err != nil { return err }]. *)
Definition or_return {A B} (p : proc (result A)) (k : A → proc (result B)) : proc (result B) :=
  r ← p; match r with Ok x => k x | Err e => mret (Err e) end.
Notation "x '←?' p ; k" := (or_return p (λ x, k)) (at level 20, p at level 100, k at level 200) : stdpp_scope.
Notation "'?' p ; k" := (or_return p (λ _, k)) (at level 20, p at level 100, k at level 200, only parsing) : stdpp_scope.

Definition pure {A} (r : result A) : proc (result A) := mret r.

(** A section under the exclusive lock of a file. *)
Definition with_lock {A} (path : string) (mode : Z) (body : proc (result A)) : proc (result A) :=
  _ ←? sys_ (OpenFile path mode);
  r ← (_ ←? sys_ (Flock path); body);
  _ ← sys_ (Unlock path);
  mret r.

(** ** What a call does

    [outer] is what the rest of the world answers to one call: whether the call
    fails, and how many bytes of a failing write arrive; the clock; the context;
    the peers. *)
Record outer := mkOuter {
  o_fails : option error;
  o_partial : nat;
  o_clock : time;
  o_done : bool;
  o_http : http_request → result (Z * result string);
  o_key : result (option Artifact.rsa_PublicKey);
  o_sign : string → result (option string);
  o_decrypt : string → string → result string;
  o_sshd : string * bool;
  o_stat : string → bool * Z;           (* regular, permissions *)
  o_executable : string }.

Record disk := mkDisk { files : gmap string string; locks : gmap string nat }.

Definition set_file (path content : string) (d : disk) : disk := mkDisk (<[path := content]> (files d)) (locks d).
Definition unset_file (path : string) (d : disk) : disk := mkDisk (delete path (files d)) (locks d).

Definition first_bytes (n : nat) (s : string) : string := String.substring 0 n s.

(** A write puts [content] or, when it fails, a part of it. *)
Definition written (o : outer) (content : string) : string :=
  match o_fails o with None => content | Some _ => first_bytes (o_partial o) content end.
Definition status (o : outer) : result unit := match o_fails o with None => Ok tt | Some e => Err e end.
Definition unless_fails {B} (o : outer) (r : result B * disk) (d : disk) : result B * disk :=
  match o_fails o with None => r | Some e => (Err e, d) end.

(** [pid] is the process that calls; a lock that another process holds keeps
    the call waiting: there is no answer yet. *)
Definition perform (pid : nat) {B} (c : sys B) (o : outer) (d : disk) : option (B * disk) :=
  match c in sys B return option (B * disk) with
  | MkdirAll _ | Symlink _ _ | Close => Some (status o, d)
  | ReadFile path => Some (unless_fails o (Ok (files d !! path), d) d)
  | ReadAt path offset size =>
    Some (unless_fails o (match files d !! path with
                          | None => Ok None
                          | Some content =>
                            if (offset <? 0)%Z then Err (Plain "invalid argument")
                            else Ok (Some (first_bytes size (drop_bytes (Z.to_nat offset) content)))
                          end, d) d)
  | WriteFile path content _ => Some (status o, set_file path (written o content) d)
  | Chmod _ _ => Some (status o, d)
  | Rename old new =>
    Some (match o_fails o, files d !! old with
          | Some e, _ => (Err e, d)
          | None, None => (Err (Plain "no such file or directory"), d)
          | None, Some content => (Ok tt, set_file new content (unset_file old d))
          end)
  | Remove path => Some (unless_fails o (Ok (match files d !! path with Some _ => Some tt | None => None end), unset_file path d) d)
  | Stat path =>
    Some (unless_fails o (Ok (match files d !! path with
                              | Some content => Some (len content, (o_stat o path).1, (o_stat o path).2)
                              | None => None
                              end), d) d)
  | OpenFile path _ => Some (unless_fails o (Ok tt, match files d !! path with Some _ => d | None => set_file path "" d end) d)
  | Flock path =>
    match o_fails o, locks d !! path with
    | Some e, _ => Some (Err e, d)
    | None, None => Some (Ok tt, mkDisk (files d) (<[path := pid]> (locks d)))
    | None, Some _ => None
    end
  | Unlock path => Some (tt, if decide (locks d !! path = Some pid) then mkDisk (files d) (delete path (locks d)) else d)
  | Append path content => Some (status o, set_file path (default "" (files d !! path) +:+ written o content) d)
  | Truncate path => Some (unless_fails o (Ok tt, set_file path "" d) d)
  | WriteStart path content =>
    let text := written o content in
    Some (status o, set_file path (text +:+ drop_bytes (String.length text) (default "" (files d !! path))) d)
  | Executable => Some (unless_fails o (Ok (o_executable o), d) d)
  | Now => Some (o_clock o, d)
  | Wait _ => Some (o_done o, d)
  | Exchange r => Some (o_http o r, d)
  | TPMOpen _ => Some (status o, d)
  | TPMCreatePrimary => Some (o_key o, d)
  | TPMSign digest => Some (o_sign o digest, d)
  | TPMDecrypt ciphertext label => Some (o_decrypt o ciphertext label, d)
  | TPMClose => Some (tt, d)
  | Sshd_t => Some (o_sshd o, d)
  end.
