(* ===== verification/ReporterClient.v ===== *)
(** * The reporter's client: configuration, TPM key, signed requests
    (internal/reporter/config.go, tpm.go, client.go)

    encoding/json, time.Format and the encoding of public keys are the
    operations of [ReporterCodec]. *)

From S2P Require Import Prelude GoStrings Fault Encoding StringFacts Http ReporterHost.
From S2P Require Artifact Lifecycle Boottrust Telemetry HttpTelemetry StoreTelemetry.

(** ** Data *)

(* internal/reporter/config.go:16-21 Config *)
Record Config := mkConfig { APIBase : string; InstallationID : string; MachineID : string; AdminUsername : string }.

(* internal/reporter/runtime.go:31-38 queuedEvent *)
Record queuedEvent := mkQueued {
  qe_Stage : string; qe_Source : string; qe_Message : string; qe_ErrorCode : string;
  qe_ClientTime : time; qe_IdempotencyKey : string }.

(** The answers of the server that the client decodes. *)
(* internal/reporter/client.go:42-45 Client.AcquireCredential *)
Record enrolled := mkEnrolled { er_Fingerprint : string; er_State : string }.
(* internal/reporter/client.go:57-63 Client.AcquireCredential *)
Record challenge := mkChallengeReply {
  cr_ID : string; cr_InstallationID : string; cr_MachineID : string; cr_Fingerprint : string; cr_Nonce : string }.
(* internal/reporter/client.go:85-90 Client.AcquireCredential *)
Record release := mkReleaseReply {
  rr_ChallengeID : string; rr_Algorithm : string; rr_Ciphertext : string; rr_ExpiresAt : time }.

(** [api_error] is the code and the message of an error answer, empty where the
    body has none. *)
Class ReporterCodec := {
  marshal : json → string;
  marshal_queued : queuedEvent → result string;
  unmarshal_queued : string → result queuedEvent;
  decode_config : string → result Config;
  MarshalIndent_config : Config → result string;
  decode_enrolled : string → result enrolled;
  decode_challenge_reply : string → result challenge;
  decode_release : string → result release;
  api_error : string → string * string;
  time_Format : time → string;                                  (* RFC3339Nano, UTC *)
  MarshalPKIXPublicKey : Artifact.rsa_PublicKey → result string;
  pem_EncodeToMemory : string → string }.

(** ** Configuration *)

(* internal/reporter/config.go:12-12 InstallerConfigPath *)
Definition InstallerConfigPath : string := "/aegispxe/reporter.json".
(* internal/reporter/config.go:13-13 SystemConfigPath *)
Definition SystemConfigPath : string := "/etc/aegispxe/reporter.json".

(* internal/reporter/config.go:40-55 Config.Validate *)
Definition Config_Validate (c : Config) : result unit :=
  let invalid := Plain "reporter API base is invalid" in
  _ ← match url_Parse (TrimSpace (APIBase c)) with
      | None => Err invalid
      | Some parsed =>
        _ ← fail_if ((Host parsed =? "")%string || (negb (Scheme parsed =? "http")%string && negb (Scheme parsed =? "https")%string)
                     || has_User parsed || negb (RawQuery parsed =? "")%string || negb (Fragment parsed =? "")%string) invalid;
        fail_if (negb (Path parsed =? "")%string && negb (Path parsed =? "/")%string)
          (Plain "reporter API base must not contain a path")
      end;
  _ ← fail_if (blank (InstallationID c) || blank (MachineID c)) (Plain "reporter installation and machine IDs are required");
  fail_if (blank (AdminUsername c) || (32 <? len (TrimSpace (AdminUsername c)))%Z) (Plain "reporter admin username is invalid").

(** [strings.TrimRight(s, set)] for a set of one byte. *)
Fixpoint TrimRight (c : ascii) (s : string) : string :=
  match s with
  | "" => ""
  | String d t => match TrimRight c t with
                  | "" => if Ascii.eqb d c then "" else String d ""
                  | t => String d t
                  end
  end.

(* internal/reporter/config.go:57-59 Config.endpoint *)
Definition endpoint (c : Config) (suffix : string) : string :=
  TrimRight "/" (APIBase c) +:+ "/api/v1/installations/" +:+ PathEscape (InstallationID c) +:+ suffix.

Section Client.
Context `{Artifact.Crypto} `{ReporterCodec}.

(* internal/reporter/config.go:23-38 LoadConfig *)
Definition LoadConfig (path : string) : proc (result Config) :=
  content ←? sys_ (ReadFile path);
  mret match content with
  | None => Err (Plain "no such file or directory")
  | Some content => cfg ← decode_config content; _ ← Config_Validate cfg; Ok cfg
  end.

(** ** The TPM key *)

(* internal/reporter/tpm.go:19-19 lifecycleOAEPLabel *)
Definition lifecycleOAEPLabel : string := "AegisPXE lifecycle credential v1".

(* internal/reporter/tpm.go:21-27 TPMKey *)
Record TPMKey := mkTPMKey { publicKey : Artifact.rsa_PublicKey; publicPEM : string; fingerprint : string }.

(** The first device that opens. *)
(* internal/reporter/tpm.go:30-44 OpenTPMKey *)
Fixpoint open_device (devices : list string) (err : error) : proc (result unit) :=
  match devices with
  | [] => mret (Err err)
  | path :: devices =>
    info ← sys_ (Stat path);
    match info with
    | Ok (Some _) =>
      opened ← sys_ (TPMOpen path);
      match opened with Ok _ => mret (Ok tt) | Err e => open_device devices e end
    | _ => open_device devices err
    end
  end.

(** An error after the device was opened closes it. *)
Definition or_close {A} (p : proc (result A)) : proc (result A) :=
  r ← p; match r with Ok x => mret (Ok x) | Err e => _ ← sys_ TPMClose; mret (Err e) end.

(* internal/reporter/tpm.go:29-85 OpenTPMKey *)
Definition OpenTPMKey : proc (result TPMKey) :=
  _ ←? open_device ["/dev/tpmrm0"; "/dev/tpm0"] (Plain "no TPM 2.0 device found");
  or_close (
    created ← sys_ TPMCreatePrimary;
    mret (public ← or_fail created (Wrapped "create deterministic TPM reporter key");
          match public with
          | None => Err (Plain "TPM reporter key is not RSA")
          | Some rsaPublic =>
            der ← or_fail (MarshalPKIXPublicKey rsaPublic) (Wrapped "marshal TPM reporter public key");
            parsed ← Boottrust.ParseRSAPublicKeyPEM (pem_EncodeToMemory der);
            Ok (mkTPMKey rsaPublic (pem_EncodeToMemory der) parsed.2)
          end)).

(* internal/reporter/tpm.go:98-111 TPMKey.Sign *)
Definition TPMKey_Sign (k : TPMKey) (message : string) : proc (result string) :=
  let digest := Artifact.sha256 message in
  signature ← sys_ (TPMSign digest);
  mret (signature ← or_fail signature (Wrapped "TPM sign boot trust challenge");
        match signature with
        | None => Err (Plain "TPM returned an unexpected boot trust signature")
        | Some signature =>
          _ ← fail_if (negb (Artifact.rsa_verify (publicKey k) digest signature))
                (Wrapped "self-verify TPM signature" (Plain "crypto/rsa: verification error"));
          Ok signature
        end).

(* internal/reporter/tpm.go:113-122 TPMKey.DecryptLifecycleCredential *)
Definition DecryptLifecycleCredential (k : TPMKey) (ciphertext : string) : proc (result string) :=
  plaintext ← sys_ (TPMDecrypt ciphertext lifecycleOAEPLabel);
  mret (plaintext ← or_fail plaintext (Wrapped "TPM decrypt lifecycle credential");
        _ ← fail_if ((len plaintext <? 32)%Z || (128 <? len plaintext)%Z)
              (Plain "decrypted lifecycle credential has invalid length");
        Ok plaintext).

(** ** Requests *)

(** [http.NewRequestWithContext]: the URL must parse. *)
Definition NewRequest (method url body : string) (header : list (string * string)) : result http_request :=
  match url_Parse url with
  | None => Err (Plain "invalid URL")
  | Some u => Ok (mkHttp method u header body)
  end.

Definition maxResponse : nat := Nat.mul 256 1024.

(** A response outside of 2xx is an error; the body of another is decoded. *)
(* internal/reporter/client.go:175-205 Client.do *)
Definition client_do {A} (r : http_request) (destination : string → result A) : proc (result A) :=
  response ←? sys_ (Exchange r);
  mret (body ← response.2;
        let body := first_bytes maxResponse body in
        if (response.1 <? 200)%Z || (300 <=? response.1)%Z then
          let '(code, message) := api_error body in
          if negb (code =? "")%string then Err (Plain (code +:+ ": " +:+ message))
          else Err (Plain ("AegisPXE API returned HTTP " +:+ FormatInt response.1))
        else destination body).

(* internal/reporter/client.go:162-173 Client.postJSON *)
Definition postJSON {A} (url : string) (payload : json) (destination : string → result A) : proc (result A) :=
  match NewRequest "POST" url (marshal payload) [("Content-Type", "application/json")] with
  | Err e => mret (Err e)
  | Ok req => client_do req destination
  end.

(** [t.Unix()]. *)
Definition Unix (t : time) : Z := (t / Second - StoreTelemetry.unixToInternal)%Z.

(* internal/reporter/client.go:138-160 Client.postSigned *)
Definition postSigned (c : Config) (secret idempotencyKey suffix : string) (payload : json) : proc (result unit) :=
  let body := marshal payload in
  match NewRequest "POST" (endpoint c suffix) body [] with
  | Err e => mret (Err e)
  | Ok req =>
    now ← sys_ Now;
    let timestamp := Unix now in
    match Telemetry.Canonical "POST" (Path (h_URL req)) idempotencyKey timestamp body with
    | Err e => mret (Err e)
    | Ok canonical =>
      let signature := Telemetry.Sign (Telemetry.KeyFromSecret secret) canonical in
      client_do
        (mkHttp "POST" (h_URL req)
           [("Content-Type", "application/json"); ("Idempotency-Key", idempotencyKey);
            ("X-Aegis-Timestamp", FormatInt timestamp);
            ("Authorization", HttpTelemetry.Scheme +:+ " " +:+ signature)] body)
        (λ _, Ok tt)
    end
  end.

Definition optional_time (t : time) : list (string * json) :=
  if IsZero t then [] else [("client_time", JString (time_Format t))].

(** The keys of a map are marshalled in order. *)
(* internal/reporter/client.go:112-122 Client.PostEvent *)
Definition event_payload (stage source message errorCode : string) (clientTime : time) : json :=
  JObject (optional_time clientTime
           ++ (if blank errorCode then [] else [("error_code", JString (TrimSpace errorCode))])
           ++ [("message", JString (TrimSpace message)); ("source", JString source); ("stage", JString stage)]).

(* internal/reporter/client.go:111-124 Client.PostEvent *)
Definition PostEvent (c : Config) (secret idempotencyKey stage source message errorCode : string) (clientTime : time) : proc (result unit) :=
  postSigned c secret idempotencyKey "/reporter/events" (event_payload stage source message errorCode clientTime).

(* internal/reporter/client.go:127-134 Client.PostLog *)
Definition log_payload (sequence : Z) (source content : string) (clientTime : time) : json :=
  JObject (optional_time clientTime
           ++ [("content", JString content); ("sequence", JInt sequence); ("source", JString source)]).

(* internal/reporter/client.go:126-136 Client.PostLog *)
Definition PostLog (c : Config) (secret idempotencyKey : string) (sequence : Z) (source content : string) (clientTime : time) : proc (result unit) :=
  postSigned c secret idempotencyKey "/reporter/logs" (log_payload sequence source content clientTime).

(** ** The credential *)

(* internal/reporter/client.go:22-22 ErrPendingApproval *)
Definition ErrPendingApproval : error := Plain "TPM boot trust key awaits operator approval".

(* internal/reporter/client.go:29-34 CredentialMaterial *)
Record CredentialMaterial := mkMaterial { cm_Secret : string; cm_Ciphertext : string; cm_ExpiresAt : time; cm_Fingerprint : string }.

(* internal/reporter/client.go:40-109 Client.AcquireCredential *)
Definition AcquireCredential (c : Config) (key : TPMKey) : proc (result CredentialMaterial) :=
  enrolled ←? postJSON (endpoint c "/trust/enroll") (JObject [("public_key_pem", JString (publicPEM key))]) decode_enrolled;
  _ ←? pure (fail_if (negb (er_Fingerprint enrolled =? fingerprint key)%string)
               (Plain "server returned a different boot trust fingerprint"));
  _ ←? pure (fail_if (negb (er_State enrolled =? Boottrust.KeyApproved)%string) ErrPendingApproval);
  challenge ←? postJSON (endpoint c "/trust/challenge") (JObject [("fingerprint", JString (fingerprint key))]) decode_challenge_reply;
  nonce ←? pure match RawURLEncoding_DecodeString (cr_Nonce challenge) with
                | Some nonce => Ok nonce
                | None => Err (Wrapped "decode boot trust challenge" (Plain "illegal base64 data"))
                end;
  canonical ←? pure (Boottrust.CanonicalChallenge
                 (Boottrust.mkChallenge (cr_ID challenge) (cr_InstallationID challenge) (cr_MachineID challenge)
                    (cr_Fingerprint challenge) nonce zeroTime zeroTime zeroTime "" zeroTime));
  _ ←? pure (fail_if (negb (cr_InstallationID challenge =? InstallationID c)%string
                      || negb (cr_MachineID challenge =? MachineID c)%string
                      || negb (cr_Fingerprint challenge =? fingerprint key)%string)
               (Plain "boot trust challenge binding does not match reporter configuration"));
  signature ←? TPMKey_Sign key canonical;
  release ←? postJSON (endpoint c "/trust/prove")
               (JObject [("challenge_id", JString (cr_ID challenge));
                         ("signature", JString (RawURLEncoding_EncodeToString signature))]) decode_release;
  _ ←? pure (fail_if (negb (rr_ChallengeID release =? cr_ID challenge)%string || negb (rr_Algorithm release =? "RSA-OAEP-SHA256")%string)
               (Plain "server returned an unsupported trust release"));
  ciphertext ←? pure match RawURLEncoding_DecodeString (rr_Ciphertext release) with
                     | Some ciphertext => Ok ciphertext
                     | None => Err (Wrapped "decode encrypted lifecycle credential" (Plain "illegal base64 data"))
                     end;
  secret ←? DecryptLifecycleCredential key ciphertext;
  mret (Ok (mkMaterial secret ciphertext (rr_ExpiresAt release) (fingerprint key))).
End Client.
