(* ===== verification/Reporter.v ===== *)
(** * The reporter: event queue, daemon, hand-over, first boot
    (internal/reporter/runtime.go, hooks.go, finalizer.go, cmd/aegispxe-reporter)

    A loop that waits is a program with a bound on its turns; [None] is that it
    is still running. *)

From stdpp Require Import gmap.
From S2P Require Import Prelude GoStrings Fault Encoding GoParse StringFacts Http ReporterHost ReporterClient.
From S2P Require Artifact Lifecycle.

(** ** Files *)

(* internal/reporter/runtime.go:21-21 runtimeDir *)
Definition runtimeDir : string := "/run/aegispxe".
(* internal/reporter/runtime.go:22-22 queuePath *)
Definition queuePath : string := "/run/aegispxe/events.queue".
(* internal/reporter/runtime.go:23-23 ciphertextPath *)
Definition ciphertextPath : string := "/run/aegispxe/lifecycle.enc".
(* internal/reporter/runtime.go:24-24 syslogOffsetPath *)
Definition syslogOffsetPath : string := "/run/aegispxe/syslog.offset".
(* internal/reporter/runtime.go:25-25 logSequencePath *)
Definition logSequencePath : string := "/run/aegispxe/log.sequence".
(* internal/reporter/runtime.go:26-26 evidenceStatePath *)
Definition evidenceStatePath : string := "/run/aegispxe/evidence.state".
(* internal/reporter/runtime.go:27-27 installerSyslog *)
Definition installerSyslog : string := "/var/log/syslog".
(* internal/reporter/runtime.go:28-28 maxReporterLogRead *)
Definition maxReporterLogRead : nat := 65536.

(** [filepath.Dir] of a path with a slash. *)
Definition path_Dir (path : string) : string := match cut_last "/" path with Some (d, _) => d | None => "." end.

(** Written next to the file and renamed. *)
Definition atomic_write (path content : string) (mode : Z) : proc (result unit) :=
  _ ←? sys_ (MkdirAll (path_Dir path));
  let tmp := path +:+ ".tmp" in
  _ ←? sys_ (WriteFile tmp content mode);
  changed ← sys_ (Chmod tmp mode);
  match changed with
  | Err e => _ ← sys_ (Remove tmp); mret (Err e)
  | Ok _ => sys_ (Rename tmp path)
  end.

(* internal/reporter/runtime.go:340-353 writePrivateFile *)
Definition writePrivateFile (path content : string) : proc (result unit) := atomic_write path content 384.

(** [strconv.ParseInt] with its error ignored: a number out of range gives the
    nearest bound, anything else zero. *)
Definition ParseInt_value (s : string) : Z :=
  let clamp z := Z.max (- 2 ^ 63) (Z.min (2 ^ 63 - 1) z) in
  match s with
  | String c t =>
    if Ascii.eqb c "-" then clamp (- default 0 (digits_value t))%Z
    else clamp (default 0%Z (digits_value (if Ascii.eqb c "+" then t else s)))
  | "" => 0%Z
  end.

(* internal/reporter/runtime.go:327-334 readIntFile *)
Definition readIntFile (path : string) : proc Z :=
  content ← sys_ (ReadFile path);
  mret match content with Ok (Some content) => ParseInt_value (TrimSpace content) | _ => 0%Z end.

(* internal/reporter/runtime.go:336-338 writeIntFile *)
Definition writeIntFile (path : string) (value : Z) : proc (result unit) :=
  writePrivateFile path (FormatInt value +:+ nl).

(** [n + 1] of an int64. *)
Definition succ64 (n : Z) : Z := if (n =? 2 ^ 63 - 1)%Z then (- 2 ^ 63)%Z else (n + 1)%Z.

(** The next sequence number of the log. *)
(* internal/reporter/runtime.go:239-242 uploadInstallerLog *)
Definition next_sequence (n : Z) : Z := if (succ64 n <=? 0)%Z then 1%Z else succ64 n.

Section Reporter.
Context `{Artifact.Crypto} `{ReporterCodec}.

(** ** The event queue *)

(** Only ASCII bytes can pass, so that bytes do for runes. *)
Fixpoint keep_bytes (p : ascii → bool) (s : string) : string :=
  match s with "" => "" | String c t => if p c then String c (keep_bytes p t) else keep_bytes p t end.

(* internal/reporter/runtime.go:286-298 sanitizeKey *)
Definition sanitizeKey (value : string) : string :=
  let out := keep_bytes (λ c, is_lower c || is_digit c || byte_in c "._:-") (ToLower (TrimSpace value)) in
  if (out =? "")%string then "unknown" else out.

(* internal/reporter/runtime.go:276-284 validateQueuedEvent *)
Definition validateQueuedEvent (item : queuedEvent) : result unit :=
  _ ← fail_if (negb (Lifecycle.Stage_Valid (qe_Stage item)) || negb (Lifecycle.Source_Valid (qe_Source item)) || blank (qe_IdempotencyKey item))
        (Plain "invalid reporter lifecycle event");
  fail_if ((qe_Stage item =? Lifecycle.StageFailed)%string && (qe_ErrorCode item =? "")%string)
    (Plain "FAILED reporter event requires an error code").

(* internal/reporter/runtime.go:44-48 QueueEvent *)
Definition queued_event (stage source message errorCode : string) (t : time) : queuedEvent :=
  mkQueued stage source (TrimSpace message) (TrimSpace errorCode) t
    ("reporter:stage:" +:+ ToLower stage
     +:+ (if (stage =? Lifecycle.StageFailed)%string then ":" +:+ sanitizeKey errorCode else "")).

(* internal/reporter/runtime.go:40-67 QueueEvent *)
Definition QueueEvent (stage source message errorCode : string) : proc (result unit) :=
  _ ←? sys_ (MkdirAll runtimeDir);
  t ← sys_ Now;
  let item := queued_event stage source message errorCode t in
  _ ←? pure (validateQueuedEvent item);
  encoded ←? pure (marshal_queued item);
  with_lock queuePath 384 (sys_ (Append queuePath (encoded +:+ nl))).

(** [bufio.Scanner]: lines up to 64 KiB with their line feed, without a carriage
    return at the end; [None] is a line that is too long. *)
Definition maxScanToken : nat := 65536.

Fixpoint drop_cr (s : string) : string :=
  match s with
  | "" => ""
  | String c "" => if byte_is 13 c then "" else s
  | String c t => String c (drop_cr t)
  end.

(** The events of a queue file. *)
(* internal/reporter/runtime.go:180-190 drainEvents *)
Fixpoint decode_lines (lines : list string) : result (list queuedEvent) :=
  match lines with
  | [] | [""] => Ok []
  | line :: lines =>
    if (maxScanToken <=? String.length line)%nat then Err (Plain "bufio.Scanner: token too long")
    else if blank (drop_cr line) then decode_lines lines
    else item ← or_fail (unmarshal_queued (drop_cr line)) (Wrapped "decode queued event");
         events ← decode_lines lines;
         Ok (item :: events)
  end.

Definition decode_queue (content : string) : result (list queuedEvent) := decode_lines (split_byte (byte_of 10) content).

(** Posts the events in order until one fails; the rest. *)
(* internal/reporter/runtime.go:194-200 drainEvents *)
Fixpoint post_events (c : Config) (secret : string) (events : list queuedEvent) : proc (list queuedEvent) :=
  match events with
  | [] => mret []
  | item :: rest =>
    posted ← PostEvent c secret (qe_IdempotencyKey item) (qe_Stage item) (qe_Source item) (qe_Message item) (qe_ErrorCode item) (qe_ClientTime item);
    match posted with
    | Err _ => mret events
    | Ok _ => post_events c secret rest
    end
  end.

(** The text of a queue; an event that cannot be encoded leaves a blank line. *)
(* internal/reporter/runtime.go:210-214 drainEvents *)
Definition encode_queue (events : list queuedEvent) : string :=
  foldr (λ item rest, match marshal_queued item with Ok x => x | Err _ => "" end +:+ nl +:+ rest) "" events.

(* internal/reporter/runtime.go:166-216 drainEvents *)
Definition drainEvents (c : Config) (secret : string) : proc (result unit) :=
  with_lock queuePath 384 (
    content ←? sys_ (ReadFile queuePath);
    events ←? pure (decode_queue (default "" content));
    rest ← post_events c secret events;
    if (length rest =? length events)%nat then mret (Ok tt) else
    _ ←? sys_ (Truncate queuePath);
    if (encode_queue rest =? "")%string then mret (Ok tt) else sys_ (WriteStart queuePath (encode_queue rest))).

(** Without the lock. *)
(* internal/reporter/runtime.go:253-256 QueueEmpty *)
Definition QueueEmpty : proc bool :=
  info ← sys_ (Stat queuePath);
  mret match info with Ok (Some (size, _, _)) => (size =? 0)%Z | _ => false end.

(** ** The evidence of the installer's own log *)

(** The names seen; [None] is a nil map. *)
(* internal/reporter/runtime.go:300-315 readEvidenceState *)
Definition readEvidenceState : proc (option (gset string)) :=
  content ← sys_ (ReadFile evidenceStatePath);
  mret match content with
       | Ok None => Some ∅
       | Err _ => None
       | Ok (Some content) => Some (list_to_set (filter (λ l, l ≠ "") (TrimSpace <$> split_byte (byte_of 10) content)))
       end.

(** The order of the lines, which the reader ignores, is not fixed by the code. *)
(* internal/reporter/runtime.go:317-325 writeEvidenceState *)
Definition writeEvidenceState (seen : gset string) : proc (result unit) :=
  writePrivateFile evidenceStatePath (Join (elements seen) nl +:+ nl).

Record check := mkCheck { k_name : string; k_needle : string; k_stage : string; k_message : string; k_errorCode : string }.

(* internal/reporter/runtime.go:136-148 detectNativeInstallerEvidence *)
Definition checks : list check := [
  mkCheck "os-install" "Menu item 'bootstrap-base' selected" Lifecycle.StageOSInstalling "Debian Installer selected bootstrap-base" "";
  mkCheck "profile" "Menu item 'pkgsel' selected" Lifecycle.StageProfileApplying "Debian Installer selected pkgsel" "";
  mkCheck "base-failed" "Menu item 'bootstrap-base' failed" Lifecycle.StageFailed "Debian base installation failed" "INS101_DEBIAN_BASE_INSTALL_FAILED";
  mkCheck "profile-failed" "Menu item 'pkgsel' failed" Lifecycle.StageFailed "Debian package/profile installation failed" "INS102_DEBIAN_PROFILE_INSTALL_FAILED";
  mkCheck "bootloader-failed" "Menu item 'grub-installer' failed" Lifecycle.StageFailed "Debian bootloader installation failed" "INS103_DEBIAN_BOOTLOADER_FAILED"].

(** Assigning to a nil map panics. *)
(* internal/reporter/runtime.go:149-159 detectNativeInstallerEvidence *)
Fixpoint run_checks (l : list check) (text : string) (seen : option (gset string)) (changed : bool)
    : proc (result (option (gset string) * bool)) :=
  match l with
  | [] => mret (Ok (seen, changed))
  | k :: l =>
    if bool_decide (k_name k ∈ default ∅ seen) || negb (Contains text (k_needle k)) then run_checks l text seen changed else
    _ ←? QueueEvent (k_stage k) Lifecycle.SourceInstaller (k_message k) (k_errorCode k);
    match seen with
    | None => Panic
    | Some names => run_checks l text (Some ({[k_name k]} ∪ names)) true
    end
  end.

(* internal/reporter/runtime.go:126-164 detectNativeInstallerEvidence *)
Definition detectNativeInstallerEvidence : proc (result unit) :=
  content ←? sys_ (ReadFile installerSyslog);
  match content with
  | None => mret (Ok tt)
  | Some text =>
    seen ← readEvidenceState;
    found ←? run_checks checks text seen false;
    if found.2 then writeEvidenceState (default ∅ found.1) else mret (Ok tt)
  end.

(* internal/reporter/hooks.go:9-16 QueueHookEvent *)
Definition QueueHookEvent (stage source message errorCode : string) : proc (result unit) :=
  _ ←? (if (stage =? Lifecycle.StageHardening)%string && (source =? Lifecycle.SourceInstaller)%string
        then detectNativeInstallerEvidence else mret (Ok tt));
  QueueEvent stage source message errorCode.

(** ** The installer's log *)

(* internal/reporter/runtime.go:218-251 uploadInstallerLog *)
Definition uploadInstallerLog (c : Config) (secret : string) : proc (result unit) :=
  opened ←? sys_ (ReadAt installerSyslog 0 0);
  match opened with
  | None => mret (Ok tt)
  | Some _ =>
    offset ← readIntFile syslogOffsetPath;
    chunk ←? sys_ (ReadAt installerSyslog offset maxReporterLogRead);
    let content := default "" chunk in
    if (content =? "")%string then mret (Ok tt) else
    last ← readIntFile logSequencePath;
    let sequence := next_sequence last in
    t ← sys_ Now;
    _ ←? PostLog c secret ("reporter:log:" +:+ FormatInt sequence) sequence Lifecycle.SourceInstaller content t;
    _ ←? writeIntFile syslogOffsetPath (offset + len content);
    writeIntFile logSequencePath sequence
  end.

(** ** The daemon *)

(** What a loop does when the context is done. *)
Definition context_done : error := Plain "context canceled".

(** Until the operator has approved the key and a credential was released; a
    credential with an empty secret cannot be. *)
(* internal/reporter/runtime.go:81-104 RunDaemon *)
Fixpoint acquire_loop (turns : nat) (c : Config) (key : TPMKey) : proc (option (result string)) :=
  match turns with
  | O => mret None
  | S turns =>
    material ← AcquireCredential c key;
    match material with
    | Ok material =>
      saved ← writePrivateFile ciphertextPath (cm_Ciphertext material);
      mret (Some (match saved with Ok _ => Ok (cm_Secret material) | Err e => Err e end))
    | Err _ =>
      finished ← sys_ (Wait (2 * Second)%Z);
      if (finished : bool) then mret (Some (Err context_done)) else acquire_loop turns c key
    end
  end.

(** Errors of a turn are printed, not returned. *)
(* internal/reporter/runtime.go:106-123 RunDaemon *)
Fixpoint report_loop (turns : nat) (c : Config) (secret : string) : proc (option (result unit)) :=
  match turns with
  | O => mret None
  | S turns =>
    _ ← detectNativeInstallerEvidence;
    _ ← drainEvents c secret;
    _ ← uploadInstallerLog c secret;
    finished ← sys_ (Wait (2 * Second)%Z);
    if (finished : bool) then mret (Some (Err context_done)) else report_loop turns c secret
  end.

(* internal/reporter/runtime.go:69-124 RunDaemon *)
Definition RunDaemon (turns : nat) (c : Config) : proc (option (result unit)) :=
  made ← sys_ (MkdirAll runtimeDir);
  match made with
  | Err e => mret (Some (Err e))
  | Ok _ =>
    key ← OpenTPMKey;
    match key with
    | Err e =>
      _ ← QueueEvent Lifecycle.StageFailed Lifecycle.SourceInstaller "TPM 2.0 boot trust unavailable" "SEC019_BOOT_TRUST_KEY_INVALID";
      mret (Some (Err e))
    | Ok key =>
      secret ← acquire_loop turns c key;
      outcome ← match secret with
                | None => mret None
                | Some (Err e) => mret (Some (Err e))
                | Some (Ok secret) => report_loop turns c secret
                end;
      _ ← (match outcome with Some _ => sys_ TPMClose | None => mret tt end);
      mret outcome
    end
  end.
End Reporter.
