(* ===== verification/ReporterFinalizer.v ===== *)
(** * The reporter's hand-over to the installed system and its first boot
    (internal/reporter/finalizer.go, runtime.go, cmd/aegispxe-reporter), and the system of its processes

    [host_step] interleaves the calls of any number of reporter processes.  A
    process may die between two calls, which frees its locks, and any call may
    fail.  Three failures the code has no protection against are not steps: an
    event that reaches the queue in part, a rest of the queue that fails to be
    written back, and a process that dies between emptying the queue and writing
    the rest back.  Other programs, such as the installer, write other files. *)

From stdpp Require Import relations.
From S2P Require Import Prelude GoStrings Fault Encoding StringFacts Http ReporterHost ReporterClient Reporter GoParse.
From S2P Require Artifact Lifecycle Telemetry.

(* internal/reporter/finalizer.go:19-19 systemStateDir *)
Definition systemStateDir : string := "/var/lib/aegispxe".
(* internal/reporter/finalizer.go:20-20 systemCiphertextPath *)
Definition systemCiphertextPath : string := "/var/lib/aegispxe/lifecycle.enc".
(* internal/reporter/finalizer.go:21-21 systemLogSequence *)
Definition systemLogSequence : string := "/var/lib/aegispxe/log.sequence".
(* internal/reporter/finalizer.go:22-22 firstBootUnitPath *)
Definition firstBootUnitPath : string := "/etc/systemd/system/aegispxe-firstboot.service".
(* internal/reporter/finalizer.go:23-23 reporterInstallPath *)
Definition reporterInstallPath : string := "/usr/local/lib/aegispxe/aegispxe-reporter".

(* internal/reporter/finalizer.go:26-39 firstBootUnit *)
Definition firstBootUnit : string :=
  Join ["[Unit]"; "Description=AegisPXE first-boot validation reporter"; "After=network-online.target"; "Wants=network-online.target";
        "ConditionPathExists=/var/lib/aegispxe/lifecycle.enc"; ""; "[Service]"; "Type=oneshot";
        "ExecStart=/usr/local/lib/aegispxe/aegispxe-reporter first-boot"; "TimeoutStartSec=15min"; "";
        "[Install]"; "WantedBy=multi-user.target"; ""] nl.

Section Finalizer.
Context `{Artifact.Crypto} `{ReporterCodec}.

(* internal/reporter/finalizer.go:246-259 writeTargetFile *)
Definition writeTargetFile (path content : string) (mode : Z) : proc (result unit) := atomic_write path content mode.

(* internal/reporter/finalizer.go:215-244 copyFile *)
Definition copyFile (source destination : string) (mode : Z) : proc (result unit) :=
  input ←? sys_ (ReadFile source);
  match input with
  | None => mret (Err (Plain "no such file or directory"))
  | Some input =>
    _ ←? sys_ (MkdirAll (path_Dir destination));
    let tmp := destination +:+ ".tmp" in
    _ ←? sys_ (WriteFile tmp "" mode);
    copied ← sys_ (Append tmp input);
    closed ← sys_ Close;
    match copied, closed with
    | Err e, _ | Ok _, Err e => _ ← sys_ (Remove tmp); mret (Err e)
    | Ok _, Ok _ =>
      changed ← sys_ (Chmod tmp mode);
      match changed with
      | Err e => _ ← sys_ (Remove tmp); mret (Err e)
      | Ok _ => sys_ (Rename tmp destination)
      end
    end
  end.

(** ** Waiting for the daemon *)

(* internal/reporter/runtime.go:258-274 WaitForCredentialCiphertext *)
Fixpoint wait_ciphertext (turns : nat) (deadline : time) : proc (option (result string)) :=
  match turns with
  | O => mret None
  | S turns =>
    content ← sys_ (ReadFile ciphertextPath);
    match content with
    | Ok (Some (String _ _ as content)) => mret (Some (Ok content))
    | _ =>
      t ← sys_ Now;
      if After t deadline then mret (Some (Err (Plain "timed out waiting for operator-approved TPM boot trust"))) else
      finished ← sys_ (Wait Second);
      if (finished : bool) then mret (Some (Err context_done)) else wait_ciphertext turns deadline
    end
  end.

(* internal/reporter/runtime.go:258-274 WaitForCredentialCiphertext *)
Definition WaitForCredentialCiphertext (turns : nat) (timeout : Z) : proc (option (result string)) :=
  t ← sys_ Now; wait_ciphertext turns (t + timeout)%Z.

(* internal/reporter/finalizer.go:49-56 InstallFirstBoot *)
Fixpoint wait_drained (turns : nat) (deadline : time) : proc (option (result unit)) :=
  match turns with
  | O => mret None
  | S turns =>
    empty ← QueueEmpty;
    if (empty : bool) then mret (Some (Ok tt)) else
    t ← sys_ Now;
    if negb (Before t deadline) then mret (Some (Ok tt)) else
    finished ← sys_ (Wait (Second / 2)%Z);
    if (finished : bool) then mret (Some (Err context_done)) else wait_drained turns deadline
  end.

(** What is installed below the target once the queue is empty. *)
(* internal/reporter/finalizer.go:61-100 InstallFirstBoot *)
Definition install_files (c : Config) (target : string) : proc (result unit) :=
  executable ←? sys_ Executable;
  copied ← copyFile executable (target +:+ reporterInstallPath) 493;
  _ ←? pure (or_fail copied (Wrapped "install first-boot reporter"));
  configBytes ←? pure (MarshalIndent_config c);
  _ ←? writeTargetFile (target +:+ SystemConfigPath) (configBytes +:+ nl) 384;
  ciphertext ← sys_ (ReadFile ciphertextPath);
  ciphertext ←? pure match ciphertext with
                     | Ok (Some x) => Ok x
                     | Ok None => Err (Wrapped "read encrypted lifecycle credential" (Plain "no such file or directory"))
                     | Err e => Err (Wrapped "read encrypted lifecycle credential" e)
                     end;
  _ ←? writeTargetFile (target +:+ systemCiphertextPath) ciphertext 384;
  sequence ← sys_ (ReadFile logSequencePath);
  _ ←? match sequence with
       | Ok (Some (String _ _ as sequence)) => writeTargetFile (target +:+ systemLogSequence) sequence 384
       | _ => mret (Ok tt)
       end;
  _ ←? writeTargetFile (target +:+ firstBootUnitPath) firstBootUnit 420;
  let wants := target +:+ "/etc/systemd/system/multi-user.target.wants" in
  _ ←? sys_ (MkdirAll wants);
  let link := wants +:+ "/aegispxe-firstboot.service" in
  _ ← sys_ (Remove link);
  sys_ (Symlink "../aegispxe-firstboot.service" link).

(* internal/reporter/finalizer.go:41-101 InstallFirstBoot *)
Definition InstallFirstBoot (turns : nat) (c : Config) (target : string) : proc (option (result unit)) :=
  let target := Clean (TrimSpace target) in
  if (target =? ".")%string || negb (IsAbs target) || (target =? "/")%string
  then mret (Some (Err (Plain "first-boot target must be an absolute non-root installation path"))) else
  ciphertext ← WaitForCredentialCiphertext turns (15 * Minute)%Z;
  match ciphertext with
  | None => mret None
  | Some (Err e) => mret (Some (Err e))
  | Some (Ok _) =>
    t ← sys_ Now;
    drained ← wait_drained turns (t + 2 * Minute)%Z;
    match drained with
    | None => mret None
    | Some (Err e) => mret (Some (Err e))
    | Some (Ok _) =>
      empty ← QueueEmpty;
      if negb empty then mret (Some (Err (Plain "reporter lifecycle queue did not drain before first-boot handoff"))) else
      r ← install_files c target; mret (Some r)
    end
  end.

(** ** The first boot *)

(** The text of the log and the message of the error, if any. *)
Definition validation := (string * option string)%type.
(* internal/reporter/finalizer.go:148-153 validateInstalledSystem *)
Definition failed_check (log message : string) : validation := (log +:+ "FAIL " +:+ message +:+ nl, Some message).

(* internal/reporter/finalizer.go:159-166 validateInstalledSystem *)
Definition has_user (passwd username : string) : bool := existsb (λ line, HasPrefix line (username +:+ ":")) (split_byte (byte_of 10) passwd).

(* internal/reporter/finalizer.go:146-202 validateInstalledSystem *)
Definition validateInstalledSystem (c : Config) : proc validation :=
  passwd ← sys_ (ReadFile "/etc/passwd");
  match passwd with
  | Err _ | Ok None => mret (failed_check "" "could not read /etc/passwd")
  | Ok (Some passwd) =>
    if negb (has_user passwd (AdminUsername c)) then mret (failed_check "" "configured administrator account is missing") else
    let log := "PASS administrator account exists" +:+ nl in
    info ← sys_ (Stat ("/home/" +:+ AdminUsername c +:+ "/.ssh/authorized_keys"));
    match info with
    | Err _ | Ok None => mret (failed_check log "administrator authorized_keys is missing or empty")
    | Ok (Some (size, regular, permissions)) =>
      if negb regular || (size =? 0)%Z then mret (failed_check log "administrator authorized_keys is missing or empty") else
      if negb (Z.land permissions 63 =? 0)%Z then mret (failed_check log "administrator authorized_keys permissions are too broad") else
      let log := log +:+ "PASS administrator SSH authorized_keys exists with restricted permissions" +:+ nl in
      configInfo ← sys_ (Stat "/etc/ssh/sshd_config.d/90-aegispxe.conf");
      match configInfo with
      | Ok (Some (_, true, _)) =>
        let log := log +:+ "PASS SSH hardening configuration exists" +:+ nl in
        sshd ← sys_ Sshd_t;
        if negb sshd.2 then
          mret (log +:+ "FAIL sshd -t failed" +:+ nl
                +:+ (if (sshd.1 =? "")%string then "" else "sshd reported configuration errors" +:+ nl),
                Some "OpenSSH configuration validation failed")
        else
          let log := log +:+ "PASS sshd -t" +:+ nl in
          sudoers ← sys_ (Stat "/etc/sudoers.d/90-aegispxe-admin");
          mret match sudoers with
               | Ok (Some _) => (log +:+ "PASS AegisPXE sudo policy exists" +:+ nl, None)
               | _ => failed_check log "AegisPXE sudo policy is missing"
               end
      | _ => mret (failed_check log "AegisPXE SSH hardening configuration is missing")
      end
    end
  end.

(* internal/reporter/finalizer.go:204-213 postFirstBootLog *)
Definition postFirstBootLog (c : Config) (secret content : string) : proc (result unit) :=
  last ← readIntFile systemLogSequence;
  let sequence := next_sequence last in
  t ← sys_ Now;
  _ ←? PostLog c secret ("reporter:firstboot-log:" +:+ FormatInt sequence) sequence Lifecycle.SourceValidator content t;
  writeIntFile systemLogSequence sequence.

(** [client.PostEvent(..., time.Now().UTC())]. *)
Definition post_now (c : Config) (secret key stage source message errorCode : string) : proc (result unit) :=
  t ← sys_ Now; PostEvent c secret key stage source message errorCode t.

(* internal/reporter/finalizer.go:117-143 RunFirstBoot *)
Definition report_first_boot (c : Config) (secret : string) : proc (result unit) :=
  _ ←? post_now c secret "reporter:first-boot" Lifecycle.StageFirstBoot Lifecycle.SourceFinalizer "Installed operating system reached first boot" "";
  _ ←? post_now c secret "reporter:validating" Lifecycle.StageValidating Lifecycle.SourceValidator "AegisPXE first-boot validation started" "";
  outcome ← validateInstalledSystem c;
  _ ←? postFirstBootLog c secret outcome.1;
  match outcome.2 with
  | Some message =>
    _ ←? post_now c secret "reporter:failed:firstboot-validation" Lifecycle.StageFailed Lifecycle.SourceValidator message "VAL001_FIRST_BOOT_VALIDATION_FAILED";
    _ ← sys_ (Remove systemCiphertextPath);
    mret (Err (Plain message))
  | None =>
    _ ←? post_now c secret "reporter:success" Lifecycle.StageSuccess Lifecycle.SourceValidator "AegisPXE first-boot validation completed successfully" "";
    _ ←? sys_ (Remove systemCiphertextPath);
    mret (Ok tt)
  end.

(* internal/reporter/finalizer.go:103-144 RunFirstBoot *)
Definition RunFirstBoot (c : Config) : proc (result unit) :=
  ciphertext ← sys_ (ReadFile systemCiphertextPath);
  match ciphertext with
  | Err e => mret (Err (Wrapped "read first-boot credential ciphertext" e))
  | Ok None => mret (Err (Wrapped "read first-boot credential ciphertext" (Plain "no such file or directory")))
  | Ok (Some ciphertext) =>
    key ← OpenTPMKey;
    match key with
    | Err e => mret (Err (Wrapped "open TPM reporter key at first boot" e))
    | Ok key =>
      secret ← DecryptLifecycleCredential key ciphertext;
      r ← match secret with
          | Err e => mret (Err e)
          | Ok secret => report_first_boot c secret
          end;
      _ ← sys_ TPMClose;
      mret r
    end
  end.

(** ** The commands *)

(* cmd/aegispxe-reporter/main.go:58-75 runEvent *)
Definition runEvent (stage source message errorCode : string) : proc (result unit) :=
  let stage := Telemetry.ToUpper (TrimSpace stage) in
  let sourceValue := ToLower (TrimSpace source) in
  if negb (Lifecycle.Stage_Valid stage) || negb (Lifecycle.Source_Valid sourceValue)
  then mret (Err (Plain "invalid lifecycle stage or source"))
  else QueueHookEvent stage sourceValue message errorCode.

Definition with_config {A} (path : string) (run : Config → proc (option (result A))) : proc (option (result A)) :=
  cfg ← LoadConfig path;
  match cfg with Err e => mret (Some (Err e)) | Ok cfg => run cfg end.

(* cmd/aegispxe-reporter/main.go:45-56 runDaemon *)
Definition runDaemon (turns : nat) (configPath : string) : proc (option (result unit)) := with_config configPath (RunDaemon turns).

(* cmd/aegispxe-reporter/main.go:77-91 runInstallFirstBoot *)
Definition runInstallFirstBoot (turns : nat) (configPath target : string) : proc (option (result unit)) :=
  with_config configPath (λ cfg, InstallFirstBoot turns cfg target).

(* cmd/aegispxe-reporter/main.go:93-107 runFirstBoot *)
Definition runFirstBoot (configPath : string) : proc (option (result unit)) :=
  with_config configPath (λ cfg, r ← RunFirstBoot cfg; mret (Some r)).
End Finalizer.

Section System.
Context `{Artifact.Crypto} `{ReporterCodec}.

(** ** Processes *)

Definition ignore {A} (p : proc A) : proc unit := p ≫= λ _, mret tt.

(** The commands, on any arguments. *)
Inductive command : Type :=
| DaemonCommand (turns : nat) (configPath : string)
| EventCommand (stage source message errorCode : string)
| InstallCommand (turns : nat) (configPath target : string)
| FirstBootCommand (configPath : string).

Definition process_of (x : command) : proc unit :=
  match x with
  | DaemonCommand turns path => ignore (runDaemon turns path)
  | EventCommand stage source message errorCode => ignore (runEvent stage source message errorCode)
  | InstallCommand turns path target => ignore (runInstallFirstBoot turns path target)
  | FirstBootCommand path => ignore (runFirstBoot path)
  end.

(** One call with its answer, and the process that made it. *)
Record called := mkCalled { e_pid : nat; e_type : Type; e_call : sys e_type; e_answer : e_type }.

Record host := mkHost { h_disk : disk; h_pool : gmap nat (proc unit); h_trace : list called }.

(** A failing write that leaves the queue with a part of what it should hold;
    an append of which nothing arrives, or a truncation that fails, does not. *)
Definition tears_queue {B} (c : sys B) (o : outer) : bool :=
  match o_fails o, c with
  | Some _, Append path _ => (path =? queuePath)%string && negb (o_partial o =? 0)%nat
  | Some _, WriteStart path _ => (path =? queuePath)%string
  | _, _ => false
  end.

Definition rewrites_queue {A} (p : proc A) : bool :=
  match p with Sys (WriteStart path _) _ => (path =? queuePath)%string | _ => false end.

Definition free_locks (pid : nat) (d : disk) : disk := mkDisk (files d) (filter (λ l, l.2 ≠ pid) (locks d)).

Inductive host_step : host → host → Prop :=
| HostSpawn d pool trace n x :
    pool !! n = None → host_step (mkHost d pool trace) (mkHost d (<[n := process_of x]> pool) trace)
| HostCall d d' pool trace n B (c : sys B) k o r :
    pool !! n = Some (Sys c k) → perform n c o d = Some (r, d') → tears_queue c o = false →
    host_step (mkHost d pool trace) (mkHost d' (<[n := k r]> pool) (trace ++ [mkCalled n B c r]))
| HostEnd d pool trace n p :
    pool !! n = Some p → rewrites_queue p = false →
    host_step (mkHost d pool trace) (mkHost (free_locks n d) (delete n pool) trace)
| HostOther d fs pool trace :
    fs !! queuePath = files d !! queuePath → host_step (mkHost d pool trace) (mkHost (mkDisk fs (locks d)) pool trace).

(** A machine that has just booted: nothing under /run. *)
Definition booted_host (h : host) : Prop := ∃ fs, fs !! queuePath = None ∧ h = mkHost (mkDisk fs ∅) ∅ [].

Definition host_reachable (h : host) : Prop := ∃ h0, booted_host h0 ∧ rtc host_step h0 h.
End System.
