(* ===== verification/Programs.v ===== *)
(** * Handlers are programs of store operations

    Every call a handler makes is an operation of the store or changes nothing,
    so that the server's database moves by steps of the store only. *)

From stdpp Require Import relations.
From S2P Require Import Prelude GoStrings Fault Encoding StringFacts Op Db Http HttpDiscovery HttpProvisioning HttpTelemetry.
From S2P Require Artifact Machine Boot Secureboot Installation Assignment Lifecycle Telemetry Event Debian13.
From S2P Require Import StoreTelemetry StoreMachines StoreInstallations StoreTrust Store Invariant Reachable Evolution System.

Section Programs.
Context `{Decoders} `{Artifact.Crypto}.

(** ** Programs of store operations *)

(** [m] changes the database only by a step of the store. *)
Definition store_op {B} (m : M DB B) : Prop :=
  ∀ a db r db', sane a → run m a db = (r, db') → db' = db ∨ step db db'.

Lemma store_op_keeps {B} (m : M DB B) : keeps m → store_op m.
Proof. intros Hm a db r db' _ Hr. left. by eapply run_keeps. Qed.

Lemma store_op_exec {B} (m : M DB B) o : exec_op o = discard m → store_op m.
Proof.
  intros Ho a db r db' Ha Hr. right. exists o, a, (match r with Ok _ => Ok tt | Err e => Err e end). split; [done|].
  rewrite Ho. unfold run, discard, mbind, M_bind, mret, M_ret in *.
  destruct (m a (mkConn db db 0)) as [[x|e] c]; by simplify_eq.
Qed.

Fixpoint store_program {A} (h : handler A) : Prop :=
  match h with
  | Done _ => True
  | Call m k => store_op m ∧ ∀ r, store_program (k r)
  | Allow _ k => ∀ b, store_program (k b)
  end.

Lemma sp_bind {A B} (h : handler A) (f : A → handler B) :
  store_program h → (∀ x, store_program (f x)) → store_program (h ≫= f).
Proof.
  intros Hh Hf. induction h as [x|T m k IH|remote k IH]; [apply Hf| |].
  - destruct Hh as [Hm Hk]. split; [done|]. intros r. apply IH, Hk.
  - intros b. apply IH, Hh.
Qed.

Lemma sp_call_only {B} (m : M DB B) : store_op m → store_program (call m).
Proof. done. Qed.

Lemma keeps_queries :
  keeps Ping ∧ keeps Machines ∧ (∀ id, keeps (MachineIdentifiers id)) ∧ (∀ t id, keeps (Events t id)) ∧
  (∀ p, keeps (idgen_New p)).
Proof. unfold Ping, Machines, MachineIdentifiers, Events, idgen_New. split_and!; intros; solve_keeps. Qed.
End Programs.

(** ** The handlers *)

Section Refinement.
Context `{Decoders} `{Artifact.Crypto} (server : Server).

(** Every store operation a handler calls. *)
Lemma sop_idgen p : store_op (idgen_New p).
Proof. apply store_op_keeps, keeps_queries. Qed.
Lemma sop_ping : store_op Ping.
Proof. apply store_op_keeps, keeps_queries. Qed.
Lemma sop_machines : store_op Machines.
Proof. apply store_op_keeps, keeps_queries. Qed.
Lemma sop_identifiers id : store_op (MachineIdentifiers id).
Proof. apply store_op_keeps, keeps_queries. Qed.
Lemma sop_events t id : store_op (Events t id).
Proof. apply store_op_keeps, keeps_queries. Qed.
Lemma sop_machine id : store_op (Store_Machine id).
Proof. apply store_op_keeps, keeps_Store_Machine. Qed.
Lemma sop_spec id : store_op (InstallationSpec id).
Proof. apply store_op_keeps, keeps_InstallationSpec. Qed.
Lemma sop_active id : store_op (ActiveAssignmentForMachine id).
Proof. apply store_op_keeps, keeps_ActiveAssignmentForMachine. Qed.
Lemma sop_assignment id : store_op (AssignmentForInstallation id).
Proof. apply store_op_keeps, keeps_AssignmentForInstallation. Qed.
Lemma sop_key mid fp : store_op (BootTrustKey mid fp).
Proof. apply store_op_keeps, keeps_trust_queries. Qed.
Lemma sop_discover o rid : store_op (DiscoverMachine o rid).
Proof. by apply (store_op_exec _ (DiscoverMachine_ o rid)). Qed.
Lemma sop_record iid st k m rid : store_op (RecordServerLifecycle iid st k m rid).
Proof. by apply (store_op_exec _ (AppendLifecycleEvent_ (Lifecycle.mkReport iid st Lifecycle.SourceServer zeroTime k m "" ∅) rid)). Qed.
Lemma sop_consume iid rid actor : store_op (ConsumeAssignment iid rid actor).
Proof. by apply (store_op_exec _ (ConsumeAssignment_ iid rid actor)). Qed.
Lemma sop_authenticate iid s : store_op (AuthenticateLifecycleCredential iid s).
Proof. by apply (store_op_exec _ (AuthenticateLifecycleCredential_ iid s)). Qed.
Lemma sop_mac iid m p k t b s : store_op (VerifyLifecycleMAC iid m p k t b s).
Proof. by apply (store_op_exec _ (VerifyLifecycleMAC_ iid m p k t b s)). Qed.
Lemma sop_event r rid : store_op (AppendLifecycleEvent r rid).
Proof. by apply (store_op_exec _ (AppendLifecycleEvent_ r rid)). Qed.
Lemma sop_log c : store_op (AppendInstallationLogChunk c).
Proof. by apply (store_op_exec _ (AppendInstallationLogChunk_ c)). Qed.
Lemma sop_register iid pem ek rid : store_op (RegisterBootTrustKey iid pem ek rid).
Proof. by apply (store_op_exec _ (RegisterBootTrustKey_ iid pem ek rid)). Qed.
Lemma sop_challenge iid fp rid : store_op (CreateBootTrustChallenge iid fp rid).
Proof. by apply (store_op_exec _ (CreateBootTrustChallenge_ iid fp rid)). Qed.
Lemma sop_complete iid id s rid : store_op (CompleteBootTrustChallenge iid id s rid).
Proof. by apply (store_op_exec _ (CompleteBootTrustChallenge_ iid id s rid)). Qed.

#[local] Hint Resolve sop_idgen sop_ping sop_machines sop_identifiers sop_events sop_machine sop_spec sop_active
  sop_assignment sop_key sop_discover sop_record sop_consume sop_authenticate sop_mac sop_event sop_log sop_register
  sop_challenge sop_complete : core.

(** Walks through a handler. *)
Ltac solve_program :=
  cbv zeta;
  repeat (cbv beta; lazymatch goal with
  | |- store_program (mret _) => exact I
  | |- store_program (Done _) => exact I
  | |- store_program (call _) => apply sp_call_only; solve [auto]
  | |- store_program (Allow _ _) => intros ?
  | |- store_program (mbind _ _) => apply sp_bind; [|intros ?]
  | |- store_program (if ?b then _ else _) => destruct b
  | |- store_program (match ?x with _ => _ end) => destruct x
  | |- store_program _ => solve [auto]
  end).

Lemma sp_assignmentDecision item : store_program (assignmentDecision server item).
Proof. unfold assignmentDecision. solve_program. Qed.
#[local] Hint Resolve sp_assignmentDecision : core.

Lemma sp_discover o rid : store_program (discover server o rid).
Proof. unfold discover. solve_program. Qed.
#[local] Hint Resolve sp_discover : core.

Lemma sp_context id : store_program (loadPublicBootContext server id).
Proof. unfold loadPublicBootContext. solve_program. Qed.
#[local] Hint Resolve sp_context : core.

Lemma sp_append_event iid k rid p : store_program (append_event iid k rid p).
Proof. unfold append_event. solve_program. Qed.
Lemma sp_append_log iid k rid p : store_program (append_log iid k rid p).
Proof. unfold append_log. solve_program. Qed.
Lemma sp_bearer r iid : store_program (authenticateInstallerTelemetry r iid).
Proof. unfold authenticateInstallerTelemetry. solve_program. Qed.
Lemma sp_signed r iid k n : store_program (authenticateReporterBody r iid k n).
Proof. unfold authenticateReporterBody. solve_program. Qed.
#[local] Hint Resolve sp_append_event sp_append_log sp_bearer sp_signed : core.

Lemma sp_handler_of fetch x r rid : store_program (handler_of server fetch x r rid).
Proof.
  unfold handler_of; destruct x;
    unfold redirect_ui, health, discoveryBootstrap, discoveryJSON, discoveryIPXE, machines_, machine_, machineEvents,
      installationBootScript, installationPreseed, installationArtifact, installationTelemetryEvent,
      installationTelemetryLog, bootTrustEnroll, bootTrustStatus, bootTrustChallenge, bootTrustProve,
      reporterTelemetryEvent, reporterTelemetryLog;
    solve_program.
Qed.

Lemma sp_identifier r : store_program (request_identifier r).
Proof. unfold request_identifier. solve_program. Qed.
#[local] Hint Resolve sp_handler_of sp_identifier : core.

Lemma sp_handle fetch x r : store_program (handle server fetch x r).
Proof. unfold handle, ensureRequestContext, requestLog. solve_program. Qed.

(** Every program in the pool is a program of store operations. *)
Definition pool_ok (s : system) : Prop := ∀ n t, sys_pool s !! n = Some t → store_program (t_program t).

Lemma sys_step_refines s s' :
  sys_step server s s' → pool_ok s → pool_ok s' ∧ rtc step (sys_db s) (sys_db s').
Proof.
  intros Hs Hp. destruct Hs; simpl in *.
  - split; [|done]. intros m t. cbn [sys_pool]. rewrite lookup_insert_Some. intros [[<- <-]|[_ Ht]]; [apply sp_handle|by eapply Hp].
  - pose proof (Hp _ _ ltac:(eassumption)) as Ht. match goal with E : t_program _ = Call _ _ |- _ => rewrite E in Ht end.
    destruct Ht as [Hm Hk]. split.
    + intros i t'. cbn [sys_pool]. unfold advance. rewrite lookup_insert_Some. intros [[<- <-]|[_ Ht']]; [apply Hk|by eapply Hp].
    + match goal with Hr : run _ _ _ = _ |- _ => destruct (Hm _ _ _ _ ltac:(eassumption) Hr) as [->|Hst] end; [done|by apply rtc_once].
  - pose proof (Hp _ _ ltac:(eassumption)) as Ht. match goal with E : t_program _ = Allow _ _ |- _ => rewrite E in Ht end.
    split; [|done]. intros i t'. cbn [sys_pool]. unfold advance. rewrite lookup_insert_Some.
    intros [[<- <-]|[_ Ht']]; [apply Ht|by eapply Hp].
  - split; [|done]. intros i t'. cbn [sys_pool]. rewrite lookup_delete_Some. intros [_ Ht']. by eapply Hp.
  - split; [done|by apply rtc_once].
Qed.

Lemma sys_steps_refine s s' :
  rtc (sys_step server) s s' → pool_ok s → pool_ok s' ∧ rtc step (sys_db s) (sys_db s').
Proof.
  induction 1 as [s|s1 s2 s3 Hs _ IH]; intros Hp; [done|].
  destruct (sys_step_refines _ _ Hs Hp) as [Hp2 Hr]. destruct (IH Hp2) as [Hp3 Hr']. split; [done|by etrans].
Qed.
End Refinement.
