(* ===== verification/Handoff.v ===== *)
(** * The one-shot handoff under concurrency

    A request for the preseed is answered with status 200 only after it consumed
    the assignment itself; an assignment is consumed once.  The invariant of the
    system says which request, if any, has done so. *)

From stdpp Require Import relations.
From S2P Require Import Prelude GoStrings Fault Encoding StringFacts Op Db Http HttpDiscovery HttpProvisioning HttpTelemetry.
From S2P Require Artifact Machine Installation Assignment Debian13.
From S2P Require Import StoreMachines StoreInstallations Store Invariant Reachable Evolution System Programs.

Section Handoff.
Context `{Decoders} `{Artifact.Crypto}.

Definition armed (iid : string) (db : DB) : Prop :=
  ∃ y, assignment_of iid db = Some y ∧ Assignment.a_State y = Assignment.StateArmed.
Definition spent (iid : string) (db : DB) : Prop :=
  ∃ y, assignment_of iid db = Some y ∧ Assignment.a_State y ≠ Assignment.StateArmed.

Lemma armed_not_spent iid db : armed iid db → spent iid db → False.
Proof. intros (x & Hx & Hs) (y & Hy & Hn). congruence. Qed.

(** An assignment that ended stays so while the installation exists. *)
Lemma spent_alive iid db db' :
  wf db → is_Some (specs db !! iid) → alive_step iid db db' → spent iid db → spent iid db'.
Proof.
  intros Hwf Hs Hst (x & Hx & Hn). destruct (assignment_of_Some _ _ _ Hx) as (k & Hk & Ek).
  exists x. split; [|done]. eapply ended_assignment_later; [exact Hwf|exact Hs|by apply rtc_once|exact Hk|exact Ek|exact Hn].
Qed.

(** ** Outcomes of calls *)

(** [r] is a result [m] can have on a well-formed database. *)
Definition possible {B} (m : M DB B) (r : result B) : Prop :=
  ∃ a db db', wf db ∧ sane a ∧ run m a db = (r, db').

Fixpoint outcome {A} (h : handler A) (y : A) : Prop :=
  match h with
  | Done x => x = y
  | Call m k => ∃ r, possible m r ∧ outcome (k r) y
  | Allow _ k => ∃ b, outcome (k b) y
  end.

(** A success of [m] ends the assignment of the installation. *)
Definition hands_off {B} (iid : string) (m : M DB B) : Prop :=
  ∀ a db x db', wf db → sane a → run m a db = (Ok x, db') → armed iid db ∧ spent iid db'.

Lemma hands_off_consume iid j rid actor : TrimSpace j = iid → hands_off iid (ConsumeAssignment j rid actor).
Proof.
  intros Hj a db x db' Hwf Ha Hr. destruct (consumed_assignment_of _ _ _ _ _ _ _ Hwf Ha Hr) as (y' & Hy' & Hst').
  apply ConsumeAssignment_Ok in Hr as (y & db0 & e & Hy & Hst & _). rewrite Hj in *.
  split; [by exists y|]. exists y'. split; [done|]. by rewrite Hst'.
Qed.

(** ** Guarded programs *)

(** The program does not answer 200 before it has ended the assignment. *)
Fixpoint guarded (iid : string) (h : handler Response) : Prop :=
  match h with
  | Done p => p_Status p ≠ StatusOK
  | Call m k => (∀ r, possible m r → guarded iid (k r)) ∨ (hands_off iid m ∧ ∀ e, guarded iid (k (Err e)))
  | Allow _ k => ∀ b, guarded iid (k b)
  end.

Lemma guarded_bind {A} iid (h : handler A) (f : A → handler Response) :
  (∀ x, outcome h x → guarded iid (f x)) → guarded iid (h ≫= f).
Proof.
  induction h as [x|B m k IH|remote k IH]; intros Hf; [by apply Hf| |].
  - left. intros r Hr. apply IH. intros x Hx. apply Hf. by exists r.
  - intros b. apply IH. intros x Hx. apply Hf. by exists b.
Qed.

Lemma guarded_post iid (h : handler Response) (f : Response → Response) :
  (∀ p, p_Status (f p) = p_Status p) → guarded iid h → guarded iid (p ← h; mret (f p)).
Proof.
  intros Hf. induction h as [p|B m k IH|remote k IH]; intros Hh.
  - simpl. by rewrite Hf.
  - destruct Hh as [Hh|[Hm Hh]]; [left; intros r Hr; by apply IH, Hh|right; split; [done|intros e; by apply IH, Hh]].
  - intros b. by apply IH.
Qed.

Lemma possible_spec id s :
  possible (InstallationSpec id) (Ok s) → Installation.spec_ID s = TrimSpace id.
Proof.
  intros (a & db & db' & Hwf & _ & Hr). unfold InstallationSpec in Hr. db_inv.
  match goal with Hs : specs _ !! _ = Some _ |- _ => by apply (wf_specs _ Hwf) in Hs as [? _] end.
Qed.

Lemma context_outcome server id material :
  outcome (loadPublicBootContext server id) (Ok material) → Installation.spec_ID (pc_Spec material) = TrimSpace id.
Proof.
  unfold loadPublicBootContext. cbv zeta. destruct (TrimSpace id =? "")%string; [by intros [=]|].
  intros (spec & Hs & Ho). destruct spec as [spec|]; [|by cbn in Ho].
  destruct Ho as (item & _ & Ho). destruct item as [item|]; [|by cbn in Ho].
  destruct Ho as (active & _ & Ho). destruct active as [active|]; [|by cbn in Ho].
  cbn in Ho. apply possible_spec in Hs. rewrite TrimSpace_idem in Hs. revert Ho.
  intros Ho. apply bind_Ok in Ho as (? & _ & Ho). apply bind_Ok in Ho as (? & _ & Ho). apply bind_Ok in Ho as (? & _ & Ho).
  apply Ok_inj in Ho as <-. exact Hs.
Qed.

Lemma error_status err : p_Status (writeBootMaterialError err) ≠ StatusOK.
Proof. unfold writeBootMaterialError. cbv zeta. by repeat case_match. Qed.

Lemma guarded_preseed server r rid : guarded (TrimSpace (q_ID r)) (installationPreseed server r rid).
Proof.
  unfold installationPreseed. apply guarded_bind. intros material Ho.
  destruct material as [material|err]; [|apply error_status].
  destruct (Debian13.RenderSeed _ _) as [bundle|err]; [|done].
  right. split; [|done]. apply hands_off_consume. rewrite (context_outcome _ _ _ Ho). apply TrimSpace_idem.
Qed.

Lemma guarded_handle server fetch r : guarded (TrimSpace (q_ID r)) (handle server fetch Preseed r).
Proof.
  unfold handle. cbn [core_pattern]. unfold ensureRequestContext. apply guarded_bind. intros [rid|] _; [|done].
  apply guarded_post; [done|]. unfold requestLog. apply guarded_bind. intros [rid'|] _; [|done].
  apply guarded_post; [done|]. apply (guarded_preseed server (set_request_header "X-Request-ID" rid r)).
Qed.

(** ** The invariant *)

(** A request for the preseed of the installation. *)
Definition mine (iid : string) (x : route) (r : Request) : Prop := x = Preseed ∧ TrimSpace (q_ID r) = iid.

(** An answer that delivered it. *)
Definition delivered (iid : string) (o : answer) : Prop :=
  mine iid (a_route o) (a_request o) ∧ p_Status (a_response o) = StatusOK.

#[global] Instance delivered_dec iid o : Decision (delivered iid o).
Proof. unfold delivered, mine. apply _. Defined.

Definition deliveries (iid : string) (l : list answer) : nat := length (filter (delivered iid) l).

(** [who] consumed the assignment and was not answered yet. *)
Record handoff_ok (iid : string) (who : option nat) (s : system) : Prop := {
  ho_wf : wf (sys_db s);
  ho_exists : is_Some (specs (sys_db s) !! iid);
  ho_programs : pool_ok s;
  ho_guarded n t : who ≠ Some n → sys_pool s !! n = Some t → mine iid (t_route t) (t_request t) → guarded iid (t_program t);
  ho_spent : who ≠ None ∨ deliveries iid (sys_answers s) ≠ 0 → spent iid (sys_db s);
  ho_count : deliveries iid (sys_answers s) ≤ (match who with Some _ => 0 | None => 1 end) }.

Context (server : Server).

(** Steps in which the installation is never deleted. *)
Definition alive_sys (iid : string) (s s' : system) : Prop :=
  sys_step server s s' ∧ is_Some (specs (sys_db s') !! iid).

Lemma spent_steps iid db db' : wf db → is_Some (specs db !! iid) → is_Some (specs db' !! iid) →
  db' = db ∨ step db db' → spent iid db → spent iid db'.
Proof. intros Hwf Hs Hs' [->|Hst]; [done|]. by apply spent_alive. Qed.

Lemma advance_lookup n t h pool i t' :
  advance n t h pool !! i = Some t' → (i = n ∧ t' = mkTask (t_route t) (t_request t) h) ∨ (i ≠ n ∧ pool !! i = Some t').
Proof. unfold advance. rewrite lookup_insert_Some. naive_solver. Qed.

(** A step that changes no database and no answers. *)
Lemma handoff_pool iid who db l l' pool pool' out :
  handoff_ok iid who (mkSystem db l pool out) → pool_ok (mkSystem db l' pool' out) →
  (∀ n t, who ≠ Some n → pool' !! n = Some t → mine iid (t_route t) (t_request t) → guarded iid (t_program t)) →
  handoff_ok iid who (mkSystem db l' pool' out).
Proof. intros [] Hp Hg. by split. Qed.

Lemma deliveries_app iid l o : deliveries iid (l ++ [o]) = deliveries iid l + (if decide (delivered iid o) then 1 else 0).
Proof.
  unfold deliveries. rewrite filter_app, length_app, filter_cons, filter_nil. by destruct (decide (delivered iid o)).
Qed.

(** A call by the request [n]. *)
Lemma handoff_call iid who db db' l pool out n t B (m : M DB B) k a r :
  handoff_ok iid who (mkSystem db l pool out) → is_Some (specs db' !! iid) →
  pool_ok (mkSystem db' l (advance n t (k r) pool) out) →
  pool !! n = Some t → t_program t = Call m k → sane a → run m a db = (r, db') →
  ∃ who', handoff_ok iid who' (mkSystem db' l (advance n t (k r) pool) out).
Proof.
  intros [Hwf Hs Hp Hg Hsp Hc] Hs' Hp' Ht Et Ha Hr. simpl in *.
  assert (db' = db ∨ step db db') as Hst.
  { pose proof (Hp _ _ Ht) as Hm. rewrite Et in Hm. destruct Hm as [Hm _]. by apply (Hm a db r db'). }
  assert (wf db') as Hwf' by (destruct Hst as [->|]; [done|by eapply wf_step]).
  assert (who = None → who = None ∨ deliveries iid out = 0) as Hsame by auto.
  assert (∀ who', (who' ≠ None → who ≠ None ∨ spent iid db') → (who = None → who' = None ∨ deliveries iid out = 0) →
    (∀ i, i ≠ n → who' ≠ Some i → who ≠ Some i) →
    (who' ≠ Some n → mine iid (t_route t) (t_request t) → guarded iid (k r)) →
    handoff_ok iid who' (mkSystem db' l (advance n t (k r) pool) out)) as Hmk.
  { intros who' Hn Hd Hi Hk. split; simpl; try done.
    - intros i t' Hw [[-> ->]|[Hne Hi']]%advance_lookup Hm; [by apply Hk|]. eapply Hg; [by apply (Hi i)|done|done].
    - intros Hor. assert (who ≠ None ∨ deliveries iid out ≠ 0 ∨ spent iid db') as [?|[?|?]]; [|..|done].
      + destruct Hor as [Hor|Hor]; [destruct (Hn Hor); auto|auto].
      + eapply spent_steps; [exact Hwf|..]; auto.
      + eapply spent_steps; [exact Hwf|..]; auto.
    - destruct who, who'; try lia. destruct Hd as [[=]| ->]; done. }
  destruct (decide (who = Some n)) as [->|Hne]; [exists (Some n); apply Hmk; [by left|done|done|done]|].
  destruct (decide (mine iid (t_route t) (t_request t))) as [Hm|Hm]; [|exists who; apply Hmk; [by left|exact Hsame|done|done]].
  pose proof (Hg n t Hne Ht Hm) as Hgd. rewrite Et in Hgd. destruct Hgd as [Hgd|[Hho Hgd]].
  - exists who. apply Hmk; [by left|exact Hsame|done|]. intros _ _. apply Hgd. by exists a, db, db'.
  - destruct r as [x|e]; [|exists who; apply Hmk; [by left|exact Hsame|done|intros _ _; apply Hgd]].
    destruct (Hho _ _ _ _ Hwf Ha Hr) as [Harm Hspent].
    assert (who = None ∧ deliveries iid out = 0) as [-> Hz].
    { destruct who as [w|]; [destruct (armed_not_spent _ _ Harm); by apply Hsp; left|].
      destruct (decide (deliveries iid out = 0)); [done|]. destruct (armed_not_spent _ _ Harm). apply Hsp. by right. }
    exists (Some n). apply Hmk; [by right|by right|done|done].
Qed.

(** The answer to the request [n]. *)
Lemma handoff_reply iid who db l pool out n t p :
  handoff_ok iid who (mkSystem db l pool out) → pool !! n = Some t → t_program t = Done p →
  ∃ who', handoff_ok iid who' (mkSystem db l (delete n pool) (out ++ [mkAnswer (t_route t) (t_request t) p])).
Proof.
  intros [Hwf Hs Hp Hg Hsp Hc] Ht Et. simpl in *.
  assert (pool_ok (mkSystem db l (delete n pool) (out ++ [mkAnswer (t_route t) (t_request t) p]))) as Hp'.
  { intros i t'. cbn [sys_pool]. rewrite lookup_delete_Some. intros [_ Hi]. by eapply Hp. }
  destruct (decide (who = Some n)) as [->|Hne].
  - exists None. split; simpl; try done.
    + intros i t' _ [Hi Hl]%lookup_delete_Some. eapply Hg; [|exact Hl]. congruence.
    + intros _. apply Hsp. by left.
    + rewrite deliveries_app. destruct (decide _); lia.
  - assert (deliveries iid (out ++ [mkAnswer (t_route t) (t_request t) p]) = deliveries iid out) as Hd.
    { rewrite deliveries_app, decide_False; [lia|]. intros [Hm Hst]. simpl in *.
      pose proof (Hg n t Hne Ht Hm) as Hgd. rewrite Et in Hgd. by apply Hgd. }
    exists who. split; simpl; rewrite ?Hd; try done.
    intros i t' Hw [Hi Hl]%lookup_delete_Some. by eapply Hg.
Qed.

Lemma handoff_step iid who s s' :
  handoff_ok iid who s → alive_sys iid s s' → ∃ who', handoff_ok iid who' s'.
Proof.
  intros Hok [Hst Hs']. pose proof (sys_step_refines _ _ _ Hst (ho_programs _ _ _ Hok)) as [Hp' _].
  destruct Hst.
  - exists who. eapply handoff_pool; [exact Hok|exact Hp'|]. intros i t Hw Hi Hm.
    apply lookup_insert_Some in Hi as [[<- <-]|[_ Hi]]; [|by eapply (ho_guarded _ _ _ Hok)].
    destruct Hm as [Hx <-]. simpl in *. subst. apply guarded_handle.
  - by eapply handoff_call.
  - exists who. eapply handoff_pool; [exact Hok|exact Hp'|]. intros i t' Hw [[-> ->]|[Hne Hi]]%advance_lookup Hm;
      [|by eapply (ho_guarded _ _ _ Hok)].
    match goal with Ht : pool !! n = Some t, E : t_program t = Allow _ _ |- _ =>
      pose proof (ho_guarded _ _ _ Hok n t Hw Ht Hm) as Hg; rewrite E in Hg; apply Hg end.
  - by eapply handoff_reply.
  - exists who. destruct Hok as [Hwf Hs Hp Hg Hsp Hc]. simpl in *. split; simpl; try done.
    + by eapply wf_step.
    + intros Hor. eapply spent_steps; [exact Hwf|done|done|by right|by apply Hsp].
Qed.

Lemma handoff_steps iid who s s' :
  handoff_ok iid who s → rtc (alive_sys iid) s s' → ∃ who', handoff_ok iid who' s'.
Proof.
  intros Hok Hr. revert who Hok. induction Hr as [|x y z Hxy _ IH]; intros who Hok; [by exists who|].
  destruct (handoff_step _ _ _ _ Hok Hxy) as [who' Hok']. by eapply IH.
Qed.

Lemma handoff_booted iid db : wf db → is_Some (specs db !! iid) → handoff_ok iid None (booted db).
Proof.
  intros Hwf Hs. split; simpl; try done.
  - intros [?|Hd]; [done|by destruct Hd].
  - unfold deliveries. simpl. lia.
Qed.
End Handoff.
