(* ===== verification/Limiter.v ===== *)
(** * The bounds of the discovery limiter

    The table of clients never grows past its limit, and in any stretch of time
    shorter than a window a client is allowed at most two windows' requests. *)

From stdpp Require Import relations.
From S2P Require Import Prelude GoStrings Fault Op Db Http HttpDiscovery.

(** A run of requests: remote addresses with the times the limiter reads. *)
Fixpoint run_limiter (clients : discoveryLimiter) (l : list (string * time)) : list bool * discoveryLimiter :=
  match l with
  | [] => ([], clients)
  | (remote, now) :: l =>
    let '(b, clients) := allowDiscovery remote now clients in
    let '(bs, clients) := run_limiter clients l in (b :: bs, clients)
  end.

(** The requests of a host that were allowed. *)
Fixpoint allowed_for (host : string) (l : list (string * time)) (bs : list bool) : Z :=
  match l, bs with
  | (remote, _) :: l, b :: bs =>
    ((if bool_decide (remoteHost remote = host) && b then 1 else 0) + allowed_for host l bs)%Z
  | _, _ => 0%Z
  end.

Definition counter_ok (c : discoveryCounter) : Prop := (0 < started c)%Z ∧ (0 ≤ count c ≤ maxDiscoveryPerWindow)%Z.

Record limiter_ok (clients : discoveryLimiter) : Prop := {
  li_size : size clients ≤ 4096;
  li_counter key c : clients !! key = Some c → counter_ok c }.

Lemma prune_lookup now clients key :
  prune now clients !! key = clients !! key ∨
  (prune now clients !! key = None ∧ ∃ c, clients !! key = Some c ∧ (2 * discoveryWindow <= now - started c)%Z).
Proof.
  unfold prune. destruct (1024 <=? size clients)%nat; [|by left].
  destruct (clients !! key) as [c|] eqn:E; [|left; by apply map_lookup_filter_None_2; left].
  destruct (2 * discoveryWindow <=? now - started c)%Z eqn:Ep.
  - right. split; [|exists c; split; [done|by apply Z.leb_le]].
    apply map_lookup_filter_None_2. right. intros x Hx. simplify_eq. simpl. congruence.
  - left. by apply map_lookup_filter_Some_2.
Qed.

Lemma prune_ok now clients : limiter_ok clients → limiter_ok (prune now clients).
Proof.
  intros [Hs Hc]. split.
  - unfold prune. destruct (1024 <=? size clients)%nat; [|done]. etrans; [|exact Hs]. apply map_size_filter.
  - intros key c Hk. destruct (prune_lookup now clients key) as [E|[E _]]; rewrite E in Hk; [by eapply Hc|done].
Qed.

(** The decision for a host, after pruning. *)
Lemma allowDiscovery_cases remote now clients :
  let key := remoteHost remote in let cs := prune now clients in
  (cs !! key = None ∧ 4096 ≤ size cs ∧ allowDiscovery remote now clients = (false, cs)) ∨
  ∃ c, (cs !! key = Some c ∧ IsZero (started c) = false ∧ (now - started c < discoveryWindow)%Z ∨
        c = mkCounter now 0 ∧ (cs !! key = None ∧ size cs < 4096 ∨
          ∃ d, cs !! key = Some d ∧ (IsZero (started d) = true ∨ discoveryWindow <= now - started d)%Z)) ∧
    (if (maxDiscoveryPerWindow <=? count c)%Z
     then allowDiscovery remote now clients = (false, <[key := c]> cs)
     else allowDiscovery remote now clients = (true, <[key := mkCounter (started c) (count c + 1)]> cs)).
Proof.
  intros key cs. unfold allowDiscovery. cbv zeta. fold key cs.
  destruct (cs !! key) as [d|] eqn:Ed.
  - right. rewrite bool_decide_true by (by eexists). cbn [negb andb default from_option id].
    destruct (IsZero (started d) || (discoveryWindow <=? now - started d)%Z) eqn:Ex.
    + exists (mkCounter now 0). split; [|reflexivity]. right. split; [done|]. right. exists d. split; [done|].
      apply orb_true_iff in Ex as [Ex|Ex]; [by left|right; by apply Z.leb_le].
    + exists d. split; [left; apply orb_false_iff in Ex as [? ?%Z.leb_gt]; done|]. by destruct (maxDiscoveryPerWindow <=? count d)%Z.
  - rewrite bool_decide_false by (by intros [? [=]]). cbn [negb andb default from_option id].
    destruct (4096 <=? size cs)%nat eqn:Es; [left; by apply Nat.leb_le in Es|]. apply Nat.leb_gt in Es.
    right. exists (mkCounter now 0). split; [right; split; [done|by left]|]. reflexivity.
Qed.

Lemma size_insert_known (clients : discoveryLimiter) key c :
  (is_Some (clients !! key) ∨ size clients < 4096) → size clients ≤ 4096 → size (<[key := c]> clients) ≤ 4096.
Proof.
  intros H Hs. destruct (clients !! key) as [d|] eqn:E.
  - by rewrite map_size_insert_Some by (by eexists).
  - rewrite map_size_insert_None by done. destruct H as [[? [=]]|H]. lia.
Qed.

Lemma allowDiscovery_ok remote now clients :
  (0 < now)%Z → limiter_ok clients → limiter_ok (allowDiscovery remote now clients).2.
Proof.
  intros Hn Hok. apply (prune_ok now) in Hok as [Hs Hc].
  destruct (allowDiscovery_cases remote now clients) as [(_ & _ & ->)|(c & Hcase & Hres)]; [by split|].
  assert (counter_ok c ∧ (is_Some (prune now clients !! remoteHost remote) ∨ size (prune now clients) < 4096)) as [Hcc Hk].
  { destruct Hcase as [(Hk & _)|(-> & [(_ & ?)|(d & Hd & _)])].
    - split; [by eapply Hc|left; by eexists].
    - split; [split; simpl; unfold maxDiscoveryPerWindow; lia|by right].
    - split; [split; simpl; unfold maxDiscoveryPerWindow; lia|left; by eexists]. }
  assert (∀ e, counter_ok e → limiter_ok (<[remoteHost remote := e]> (prune now clients))) as Hins.
  { intros e He. split; [by apply size_insert_known|]. intros k x [[<- <-]|[_ Hx]]%lookup_insert_Some; [done|by eapply Hc]. }
  destruct (maxDiscoveryPerWindow <=? count c)%Z eqn:E; rewrite Hres; apply Hins; [done|].
  apply Z.leb_gt in E. destruct Hcc as [? ?]. split; simpl; lia.
Qed.

(** ** What a host can still be allowed in a stretch that starts at [t0] *)

Definition allowance (t0 : time) (host : string) (clients : discoveryLimiter) : Z :=
  match clients !! host with
  | None => maxDiscoveryPerWindow
  | Some c => (maxDiscoveryPerWindow - count c + (if (t0 <=? started c)%Z then 0 else maxDiscoveryPerWindow))%Z
  end.

Lemma allowance_bounds t0 host clients :
  limiter_ok clients → (0 ≤ allowance t0 host clients ≤ 2 * maxDiscoveryPerWindow)%Z.
Proof.
  intros [_ Hc]. unfold allowance. destruct (clients !! host) as [c|] eqn:E; [|unfold maxDiscoveryPerWindow; lia].
  destruct (Hc _ _ E) as [_ Hcc]. destruct (t0 <=? started c)%Z; unfold maxDiscoveryPerWindow in *; lia.
Qed.

(** A counter is forgotten only when its window is long over. *)
Lemma allowance_prune t0 host now clients :
  limiter_ok clients → (t0 ≤ now < t0 + discoveryWindow)%Z →
  (allowance t0 host (prune now clients) ≤ allowance t0 host clients)%Z.
Proof.
  intros [_ Hc] Ht. unfold allowance.
  destruct (prune_lookup now clients host) as [->|(-> & c & Ec & Hp)]; [done|]. rewrite Ec.
  destruct (Hc _ _ Ec) as [_ ?].
  assert ((t0 <=? started c)%Z = false) as -> by (apply Z.leb_gt; unfold discoveryWindow, Minute, Second in *; lia).
  unfold maxDiscoveryPerWindow in *. lia.
Qed.

Lemma allowance_step t0 host remote now clients :
  limiter_ok clients → (t0 ≤ now < t0 + discoveryWindow)%Z → (0 < now)%Z →
  ((if bool_decide (remoteHost remote = host) && (allowDiscovery remote now clients).1 then 1 else 0) +
   allowance t0 host (allowDiscovery remote now clients).2 ≤ allowance t0 host clients)%Z.
Proof.
  intros Hok Ht Hn. pose proof (allowance_prune t0 host now clients Hok Ht) as Hp.
  pose proof (prune_ok now _ Hok) as [_ Hc].
  destruct (allowDiscovery_cases remote now clients) as [(_ & _ & ->)|(c & Hcase & Hres)].
  { cbn [fst snd]. rewrite andb_false_r. lia. }
  destruct (decide (remoteHost remote = host)) as [<-|Hne].
  2:{ rewrite bool_decide_false by done. cbn [andb].
      destruct (maxDiscoveryPerWindow <=? count c)%Z; rewrite Hres; unfold allowance in *; cbn [snd]; rewrite lookup_insert_ne by done; lia. }
  rewrite bool_decide_true by done. cbn [andb].
  assert ((maxDiscoveryPerWindow - count c + (if (t0 <=? started c)%Z then 0 else maxDiscoveryPerWindow)
           ≤ allowance t0 (remoteHost remote) (prune now clients))%Z) as Hle.
  { unfold allowance. destruct Hcase as [(-> & _)|(-> & [(-> & _)|(d & Hd & Hx)])]; cbn [count started]; [done| |].
    - rewrite (proj2 (Z.leb_le _ _)) by lia. unfold maxDiscoveryPerWindow. lia.
    - rewrite Hd. destruct (Hc _ _ Hd) as [Hd0 Hdc]. rewrite (proj2 (Z.leb_le t0 now)) by lia.
      assert ((t0 <=? started d)%Z = false) as ->.
      { apply Z.leb_gt. destruct Hx as [Hx|Hx]; [unfold IsZero in Hx; apply Z.eqb_eq in Hx; unfold zeroTime in Hx; lia|].
        unfold discoveryWindow in *. lia. }
      unfold maxDiscoveryPerWindow in *. lia. }
  destruct (maxDiscoveryPerWindow <=? count c)%Z eqn:E; rewrite Hres; unfold allowance at 1; cbn [fst snd];
    rewrite lookup_insert_eq; cbn [count started]; lia.
Qed.

Lemma run_limiter_ok clients l :
  (∀ e, e ∈ l → (0 < e.2)%Z) → limiter_ok clients → limiter_ok (run_limiter clients l).2.
Proof.
  revert clients. induction l as [|[remote now] l IH]; intros clients Hl Hok; [done|]. cbn [run_limiter].
  pose proof (allowDiscovery_ok remote now clients) as Hstep.
  destruct (allowDiscovery remote now clients) as [b cs] eqn:E.
  specialize (IH cs). destruct (run_limiter cs l) as [bs cs']. simpl in *.
  apply IH; [intros e He; apply Hl; by right|]. apply Hstep; [|done]. apply (Hl (remote, now)). by left.
Qed.

Lemma run_limiter_allowed t0 host l : ∀ clients,
  limiter_ok clients → (∀ e, e ∈ l → (0 < e.2)%Z ∧ (t0 ≤ e.2 < t0 + discoveryWindow)%Z) →
  (allowed_for host l (run_limiter clients l).1 ≤ allowance t0 host clients)%Z.
Proof.
  induction l as [|[remote now] l IH]; intros clients Hok Hl; [apply allowance_bounds; done|]. cbn [run_limiter].
  destruct (Hl (remote, now)) as [Hn Ht]; [by left|]. simpl in Hn, Ht.
  pose proof (allowance_step t0 host remote now clients Hok Ht Hn) as Hstep.
  pose proof (allowDiscovery_ok remote now clients Hn Hok) as Hok'.
  destruct (allowDiscovery remote now clients) as [b cs]. simpl in *.
  specialize (IH cs Hok'). destruct (run_limiter cs l) as [bs cs']. cbn [fst allowed_for] in *.
  assert ((allowed_for host l bs ≤ allowance t0 host cs)%Z) by (apply IH; intros e He; apply Hl; by right). lia.
Qed.
