(* ===== verification/Answers.v ===== *)
(** * Every request is answered, and answered in the shape of the API

    A property of programs that the continuations keep holds of every request
    the server works on: here that a request is answered after a bounded number
    of calls, and that answers are well-typed. *)

From stdpp Require Import relations.
From S2P Require Import Prelude GoStrings GoParse Fault Op Db Http HttpDiscovery HttpProvisioning HttpTelemetry System.
From S2P Require Artifact Lifecycle Debian13.

(** ** Properties of programs *)

(** A request that satisfies [I] goes on doing so. *)
Class ProgramInvariant (I : handler Response → Prop) := {
  pi_call {B} (m : M DB B) k r : I (Call m k) → I (k r);
  pi_allow remote k b : I (Allow remote k) → I (k b) }.

Section Invariants.
Context `{Decoders} `{Artifact.Crypto} (server : Server) (I : handler Response → Prop) `{!ProgramInvariant I}.
Hypothesis every_route : ∀ fetch x r, I (handle server fetch x r).

Record all_satisfy (s : system) : Prop := {
  as_pool n t : sys_pool s !! n = Some t → I (t_program t);
  as_answers o : o ∈ sys_answers s → I (Done (a_response o)) }.

Lemma all_satisfy_advance db db' l l' pool out n t h :
  all_satisfy (mkSystem db l pool out) → I h → all_satisfy (mkSystem db' l' (advance n t h pool) out).
Proof.
  intros [Hp Ho] Hh. split; [|done]. intros i t'. cbn [sys_pool]. unfold advance. rewrite lookup_insert_Some.
  intros [[<- <-]|[_ Ht]]; [done|by eapply Hp].
Qed.

Lemma all_satisfy_step s s' : sys_step server s s' → all_satisfy s → all_satisfy s'.
Proof.
  intros Hst Hall. destruct Hst as [db l pool out n fetch x r Hn|db db' l pool out n t B m k a r Ht Et _ _
    |db l pool out n t remote k now Ht Et _|db l pool out n t p Ht Et|db db' l pool out _].
  - destruct Hall as [Hp Ho]. split; [|done]. intros i t. cbn [sys_pool]. rewrite lookup_insert_Some.
    intros [[<- <-]|[_ Ht]]; [apply every_route|by eapply Hp].
  - eapply all_satisfy_advance; [exact Hall|]. eapply pi_call. rewrite <- Et. by eapply (as_pool _ Hall).
  - eapply all_satisfy_advance; [exact Hall|]. eapply pi_allow. rewrite <- Et. by eapply (as_pool _ Hall).
  - destruct Hall as [Hp Ho]. split.
    + intros i t'. cbn [sys_pool]. rewrite lookup_delete_Some. intros [_ Hi]. by eapply Hp.
    + cbn [sys_answers]. intros o [?|[->|[]%not_elem_of_nil]%elem_of_cons]%elem_of_app; [by apply Ho|]. cbn.
      rewrite <- Et. by eapply Hp.
  - destruct Hall as [Hp Ho]. by split.
Qed.

Lemma all_satisfy_reachable s : sys_reachable server s → all_satisfy s.
Proof.
  intros (db & _ & Hs). assert (all_satisfy (booted db)) as Hbooted by (split; [done|intros o []%not_elem_of_nil]).
  revert Hbooted. induction Hs as [|s1 s2 s3 Hst _ IH]; [done|]. intros Hs1. by eapply IH, all_satisfy_step.
Qed.
End Invariants.

(** ** Bounded programs *)

(** At most [n] calls on every path. *)
Fixpoint within {A} (n : nat) (h : handler A) {struct h} : Prop :=
  match h with
  | Done _ => True
  | Call m k => match n with 0 => False | S n => ∀ r, within n (k r) end
  | Allow _ k => match n with 0 => False | S n => ∀ b, within n (k b) end
  end.

Lemma within_mono {A} (h : handler A) : ∀ i j, i ≤ j → within i h → within j h.
Proof.
  induction h as [x|B m k IH|remote k IH]; intros i j Hij Hi; [exact I| |];
    (destruct i as [|i]; [by destruct Hi|]); (destruct j as [|j]; [lia|]);
    intros r; (apply (IH r i); [lia|apply Hi]).
Qed.

Lemma within_bind {A B} i n (h : handler A) (f : A → handler B) :
  within i h → i ≤ n → (∀ x, within (n - i) (f x)) → within n (h ≫= f).
Proof.
  revert i n. induction h as [x|C m k IH|remote k IH]; intros i n Hi Hin Hf; cbn [within] in Hi.
  - eapply within_mono; [|apply Hf]. lia.
  - destruct i as [|i]; [by destruct Hi|]. destruct n as [|n]; [lia|]. intros r. apply (IH r i); [apply Hi|lia|apply Hf].
  - destruct i as [|i]; [by destruct Hi|]. destruct n as [|n]; [lia|]. intros r. apply (IH r i); [apply Hi|lia|apply Hf].
Qed.

Lemma within_call {B} (m : M DB B) : within 1 (call m).
Proof. done. Qed.

Lemma within_allow {A} n remote (k : bool → handler A) : (∀ b, within n (k b)) → within (S n) (Allow remote k).
Proof. done. Qed.

Section Bounded.
Context `{Decoders} `{Artifact.Crypto} (server : Server).

Create HintDb calls.
#[local] Hint Resolve within_call : calls.

(** Walks through a program, counting. *)
Ltac solve_within :=
  cbv zeta;
  repeat (cbv beta; lazymatch goal with
  | |- within _ (mret _) => exact I
  | |- within (S _) (Allow _ _) => apply within_allow; intros ?
  | |- within _ (call _) => apply (within_mono _ 1); [lia|apply within_call]
  | |- within _ (mbind _ _) => eapply within_bind; [solve [eauto with calls]|lia|intros ?; cbn [Nat.sub]]
  | |- within _ (if ?b then _ else _) => destruct b
  | |- within _ (match ?x with _ => _ end) => destruct x
  | |- within _ _ => eapply within_mono; [|solve [eauto with calls]]; lia
  end).

Lemma within_assignmentDecision item : within 2 (assignmentDecision server item).
Proof. unfold assignmentDecision. solve_within. Qed.
#[local] Hint Resolve within_assignmentDecision : calls.
Lemma within_discover o rid : within 3 (discover server o rid).
Proof. unfold discover. solve_within. Qed.
Lemma within_context id : within 3 (loadPublicBootContext server id).
Proof. unfold loadPublicBootContext. solve_within. Qed.
Lemma within_bearer r iid : within 1 (authenticateInstallerTelemetry r iid).
Proof. unfold authenticateInstallerTelemetry. solve_within. Qed.
Lemma within_signed r iid k n : within 1 (authenticateReporterBody r iid k n).
Proof. unfold authenticateReporterBody. solve_within. Qed.
Lemma within_append_event iid k rid p : within 1 (append_event iid k rid p).
Proof. unfold append_event. solve_within. Qed.
Lemma within_append_log iid k rid p : within 1 (append_log iid k rid p).
Proof. unfold append_log. solve_within. Qed.
Lemma within_identifier r : within 1 (request_identifier r).
Proof. unfold request_identifier. solve_within. Qed.
#[local] Hint Resolve within_discover within_context within_bearer within_signed within_append_event within_append_log
  within_identifier : calls.

Lemma within_handler_of fetch x r rid : within 5 (handler_of server fetch x r rid).
Proof.
  unfold handler_of; destruct x;
    unfold redirect_ui, health, discoveryBootstrap, discoveryJSON, discoveryIPXE, machines_, machine_, machineEvents,
      installationBootScript, installationPreseed, installationArtifact, installationTelemetryEvent,
      installationTelemetryLog, bootTrustEnroll, bootTrustStatus, bootTrustChallenge, bootTrustProve,
      reporterTelemetryEvent, reporterTelemetryLog;
    solve_within.
Qed.
#[local] Hint Resolve within_handler_of : calls.

Lemma within_requestLog fetch x r : within 6 (requestLog (handler_of server fetch x) r).
Proof. unfold requestLog. solve_within. Qed.
#[local] Hint Resolve within_requestLog : calls.

(** Two identifiers and the handler. *)
Lemma within_handle fetch x r : within 7 (handle server fetch x r).
Proof. unfold handle, ensureRequestContext. solve_within. Qed.
End Bounded.

(** ** Quiescence

    The actions that work on requests: no request arrives and no one else uses
    the database. *)
Definition serving (c : action) : bool :=
  match c with Runs _ _ | Asks _ _ | Answers _ => true | _ => false end.

(** One for each call left, one for the answer. *)
Definition total (m : gmap nat nat) : nat := map_fold (λ _ k acc, S k + acc) 0 m.

Lemma total_delete m n k : m !! n = Some k → total m = S k + total (delete n m).
Proof. intros Hn. unfold total. apply (map_fold_delete_L (λ _ k acc, S k + acc) 0 n k m); [|done]. intros. lia. Qed.

Lemma total_lower m n k j : m !! n = Some k → j < k → total (<[n := j]> m) < total m.
Proof.
  intros Hn Hj. rewrite (total_delete m n k Hn), (total_delete _ n j) by apply lookup_insert_eq.
  rewrite delete_insert_eq. lia.
Qed.

Lemma total_const {V} (i : nat) (m : gmap nat V) : total ((λ _, i) <$> m) = S i * size m.
Proof.
  induction m as [|n v m Hn IH] using map_ind; [by rewrite fmap_empty, map_size_empty, Nat.mul_0_r|].
  rewrite fmap_insert, (total_delete _ n i) by apply lookup_insert_eq.
  rewrite delete_insert_id by (by rewrite lookup_fmap, Hn). rewrite IH, map_size_insert_None by done. lia.
Qed.

(** [m] bounds the calls left of every request. *)
Definition bounds (m : gmap nat nat) (pool : gmap nat task) : Prop :=
  ∀ n t, pool !! n = Some t → ∃ k, m !! n = Some k ∧ within k (t_program t).

Lemma bounds_advance m pool n t k h :
  bounds m pool → within k h → bounds (<[n := k]> m) (advance n t h pool).
Proof.
  intros Hb Hh i t'. unfold advance. rewrite !lookup_insert_Some. intros [[<- <-]|[Hne Hi]].
  - exists k. by rewrite lookup_insert_eq.
  - rewrite lookup_insert_ne by done. by apply Hb.
Qed.

Section Quiescence.
Context `{Decoders} `{Artifact.Crypto} (server : Server).

Lemma act_lowers m s c s' :
  serving c = true → bounds m (sys_pool s) → act server s c = Some s' →
  ∃ m', bounds m' (sys_pool s') ∧ total m' < total m.
Proof.
  destruct s as [db l pool out]. intros Hc Hb Ha. destruct c as [|n a|n now|n|]; try done; simpl in Ha, Hb;
    (destruct (pool !! n) as [t|] eqn:En; [|done]); destruct (Hb n t En) as (k & Hk & Hw);
    destruct (t_program t) as [p|B m0 k0|remote k0] eqn:Et; try done.
  - destruct (run m0 a db) as [r db']. injection Ha as <-. destruct k as [|k]; [by destruct Hw|].
    exists (<[n := k]> m). split; [by apply bounds_advance|]. eapply total_lower; [exact Hk|lia].
  - destruct (allowDiscovery remote now l) as [b l']. injection Ha as <-. destruct k as [|k]; [by destruct Hw|].
    exists (<[n := k]> m). split; [by apply bounds_advance|]. eapply total_lower; [exact Hk|lia].
  - injection Ha as <-. exists (delete n m). split.
    + intros i t'. cbn [sys_pool]. rewrite lookup_delete_Some. intros [Hne Hi]. rewrite lookup_delete_ne by done. by apply Hb.
    + rewrite (total_delete m n k Hk). lia.
Qed.

#[global] Instance within_invariant n : ProgramInvariant (within (A := Response) n).
Proof. split; intros *; destruct n as [|n]; try done; intros Hw; (eapply within_mono; [|apply Hw]); lia. Qed.

Lemma bounded_tasks s : sys_reachable server s → ∀ n t, sys_pool s !! n = Some t → within 7 (t_program t).
Proof. intros Hs. apply (all_satisfy_reachable server (within 7) (within_handle server) s Hs). Qed.

Lemma acts_bounded l : ∀ m s s',
  forallb serving l = true → bounds m (sys_pool s) → acts server (λ _, true) s l = Some s' → length l ≤ total m.
Proof.
  induction l as [|c l IH]; intros m s s' Hl Hb Ha; cbn [acts forallb length] in *; [lia|].
  apply andb_true_iff in Hl as [Hc Hl]. destruct (act server s c) as [s1|] eqn:E; [|done].
  destruct (act_lowers _ _ _ _ Hc Hb E) as (m' & Hb' & Hlt). specialize (IH _ _ _ Hl Hb' Ha). lia.
Qed.

(** A request the server works on can always go on. *)
Lemma act_enabled s n t : sys_pool s !! n = Some t →
  ∃ c s', serving c = true ∧ action_ok c ∧ act server s c = Some s'.
Proof.
  destruct s as [db l pool out]. simpl. intros En. destruct (t_program t) as [p|B m k|remote k] eqn:Et.
  - exists (Answers n). eexists. split_and!; [done|done|]. cbn [act]. by rewrite En, Et.
  - exists (Runs n (mkAmbient 1%Z (λ _ _, None) (λ _, false))). cbn [act]. rewrite En, Et.
    destruct (run m _ db) as [r db']. eexists. split_and!; try done.
  - exists (Asks n 1%Z). cbn [act]. rewrite En, Et.
    destruct (allowDiscovery remote 1%Z l) as [b l']. eexists. split_and!; try done.
Qed.
End Quiescence.

(** ** The shape of answers *)

Definition media (p : Response) : string := Get (p_Header p) "Content-Type".
Definition json_media : string := "application/json; charset=utf-8".
Definition text_media : string := "text/plain; charset=utf-8".

(** The body of an error: a code and a message. *)
Definition error_object (code message : string) : body :=
  JSON (JObject [("error", JObject [("code", JString code); ("message", JString message)])]).

Inductive typed (p : Response) : Prop :=
| typed_error code message :
    (400 ≤ p_Status p < 600)%Z → media p = json_media → p_Body p = error_object code message → code ≠ "" → typed p
| typed_json fields :
    p_Status p ∈ [StatusOK; StatusCreated; StatusAccepted] → media p = json_media → p_Body p = JSON (JObject fields) → typed p
| typed_text t :
    p_Status p = StatusOK → media p ∈ [text_media; "application/octet-stream"] → p_Body p = Text t → typed p
| typed_redirect :
    p_Status p = StatusTemporaryRedirect → p_Body p = Text "" → typed p
| typed_unhealthy :
    p_Status p = StatusServiceUnavailable → media p = json_media → p_Body p = JSON (JObject [("status", JString "unhealthy")]) → typed p
| typed_untracked :
    p_Status p = StatusInternalServerError → media p = text_media → p_Body p = Text ("internal request tracking failure" +:+ nl) → typed p.

(** Only the media type, the status and the body matter. *)
Lemma typed_same p q : p_Status q = p_Status p → media q = media p → p_Body q = p_Body p → typed p → typed q.
Proof.
  intros Es Em Eb Hp. destruct Hp; rewrite <- Es, <- ?Em, <- ?Eb in *;
    [eapply typed_error|eapply typed_json|eapply typed_text|eapply typed_redirect|eapply typed_unhealthy|eapply typed_untracked]; done.
Qed.

Lemma code_or_nonempty err code : code ≠ "" → code_or err code ≠ "".
Proof. unfold code_or. destruct (Code err =? "")%string eqn:E; [done|]. by apply String.eqb_neq in E. Qed.

Lemma typed_api status code message : (400 ≤ status < 600)%Z → code ≠ "" → typed (writeAPIError status code message).
Proof. intros Hs Hc. by eapply typed_error. Qed.

Lemma typed_object status fields : status ∈ [StatusOK; StatusCreated; StatusAccepted] → typed (writeJSON status (JObject fields)).
Proof. intros Hs. by eapply typed_json. Qed.

Lemma typed_lines lines : typed (write_text lines).
Proof. eapply typed_text; [done| |done]. by left. Qed.

Lemma typed_ipxe message reason : typed (writeIPXE message reason).
Proof. apply typed_lines. Qed.

Lemma typed_set_header k v p : k ≠ "Content-Type" → typed p → typed (set_header k v p).
Proof.
  intros Hk Hp. assert (media (set_header k v p) = media p) as Hm.
  { unfold media, set_header. cbn [p_Header]. induction (p_Header p) as [|[k' v'] l IH].
    - cbn. by rewrite (proj2 (String.eqb_neq k "Content-Type")).
    - rewrite filter_cons. cbn [fst]. destruct (decide (k' ≠ k)) as [Hd|Hd]; cbn [app Get]; [by rewrite IH|].
      apply dec_stable in Hd as ->. by rewrite (proj2 (String.eqb_neq k "Content-Type")). }
  by apply (typed_same p).
Qed.

Lemma typed_add_headers l p : Forall (λ h, h.1 ≠ "Content-Type") l → typed p → typed (add_headers l p).
Proof.
  intros Hl Hp. assert (media (add_headers l p) = media p) as Hm.
  { unfold media, add_headers. cbn [p_Header]. induction Hl as [|[k v] l Hk _ IH]; [done|]. cbn [app Get].
    by rewrite (proj2 (String.eqb_neq k "Content-Type")). }
  by apply (typed_same p).
Qed.

Lemma seed_media spec rid b : Debian13.RenderSeed spec rid = Ok b → Debian13.MediaType b = text_media.
Proof.
  unfold Debian13.RenderSeed. intros Hr. apply bind_Ok in Hr as (? & _ & Hr). apply bind_Ok in Hr as (? & _ & Hr).
  apply or_fail_Ok in Hr. unfold Debian13.renderPreseed in Hr. apply bind_Ok in Hr as (late & _ & Hr).
  apply bind_Ok in Hr as (? & _ & Hr). by apply Ok_inj in Hr as <-.
Qed.

Lemma typed_octets m content : m ∈ [text_media; "application/octet-stream"] → typed (octets m content).
Proof. intros Hm. by eapply typed_text. Qed.

(** Every result of the program satisfies [P]. *)
Fixpoint ends {A} (P : A → Prop) (h : handler A) : Prop :=
  match h with
  | Done x => P x
  | Call m k => ∀ r, ends P (k r)
  | Allow _ k => ∀ b, ends P (k b)
  end.

Lemma ends_serve {A} (P : A → Prop) (h : handler A) env allow : ∀ n db, ends P h → P (serve h env allow n db).1.
Proof.
  induction h as [x|T m k IH|remote k IH]; intros n db Hh; cbn [serve ends] in *; [done| |by apply IH].
  destruct (run m (env n) db) as [r db']. apply IH, Hh.
Qed.

#[global] Instance ends_invariant P : ProgramInvariant (ends P).
Proof. split; intros; auto. Qed.

Lemma ends_bind {A B} (P : B → Prop) (Q : A → Prop) (h : handler A) (f : A → handler B) :
  ends Q h → (∀ x, Q x → ends P (f x)) → ends P (h ≫= f).
Proof. induction h as [x|C m k IH|remote k IH]; intros Hh Hf; [by apply Hf|intros r; by apply IH|intros b; by apply IH]. Qed.

Lemma ends_any {A} (h : handler A) : ends (λ _, True) h.
Proof. induction h as [x|C m k IH|remote k IH]; [done|exact IH|exact IH]. Qed.

Lemma ends_bind_any {A B} (P : B → Prop) (h : handler A) (f : A → handler B) : (∀ x, ends P (f x)) → ends P (h ≫= f).
Proof. intros Hf. eapply ends_bind; [apply ends_any|auto]. Qed.

Section Typed.
Context `{Decoders} `{Artifact.Crypto} (server : Server).

Create HintDb typed.

(** A status computed from the error's code. *)
Ltac solve_api :=
  cbv zeta; apply typed_api; [repeat case_match; done|by apply code_or_nonempty].

Lemma typed_discovery_error err : typed (writeDiscoveryError err).
Proof. unfold writeDiscoveryError. solve_api. Qed.
Lemma typed_material_error err : typed (writeBootMaterialError err).
Proof. unfold writeBootMaterialError. solve_api. Qed.
Lemma typed_telemetry_error err : typed (writeTelemetryError err).
Proof. unfold writeTelemetryError. solve_api. Qed.
Lemma typed_trust_error err : typed (writeBootTrustError err).
Proof. unfold writeBootTrustError. solve_api. Qed.
Lemma typed_read_error err : typed (writeMachineReadError err).
Proof. unfold writeMachineReadError. by destruct (_ =? _)%string; apply typed_api. Qed.

#[local] Hint Resolve typed_discovery_error typed_material_error typed_telemetry_error typed_trust_error typed_read_error
  typed_lines typed_ipxe : typed.

(** Proves that a response is typed. *)
Ltac solve_typed :=
  cbn [ends mret handler_ret];
  first [ solve [auto with typed]
        | solve [apply typed_api; [done|first [done|by apply code_or_nonempty]]]
        | solve [apply typed_set_header; [done|apply typed_api; [done|first [done|by apply code_or_nonempty]]]]
        | solve [apply typed_object; rewrite !elem_of_cons; repeat case_match; auto]
        | solve [apply typed_octets; rewrite !elem_of_cons; auto]
        | idtac ].

(** Walks through a program to its answers. *)
Ltac solve_ends :=
  cbv zeta;
  repeat (cbv beta; lazymatch goal with
  | |- ends _ (mret (match ?x with _ => _ end)) => destruct x eqn:?
  | |- ends _ (mret _) => solve_typed; fail
  | |- ends _ (Allow _ _) => intros ?
  | |- ends _ (mbind _ _) => apply ends_bind_any; intros ?
  | |- ends _ (if ?b then _ else _) => destruct b
  | |- ends _ (match ?x with _ => _ end) => destruct x eqn:?
  end).

Lemma ends_append_event iid k rid p : ends typed (append_event iid k rid p).
Proof. unfold append_event, event_accepted, invalid_telemetry. solve_ends; solve_typed. Qed.
Lemma ends_append_log iid k rid p : ends typed (append_log iid k rid p).
Proof. unfold append_log, log_accepted, invalid_telemetry. solve_ends; solve_typed. Qed.

Lemma ends_bearer r iid :
  ends (λ o : option Response, match o with Some p => typed p | None => True end) (authenticateInstallerTelemetry r iid).
Proof.
  unfold authenticateInstallerTelemetry, challenged. destruct (_ =? _)%string; [by apply typed_api|]. cbv zeta.
  destruct (_ || _); [apply typed_set_header; [done|by apply typed_api]|]. apply ends_bind_any. intros [c|err]; [done|].
  apply typed_set_header; [done|]. apply typed_api; [done|by apply code_or_nonempty].
Qed.

Lemma ends_signed r iid k n :
  ends (λ o : Response + string, match o with inl p => typed p | inr _ => True end) (authenticateReporterBody r iid k n).
Proof.
  unfold authenticateReporterBody, invalid_telemetry. destruct (read_body r n); [|by apply typed_api]. cbv zeta.
  destruct (negb _); [by apply typed_api|]. destruct (ParseInt _) as [t|]; [|by apply typed_api].
  destruct (t <=? 0)%Z; [by apply typed_api|]. apply ends_bind_any. intros [c|err]; [done|].
  apply typed_api; [done|by apply code_or_nonempty].
Qed.

#[local] Hint Resolve ends_append_event ends_append_log : typed.

Lemma ends_telemetry fetch x r rid :
  x ∈ [TelemetryEvent; TelemetryLog; ReporterEvent; ReporterLog] → ends typed (handler_of server fetch x r rid).
Proof.
  rewrite !elem_of_cons, elem_of_nil. intros [->|[->|[->|[->|[]]]]]; cbn [handler_of];
    unfold installationTelemetryEvent, installationTelemetryLog, reporterTelemetryEvent, reporterTelemetryLog, invalid_telemetry;
    cbv zeta.
  1,2: eapply ends_bind; [apply ends_bearer|]; intros [p|]; [done|intros _]; solve_ends; solve_typed.
  all: destruct (Lifecycle.ValidateIdempotencyKey _); [|by apply typed_api];
    eapply ends_bind; [apply ends_signed|]; intros [p|content]; [done|intros _]; solve_ends; solve_typed.
Qed.

Lemma ends_preseed r rid : ends typed (installationPreseed server r rid).
Proof.
  unfold installationPreseed. apply ends_bind_any. intros [m|err]; [|solve_typed].
  destruct (Debian13.RenderSeed _ _) as [b|err] eqn:Eb; [|solve_typed]. apply ends_bind_any. intros [y|err]; [|solve_typed].
  cbn. rewrite (seed_media _ _ _ Eb). apply typed_octets. by left.
Qed.
#[local] Hint Resolve ends_preseed : typed.

Lemma ends_handler_of fetch x r rid : ends typed (handler_of server fetch x r rid).
Proof.
  destruct x; try solve [apply ends_telemetry; rewrite !elem_of_cons; auto]; cbn [handler_of]; auto with typed;
    unfold redirect_ui, health, discoveryBootstrap, discoveryJSON, discoveryIPXE, machines_, machine_, machineEvents,
      installationBootScript, installationArtifact, bootTrustEnroll, bootTrustStatus, bootTrustChallenge, bootTrustProve,
      machineView, discovery_json, writeProvisioningChain; solve_ends; solve_typed.
  - by apply typed_redirect.
  - by apply typed_unhealthy.
Qed.

Lemma typed_tracking : typed (http_Error StatusInternalServerError "internal request tracking failure").
Proof. by apply typed_untracked. Qed.

Lemma ends_handle fetch x r : ends typed (handle server fetch x r).
Proof.
  assert (∀ r, ends typed (requestLog (handler_of server fetch x) r)) as Hlog.
  { intros q. apply ends_bind_any. intros [rid|]; [|apply typed_tracking].
    eapply ends_bind; [apply ends_handler_of|]. intros p Hp. apply typed_add_headers; [|done]. by repeat constructor. }
  unfold handle. destruct (core_pattern x); apply ends_bind_any; (intros [rid|]; [|apply typed_tracking]);
    (eapply ends_bind; [first [apply Hlog|apply ends_handler_of]|]); intros p Hp; (apply typed_add_headers; [|done]);
    by repeat constructor.
Qed.
End Typed.
