(* ===== verification/HttpFacts.v ===== *)
(** * Lemmas about one request on its own

    [served h env allow n db p db']: the program [h], run without interleaving
    from its [n]-th call on, gives [p] and leaves [db'].  The lemmas invert runs
    of the middleware and of the authorisations the handlers share. *)

From S2P Require Import Prelude GoStrings Fault Encoding GoParse StringFacts Op Db Progress Http HttpDiscovery HttpProvisioning HttpTelemetry.
From S2P Require Artifact Machine Boot Secureboot Installation Assignment Telemetry.
From S2P Require Import StoreTelemetry StoreMachines StoreInstallations Store Invariant Reachable System.

Section Served.
Context `{Decoders} `{Artifact.Crypto} (env : nat → ambient) (allow : bool).

Definition served {A} (h : handler A) (n : nat) (db : DB) (x : A) (db' : DB) : Prop :=
  serve h env allow n db = (x, db').

Lemma served_bind {A B} (h : handler A) (f : A → handler B) n db y db' :
  served (h ≫= f) n db y db' → ∃ x db1 n1, served h n db x db1 ∧ served (f x) n1 db1 y db'.
Proof.
  unfold served. destruct (serve_bind h f env allow n db) as [n' ->]. intros Hf.
  destruct (serve h env allow n db) as [x db1]. by exists x, db1, n'.
Qed.

Lemma served_call {B} (m : M DB B) n db r db' : served (call m) n db r db' → run m (env n) db = (r, db').
Proof. unfold served, call. cbn [serve]. by destruct (run m (env n) db). Qed.

Lemma served_ret {A} (x : A) n db y db' : served (mret x) n db y db' → y = x ∧ db' = db.
Proof. unfold served. cbn. by intros [= -> ->]. Qed.

Lemma served_read {B} (m : M DB B) n db r db' : keeps m → served (call m) n db r db' → db' = db ∧ run m (env n) db = (r, db).
Proof. intros Hk Hs%served_call. pose proof (run_keeps _ _ _ _ _ Hk Hs) as ->. done. Qed.

Lemma served_identifier r n db x db' : served (request_identifier r) n db x db' → db' = db.
Proof.
  unfold request_identifier. cbv zeta. destruct (_ || _); [|by intros [_ ->]%served_ret].
  intros [-> _]%served_read; [done|]. apply keeps_idgen.
Qed.

(** ** Middleware *)

(** The request a handler sees has another identifier only. *)
Definition same_request (r r' : Request) : Prop :=
  ∃ rid, r' = set_request_header "X-Request-ID" rid r.

(** A request identifier could not be made. *)
Definition untracked : Prop := ∃ r n db e db', served (request_identifier r) n db (Err e) db'.

Lemma served_handle_tracked server fetch x r n db p db' :
  served (handle server fetch x r) n db p db' →
  (untracked ∧ p_Status p = StatusInternalServerError ∧ db' = db) ∨
  ∃ rid r' rid' n' q, same_request r r' ∧ served (handler_of server fetch x r' rid') n' db q db' ∧
    p_Status p = p_Status q ∧ p_Body p = p_Body q ∧ r' = set_request_header "X-Request-ID" rid r.
Proof.
  unfold handle. destruct (core_pattern x) as [s|].
  - unfold ensureRequestContext. intros (rid & db1 & n1 & Hi & Hs)%served_bind.
    pose proof (served_identifier _ _ _ _ _ Hi) as ->. destruct rid as [rid|e]; [|left; apply served_ret in Hs as [-> ->]; split; [by eexists _, _, _, _, _|done]].
    apply served_bind in Hs as (q & db2 & n2 & Hq & [-> ->]%served_ret). unfold requestLog in Hq.
    apply served_bind in Hq as (rid' & db3 & n3 & Hi' & Hq). pose proof (served_identifier _ _ _ _ _ Hi') as ->.
    destruct rid' as [rid'|e]; [|left; apply served_ret in Hq as [-> ->]; split; [by eexists _, _, _, _, _|done]].
    apply served_bind in Hq as (q' & db4 & n4 & Hq & [-> ->]%served_ret).
    right. exists rid, (set_request_header "X-Request-ID" rid r), rid', n3, q'. split_and!; try done. by exists rid.
  - unfold ensureRequestContext. intros (rid & db1 & n1 & Hi & Hs)%served_bind.
    pose proof (served_identifier _ _ _ _ _ Hi) as ->. destruct rid as [rid|e]; [|left; apply served_ret in Hs as [-> ->]; split; [by eexists _, _, _, _, _|done]].
    apply served_bind in Hs as (q & db2 & n2 & Hq & [-> ->]%served_ret).
    right. exists rid, (set_request_header "X-Request-ID" rid r), rid, n1, q. split_and!; try done. by exists rid.
Qed.

(** The answer of a route is its handler's, up to headers, unless no request
    identifier could be made. *)
Lemma served_handle server fetch x r n db p db' :
  served (handle server fetch x r) n db p db' →
  (p_Status p = StatusInternalServerError ∧ db' = db) ∨
  ∃ rid r' rid' n' q, same_request r r' ∧ served (handler_of server fetch x r' rid') n' db q db' ∧
    p_Status p = p_Status q ∧ p_Body p = p_Body q ∧ r' = set_request_header "X-Request-ID" rid r.
Proof. intros [(_ & Hp)|Hq]%served_handle_tracked; [by left|by right]. Qed.

(** It can be made while the random source answers. *)
Lemma healthy_tracked : (∀ n, healthy (env n)) → ¬ untracked.
Proof.
  intros Henv (r & n & db & e & db' & Hs). unfold request_identifier in Hs. cbv zeta in Hs.
  destruct (_ || _); [|by apply served_ret in Hs as [? _]]. apply served_call in Hs. unfold run in Hs.
  destruct (idgen_run _ (Henv n) "req_" db db 0) as [id Hid]. rewrite Hid in Hs. by simplify_eq.
Qed.

(** Other headers are as they were. *)
Lemma header_set_ne k v r key : CanonicalHeaderKey k ≠ CanonicalHeaderKey key → header (set_request_header k v r) key = header r key.
Proof.
  unfold header, set_request_header. generalize (CanonicalHeaderKey k) (CanonicalHeaderKey key). clear k key. intros k key Hne.
  cbn [q_Header Get]. rewrite (proj2 (String.eqb_neq k key)) by done.
  induction (q_Header r) as [|[k' v'] l IH]; [done|]. rewrite filter_cons. cbn [fst].
  destruct (decide (k' ≠ k)) as [Hk|Hk]; cbn [Get]; [by rewrite IH|].
  apply dec_stable in Hk as ->. by rewrite (proj2 (String.eqb_neq k key)), IH.
Qed.

(** ** The authorisation of boot material *)

Definition authorised (server : Server) (iid : string) (db : DB) (m : publicBootContext) : Prop :=
  specs db !! iid = Some (pc_Spec m) ∧
  (∃ row, machines db !! Installation.MachineID (pc_Spec m) = Some row ∧ pc_Machine m = scanMachine row) ∧
  Machine.m_Policy (pc_Machine m) = Machine.PolicyProvision ∧
  Secureboot.AllowsProvision (s_secureBootPolicy server) (Machine.SecureBootState (pc_Machine m)) = true ∧
  assignment_of iid db = Some (pc_Assignment m) ∧
  Assignment.a_State (pc_Assignment m) = Assignment.StateArmed ∧
  Assignment.MachineID (pc_Assignment m) = Machine.ID (pc_Machine m).

Lemma run_InstallationSpec id a db s db' :
  run (InstallationSpec id) a db = (Ok s, db') → specs db !! TrimSpace id = Some s ∧ db' = db.
Proof. unfold InstallationSpec. intros Hr. db_inv. done. Qed.

Lemma run_Store_Machine id a db m db' :
  run (Store_Machine id) a db = (Ok m, db') → (∃ row, machines db !! TrimSpace id = Some row ∧ m = scanMachine row) ∧ db' = db.
Proof. intros (c & Hr & ->)%run_Ok. apply Store_Machine_Ok in Hr as [? ->]. done. Qed.

Lemma run_AssignmentForInstallation id a db y db' :
  run (AssignmentForInstallation id) a db = (Ok y, db') → assignment_of (TrimSpace id) db = Some y ∧ db' = db.
Proof.
  unfold AssignmentForInstallation, scanAssignment. intros Hr. db_inv.
  match goal with Hv : Ok _ = Assignment.Validate _ |- _ => clear Hv | Hv : Assignment.Validate _ = Ok _ |- _ => clear Hv end. done.
Qed.

(** Boot material is public in the armed state of a provisioned machine only. *)
Lemma public_boot_armed policy armed : Boot.PublicBootAllowed (Boot.Evaluate policy armed false) = true →
  policy = Machine.PolicyProvision ∧ armed = true.
Proof.
  unfold Boot.Evaluate. destruct (policy =? Machine.PolicyProvision)%string eqn:E; [apply String.eqb_eq in E as ->|].
  - by destruct armed.
  - by destruct armed; repeat case_match; try done.
Qed.

Lemma served_context server id n db material db' :
  served (loadPublicBootContext server id) n db material db' →
  db' = db ∧ match material with Ok m => wf db → authorised server (TrimSpace id) db m | Err _ => True end.
Proof.
  unfold loadPublicBootContext. cbv zeta. destruct (TrimSpace id =? "")%string; [by intros [-> ->]%served_ret|].
  intros (spec & db1 & n1 & Hs & Hk)%served_bind. apply served_read in Hs as [-> Hs]; [|apply keeps_InstallationSpec].
  destruct spec as [spec|]; [|by apply served_ret in Hk as [-> ->]].
  apply served_bind in Hk as (item & db2 & n2 & Hm & Hk). apply served_read in Hm as [-> Hm]; [|apply keeps_Store_Machine].
  destruct item as [item|]; [|by apply served_ret in Hk as [-> ->]].
  apply served_bind in Hk as (active & db3 & n3 & Hy & Hk). apply served_read in Hy as [-> Hy]; [|apply keeps_AssignmentForInstallation].
  destruct active as [active|]; [|by apply served_ret in Hk as [-> ->]].
  apply served_ret in Hk as [-> ->]. split; [done|].
  apply run_InstallationSpec in Hs as [Hs _]. apply run_Store_Machine in Hm as [(row & Hrow & ->) _].
  apply run_AssignmentForInstallation in Hy as [Hy _]. rewrite TrimSpace_idem in *.
  match goal with |- match ?r with _ => _ end => destruct r as [m|] eqn:Er end; [|done]. intros Hwf.
  destruct (wf_specs _ Hwf _ _ Hs) as (_ & [m' Hm'] & _). pose proof (mo_trim _ _ (wf_machines _ Hwf) _ _ Hm') as Ht.
  rewrite Ht in Hrow. ok_inv. bool_inv.
  match goal with Hg : Boot.PublicBootAllowed _ = true |- _ => apply public_boot_armed in Hg as [Hp Ha] end. bool_inv.
  split_and!; try done. by exists row.
Qed.

(** ** The authentication of telemetry *)

(** A live credential of the installation; [P] is what its verifier accepts. *)
Definition live_credential (iid : string) (t : time) (P : string → Prop) (db : DB) : Prop :=
  ∃ id row, credential_of iid db = Some (id, row) ∧ stamp_time (cr_revoked_at row) = zeroTime ∧
    (t < cr_expires_at row)%Z ∧ P (cr_secret_sha256 row).

(** The bearer token is the secret the verifier was made of. *)
Definition bearer (r : Request) (verifier : string) : Prop :=
  let authorization := TrimSpace (header r "Authorization") in
  HasPrefix authorization "Bearer " = true ∧
  verifier = Artifact.sha256 (TrimSpace (TrimSpace (TrimPrefix authorization "Bearer "))).

(** The signature is the verifier's, over the request as it was received. *)
Definition signed (r : Request) (verifier : string) : Prop :=
  let authorization := TrimSpace (header r "Authorization") in
  HasPrefix authorization (Scheme +:+ " ") = true ∧
  ∃ timestamp content text, ParseInt (TrimSpace (header r "X-Aegis-Timestamp")) = Some timestamp ∧ q_Body r = Ok content ∧
    Telemetry.Canonical (q_Method r) (q_Path r) (TrimSpace (header r "Idempotency-Key")) timestamp content = Ok text ∧
    Telemetry.Verify verifier text (TrimSpace (TrimPrefix authorization (Scheme +:+ " "))) = true.

Lemma served_bearer r iid n db refused db' :
  served (authenticateInstallerTelemetry r iid) n db refused db' →
  match refused with
  | Some p => db' = db ∧ (p_Status p = StatusNotFound ∨ p_Status p = StatusUnauthorized)
  | None => ∃ i, live_credential (TrimSpace iid) (clock (env i)) (bearer r) db
  end.
Proof.
  unfold authenticateInstallerTelemetry. destruct (iid =? "")%string; [intros [-> ->]%served_ret; by auto|]. cbv zeta.
  destruct (negb _ || _) eqn:E; [intros [-> ->]%served_ret; by auto|]. bool_inv.
  intros (accepted & db1 & n1 & Ha%served_call & [-> ->]%served_ret)%served_bind. destruct accepted as [c|e].
  - exists n. apply AuthenticateLifecycleCredential_Ok in Ha as (id & row & ? & ? & ? & ? & _). exists id, row.
    split_and!; try done.
  - split; [|by right]. by eapply run_atomic; [apply atomic_AuthenticateLifecycleCredential|].
Qed.

Lemma served_signed r iid limit n db authenticated db' :
  served (authenticateReporterBody r iid (TrimSpace (header r "Idempotency-Key")) limit) n db authenticated db' →
  match authenticated with
  | inl p => db' = db ∧ (p_Status p = StatusBadRequest ∨ p_Status p = StatusUnauthorized)
  | inr content => ∃ i, live_credential (TrimSpace iid) (clock (env i)) (signed r) db
  end.
Proof.
  unfold authenticateReporterBody. destruct (read_body r limit) as [content|] eqn:Eb; [|intros [-> ->]%served_ret; by auto]. cbv zeta.
  destruct (negb _) eqn:E; [intros [-> ->]%served_ret; by auto|]. bool_inv.
  destruct (ParseInt _) as [timestamp|] eqn:Et; [|intros [-> ->]%served_ret; by auto].
  destruct (timestamp <=? 0)%Z; [intros [-> ->]%served_ret; by auto|].
  intros (verified & db1 & n1 & Ha%served_call & [-> ->]%served_ret)%served_bind. destruct verified as [c|e].
  - exists n. apply VerifyLifecycleMAC_Ok in Ha as (id & row & text & ? & ? & ? & Hr & ? & _). exists id, row.
    split_and!; try done; [by rewrite Hr|]. split; [done|]. exists timestamp, content, text.
    split_and!; try done. unfold read_body in Eb. ok_inv. done.
  - split; [|by right]. by eapply run_atomic; [apply atomic_VerifyLifecycleMAC|].
Qed.
End Served.
