(* ===== verification/Sample.v ===== *)
(** * A concrete store

    A run of the store's operations on the sample cryptography of Artifact.v,
    from the empty database to a finished installation; the theorems about
    reachable databases are evaluated on its stages. *)

From stdpp Require Import relations.
From S2P Require Import Prelude GoStrings Regex Encoding StringFacts Fault Lifecycle Telemetry Op Db.
From S2P Require Artifact Machine Secureboot Installation Assignment Boottrust Event Identity.
From S2P Require Import StoreTelemetry StoreMachines StoreInstallations StoreTrust StoreUsers StoreDeletion.
From S2P Require Import Store Invariant Reachable Evolution.

#[global] Existing Instance Artifact.sample_crypto.

Fixpoint filled (n : nat) (c : ascii) : string :=
  match n with 0 => "" | S n => String c (filled n c) end.

(** The sample starts in June 2025. *)
Definition epoch : time := time_Unix 1750000000.

(** [t] after the start; every statement is executed; random bytes are the
    letter [c]. *)
Definition at_time (t : time) (c : ascii) : ambient :=
  mkAmbient (epoch + t)%Z (λ _ n, Some (filled n c)) (λ _, true).

Lemma filled_length n c : String.length (filled n c) = n.
Proof. induction n; simpl; congruence. Qed.

Lemma at_time_sane t c : (0 < t)%Z → sane (at_time t c).
Proof. intros Ht. split; [assert (0 < epoch)%Z by done; simpl; lia|]. intros k n s [= <-]. apply filled_length. Qed.

Definition sample_observation : Machine.Observation :=
  Machine.mkObservation "52:54:00:ab:cd:01" "" "x86_64" "efi" "1" "0".

Definition sample_descriptor : Artifact.Descriptor :=
  Artifact.mkDescriptor "kernel-1" "kernel" "https://deb.example/linux" "13.1"
    (Artifact.SHA256 "linux") 5 "release-manifest".

Definition sample_snapshot : Installation.Snapshot :=
  Installation.mkSnapshot 1 "node-1" "en_US.UTF-8" "us" "UTC"
    (Installation.mkAdmin "ops" "Operator"
       ["ssh-ed25519 AAAAC3NzaC1lZDI1NTE5AAAAIAAAAAAAAAAAAAAAAAAAAAAAAAAAAAAAAAAAAAAAAAAA ops"] true)
    ["openssh-server"].

Definition sample_machine_id : string := "m_616161616161616161616161".
Definition sample_iid : string := "i_616161616161616161616161".

Definition sample_spec : Installation.Spec :=
  Installation.mkSpec "" sample_machine_id "debian13" "1" "13" "amd64" "base" "1" sample_snapshot
    [sample_descriptor] (Installation.mkStorage "whole-disk" "ext4" "/dev/sda" false false)
    (Installation.mkSecurity false false true) "lc_1" zeroTime "ops".

(** One successful operation after the other. *)
Definition after (db : DB) (t : time) (o : op) : DB := (run (exec_op o) (at_time t "a") db).2.

Definition sample_key_text : string := "sample key".
Definition sample_fingerprint : string := "sha256:" +:+ hex_encode (Artifact.sha256 sample_key_text).
Definition sample_challenge_id : string := "btc_616161616161616161616161".
Definition sample_user_id : string := "u_616161616161616161616161".

(** The proof of possession of the sample challenge. *)
Definition sample_proof : string :=
  Artifact.sha256 (Join
    ["AEGISPXE-BOOT-TRUST-V1"; sample_challenge_id; sample_iid; sample_machine_id; sample_fingerprint;
     RawURLEncoding_EncodeToString (filled 32 "a")] nl +:+ nl).

Definition sample_report (stage : Stage) (source : Source) (key : string) : Report :=
  mkReport sample_iid stage source zeroTime key "step" (if (stage =? StageFailed)%string then "E_DISK" else "") ∅.

Definition sample_chunk (n : Z) (key content : string) : LogChunk :=
  mkLogChunk 0 sample_iid n SourceInstaller zeroTime zeroTime "req-log" key content "".

Definition db_discovered : DB := after empty_db 1000%Z (DiscoverMachine_ sample_observation "req-1").
Definition db_provision : DB := after db_discovered 1001%Z (SetMachinePolicy_ sample_machine_id "provision" "req-2" "ops").
Definition db_specified : DB := after db_provision 1002%Z (CreateInstallationSpec_ sample_spec "req-3").
Definition db_armed : DB := after db_specified 1003%Z (ArmInstallation_ sample_machine_id sample_iid "req-4" "ops").
Definition db_registered : DB := after db_armed 1004%Z (RegisterBootTrustKey_ sample_iid sample_key_text "" "req-5").
Definition db_approved : DB :=
  after db_registered 1005%Z (ApproveBootTrustKey_ sample_machine_id sample_fingerprint "req-6" "ops").
Definition db_challenged : DB := after db_approved 1006%Z (CreateBootTrustChallenge_ sample_iid sample_fingerprint "req-7").
Definition db_released : DB :=
  after db_challenged 1007%Z (CompleteBootTrustChallenge_ sample_iid sample_challenge_id sample_proof "req-8").
Definition db_booted : DB :=
  after db_released 1008%Z (AppendLifecycleEvent_ (sample_report StagePXEBooted SourceServer "server:pxe") "req-9").
Definition db_started : DB :=
  after db_booted 1009%Z (AppendLifecycleEvent_ (sample_report StageInstallerStarted SourceInstaller "started-0001") "req-10").
Definition db_logged : DB :=
  after db_started 1010%Z (AppendInstallationLogChunk_ (sample_chunk 1 "log-chunk-0001" "password=hunter2")).
Definition db_consumed : DB := after db_logged 1011%Z (ConsumeAssignment_ sample_iid "req-11" "ops").
Definition db_failed : DB :=
  after db_consumed 1012%Z (AppendLifecycleEvent_ (sample_report StageFailed SourceInstaller "failed-00001") "req-12").
Definition db_user : DB := after db_failed 1013%Z (ResolveOperatorUser_ "idp" "alice" "Alice" "alice@example.org" "req-13").
Definition db_admin : DB := after db_user 1014%Z (ClaimInitialAdmin_ sample_user_id "req-14" "setup").

(** ** The stages are reachable *)

Lemma after_step db t o : (0 < t)%Z → step db (after db t o).
Proof.
  intros Ht. exists o, (at_time t "a"), (run (exec_op o) (at_time t "a") db).1.
  split; [by apply at_time_sane|]. unfold after. by destruct (run _ _ _).
Qed.

Lemma after_reachable db t o : (0 < t)%Z → reachable db → reachable (after db t o).
Proof. intros Ht Hr. eapply rtc_r; [exact Hr|by apply after_step]. Qed.

Lemma reach_provision : reachable db_provision.
Proof. do 2 (apply after_reachable; [lia|]). by apply rtc_refl. Qed.

Lemma reach_specified : reachable db_specified.
Proof. apply after_reachable; [lia|]. apply reach_provision. Qed.

Lemma reach_challenged : reachable db_challenged.
Proof. do 4 (apply after_reachable; [lia|]). apply reach_specified. Qed.

Lemma reach_released : reachable db_released.
Proof. apply after_reachable; [lia|]. apply reach_challenged. Qed.

Lemma reach_logged : reachable db_logged.
Proof. do 3 (apply after_reachable; [lia|]). apply reach_released. Qed.

Lemma reach_consumed : reachable db_consumed.
Proof. apply after_reachable; [lia|]. apply reach_logged. Qed.

Lemma reach_user : reachable db_user.
Proof. do 2 (apply after_reachable; [lia|]). apply reach_consumed. Qed.

Lemma reach_admin : reachable db_admin.
Proof. apply after_reachable; [lia|]. apply reach_user. Qed.

Lemma at_time_healthy t c : healthy (at_time t c).
Proof. split; [done|]. intros k n. by eexists. Qed.

(** Every operation of the sample succeeds. *)
Example sample_stages :
  ((λ db, length (lifecycle_events db)) <$> [db_specified; db_armed; db_booted; db_started; db_failed]) = [1; 2; 3; 4; 5]
  ∧ size (credentials db_released) = 1 ∧ length (log_chunks db_logged) = 1 ∧ admin_count db_admin = 1
  ∧ (Assignment.a_State <$> (snd <$> map_to_list (assignments db_consumed))) = ["consumed"].
Proof. vm_compute. repeat split. Qed.

(** From the start of the installer to the consumed assignment. *)
Lemma started_then_consumed : later sample_iid db_started db_consumed.
Proof.
  apply (rtc_l _ _ db_logged); [split; [apply after_step; lia|by eexists; vm_compute]|].
  apply (rtc_l _ _ db_consumed); [split; [apply after_step; lia|by eexists; vm_compute]|]. apply rtc_refl.
Qed.
