(* ===== verification/Debian13Theorems.v ===== *)
(** * What the Debian 13 driver renders

    The quoting of the late command, the line structure of the preseed, and the
    provenance of the booted artifacts. *)

From stdpp Require Import sorting.
From S2P Require Import Prelude GoStrings Regex Encoding StringFacts Fault Artifact Installation Debian13.
From S2P Require Boot Sample.

(** ** Shell quoting

    Quote removal of a POSIX shell on one word made of single-quoted text,
    double-quoted text without expansions and plain graphical bytes: [mode] is
    the open quote.  [None] stands for a word with an expansion, a special byte
    or an unclosed quote. *)
Inductive quote_mode := unquoted | single | double.

Definition plain_byte (c : ascii) : bool := is_graph c && negb (byte_in c ("$`\|&;<>()*?[]#~!{}" +:+ dquote +:+ quote)).
Definition is_quote (c : ascii) : bool := byte_is 39 c.
Definition is_dquote (c : ascii) : bool := byte_is 34 c.

Fixpoint sh_word (mode : quote_mode) (s : string) : option string :=
  match s, mode with
  | "", unquoted => Some ""
  | "", _ => None
  | String c t, unquoted =>
    if is_quote c then sh_word single t
    else if is_dquote c then sh_word double t
    else if plain_byte c then String c <$> sh_word unquoted t else None
  | String c t, single => if is_quote c then sh_word unquoted t else String c <$> sh_word single t
  | String c t, double =>
    if is_dquote c then sh_word unquoted t
    else if byte_in c "$`\!" then None else String c <$> sh_word double t
  end.

Lemma replace_quote_cons c t new :
  ReplaceAll (String c t) quote new = if Ascii.eqb c "'" then new +:+ ReplaceAll t quote new else String c (ReplaceAll t quote new).
Proof.
  unfold ReplaceAll, quote. cbn [replace_go].
  assert (HasPrefix (String c t) "'" = Ascii.eqb c "'") as ->; [|by destruct (Ascii.eqb c "'")].
  unfold HasPrefix. cbn [String.prefix]. rewrite prefix_nil.
  destruct (ascii_dec "'" c) as [<-|Hne]; [done|]. symmetry. apply Ascii.eqb_neq. congruence.
Qed.

Definition escaped_quote : string := quote +:+ dquote +:+ quote +:+ dquote +:+ quote.

Lemma sh_word_escaped u : sh_word single (escaped_quote +:+ u) = String "'" <$> sh_word single u.
Proof. reflexivity. Qed.

(** Inside the quotes the replaced text stands for the value. *)
Lemma sh_word_quoted v rest :
  sh_word single (ReplaceAll v quote escaped_quote +:+ quote +:+ rest) = (λ r, v +:+ r) <$> sh_word unquoted rest.
Proof.
  induction v as [|c v IH].
  - change (sh_word unquoted rest = (λ r, r) <$> sh_word unquoted rest). by destruct (sh_word unquoted rest).
  - rewrite replace_quote_cons. destruct (Ascii.eqb_spec c "'") as [->|Hne].
    + rewrite app_assoc_s, sh_word_escaped, IH. by destruct (sh_word unquoted rest).
    + assert (is_quote c = false) as Hq.
      { unfold is_quote, byte_is. apply Nat.eqb_neq. intros E. apply Hne. rewrite <- (byte_of_nat c), E. reflexivity. }
      change (sh_word single (String c (ReplaceAll v quote escaped_quote +:+ quote +:+ rest)) =
              (λ r, String c v +:+ r) <$> sh_word unquoted rest).
      cbn [sh_word]. rewrite Hq, IH. by destruct (sh_word unquoted rest).
Qed.

(** ** Bytes of the validated fields *)

Abbreviation line := (byte_free (byte_of 10)).

Lemma hostname_line s : re_match hostnamePattern s = true → line s = true.
Proof. apply re_match_bytes. vm_compute. reflexivity. Qed.
Lemma locale_line s : re_match localePattern s = true → line s = true.
Proof. apply re_match_bytes. vm_compute. reflexivity. Qed.
Lemma keymap_line s : re_match keymapPattern s = true → line s = true.
Proof. apply re_match_bytes. vm_compute. reflexivity. Qed.
Lemma timezone_line s : re_match timezonePattern s = true → line s = true.
Proof. apply re_match_bytes. vm_compute. reflexivity. Qed.
Lemma username_line s : re_match usernamePattern s = true → line s = true.
Proof. apply re_match_bytes. vm_compute. reflexivity. Qed.
Lemma package_line s : re_match packagePattern s = true → line s = true.
Proof. apply re_match_bytes. vm_compute. reflexivity. Qed.
Lemma disk_line s : re_match targetDiskPattern s = true → line s = true.
Proof. apply re_match_bytes. vm_compute. reflexivity. Qed.

Lemma fields_line s : ∀ skip cur, line cur = true → ∀ x, x ∈ fields_go skip cur s → line x = true.
Proof.
  assert (∀ cur rest x, line cur = true → (∀ y, y ∈ rest → line y = true) → x ∈ emit_field cur rest → line x = true) as Hemit.
  { intros cur rest x Hc Hr. unfold emit_field. destruct (cur =? "")%string; [by apply Hr|].
    intros [->|Hx]%elem_of_cons; [done|by apply Hr]. }
  induction s as [|c t IH]; intros skip cur Hc x Hx.
  - simpl in Hx. eapply Hemit; [exact Hc| |exact Hx]. intros y Hy. by apply elem_of_nil in Hy.
  - cbn [fields_go] in Hx. destruct skip as [|k]; [|exact (IH k cur Hc x Hx)].
    destruct (ws_prefix (String c t)) as [|k] eqn:Ew.
    + eapply IH; [|exact Hx]. rewrite byte_free_app, Hc. unfold byte_free. cbn [all_bytes].
      destruct (Ascii.eqb_spec c (byte_of 10)) as [->|]; [|done]. by vm_compute in Ew.
    + eapply Hemit; [exact Hc| |exact Hx]. intros y Hy. exact (IH k "" eq_refl y Hy).
Qed.

Lemma replace_line s : line s = true → line (shellQuote s) = true.
Proof.
  intros Hs. unfold shellQuote. rewrite !byte_free_app. change (line quote) with true. rewrite andb_true_r. simpl.
  induction s as [|c s IH]; [done|]. rewrite replace_quote_cons. unfold byte_free in Hs. cbn [all_bytes] in Hs. bool_inv.
  destruct (Ascii.eqb c "'").
  - rewrite byte_free_app. by rewrite IH.
  - unfold byte_free. cbn [all_bytes]. match goal with E : Ascii.eqb c _ = false |- _ => rewrite E end. by apply IH.
Qed.

Lemma echo_line path value op :
  line path = true → line value = true → line op = true → line ("echo " +:+ shellQuote value +:+ op +:+ shellQuote path) = true.
Proof. intros Hp Hv Ho. rewrite !byte_free_app, !replace_line, Ho by done. done. Qed.

Lemma authorized_keys_line l ks x : authorized_keys l = Ok ks → x ∈ ks → line x = true.
Proof.
  revert ks. induction l as [|y l IH]; intros ks Hk Hx; cbn [authorized_keys] in Hk; [by injection Hk as <-; apply elem_of_nil in Hx|].
  apply bind_Ok in Hk as (k & Hy & Hk). apply bind_Ok in Hk as (ks' & Hl & [= <-]).
  apply elem_of_cons in Hx as [->|Hx]; [|by eapply IH].
  unfold authorized_key in Hy. destruct (Fields y) as [|a [|b r]] eqn:Ef; try done. injection Hy as <-.
  assert (∀ z, z ∈ a :: b :: r → line z = true) as Hf.
  { intros z Hz. rewrite <- Ef in Hz. exact (fields_line y 0 "" eq_refl z Hz). }
  rewrite byte_free_app, (Hf a) by set_solver. refine (Hf b _). set_solver.
Qed.

(** ** The lines of the preseed *)

Lemma split_write_lines l : (∀ x, x ∈ l → line x = true) → split_byte (byte_of 10) (write_lines l) = l ++ [""].
Proof.
  induction l as [|x l IH]; intros Hl; [done|]. cbn [write_lines].
  change (x +:+ nl +:+ write_lines l) with (x +:+ String (byte_of 10) (write_lines l)).
  rewrite split_byte_app by (apply Hl; by left). simpl. f_equal. apply IH. intros y Hy. apply Hl. by right.
Qed.

Lemma Join_line sep l : line sep = true → (∀ x, x ∈ l → line x = true) → line (Join l sep) = true.
Proof. intros Hs Hl. by apply Join_byte_free. Qed.

Lemma late_commands_line u keys x :
  line u = true → (∀ k, k ∈ keys → line k = true) → x ∈ late_commands u keys → line x = true.
Proof.
  intros Hu Hk Hx. unfold late_commands in Hx. apply elem_of_app in Hx as [Hx|[Hx|Hx]%elem_of_app].
  - repeat (apply elem_of_cons in Hx as [->|Hx]; [|]); try by apply elem_of_nil in Hx.
    all: rewrite ?byte_free_app, ?replace_line, ?byte_free_app, ?Hu by (rewrite ?byte_free_app, ?Hu; done); done.
  - apply list_elem_of_fmap in Hx as (k & -> & Hin). unfold appendLine. apply echo_line; [|by apply Hk|done].
    by rewrite !byte_free_app, Hu.
  - repeat (apply elem_of_cons in Hx as [->|Hx]; [|]); try by apply elem_of_nil in Hx.
    all: try reflexivity.
    all: unfold writeLine; rewrite ?byte_free_app, ?replace_line, ?byte_free_app, ?Hu by (rewrite ?byte_free_app, ?Hu; done); done.
Qed.

Lemma renderLateCommand_line spec late :
  line (Username (snap_Admin (Profile spec))) = true → renderLateCommand spec = Ok late → line late = true.
Proof.
  intros Hu Hl. unfold renderLateCommand in Hl. apply bind_Ok in Hl as (ks & Hk & Hl). apply Ok_inj in Hl as <-.
  apply Join_line; [done|]. intros x Hx. eapply late_commands_line; [exact Hu| |exact Hx].
  intros k. by apply authorized_keys_line with (1 := Hk).
Qed.

Lemma seedPackages_spec spec x :
  x ∈ seedPackages spec ↔ x ∈ ["openssh-server"; "sudo"; "unattended-upgrades"] ∨ x ∈ Packages (Profile spec).
Proof.
  unfold seedPackages. rewrite merge_sort_Permutation. rewrite elem_of_elements. set_solver.
Qed.

(** The facts about a valid profile the preseed relies on. *)
Record profile_lines (p : Snapshot) : Prop := {
  pl_hostname : line (Hostname p) = true;
  pl_locale : line (Locale p) = true;
  pl_keyboard : line (Keyboard p) = true;
  pl_timezone : line (Timezone p) = true;
  pl_username : line (Username (snap_Admin p)) = true;
  pl_packages : ∀ x, x ∈ Packages p → line x = true }.

Lemma valid_profile_lines p u : Snapshot_Validate p = Ok u → profile_lines p.
Proof.
  unfold Snapshot_Validate. intros H. ok_inv. bool_inv.
  match goal with H : check_packages _ _ = _ |- _ => apply check_packages_Ok in H; destruct H as [_ Hpk] end.
  constructor; auto using hostname_line, locale_line, keymap_line, timezone_line, username_line.
  intros x Hx. destruct (Hpk x Hx). by apply package_line.
Qed.

Lemma preseed_lines_line spec late x :
  profile_lines (Profile spec) → line (TargetDisk (spec_Storage spec)) = true →
  line (FullName (snap_Admin (Profile spec))) = true → line late = true →
  x ∈ preseed_lines spec (seedPackages spec) late → line x = true.
Proof.
  intros [Hh Hl Hk Ht Hu Hp] Hd Hf Hlate Hx. unfold preseed_lines in Hx.
  assert (line (Join (seedPackages spec) " ") = true) as Hj.
  { apply Join_line; [done|]. intros y Hy%seedPackages_spec.
    destruct Hy as [Hy|Hy]; [|by apply Hp].
    repeat (apply elem_of_cons in Hy as [->|Hy]; [reflexivity|]). by apply elem_of_nil in Hy. }
  repeat (apply elem_of_cons in Hx as [->|Hx]; [|]); try by apply elem_of_nil in Hx.
  all: rewrite ?byte_free_app, ?Hh, ?Hl, ?Hk, ?Ht, ?Hu, ?Hd, ?Hf, ?Hlate, ?Hj; reflexivity.
Qed.

(** A rendered seed, unfolded: the specification is a valid one of this
    driver's version and the content is the written lines. *)
Lemma RenderSeed_Ok spec rid b :
  RenderSeed spec rid = Ok b →
  spec_ok spec ∧ ValidateSpec spec = Ok tt ∧
  ∃ late, renderLateCommand spec = Ok late ∧
          Content b = write_lines (preseed_lines spec (seedPackages spec) late).
Proof.
  unfold RenderSeed. intros H. ok_inv.
  match goal with H : validateRenderableSpec _ = Ok _ |- _ => unfold validateRenderableSpec in H; rename H into Hv end.
  apply bind_Ok in Hv as ([] & Hv & _).
  split; [|split; [exact Hv|]].
  - unfold ValidateSpec in Hv. apply bind_Ok in Hv as ([] & Hv & _). apply or_fail_Ok in Hv. by eapply Spec_Validate_ok.
  - match goal with H : renderPreseed _ = _ |- _ => unfold renderPreseed in H; apply bind_Ok in H as (late & Hl & H);
      apply bind_Ok in H as (? & _ & H); apply Ok_inj in H as <- end.
    by exists late.
Qed.

(** ** Pinned artifacts *)

(** The artifact comes from the HTTPS origin of the Debian archive. *)
Definition from_debian (a : Descriptor) : Prop :=
  ∃ u, url_Parse (SourceURL a) = Some u ∧ Scheme u = "https" ∧ Host u = debianHost ∧ has_User u = false.

Lemma requiredArtifact_Ok spec n a :
  requiredArtifact spec n = Ok a →
  a ∈ Artifacts spec ∧ Artifact.Name a = n ∧ HasPrefix (Provenance a) "debian:trixie:" = true.
Proof.
  unfold requiredArtifact. intros H. destruct (last _) as [x|] eqn:El; [|done].
  apply last_elem_of, list_elem_of_filter in El as [Hn Hin].
  destruct (negb (length _ =? 1)%nat); [done|]. destruct (HasPrefix (Provenance x) _) eqn:Hp; [|done].
  apply Ok_inj in H as <-. done.
Qed.

Lemma validateDebianArtifactSource_Ok a suffix u : validateDebianArtifactSource a suffix = Ok u → from_debian a.
Proof.
  unfold validateDebianArtifactSource. destruct (url_Parse (SourceURL a)) as [w|] eqn:Eu; [|done].
  intros H. apply bind_Ok in H as (? & Hf & _). apply fail_if_Ok in Hf. bool_inv. exists w. by split_and!.
Qed.

Lemma only_three {A} (l : list A) a b c x :
  length l = 3 → a ∈ l → b ∈ l → c ∈ l → a ≠ b → a ≠ c → b ≠ c → x ∈ l → x = a ∨ x = b ∨ x = c.
Proof.
  destruct l as [|p [|q [|r [|]]]]; [done..| |done]. intros _.
  rewrite !elem_of_cons, !elem_of_nil. naive_solver.
Qed.

(** What the validation of a renderable specification establishes. *)
Lemma renderable_artifacts spec u :
  validateRenderableSpec spec = Ok u →
  spec_ok spec ∧ length (Artifacts spec) = 3 ∧
  ∃ kernel initrd shim,
    requiredArtifact spec "linux" = Ok kernel ∧ requiredArtifact spec "initrd.gz" = Ok initrd ∧
    requiredArtifact spec "bootnetx64.efi" = Ok shim ∧
    Forall (λ a, Version a = Version kernel ∧ Provenance a = Provenance kernel ∧ from_debian a) [kernel; initrd; shim].
Proof.
  unfold validateRenderableSpec. intros H. apply bind_Ok in H as ([] & Hv & H). apply bind_Ok in H as (? & Hs & _).
  apply fail_if_Ok, negb_false_iff in Hs. unfold ValidateSpec, check_shim in Hv. rewrite Hs in Hv. ok_inv. bool_inv.
  split; [by eapply Spec_Validate_ok|]. split; [by apply Nat.eqb_eq|].
  do 3 eexists. split_and!; [done..|]. rewrite !Forall_cons.
  split_and!; try done; by eapply validateDebianArtifactSource_Ok.
Qed.

(** ** Properties *)

(** Whatever value the late command echoes, a POSIX shell reads the quoted
    word back as exactly that value: a key, a path or a configuration line
    cannot leave its quotes. *)
Theorem shellQuote_roundtrip v : sh_word unquoted (shellQuote v) = Some v.
Proof.
  change (sh_word single (ReplaceAll v quote escaped_quote +:+ quote +:+ "") = Some v).
  rewrite sh_word_quoted. simpl. by rewrite app_nil_r_s.
Qed.

(** C37. The preseed of a specification whose administrator name holds no line
    feed consists of exactly the directives the driver writes, one per line:
    no other field of the profile, no package, no disk and no SSH key can add
    a directive. *)
Theorem preseed_lines_exact spec rid b :
  RenderSeed spec rid = Ok b →
  line (FullName (snap_Admin (Profile spec))) = true →
  ∃ late, renderLateCommand spec = Ok late ∧ line late = true ∧
          split_byte (byte_of 10) (Content b) = preseed_lines spec (seedPackages spec) late ++ [""].
Proof.
  intros (Hok & _ & late & Hl & ->)%RenderSeed_Ok Hf. destruct Hok as [Hp _ _ _ _ Hd _ _].
  pose proof (valid_profile_lines _ _ Hp) as Hpl.
  assert (line late = true) as Hlate by (eapply renderLateCommand_line; [apply Hpl|exact Hl]).
  exists late. split_and!; [done|done|]. apply split_write_lines. intros x.
  by apply preseed_lines_line; [|apply disk_line|..].
Qed.

(** A rendered boot specification is valid and boots the one kernel and
    the one initrd of the specification, both pinned to the same version and
    provenance of Debian trixie, and the specification pins the signed shim of
    that version too. *)
Theorem RenderBoot_pinned spec b :
  RenderBoot spec = Ok b →
  Boot.Validate b = Ok tt ∧ Boot.InstallationID b = spec_ID spec ∧
  ∃ kernel initrd shim,
    (∀ a, a ∈ Artifacts spec → a = kernel ∨ a = initrd ∨ a = shim) ∧
    Artifact.Name kernel = "linux" ∧ Artifact.Name initrd = "initrd.gz" ∧ Artifact.Name shim = "bootnetx64.efi" ∧
    Boot.Kernel b = artifact_ref kernel ∧ Boot.Initrds b = [artifact_ref initrd] ∧
    Forall (λ a, a ∈ Artifacts spec ∧ Artifact.Version a = Artifact.Version kernel ∧
                 Artifact.Provenance a = Artifact.Provenance kernel ∧
                 HasPrefix (Artifact.Provenance a) "debian:trixie:" = true ∧ from_debian a) [kernel; initrd; shim].
Proof.
  unfold RenderBoot. intros H. apply bind_Ok in H as (u & Hv & H).
  apply renderable_artifacts in Hv as (Hok & Hlen & kernel & initrd & shim & Hk & Hi & Hs & Hall).
  rewrite Hk, Hi in H. cbn [mbind result_bind] in H. apply bind_Ok in H as ([] & Hb & H). apply or_fail_Ok in Hb.
  apply Ok_inj in H as <-. split; [exact Hb|]. split; [done|]. exists kernel, initrd, shim.
  apply requiredArtifact_Ok in Hk as (Hki & Hkn & Hkp), Hi as (Hii & Hin & Hip), Hs as (Hsi & Hsn & Hsp).
  rewrite !Forall_cons in Hall. destruct Hall as ((_ & _ & ?) & (? & ? & ?) & (? & ? & ?) & _).
  split_and!; try done; [|rewrite !Forall_cons; by split_and!].
  intros a. apply only_three; try done; congruence.
Qed.

(** ** A Debian 13 specification *)

Definition images : string := "https://deb.debian.org/debian/dists/trixie/main/installer-amd64/20250803/images/".
Definition debian_artifact (id name path : string) : Descriptor :=
  mkDescriptor id name (images +:+ path) "20250803" (Artifact.SHA256 name) 5 "debian:trixie:release=13.0:installer=20250803".

Definition debian_artifacts : list Descriptor :=
  [debian_artifact "debian13-amd64-netboot-linux" "linux" "netboot/debian-installer/amd64/linux";
   debian_artifact "debian13-amd64-netboot-initrd" "initrd.gz" "netboot/debian-installer/amd64/initrd.gz";
   debian_artifact "debian13-amd64-netboot-shim" "bootnetx64.efi" "netboot/debian-installer/amd64/bootnetx64.efi"].

Definition debian_spec (name : string) : Spec :=
  mkSpec "i_1" "m_1" DriverID DriverVersion "13" debianArch "base" "1"
    (mkSnapshot 1 "node-1" "en_US.UTF-8" "us" "UTC"
       (mkAdmin "ops" name (AuthorizedSSHKeys (snap_Admin Sample.sample_snapshot)) true) ["vim"; "curl"])
    debian_artifacts (mkStorage "whole-disk" "ext4" "/dev/sda" false false) (mkSecurity false false true)
    "lc_1" zeroTime "ops".

Definition seed_of (r : result SeedBundle) : SeedBundle :=
  match r with Ok b => b | Err _ => mkSeedBundle "" "" "" end.

Lemma preseed_lines_exact_witness :
  ∃ b late, RenderSeed (debian_spec "Operator") "req-1" = Ok b ∧
    split_byte (byte_of 10) (Content b) = preseed_lines (debian_spec "Operator") ["curl"; "openssh-server"; "sudo"; "unattended-upgrades"; "vim"] late ++ [""].
Proof.
  assert (RenderSeed (debian_spec "Operator") "req-1" = Ok (seed_of (RenderSeed (debian_spec "Operator") "req-1"))) as H
    by (vm_compute; reflexivity).
  assert (line (FullName (snap_Admin (Profile (debian_spec "Operator")))) = true) as Hf by (vm_compute; reflexivity).
  assert (seedPackages (debian_spec "Operator") = ["curl"; "openssh-server"; "sudo"; "unattended-upgrades"; "vim"]) as Hp
    by (vm_compute; reflexivity).
  pose proof (preseed_lines_exact _ _ _ H Hf) as (late & _ & _ & Hl). rewrite Hp in Hl.
  exists (seed_of (RenderSeed (debian_spec "Operator") "req-1")), late. split; [exact H|exact Hl].
Defined.

Lemma RenderBoot_pinned_witness :
  ∃ b, RenderBoot (debian_spec "Operator") = Ok b ∧ Boot.Validate b = Ok tt.
Proof.
  assert (match RenderBoot (debian_spec "Operator") with Ok _ => true | Err _ => false end = true) as H
    by (vm_compute; reflexivity).
  destruct (RenderBoot (debian_spec "Operator")) as [b|] eqn:Hb; [|discriminate].
  pose proof (RenderBoot_pinned _ _ Hb) as (Hv & _). exists b. split; [reflexivity|exact Hv].
Defined.

(** A name that starts with a line feed passes the validation, which looks at
    the trimmed name only, and adds a directive of its own to the preseed. *)
Theorem FullName_injects :
  ∃ name b, RenderSeed (debian_spec name) "req-1" = Ok b ∧
    line name = false ∧ "d-i passwd/root-login boolean true" ∈ split_byte (byte_of 10) (Content b).
Proof.
  exists (nl +:+ "d-i passwd/root-login boolean true"),
    (seed_of (RenderSeed (debian_spec (nl +:+ "d-i passwd/root-login boolean true")) "req-1")).
  split_and!; [vm_compute; reflexivity|reflexivity|].
  apply (bool_decide_eq_true_1 _). vm_compute. reflexivity.
Qed.
