(* ===== verification/DebianReleaseTheorems.v ===== *)
(** * The chain of trust of the Debian installer artifacts

    What a successful resolution guarantees, that its artifacts are those the
    driver accepts, and that the checksum manifest is read faithfully. *)

From S2P Require Import Prelude GoStrings Regex Encoding GoParse StringFacts Fault Artifact Installation Debian13 DebianRelease Debian13Theorems.
From S2P Require Sample.

(** ** URLs below a literal base *)

Lemma cut_byte_free c s : byte_free c s = true → cut_byte c s = None.
Proof.
  induction s as [|d s IH]; [done|]. unfold byte_free. cbn [all_bytes cut_byte]. intros H. bool_inv.
  match goal with E : Ascii.eqb d c = false |- _ => rewrite E end. by rewrite IH.
Qed.

(** A class of bytes the escaping of a path segment produces. *)
Definition url_plain (c : ascii) : bool := is_graph c && negb (byte_in c "#?/ ").

Lemma url_plain_byte c : negb (shouldEscape encodePathSegment c) = true → url_plain c = true.
Proof.
  assert (∀ n, n < 256 → negb (shouldEscape encodePathSegment (byte_of n)) = true → url_plain (byte_of n) = true) as H.
  { intros n Hn. assert (forallb (λ n, implb (negb (shouldEscape encodePathSegment (byte_of n))) (url_plain (byte_of n))) (seq 0 256) = true) as Hall
      by (vm_compute; reflexivity).
    rewrite forallb_forall in Hall. specialize (Hall n). rewrite implb_true_iff in Hall. apply Hall. apply in_seq. lia. }
  specialize (H (byte_nat c) (byte_nat_bound c)). by rewrite byte_of_nat in H.
Qed.

Lemma upper_hex_plain n : n < 16 → url_plain (upper_hex n) = true ∧ hex_value (upper_hex n) = Some n.
Proof. intros H. do 16 (destruct n as [|n]; [by vm_compute|]). lia. Qed.

Lemma PathEscape_plain v : all_bytes url_plain (PathEscape v) = true.
Proof.
  unfold PathEscape. induction v as [|c v IH]; [done|]. cbn [escape].
  destruct (shouldEscape encodePathSegment c) eqn:E; cbn [all_bytes]; rewrite IH.
  - pose proof (byte_nat_bound c).
    destruct (upper_hex_plain (byte_nat c / 16)) as [-> _]; [apply Nat.Div0.div_lt_upper_bound; lia|].
    destruct (upper_hex_plain (byte_nat c mod 16)) as [-> _]; [by apply Nat.mod_upper_bound|]. done.
  - rewrite url_plain_byte by (by rewrite E). done.
Qed.

Lemma unescape_literal s rest :
  byte_free "%" s = true → unescape encodePath (s +:+ rest) = (λ r, s +:+ r) <$> unescape encodePath rest.
Proof.
  unfold byte_free. induction s as [|c s IH]; intros Hs.
  - change (unescape encodePath rest = (λ r, r) <$> unescape encodePath rest). by destruct (unescape _ rest).
  - cbn [all_bytes] in Hs. bool_inv.
    change (unescape encodePath (String c (s +:+ rest)) = (λ r, String c s +:+ r) <$> unescape encodePath rest).
    cbn [unescape]. match goal with E : Ascii.eqb c _ = false |- _ => rewrite E end.
    rewrite IH by done. by destruct (unescape _ rest).
Qed.

(** Decoding as a path gives the segment back. *)
Lemma unescape_PathEscape v rest :
  unescape encodePath (PathEscape v +:+ rest) = (λ r, v +:+ r) <$> unescape encodePath rest.
Proof.
  unfold PathEscape. induction v as [|c v IH].
  - change (unescape encodePath rest = (λ r, r) <$> unescape encodePath rest). by destruct (unescape _ rest).
  - cbn [escape]. destruct (shouldEscape encodePathSegment c) eqn:E.
    + pose proof (byte_nat_bound c).
      change (unescape encodePath (String "%" (String (upper_hex (byte_nat c / 16)) (String (upper_hex (byte_nat c mod 16))
        (escape encodePathSegment v +:+ rest)))) = (λ r, String c v +:+ r) <$> unescape encodePath rest).
      cbn [unescape].
      destruct (upper_hex_plain (byte_nat c / 16)) as [_ ->]; [apply Nat.Div0.div_lt_upper_bound; lia|].
      destruct (upper_hex_plain (byte_nat c mod 16)) as [_ ->]; [by apply Nat.mod_upper_bound|].
      cbn [mbind option_bind]. rewrite <- Nat.div_mod_eq, byte_of_nat, IH. by destruct (unescape _ rest).
    + change (unescape encodePath (String c (escape encodePathSegment v +:+ rest)) = (λ r, String c v +:+ r) <$> unescape encodePath rest).
      cbn [unescape]. destruct (Ascii.eqb_spec c "%") as [->|_]; [by vm_compute in E|].
      rewrite IH. by destruct (unescape _ rest).
Qed.

Definition url_tail (c : ascii) : bool := is_graph c && negb (byte_in c "#?").

Lemma url_tail_free c s : byte_in c "#?" = true → all_bytes url_tail s = true → byte_free c s = true.
Proof.
  intros Hc. apply all_bytes_impl. intros d H. unfold url_tail in H. bool_inv.
  destruct (Ascii.eqb_spec d c) as [->|]; [congruence|done].
Qed.

Lemma url_tail_control s : all_bytes url_tail s = true → has_ascii_control s = false.
Proof.
  induction s as [|c s IH]; [done|]. cbn [all_bytes has_ascii_control]. unfold url_tail, is_graph, in_range. intros H. bool_inv.
  rewrite IH by done. unfold ascii_control, byte_is.
  repeat match goal with H : (_ <=? _)%nat = true |- _ => apply Nat.leb_le in H end.
  rewrite (proj2 (Nat.ltb_ge _ _)), (proj2 (Nat.eqb_neq _ _)) by lia. done.
Qed.

(** [url.Parse] below the archive's origin. *)
Lemma url_Parse_debian tail p :
  all_bytes url_tail tail = true → unescape encodePath tail = Some p →
  ∃ raw, url_Parse ("https://deb.debian.org/" +:+ tail) = Some (mkURL "https" "" false "deb.debian.org" (String "/" p) raw "" "").
Proof.
  intros Ht Hp.
  set (u := "https://deb.debian.org/" +:+ tail).
  assert (all_bytes url_tail u = true) as Hu by (unfold u; by rewrite all_bytes_app, Ht).
  unfold url_Parse. rewrite cut_byte_free by (by apply url_tail_free). rewrite url_tail_control by done.
  change (u =? "*")%string with false.
  change (getScheme u) with (Some ("https", "//deb.debian.org/" +:+ tail)).
  cbn [mbind option_bind]. change (ToLower "https") with "https".
  unfold parse_noscheme, split_query.
  rewrite cut_byte_free by (apply url_tail_free; [done|]; by rewrite all_bytes_app, Ht).
  change (HasPrefix ("//deb.debian.org/" +:+ tail) "/") with (HasPrefix ("/" +:+ ("/deb.debian.org/" +:+ tail)) "/").
  rewrite HasPrefix_self. cbn [negb andb orb].
  change (HasPrefix ("//deb.debian.org/" +:+ tail) "//") with (HasPrefix ("//" +:+ ("deb.debian.org/" +:+ tail)) "//").
  rewrite HasPrefix_self.
  change (cut_byte "/" (drop_bytes 2 ("//deb.debian.org/" +:+ tail))) with (Some ("deb.debian.org", tail)).
  cbn [mbind option_bind negb andb orb String.eqb].
  change (parseAuthority "deb.debian.org") with (Some (false, "deb.debian.org")).
  cbn [mbind option_bind]. unfold setPath. change (unescape encodePath (String "/" tail)) with (String "/" <$> unescape encodePath tail).
  rewrite Hp. by eexists.
Qed.

(** The source of an artifact the resolver builds is one the driver accepts. *)
Lemma resolved_source version id name digest size prov suffix :
  all_bytes url_tail suffix = true → unescape encodePath suffix = Some suffix →
  validateDebianArtifactSource
    (mkDescriptor id name
       ((debianBaseURL +:+ "/dists/" +:+ debianSuite +:+ "/main/installer-amd64/" +:+ PathEscape version +:+ "/images") +:+ "/" +:+ suffix)
       version digest size prov) suffix = Ok tt.
Proof.
  intros Hs Hu. unfold validateDebianArtifactSource. cbn [SourceURL Version].
  set (tail := "debian/dists/trixie/main/installer-amd64/" +:+ PathEscape version +:+ "/images/" +:+ suffix).
  destruct (url_Parse_debian tail ("debian/dists/trixie/main/installer-amd64/" +:+ version +:+ "/images/" +:+ suffix)) as [raw Hr].
  { unfold tail. rewrite !all_bytes_app, Hs.
    rewrite (all_bytes_impl url_plain url_tail (PathEscape version)); [done| |apply PathEscape_plain].
    intros c. unfold url_plain, url_tail. cbn [byte_in]. intros H. bool_inv.
    repeat match goal with E : _ = false |- _ => rewrite E end. by rewrite andb_true_r. }
  { unfold tail. 
    rewrite unescape_literal, unescape_PathEscape, unescape_literal, Hu by done. done. }
  set (src := (_ +:+ "/" +:+ suffix)).
  assert (src = "https://deb.debian.org/" +:+ tail) as -> by (unfold src, tail; by rewrite !app_assoc_s).
  rewrite Hr. cbn [Scheme Host has_User RawQuery Fragment Path].
  change (String "/" ("debian/dists/trixie/main/installer-amd64/" +:+ version +:+ "/images/" +:+ suffix))
    with ("/debian/dists/trixie/main/installer-amd64/" +:+ version +:+ "/images/" +:+ suffix).
  unfold debianHost. rewrite !String.eqb_refl. by rewrite andb_false_r.
Qed.

(** ** Resolution *)

Section Trust.
Context `{Crypto}.

Definition kernel_path : string := "netboot/debian-installer/amd64/linux".
Definition initrd_path : string := "netboot/debian-installer/amd64/initrd.gz".
Definition shim_path : string := "netboot/debian-installer/amd64/bootnetx64.efi".

(** [v] is the file [path] of the verified manifest [sums]: served by the
    archive, pinned by its digest, described by a valid descriptor. *)
Definition pinned_by (w : outside) (info : releaseInfo) (sums : gmap string string) (path : string) (v : Verified) : Prop :=
  let d := v_Descriptor v in
  sums !! path = Some (Digest d) ∧ SHA256 (v_Content v) = Digest d ∧ len (v_Content v) = Size d ∧
  Artifact.Validate d = Ok tt ∧ Version d = InstallerVersion info ∧ Provenance d = provenance_of info ∧
  SourceURL d = images_base info +:+ "/" +:+ path ∧
  ∃ body, http_Do w (SourceURL d) = Ok (200%Z, Ok body) ∧ HasPrefix body (v_Content v) = true.

Lemma read_limited_prefix n s : HasPrefix s (read_limited n s) = true.
Proof.
  unfold read_limited. destruct (len s <=? n)%Z; [|apply substring_prefix].
  rewrite <- (app_nil_r_s s) at 1. apply HasPrefix_self.
Qed.

Lemma Fetch_Ok w u n c :
  Fetch w u n = Ok c → (len c ≤ n)%Z ∧ ∃ body, http_Do w u = Ok (200%Z, Ok body) ∧ HasPrefix body c = true.
Proof.
  unfold Fetch. intros H0. apply bind_Ok in H0 as ([st bd] & Hd & H0). apply bind_Ok in H0 as (? & Hst & H0).
  apply bind_Ok in H0 as (body & Hb & H0). apply bind_Ok in H0 as (? & Hl & H0). apply Ok_inj in H0 as <-.
  apply fail_if_Ok in Hst, Hl. simpl in *. bool_inv. subst. split; [done|]. exists body. split; [done|]. apply read_limited_prefix.
Qed.

Lemma fetchArtifact_Ok w info id name path sums v :
  fetchArtifact w (images_base info) (InstallerVersion info) (provenance_of info) id name path sums = Ok v →
  pinned_by w info sums path v ∧ ID (v_Descriptor v) = id ∧ Name (v_Descriptor v) = name.
Proof.
  unfold fetchArtifact. destruct (sums !! path) as [digest|] eqn:Es; [|done]. intros H0.
  apply bind_Ok in H0 as (c & Hf & H0). apply bind_Ok in H0 as (? & Hv & H0). apply Ok_inj in H0 as <-.
  apply or_fail_Ok, Fetch_Ok in Hf as (_ & Hbody). apply or_fail_Ok, VerifyContent_Ok in Hv as (Hv & _ & Hd).
  split; [|done]. by split_and!.
Qed.

(** A successful resolution, step by step. *)
Lemma Resolve_Ok w r :
  Resolve w = Ok r →
  ∃ signed release info manifest sums,
    gpgv w signed = Ok release ∧ parseRelease release = Ok info ∧
    SHA256 manifest = ManifestDigest info ∧ len manifest = ManifestSize info ∧ parseSHA256SUMS manifest = Ok sums ∧
    r_InstallerVersion r = InstallerVersion info ∧
    (pinned_by w info sums kernel_path (r_Kernel r) ∧ Name (v_Descriptor (r_Kernel r)) = "linux"
      ∧ ID (v_Descriptor (r_Kernel r)) = "debian13-amd64-netboot-linux") ∧
    (pinned_by w info sums initrd_path (r_Initrd r) ∧ Name (v_Descriptor (r_Initrd r)) = "initrd.gz"
      ∧ ID (v_Descriptor (r_Initrd r)) = "debian13-amd64-netboot-initrd") ∧
    (pinned_by w info sums shim_path (r_Shim r) ∧ Name (v_Descriptor (r_Shim r)) = "bootnetx64.efi"
      ∧ ID (v_Descriptor (r_Shim r)) = "debian13-amd64-netboot-shim").
Proof.
  unfold Resolve. intros H0.
  apply bind_Ok in H0 as (signed & _ & H0). apply bind_Ok in H0 as (release & Hg & H0).
  apply bind_Ok in H0 as (info & Hp & H0). cbv zeta in H0. apply bind_Ok in H0 as (manifest & _ & H0).
  apply bind_Ok in H0 as (? & Hm & H0). apply bind_Ok in H0 as (sums & Hs & H0).
  apply bind_Ok in H0 as (k & Hk & H0). apply bind_Ok in H0 as (i & Hi & H0). apply bind_Ok in H0 as (s & Hsh & H0).
  apply Ok_inj in H0 as <-. apply or_fail_Ok in Hg, Hp, Hs. unfold Verify in Hg.
  apply bind_Ok in Hg as (rel & Hg & Hx). apply bind_Ok in Hx as (? & _ & Hx). apply Ok_inj in Hx as ->.
  apply fail_if_Ok in Hm. bool_inv.
  apply fetchArtifact_Ok in Hk as (? & ? & ?), Hi as (? & ? & ?), Hsh as (? & ? & ?).
  exists signed, release, info, manifest, sums. by split_and!.
Qed.
End Trust.

(** ** What the release file says *)

(** [line] is an entry of the SHA256 section: a digest, a size and a path. *)
Definition release_entry (line digest : string) (size : Z) (path : string) : Prop :=
  ∃ hex sz, Fields line = [hex; sz; path] ∧ digest = "sha256:" +:+ hex ∧ ValidSHA256 digest = true ∧
            ParseInt sz = Some size ∧ (0 < size)%Z.

Definition version_path (v : string) : string := "main/installer-amd64/" +:+ v +:+ "/images/SHA256SUMS".

(** What the scan has established after the lines [l]. *)
Record scanned (l : list string) (st : release_state) : Prop := {
  sc_current : currentDigest st ≠ "" → ∃ x, x ∈ l ∧ release_entry x (currentDigest st) (currentSize st) currentPath;
  sc_candidates : ∀ c, c ∈ candidates st →
    c_version c ≠ "" ∧ c_version c ≠ "current" ∧ byte_free "/" (c_version c) = true ∧
    ∃ x, x ∈ l ∧ release_entry x (c_digest c) (c_size c) (version_path (c_version c)) }.

Lemma cut_byte_Some c s a b : cut_byte c s = Some (a, b) → s = a +:+ String c b ∧ byte_free c a = true.
Proof.
  revert a. induction s as [|d s IH]; intros a; cbn [cut_byte]; [done|].
  destruct (Ascii.eqb_spec d c) as [->|Hne]; [by intros [= <- <-]|].
  destruct (cut_byte c s) as [[x y]|] eqn:E; [|done]. intros [= <- <-].
  destruct (IH x eq_refl) as [-> Hx]. split; [done|]. unfold byte_free. cbn [all_bytes].
  rewrite (proj2 (Ascii.eqb_neq d c)) by done. exact Hx.
Qed.

Lemma installerManifestPath_Some path v :
  installerManifestPath path = Some v → path = version_path v ∧ v ≠ "" ∧ byte_free "/" v = true.
Proof.
  unfold installerManifestPath. destruct (HasPrefix path _) eqn:Hp; [|done].
  destruct (cut_byte _ _) as [[x y]|] eqn:E; [|done].
  destruct (negb (x =? "")%string && (y =? "images/SHA256SUMS")%string) eqn:Hxy; [|done]. intros [= <-]. bool_inv. subst y.
  apply cut_byte_Some in E as [E Hx]. split; [|done].
  rewrite (HasPrefix_TrimPrefix _ _ Hp), E. done.
Qed.

Lemma scanned_weaken l x st : scanned l st → scanned (l ++ [x]) st.
Proof.
  intros [Hc Hd]. split.
  - intros Hne. destruct (Hc Hne) as (y & ? & ?). exists y. set_solver.
  - intros c Hin. destruct (Hd c Hin) as (? & ? & ? & y & ? & ?). split_and!; try done. exists y. set_solver.
Qed.

Lemma scanned_line l st x : scanned l st → scanned (l ++ [x]) (release_line st x).
Proof.
  intros Hs. apply (scanned_weaken _ x) in Hs. unfold release_line.
  repeat case_match; try (destruct Hs; by split).
  unfold sha256_entry. destruct (Fields x) as [|d [|sz [|p [|]]]] eqn:Ef; try done.
  destruct (ValidSHA256 ("sha256:" +:+ d)) eqn:Ev; [|done]. cbn [negb].
  destruct (ParseInt sz) as [n|] eqn:En; [|done]. destruct (n <=? 0)%Z eqn:Hn; [done|]. apply Z.leb_gt in Hn.
  assert (∀ q, p = q → release_entry x ("sha256:" +:+ d) n q) as He by (intros q <-; exists d, sz; by split_and!).
  destruct Hs as [Hc Hd]. split; cbn [currentDigest currentSize candidates].
  - destruct (p =? currentPath)%string eqn:Ep; [|done]. apply String.eqb_eq in Ep.
    intros _. exists x. split; [set_solver|]. by apply He.
  - intros c Hin. destruct (installerManifestPath p) as [v|] eqn:Em; [|by apply Hd].
    destruct (String.eqb_spec v "current") as [|Hcur]; [by apply Hd|].
    apply elem_of_app in Hin as [Hin|Hin]; [by apply Hd|]. apply list_elem_of_singleton in Hin as ->.
    apply installerManifestPath_Some in Em as (Ep & Hv & Hb). cbn [c_version c_digest c_size].
    split_and!; try done. exists x. split; [set_solver|]. by apply He.
Qed.

Lemma scanned_lines l : scanned l (foldl release_line release_init l).
Proof.
  induction l as [|x l IH] using rev_ind; [split; [done|]; intros c Hc; by apply elem_of_nil in Hc|].
  rewrite foldl_app. by apply scanned_line.
Qed.

Definition matching (info : releaseInfo) (c : manifestCandidate) : Prop :=
  c_digest c = ManifestDigest info ∧ c_size c = ManifestSize info.

Lemma select_version_Ok digest size l : ∀ iv v,
  (∀ c, c ∈ l → c_version c ≠ "") → select_version digest size iv l = Ok v →
  (iv ≠ "" → v = iv) ∧
  (∀ c, c ∈ l → c_digest c = digest → c_size c = size → c_version c = v) ∧
  (iv = "" → v ≠ "" → ∃ c, c ∈ l ∧ c_digest c = digest ∧ c_size c = size ∧ c_version c = v).
Proof.
  induction l as [|x l IH]; intros iv v Hne Hs.
  - simpl in Hs. apply Ok_inj in Hs as <-. split_and!; [done| |done]. intros c Hc. by apply elem_of_nil in Hc.
  - cbn [select_version] in Hs. destruct ((c_digest x =? digest)%string && (c_size x =? size)%Z) eqn:Ex.
    + apply bind_Ok in Hs as (? & Hf & Hs). apply fail_if_Ok in Hf. bool_inv.
      destruct (IH (c_version x) v) as (Hv & Hall & _); [intros c Hc; apply Hne; by right|done|].
      assert (v = c_version x) as -> by (apply Hv, Hne; by left). clear Hv. split_and!.
      * intros Hiv. destruct Hf as [Hf|Hf]; bool_inv; [done|congruence].
      * intros c [->|Hc]%elem_of_cons Hd Hz; [done|by apply Hall].
      * intros _ _. exists x. split; [by left|]. done.
    + destruct (IH iv v) as (Hv & Hall & Hex); [intros c Hc; apply Hne; by right|done|]. split_and!; [done| |].
      * intros c [->|Hc]%elem_of_cons Hd Hz; [|by apply Hall]. subst. rewrite String.eqb_refl, Z.eqb_refl in Ex. done.
      * intros H1 H2. destruct (Hex H1 H2) as (c & ? & ?). exists c. split; [by right|done].
Qed.

(** ** The checksum manifest *)

Lemma ValidSHA256_hex d : String.length d = 32 → ValidSHA256 ("sha256:" +:+ hex_encode d) = true.
Proof.
  intros Hl. unfold ValidSHA256. rewrite HasPrefix_self. cbn [negb].
  change (TrimPrefix ("sha256:" +:+ hex_encode d) "sha256:") with
    (if HasPrefix ("sha256:" +:+ hex_encode d) "sha256:" then hex_encode d else "sha256:" +:+ hex_encode d).
  rewrite HasPrefix_self, hex_encode_length, Hl, hex_decode_encode.
  rewrite ToLower_low, String.eqb_refl; [done|].
  clear Hl. induction d as [|c d IH]; [done|]. cbn [hex_encode all_bytes]. rewrite IH, andb_true_r.
  pose proof (byte_nat_bound c).
  assert (∀ n, n < 16 → is_low (hex_digit n) = true) as Hd by (intros n Hn; do 16 (destruct n as [|n]; [by vm_compute|]); lia).
  rewrite !Hd; [done| |]; [by apply Nat.mod_upper_bound|apply Nat.Div0.div_lt_upper_bound; lia].
Qed.

(** A word without white space is a field. *)
Lemma fields_word w rest cur :
  all_bytes is_graph w = true → fields_go 0 cur (w +:+ rest) = fields_go 0 (cur +:+ w) rest.
Proof.
  revert cur. induction w as [|c w IH]; intros cur Hw.
  - simpl. by rewrite app_nil_r_s.
  - cbn [all_bytes] in Hw. bool_inv.
    change (fields_go 0 cur (String c (w +:+ rest)) = fields_go 0 (cur +:+ String c w) rest). cbn [fields_go].
    rewrite is_graph_nospace by done. rewrite IH by done. by rewrite app_assoc_s.
Qed.

(** A line of the manifest, as the archive writes it. *)
Definition sums_line (e : string * string) : string := hex_encode e.1 +:+ "  ./" +:+ e.2.

Lemma Fields_sums_line d path :
  d ≠ "" → all_bytes is_graph path = true →
  Fields (sums_line (d, path)) = [hex_encode d; "./" +:+ path].
Proof.
  intros Hd Hp. unfold Fields, sums_line. cbn [fst snd]. rewrite fields_word by apply hex_encode_graph.
  change (fields_go 0 ("" +:+ hex_encode d) ("  ./" +:+ path)) with
    (emit_field (hex_encode d) (fields_go 0 "" ("./" +:+ path))).
  rewrite <- (app_nil_r_s ("./" +:+ path)). rewrite fields_word by (by rewrite all_bytes_app, Hp).
  rewrite app_nil_r_s. unfold emit_field at 1. destruct d as [|c d]; [done|]. done.
Qed.

Lemma dropCR_free s : byte_free (byte_of 13) s = true → dropCR s = s.
Proof.
  unfold byte_free. induction s as [|c s IH]; intros Hs; [done|]. cbn [all_bytes dropCR] in *. bool_inv.
  destruct (byte_is 13 c) eqn:E; [|by rewrite IH].
  unfold byte_is in E. apply Nat.eqb_eq in E.
  match goal with H : Ascii.eqb c _ = false |- _ => apply Ascii.eqb_neq in H; destruct H end.
  by rewrite <- (byte_of_nat c), E.
Qed.

(** A line the scanner returns as it was written. *)
Definition scan_line (x : string) : Prop :=
  byte_free (byte_of 10) x = true ∧ byte_free (byte_of 13) x = true ∧ (len x < MaxScanTokenSize)%Z.

Lemma Scan_write_lines l : (∀ x, x ∈ l → scan_line x) → Scan (write_lines l) = (l, true).
Proof.
  intros Hl. unfold Scan, raw_lines. rewrite split_write_lines by (intros x Hx; by apply Hl).
  rewrite last_snoc, removelast_last.
  induction l as [|x l IH]; [done|]. cbn [scan_all].
  destruct (Hl x) as (_ & Hx & Hn); [by left|]. rewrite (proj2 (Z.leb_gt _ _)) by done.
  rewrite IH by (intros y Hy; apply Hl; by right). by rewrite dropCR_free.
Qed.

(** An entry of a manifest: a SHA-256 digest and a relative path. *)
Definition manifest_entry (e : string * string) : Prop :=
  String.length e.1 = 32 ∧ e.2 ≠ "" ∧ all_bytes is_graph e.2 = true ∧ Contains e.2 ".." = false ∧ (len e.2 ≤ 4096)%Z.

Definition checksum_of (e : string * string) : string * string := (e.2, "sha256:" +:+ hex_encode e.1).

Lemma sums_lines_entries l : ∀ m,
  (∀ e, e ∈ l → manifest_entry e ∧ m !! e.2 = None) → NoDup l.*2 →
  sums_lines m (sums_line <$> l) = Ok (list_to_map (checksum_of <$> l) ∪ m).
Proof.
  induction l as [|[d p] l IH]; intros m Hl Hd.
  - change (Ok m = Ok (∅ ∪ m)). by rewrite (left_id_L ∅ (∪)).
  - destruct (Hl (d, p)) as [(H1 & H2 & H3 & H4 & _) Hm]; [by left|]. cbn [fst snd] in *.
    rewrite fmap_cons in Hd. apply NoDup_cons in Hd as [Hp Hd].
    rewrite fmap_cons. cbn [sums_lines]. rewrite Fields_sums_line by (try done; by intros ->).
    rewrite ValidSHA256_hex by done. rewrite TrimPrefix_app, H4, Hm.
    rewrite (proj2 (String.eqb_neq p "")) by done. rewrite bool_decide_false by (by intros [? ?]).
    cbn [negb orb fail_if mbind result_bind]. rewrite IH; [|intros e He|done].
    + rewrite fmap_cons. change (checksum_of (d, p)) with (p, "sha256:" +:+ hex_encode d). rewrite list_to_map_cons. f_equal.
      rewrite <- insert_union_l, insert_union_r; [done|].
      apply not_elem_of_list_to_map. rewrite <- list_fmap_compose. intros Hin. apply Hp.
      apply list_elem_of_fmap in Hin as (e & -> & He). apply list_elem_of_fmap. by exists e.
    + destruct (Hl e) as [? ?]; [by right|]. split; [done|].
      rewrite lookup_insert_ne; [done|]. intros ->. apply Hp. apply list_elem_of_fmap. by exists e.
Qed.

Lemma sums_line_scan e : manifest_entry e → scan_line (sums_line e).
Proof.
  intros (Hd & _ & Hg & _ & Hn). unfold scan_line, sums_line. rewrite !byte_free_app.
  assert (∀ c s, is_graph c = false → all_bytes is_graph s = true → byte_free c s = true) as Hf.
  { intros c s Hc. apply all_bytes_impl. intros b Hb. destruct (Ascii.eqb_spec b c) as [->|]; [congruence|done]. }
  rewrite !(Hf _ (hex_encode e.1)), !(Hf _ e.2) by (done || apply hex_encode_graph). split_and!; [done..|].
  unfold MaxScanTokenSize, len in *. rewrite !length_app_s, hex_encode_length, Hd. simpl. lia.
Qed.

(** ** Resolved artifacts in a specification *)

Definition with_artifacts (spec : Spec) (l : list Descriptor) : Spec :=
  mkSpec (spec_ID spec) (MachineID spec) (Installation.DriverID spec) (Installation.DriverVersion spec) (OSRelease spec)
    (spec_Architecture spec) (ProfileID spec) (ProfileRevision spec) (Profile spec) l (spec_Storage spec)
    (spec_Security spec) (LifecycleCredentialID spec) (CreatedAt spec) (CreatedBy spec).

Lemma bind_tt {A} (m : result unit) (f : unit → result A) a : m = Ok tt → f tt = Ok a → m ≫= f = Ok a.
Proof. by intros ->. Qed.

Lemma Spec_Validate_artifacts spec l :
  Spec_Validate spec = Ok tt → (1 ≤ length l ≤ 16) → check_artifacts ∅ ∅ l = Ok tt →
  Spec_Validate (with_artifacts spec l) = Ok tt.
Proof.
  unfold Spec_Validate. cbn [with_artifacts spec_ID MachineID Installation.DriverID Installation.DriverVersion OSRelease
    spec_Architecture ProfileID ProfileRevision Profile Artifacts spec_Storage spec_Security LifecycleCredentialID CreatedBy].
  intros Hv Hn Hl. repeat (apply bind_Ok in Hv as ([] & ? & Hv)).
  repeat (apply bind_tt; [first [assumption|idtac]|]); try assumption.
  - apply fail_if_Ok, Nat.eqb_neq. lia.
  - apply fail_if_Ok, Nat.ltb_ge. lia.
Qed.

Lemma check_artifacts_3 a b c :
  Artifact.Validate a = Ok tt → Artifact.Validate b = Ok tt → Artifact.Validate c = Ok tt →
  NoDup [ID a; ID b; ID c] → NoDup [Name a; Name b; Name c] → check_artifacts ∅ ∅ [a; b; c] = Ok tt.
Proof.
  intros Ha Hb Hc. rewrite !NoDup_cons. intros Hi Hn. cbn [check_artifacts].
  rewrite Ha, Hb, Hc. cbn [or_fail mbind result_bind].
  repeat (rewrite bool_decide_false by set_solver; cbn [fail_if mbind result_bind]). done.
Qed.

Lemma ValidateSpec_artifacts spec k i s :
  ValidateSpec spec = Ok tt → Installation.DriverVersion spec = DriverVersion →
  check_artifacts ∅ ∅ [k; i; s] = Ok tt →
  Name k = "linux" → Name i = "initrd.gz" → Name s = "bootnetx64.efi" →
  (∀ a, a ∈ [k; i; s] → HasPrefix (Provenance a) "debian:trixie:" = true ∧ Version a = Version k ∧ Provenance a = Provenance k) →
  validateDebianArtifactSource k kernel_path = Ok tt → validateDebianArtifactSource i initrd_path = Ok tt →
  validateDebianArtifactSource s shim_path = Ok tt →
  ValidateSpec (with_artifacts spec [k; i; s]) = Ok tt.
Proof.
  intros Hv Hd Hc Hk Hi Hs Hall Uk Ui Us.
  assert (∀ n a, a ∈ [k; i; s] → filter (λ x, Name x = n) [k; i; s] = [a] →
    requiredArtifact (with_artifacts spec [k; i; s]) n = Ok a) as Hreq.
  { intros n a Ha Hf. unfold requiredArtifact. cbn [with_artifacts Artifacts]. rewrite Hf.
    destruct (Hall a Ha) as [Hp _]. cbn [last length Nat.eqb negb]. by rewrite Hp. }
  assert (requiredArtifact (with_artifacts spec [k; i; s]) "linux" = Ok k) as Rk.
  { apply Hreq; [set_solver|]. cbn [filter list_filter]. rewrite Hk, Hi, Hs. reflexivity. }
  assert (requiredArtifact (with_artifacts spec [k; i; s]) "initrd.gz" = Ok i) as Ri.
  { apply Hreq; [set_solver|]. cbn [filter list_filter]. rewrite Hk, Hi, Hs. reflexivity. }
  assert (requiredArtifact (with_artifacts spec [k; i; s]) "bootnetx64.efi" = Ok s) as Rs.
  { apply Hreq; [set_solver|]. cbn [filter list_filter]. rewrite Hk, Hi, Hs. reflexivity. }
  destruct (Hall i) as (_ & Vi & Pi); [set_solver|]. destruct (Hall s) as (_ & Vs & Ps); [set_solver|].
  unfold ValidateSpec in *. apply bind_Ok in Hv as ([] & Hsv & Hv). apply or_fail_Ok in Hsv.
  rewrite Spec_Validate_artifacts by (try done; simpl; lia).
  rewrite Rk, Ri. unfold check_shim. rewrite Rs.
  cbn [with_artifacts Installation.DriverID Installation.DriverVersion OSRelease spec_Architecture Profile Artifacts spec_Storage spec_Security].
  rewrite Hd in *. unfold kernel_path, initrd_path, shim_path in *. cbn [or_fail mbind result_bind].
  repeat (apply bind_Ok in Hv as ([] & ? & Hv)).
  rewrite Vi, Vs, Pi, Ps, !String.eqb_refl, Uk, Ui, Us.
  repeat (apply bind_tt; [first [assumption|reflexivity]|]). reflexivity.
Qed.

Lemma pinned_source `{Crypto} w info sums path v :
  pinned_by w info sums path v → all_bytes url_tail path = true → unescape encodePath path = Some path →
  validateDebianArtifactSource (v_Descriptor v) path = Ok tt.
Proof.
  intros (_ & _ & _ & _ & Hver & _ & Hu & _). destruct (v_Descriptor v) as [id name url ver dg sz pr].
  cbn [SourceURL Version] in *. subst. by apply resolved_source.
Qed.

(** ** Properties *)

(** C38. The chain of trust of the installer artifacts: when a resolution
    succeeds, there is a release file gpgv accepted that names the digest and
    the size of one checksum manifest, and the kernel, the initrd and the shim
    are files of that manifest with exactly the digests it lists, served with
    status 200 by the archive's pinned version directory. *)
Theorem Resolve_chain_of_trust `{Crypto} w r :
  Resolve w = Ok r →
  ∃ signed release info manifest sums,
    gpgv w signed = Ok release ∧ parseRelease release = Ok info ∧
    SHA256 manifest = ManifestDigest info ∧ len manifest = ManifestSize info ∧ parseSHA256SUMS manifest = Ok sums ∧
    pinned_by w info sums kernel_path (r_Kernel r) ∧ pinned_by w info sums initrd_path (r_Initrd r) ∧
    pinned_by w info sums shim_path (r_Shim r).
Proof.
  intros (signed & release & info & manifest & sums & ? & ? & ? & ? & ? & _ & (? & _) & (? & _) & (? & _))%Resolve_Ok.
  exists signed, release, info, manifest, sums. by split_and!.
Qed.

(** What is read from a release file is what the file says: a Debian 13
    version, the digest and size the file lists for the current installer
    manifest, and the one version directory whose manifest has them. *)
Theorem parseRelease_sound data info :
  parseRelease data = Ok info →
  HasPrefix (ReleaseVersion info) "13." = true ∧
  InstallerVersion info ≠ "" ∧ InstallerVersion info ≠ "current" ∧ byte_free "/" (InstallerVersion info) = true ∧
  ∃ x y, x ∈ (Scan data).1 ∧ y ∈ (Scan data).1 ∧
    release_entry x (ManifestDigest info) (ManifestSize info) currentPath ∧
    release_entry y (ManifestDigest info) (ManifestSize info) (version_path (InstallerVersion info)).
Proof.
  unfold parseRelease. destruct (Scan data) as [l ok]. pose proof (scanned_lines l) as [Hc Hd].
  set (st := foldl release_line release_init l) in *. clearbody st. intros H0.
  apply bind_Ok in H0 as (? & _ & H0). apply bind_Ok in H0 as (? & Hv & H0). apply bind_Ok in H0 as (? & Hcur & H0).
  apply bind_Ok in H0 as (v & Hs & H0). apply bind_Ok in H0 as (? & Hne & H0). apply Ok_inj in H0 as <-.
  apply fail_if_Ok in Hv, Hcur, Hne. bool_inv. cbn [ReleaseVersion InstallerVersion ManifestDigest ManifestSize fst].
  apply select_version_Ok in Hs as (_ & _ & Hex); [|intros c Hin; by destruct (Hd c Hin)].
  destruct (Hex eq_refl) as (c & Hin & Hdg & Hsz & <-); [done|].
  destruct (Hd c Hin) as (? & ? & ? & y & Hy & He). destruct Hc as (x' & Hx & Hxe); [done|].
  rewrite Hdg, Hsz in He. split_and!; try done. by exists x', y.
Qed.

(** C39. The checksum manifest is read back exactly: the parser returns the map
    of the entries a well-formed manifest was written from. *)
Theorem parseSHA256SUMS_roundtrip l :
  (∀ e, e ∈ l → manifest_entry e) → NoDup l.*2 →
  parseSHA256SUMS (write_lines (sums_line <$> l)) = Ok (list_to_map (checksum_of <$> l)).
Proof.
  intros Hl Hd. unfold parseSHA256SUMS. rewrite Scan_write_lines.
  - rewrite (sums_lines_entries l ∅); [|intros e He; split; [by apply Hl|apply lookup_empty]|done].
    cbn [mbind result_bind negb fail_if]. by rewrite (right_id_L ∅ (∪)).
  - intros x Hx. apply list_elem_of_fmap in Hx as (e & -> & He). by apply sums_line_scan, Hl.
Qed.

(** C40. What the resolver pins is what the driver accepts: replacing the
    artifacts of a specification the driver accepts by a resolution's kernel,
    initrd and shim gives a specification the driver accepts, whatever version
    the archive names. *)
Theorem resolved_artifacts_are_accepted `{Crypto} w r spec :
  Resolve w = Ok r → ValidateSpec spec = Ok tt → Installation.DriverVersion spec = DriverVersion →
  ValidateSpec (with_artifacts spec [v_Descriptor (r_Kernel r); v_Descriptor (r_Initrd r); v_Descriptor (r_Shim r)]) = Ok tt.
Proof.
  intros (signed & release & info & manifest & sums & _ & _ & _ & _ & _ & _ & (Hk & Kn & Ki) & (Hi & In & Ii) & (Hs & Sn & Si))%Resolve_Ok Hv Hd.
  assert (∀ p v, pinned_by w info sums p v → Artifact.Validate (v_Descriptor v) = Ok tt ∧
    HasPrefix (Provenance (v_Descriptor v)) "debian:trixie:" = true ∧ Version (v_Descriptor v) = InstallerVersion info ∧
    Provenance (v_Descriptor v) = provenance_of info) as Hp.
  { intros p v (_ & _ & _ & ? & ? & E & _). split_and!; [done| |done..]. rewrite E. apply (HasPrefix_self "debian:trixie:"). }
  destruct (Hp _ _ Hk) as (? & ? & ? & ?), (Hp _ _ Hi) as (? & ? & ? & ?), (Hp _ _ Hs) as (? & ? & ? & ?).
  apply ValidateSpec_artifacts; try done; try (eapply pinned_source; [eassumption|reflexivity..]).
  - apply check_artifacts_3; try done; rewrite ?Ki, ?Ii, ?Si, ?Kn, ?In, ?Sn; by_decide.
  - intros a Ha. repeat (apply elem_of_cons in Ha as [->|Ha]; [split_and!; congruence|]). by apply elem_of_nil in Ha.
Qed.

(** ** A small archive *)

Definition sample_entries : list (string * string) :=
  [(sample_digest "linux", kernel_path); (sample_digest "initrd", initrd_path); (sample_digest "shim", shim_path)].
Definition sample_manifest : string := write_lines (sums_line <$> sample_entries).
Definition manifest_line (v : string) : string :=
  " " +:+ hex_encode (sample_digest sample_manifest) +:+ " " +:+ FormatInt (len sample_manifest) +:+ " " +:+ version_path v.
Definition sample_release : string :=
  write_lines ["Suite: stable"; "Version: 13.1"; "Codename: trixie"; "SHA256:"; manifest_line "20250803+deb13u1"; manifest_line "current"].

Definition sample_images : string := debianBaseURL +:+ "/dists/trixie/main/installer-amd64/20250803+deb13u1/images".

(** The archive and a gpgv that returns the signed text. *)
Definition sample_world : outside :=
  mkOutside (λ u, Ok (200%Z, Ok (
      if (u =? sample_images +:+ "/SHA256SUMS")%string then sample_manifest
      else if (u =? sample_images +:+ "/" +:+ kernel_path)%string then "linux"
      else if (u =? sample_images +:+ "/" +:+ initrd_path)%string then "initrd"
      else if (u =? sample_images +:+ "/" +:+ shim_path)%string then "shim"
      else sample_release)))
    (λ signed, Ok signed).

Definition no_artifact : Verified := mkVerified (mkDescriptor "" "" "" "" "" 0 "") "".
Definition resolution_of (m : result Resolution) : Resolution :=
  match m with Ok r => r | Err _ => mkResolution "" "" no_artifact no_artifact no_artifact end.
Definition sample_resolution : Resolution := resolution_of (@Resolve sample_crypto sample_world).

Lemma sample_resolves : @Resolve sample_crypto sample_world = Ok sample_resolution.
Proof. vm_compute. reflexivity. Qed.

Lemma Resolve_chain_of_trust_witness :
  ∃ signed info sums, gpgv sample_world signed = Ok signed ∧ parseRelease signed = Ok info ∧
    @pinned_by sample_crypto sample_world info sums kernel_path (r_Kernel sample_resolution) ∧
    v_Content (r_Kernel sample_resolution) = "linux".
Proof.
  pose proof (@Resolve_chain_of_trust sample_crypto _ _ sample_resolves)
    as (signed & release & info & manifest & sums & Hg & Hp & _ & _ & _ & Hk & _).
  apply Ok_inj in Hg as <-. exists signed, info, sums. split; [reflexivity|]. split; [exact Hp|]. split; [exact Hk|].
  vm_compute. reflexivity.
Defined.

Lemma parseRelease_sound_witness :
  ∃ info, parseRelease sample_release = Ok info ∧ byte_free "/" (InstallerVersion info) = true.
Proof.
  assert (parseRelease sample_release = Ok (mkReleaseInfo "13.1" "20250803+deb13u1"
            ("sha256:" +:+ hex_encode (sample_digest sample_manifest)) (len sample_manifest))) as Hs by (vm_compute; reflexivity).
  pose proof (parseRelease_sound _ _ Hs) as (_ & _ & _ & Hf & _).
  exists (mkReleaseInfo "13.1" "20250803+deb13u1"
            ("sha256:" +:+ hex_encode (sample_digest sample_manifest)) (len sample_manifest)).
  split; [exact Hs|exact Hf].
Defined.

Lemma parseSHA256SUMS_roundtrip_witness :
  parseSHA256SUMS sample_manifest = Ok (list_to_map (checksum_of <$> sample_entries)).
Proof.
  refine (parseSHA256SUMS_roundtrip sample_entries _ _); [|by_decide].
  intros e He. repeat (apply elem_of_cons in He as [->|He]; [by (split_and!; try (by vm_compute))|]). by apply elem_of_nil in He.
Defined.

Lemma resolved_artifacts_are_accepted_witness :
  Version (v_Descriptor (r_Shim sample_resolution)) = "20250803+deb13u1" ∧
  ValidateSpec (with_artifacts (debian_spec "Operator")
    [v_Descriptor (r_Kernel sample_resolution); v_Descriptor (r_Initrd sample_resolution);
     v_Descriptor (r_Shim sample_resolution)]) = Ok tt.
Proof.
  split; [vm_compute; reflexivity|].
  assert (ValidateSpec (debian_spec "Operator") = Ok tt) as Hv by (vm_compute; reflexivity).
  exact (@resolved_artifacts_are_accepted sample_crypto _ _ _ sample_resolves Hv eq_refl).
Defined.
