(* ===== verification/SampleServer.v ===== *)
(** * A concrete run of the boot server

    The sample store of Sample.v with a Debian 13 installation armed, and a
    schedule in which two requests for its preseed overlap; the theorems about
    the server are evaluated on it. *)

From stdpp Require Import relations.
From S2P Require Import Prelude GoStrings Encoding StringFacts Fault Op Db Store Http HttpDiscovery HttpProvisioning HttpTelemetry.
From S2P Require Artifact Machine Secureboot Installation Assignment Lifecycle Debian13Theorems.
From S2P Require Import StoreInstallations Reachable System Handoff Sample.

(** Decoders that accept nothing but the sample event. *)
#[global] Instance sample_decoders : Decoders := {|
  decode_observation := λ _, Err (Plain "json");
  decode_event := λ s, if (s =? "{event}")%string
    then Ok (mkEventRequest Lifecycle.StageInstallerStarted Lifecycle.SourceInstaller "" "started" "" ∅) else Err (Plain "json");
  decode_log := λ _, Err (Plain "json");
  decode_enroll := λ _, Err (Plain "json");
  decode_challenge := λ _, Err (Plain "json");
  decode_prove := λ _, Err (Plain "json");
  time_Parse := λ _, Err (Plain "time") |}.

Definition sample_server : Server := NewWithConfig "1.0.0" Secureboot.PolicyRequired true.

Definition sample_debian_spec : Installation.Spec :=
  let s := Debian13Theorems.debian_spec "Operator" in
  Installation.mkSpec "" sample_machine_id (Installation.DriverID s) (Installation.DriverVersion s) (Installation.OSRelease s)
    (Installation.spec_Architecture s) (Installation.ProfileID s) (Installation.ProfileRevision s) (Installation.Profile s)
    (Installation.Artifacts s) (Installation.spec_Storage s) (Installation.spec_Security s) "lc_1" zeroTime "ops".

Definition db_debian : DB := after db_provision 1002%Z (CreateInstallationSpec_ sample_debian_spec "req-3").
Definition db_debian_armed : DB := after db_debian 1003%Z (ArmInstallation_ sample_machine_id sample_iid "req-4" "ops").

Lemma reach_debian_armed : reachable db_debian_armed.
Proof. do 2 (apply after_reachable; [lia|]). apply reach_provision. Qed.

(** A request for the sample installation. *)
Definition sample_request (path : string) (headers : list (string * string)) (content : string) : Request :=
  mkRequest "GET" path sample_iid "" "10.0.0.1:8090" "10.0.0.7:4711" headers [] (Ok []) (Ok content).

Definition preseed_request : Request :=
  sample_request ("/boot/installations/" +:+ sample_iid +:+ "/preseed.cfg") [("X-Request-Id", "req-20")] "".

Definition no_fetch : string → result (Z * result string) := λ _, Err (Plain "fetch").

Definition sample_env (n : nat) : ambient := at_time (2000 + Z.of_nat n)%Z "a".

Lemma sample_env_sane n : sane (sample_env n).
Proof. apply at_time_sane. lia. Qed.

(** Two requests for the preseed, one call after the other; the second is too
    late. *)
Definition race : list action :=
  let run_ n t := Runs n (at_time t "a") in
  [Arrives 0 no_fetch Preseed preseed_request; Arrives 1 no_fetch Preseed preseed_request;
   run_ 0 2000%Z; run_ 1 2001%Z; run_ 0 2002%Z; run_ 1 2003%Z; run_ 0 2004%Z; run_ 1 2005%Z; run_ 0 2006%Z; run_ 1 2007%Z;
   Answers 0; Answers 1].

(** The installation exists. *)
Definition exists_in (iid : string) (s : system) : bool := bool_decide (is_Some (specs (sys_db s) !! iid)).

Definition race_from (l : list action) : system :=
  default (booted db_debian_armed) (acts sample_server (exists_in sample_iid) (booted db_debian_armed) l).

Lemma race_ok : Forall action_ok race.
Proof. repeat constructor; (lia || (intros k n s [= <-]; apply filled_length)). Qed.

(** Prefixes of the race are runs of the server. *)
Definition race_runs (n : nat) : bool :=
  match acts sample_server (exists_in sample_iid) (booted db_debian_armed) (take n race) with Some _ => true | None => false end.

Lemma race_steps n : race_runs n = true →
  rtc (alive_sys sample_server sample_iid) (booted db_debian_armed) (race_from (take n race)).
Proof.
  unfold race_runs, race_from. destruct (acts _ _ _ _) as [s|] eqn:Hs; [intros _|done]. cbn [default from_option id].
  apply acts_steps in Hs; [|apply Forall_take, race_ok]. eapply rtc_subrel; [|exact Hs].
  intros s1 s2 [Hst Hex]. split; [exact Hst|]. by apply bool_decide_eq_true in Hex.
Qed.

Lemma race_reachable n : race_runs n = true →
  sys_reachable sample_server (race_from (take n race)).
Proof.
  intros Hs%race_steps. exists db_debian_armed. split; [apply reach_debian_armed|].
  eapply rtc_subrel; [|exact Hs]. by intros s1 s2 [Hst _].
Qed.

Example race_statuses : (λ o, p_Status (a_response o)) <$> sys_answers (race_from race) = [StatusOK; StatusConflict].
Proof. vm_compute. reflexivity. Qed.
