(* ===== verification/StudioLogic.v ===== *)
(** * What a request to the operator interface may do

    [permitted] says for every call what the request and the calls it made
    before must show; [proves] is the program logic in which every handler is
    checked against it, whatever the calls answer. *)

From S2P Require Import Prelude GoStrings StringFacts Fault Op Db Store Http Sessions Passkeys LogBuffer TrustedProxy Console StudioAuth StudioPages Studio.
From S2P Require Artifact Identity Machine Installation DebianRelease System.
From S2P Require Import StoreUsers.

Section Logic.
Context `{Artifact.Crypto} `{WebAuthn}.
Variable proxy : TrustedProxy.

(** ** What the request shows *)

(** The transport of the wire request, and the user its proxy vouches for. *)
Definition transport_secure (r : UIRequest) : bool := SecureSource proxy r || secureTransport r.
Definition outer_identity (r : UIRequest) : option string := Identity_ proxy r.

(** The call was made and answered [x]. *)
Definition did {B} (c : call B) (x : B) (K : list happening) : Prop :=
  ∃ a w, happen c a w ∈ K ∧ (perform c a w).1 = x.

(** The request carries the cookie of a session whose user is still what the
    session says. *)
Record live (r : UIRequest) (K : list happening) (s : Session) (cookie : string) : Prop := {
  lv_secure : transport_secure r = true;
  lv_cookie : session_cookie r = Some cookie;
  lv_found : did (LookupSession cookie) (Some s) K;
  lv_user : ∃ u, did (Query (OperatorUser (UserID s))) (Ok u) K ∧ Identity.u_Status u = Identity.StatusActive ∧
                 Identity.u_Role u = s_Role s ∧ Actor s = "user:" +:+ Identity.Subject u }.

(** The operator of a live session asks for a change, with the session's CSRF
    token and, where it is needed, as an administrator. *)
Definition operator_acts (admin : bool) (r : UIRequest) (K : list happening) (actor : string) : Prop :=
  ∃ s cookie form, live r K s cookie ∧ (admin = true → IsAdmin s = true) ∧
    PostForm r = Ok form ∧ ValidateCSRF s (Get form "csrf") = true ∧ actor = Actor s.

(** The proxy vouches for the user. *)
Definition identified (r : UIRequest) (K : list happening) (u : Identity.User) : Prop :=
  ∃ subject rid created, outer_identity r = Some subject ∧
    did (Mutate (ResolveUser trustedProxyProvider subject subject "" rid)) (Ok (u, created)) K.

(** The user was read with the credentials. *)
Definition loaded (K : list happening) (userID : string) (u : webauthn_user) : Prop :=
  ∃ rp, did (Query (OperatorUserForWebAuthn userID rp)) (Ok u) K.

Definition vouched (r : UIRequest) (K : list happening) (status : Identity.Status) (u : webauthn_user) : Prop :=
  ∃ u0, identified r K u0 ∧ Identity.u_Status u0 = status ∧ loaded K (Identity.ID u0) u.

Definition recoverable (r : UIRequest) (K : list happening) (u : webauthn_user) : Prop :=
  outer_identity r = None ∧ ∃ subject u0,
    did (Query (OperatorUserByExternalIdentity trustedProxyProvider subject)) (Ok u0) K ∧
    Identity.u_Status u0 = Identity.StatusActive ∧ loaded K (Identity.ID u0) u.

(** A ceremony with the user's passkey succeeded. *)
Definition passkey_login (mode : Mode) (K : list happening) (u : webauthn_user) (c : WebAuthnCredential) : Prop :=
  ∃ s token q, did (EndLogin s u token mode q) (Ok c) K.
Definition passkey_enrolled (K : list happening) (u : webauthn_user) (c : WebAuthnCredential) : Prop :=
  ∃ s token q, did (EndRegistration s u token q) (Ok c) K.

(** The recovery key was presented over a secure transport. *)
Definition key_presented (r : UIRequest) (K : list happening) : Prop :=
  transport_secure r = true ∧ ∃ key, did (CheckRecoveryKey (ui_remoteHost r) key) Verified K.

(** ** Permissions *)

Definition may_change (r : UIRequest) (K : list happening) {B} (m : mutation B) : Prop :=
  match m with
  | SetNickname _ _ _ actor | SetPolicy _ _ _ actor | Arm _ _ _ actor | Cancel _ _ actor => operator_acts false r K actor
  | CreateSpec spec _ => operator_acts false r K (Installation.CreatedBy spec) ∧ Debian13.ValidateSpec spec = Ok tt
  | DeleteInst _ _ actor | DeleteMach _ _ actor | ApproveKey _ _ _ actor | RevokeKey _ _ _ actor
  | ApproveUser _ _ _ actor | BlockUser _ _ actor => operator_acts true r K actor
  | ResolveUser provider subject displayName email _ =>
    outer_identity r = Some subject ∧ provider = trustedProxyProvider ∧ displayName = subject ∧ email = ""
  | ClaimAdmin userID _ actor =>
    ∃ u, identified r K u ∧ Identity.u_Status u = Identity.StatusPendingReview ∧ userID = Identity.ID u ∧
         actor = "bootstrap:" +:+ Identity.Subject u ∧ key_presented r K
  | SaveCredential userID _ c _ actor true =>
    ∃ u, vouched r K Identity.StatusEnrollmentRequired u ∧ passkey_enrolled K u c ∧ userID = Identity.ID u.1 ∧
         actor = "user:" +:+ Identity.Subject u.1
  | SaveCredential userID _ c _ actor false =>
    ∃ u, userID = Identity.ID u.1 ∧
      (vouched r K Identity.StatusActive u ∧ passkey_login ModeLogin K u c ∧ actor = "user:" +:+ Identity.Subject u.1 ∨
       recoverable r K u ∧ passkey_login ModeRecovery K u c ∧ actor = "recovery:" +:+ Identity.Subject u.1)
  end.

(** The three ways into a session. *)
Inductive may_enter (r : UIRequest) (K : list happening) (u : Identity.User) : string → Prop :=
| by_passkey l c : vouched r K Identity.StatusActive (u, l) → passkey_login ModeLogin K (u, l) c → may_enter r K u "zoraxy+passkey"
| by_enrollment u1 c rp rid actor :
    vouched r K Identity.StatusEnrollmentRequired u1 → passkey_enrolled K u1 c →
    did (Mutate (SaveCredential (Identity.ID u1.1) rp c rid actor true)) (Ok tt) K →
    did (Query (OperatorUser (Identity.ID u1.1))) (Ok u) K → may_enter r K u "zoraxy+passkey"
| by_recovery subject ticket :
    outer_identity r = None →
    did (Query (OperatorUserByExternalIdentity trustedProxyProvider subject)) (Ok u) K →
    Identity.u_Status u = Identity.StatusActive → key_presented r K →
    did (ConsumeTicket ticket (Identity.ID u)) true K → may_enter r K u "recovery+passkey+key".

Definition permitted (r : UIRequest) (K : list happening) {B} (c : call B) : Prop :=
  match c with
  | Query m => keeps m
  | Mutate m => may_change r K m
  | IssueSession u method => may_enter r K u method
  | IssueTicket userID => ∃ u c, recoverable r K u ∧ passkey_login ModeRecovery K u c ∧ userID = Identity.ID u.1
  | _ => True
  end.

(** ** The logic *)

Section Rules.
Variable r : UIRequest.

Fixpoint proves {A} (Q : list happening → A → Prop) (K : list happening) (h : prog A) {struct h} : Prop :=
  match h with
  | Return x => Q K x
  | Do c k => permitted r K c ∧ ∀ a w, proves Q (K ++ [happen c a w]) (k (perform c a w).1)
  end.

Definition extends (K K' : list happening) : Prop := K ⊆ K'.

#[local] Instance extends_po : PreOrder extends.
Proof. unfold extends. apply _. Qed.

Lemma extends_app K l : extends K (K ++ l).
Proof. intros x Hx. apply elem_of_app. by left. Qed.

Lemma did_extends {B} (c : call B) x K K' : extends K K' → did c x K → did c x K'.
Proof. intros HK (a & w & Hin & Hx). exists a, w. split; [by apply HK|done]. Qed.

Lemma proves_bind {A B} (P : list happening → A → Prop) (Q : list happening → B → Prop) (h : prog A) (f : A → prog B) : ∀ K,
  proves P K h → (∀ K' x, extends K K' → P K' x → proves Q K' (f x)) → proves Q K (h ≫= f).
Proof.
  induction h as [x|C c k IH]; intros K Hh Hf; [by apply Hf|].
  destruct Hh as [Hp Hk]. split; [done|]. intros a w. apply IH; [apply Hk|].
  intros K' x HK. apply Hf. etrans; [apply extends_app|exact HK].
Qed.

Lemma proves_mono {A} (P Q : list happening → A → Prop) (h : prog A) : ∀ K,
  proves P K h → (∀ K' x, extends K K' → P K' x → Q K' x) → proves Q K h.
Proof.
  induction h as [x|C c k IH]; intros K Hh Hf; [by apply Hf|].
  destruct Hh as [Hp Hk]. split; [done|]. intros a w. apply (IH _ _ (Hk a w)).
  intros K' x HK. apply Hf. etrans; [apply extends_app|exact HK].
Qed.

Lemma proves_do {B C} (Q : list happening → C → Prop) (c : call B) (f : B → prog C) K :
  permitted r K c → (∀ K' x, extends K K' → did c x K' → proves Q K' (f x)) → proves Q K (do c ≫= f).
Proof.
  intros Hp Hf. split; [done|]. intros a w. apply Hf; [apply extends_app|].
  exists a, w. split; [|done]. apply elem_of_app. right. by left.
Qed.

Lemma proves_or_answer {A B} (P : list happening → A → Prop) (Q : list happening → B → Prop) (h : prog (A + B)) (f : A → prog B) K :
  proves (λ K' o, match o with inl x => P K' x | inr y => Q K' y end) K h →
  (∀ K' x, extends K K' → P K' x → proves Q K' (f x)) → proves Q K (or_answer h f).
Proof. intros Hh Hf. eapply proves_bind; [exact Hh|]. intros K' [x|y] HK Hx; [by apply Hf|done]. Qed.
End Rules.
End Logic.

#[export] Existing Instance extends_po.
