(* ===== verification/StudioRules.v ===== *)
(** * Every handler of the operator interface keeps to its permissions *)

From S2P Require Import Prelude GoStrings StringFacts Fault Op Db Store Http Sessions Passkeys LogBuffer TrustedProxy Console StudioAuth StudioPages Studio StudioLogic.
From S2P Require Artifact Identity Machine Installation DebianRelease System.
From S2P Require Import StoreMachines StoreInstallations StoreTrust StoreUsers.

(** The reads of the interface commit nothing. *)
Lemma keeps_queries_of_interface :
  (∀ id, keeps (OperatorUser id)) ∧ (∀ id rp, keeps (OperatorUserForWebAuthn id rp)) ∧
  (∀ p s, keeps (OperatorUserByExternalIdentity p s)) ∧ keeps HasOperatorAdmin ∧ keeps OperatorUsers ∧
  keeps Machines ∧ (∀ id, keeps (Store_Machine id)) ∧ (∀ id, keeps (MachineIdentifiers id)) ∧
  (∀ t id, keeps (Events t id)) ∧ (∀ t id n, keeps (RecentEvents t id n)) ∧
  keeps InstallationSpecs ∧ (∀ id, keeps (InstallationSpec id)) ∧ (∀ id, keeps (AssignmentForInstallation id)) ∧
  (∀ id, keeps (BootTrustKeys id)) ∧ (∀ p, keeps (idgen_New p)).
Proof.
  split_and!; intros; first [apply keeps_user_queries | apply keeps_machine_queries | apply keeps_specsByQuery
    | apply keeps_AssignmentForInstallation | apply keeps_idgen | solve [auto with aegis] | unfold BootTrustKeys; solve_keeps].
Qed.

Create HintDb studio.

Section Rules.
Context `{Artifact.Crypto} `{WebAuthn}.
Variable h : DashboardHandler.
Variable proxy : TrustedProxy.

(** What a handler sees of the wire request [r]. *)
Record sees (r r' : UIRequest) : Prop := {
  se_secure : secureTransport r' = true → transport_secure proxy r = true;
  se_cookie : session_cookie r' = session_cookie r;
  se_form : PostForm r' = PostForm r;
  se_identity : externalIdentityFromRequest r' = mkExternal trustedProxyProvider <$> outer_identity proxy r;
  se_remote : ui_remoteHost r' = ui_remoteHost r }.

Abbreviation proves := (proves proxy).

Variables r r' : UIRequest.
Hypothesis Hsees : sees r r'.

(** ** Facts persist *)

Section Extends.
Context {K K' : list happening} (HK : extends K K').

Lemma live_extends s cookie : live proxy r K s cookie → live proxy r K' s cookie.
Proof.
  intros [? ? Hf (u & Hu & Hr)]. split; [done|done|by eapply did_extends|].
  exists u. split; [by eapply did_extends|done].
Qed.
Lemma operator_acts_extends admin actor : operator_acts proxy admin r K actor → operator_acts proxy admin r K' actor.
Proof. intros (s & cookie & form & Hl & Hr). exists s, cookie, form. split; [by apply live_extends|done]. Qed.
Lemma identified_extends u : identified proxy r K u → identified proxy r K' u.
Proof. intros (subject & rid & created & Hs & Hd). exists subject, rid, created. split; [done|by eapply did_extends]. Qed.
Lemma loaded_extends id u : loaded K id u → loaded K' id u.
Proof. intros [rp Hd]. exists rp. by eapply did_extends. Qed.
Lemma vouched_extends status u : vouched proxy r K status u → vouched proxy r K' status u.
Proof. intros (u0 & Hi & Hs & Hl). exists u0. split_and!; [by apply identified_extends|done|by apply loaded_extends]. Qed.
Lemma recoverable_extends u : recoverable proxy r K u → recoverable proxy r K' u.
Proof.
  intros (Ho & subject & u0 & Hd & Hs & Hl). split; [done|]. exists subject, u0.
  split_and!; [by eapply did_extends|done|by apply loaded_extends].
Qed.
Lemma passkey_login_extends mode u c : passkey_login mode K u c → passkey_login mode K' u c.
Proof. intros (s & token & q & Hd). exists s, token, q. by eapply did_extends. Qed.
Lemma passkey_enrolled_extends u c : passkey_enrolled K u c → passkey_enrolled K' u c.
Proof. intros (s & token & q & Hd). exists s, token, q. by eapply did_extends. Qed.
Lemma key_presented_extends : key_presented proxy r K → key_presented proxy r K'.
Proof. intros [Ht [key Hd]]. split; [done|]. exists key. by eapply did_extends. Qed.
End Extends.

Ltac lift HE :=
  lazymatch type of HE with extends ?K ?K' =>
    repeat match goal with
    | Hd : StudioLogic.did _ _ K |- _ => apply (did_extends _ _ _ _ HE) in Hd
    | Hd : live _ _ K _ _ |- _ => apply (live_extends HE) in Hd
    | Hd : operator_acts _ _ _ K _ |- _ => apply (operator_acts_extends HE) in Hd
    | Hd : identified _ _ K _ |- _ => apply (identified_extends HE) in Hd
    | Hd : loaded K _ _ |- _ => apply (loaded_extends HE) in Hd
    | Hd : vouched _ _ K _ _ |- _ => apply (vouched_extends HE) in Hd
    | Hd : recoverable _ _ K _ |- _ => apply (recoverable_extends HE) in Hd
    | Hd : passkey_login _ K _ _ |- _ => apply (passkey_login_extends HE) in Hd
    | Hd : passkey_enrolled K _ _ |- _ => apply (passkey_enrolled_extends HE) in Hd
    | Hd : key_presented _ _ K |- _ => apply (key_presented_extends HE) in Hd
    end; clear HE
  end.

(** One call: its permission is left when it is not evident. *)
Ltac call :=
  apply proves_do;
  [ try first [exact I | solve [apply keeps_queries_of_interface]]
  | let K' := fresh "K" in let x := fresh "x" in let HE := fresh "HE" in let Hd := fresh "Hd" in
    intros K' x HE Hd; lift HE ].

Ltac head_of p := lazymatch p with ?f _ => head_of f | ?f => f end.

(** Goes through a handler: calls, case distinctions, answers. *)
Ltac walk_step :=
  cbv beta iota zeta;
  lazymatch goal with
  | |- StudioLogic.proves _ _ _ _ (mret _) => try (by intros)
  | |- StudioLogic.proves _ _ _ _ (do _ ≫= _) => call
  | |- StudioLogic.proves _ _ _ _ (Return _) => try (by intros)
  | |- StudioLogic.proves _ _ _ _ (Do _ _ ≫= _) => call
  | |- StudioLogic.proves _ _ _ _ (or_dashboard_error _ _) => unfold or_dashboard_error
  | |- StudioLogic.proves _ _ _ _ (_ ≫= _) =>
    eapply proves_bind; [solve [auto with studio]|let K' := fresh "K" in let HE := fresh "HE" in intros K' ? HE ?; lift HE]
  | |- StudioLogic.proves _ _ _ _ (if ?b then _ else _) => destruct b eqn:?
  | |- StudioLogic.proves _ _ _ _ (match ?x with _ => _ end) => destruct x eqn:?
  end.
Ltac walk := repeat walk_step.

(** ** Sessions *)

Lemma dashboardSession_rule K :
  proves r (λ K' found, ∀ s cookie, found = Some (s, cookie) → live proxy r K' s cookie) K (dashboardSession r').
Proof.
  unfold dashboardSession. destruct (secureTransport r') eqn:Hs; [|done]. apply (se_secure _ _ Hsees) in Hs. cbn [negb].
  rewrite (se_cookie _ _ Hsees). destruct (session_cookie r) as [cookie|] eqn:Hc; [|done].
  call. destruct x as [s|]; [|done]. destruct (blank (UserID s)); [done|].
  call. destruct x as [u|]; [|by walk].
  destruct (_ || _) eqn:E; [by walk|]. bool_inv. intros s0 cookie0 [= <- <-]. split; [done|done|done|].
  exists u. split_and!; try done; by apply String.eqb_eq.
Qed.

Lemma requireDashboardPage_rule K :
  proves r (λ K' o, match o with inl s => ∃ cookie, live proxy r K' s cookie | inr _ => True end) K (requireDashboardPage r').
Proof.
  unfold requireDashboardPage. eapply proves_bind; [apply dashboardSession_rule|]. intros K' [[s cookie]|] _ Hf; [|done].
  exists cookie. by apply Hf.
Qed.

Lemma requireDashboardPageJSON_rule K :
  proves r (λ K' o, match o with inl s => ∃ cookie, live proxy r K' s cookie | inr _ => True end) K (requireDashboardPageJSON r').
Proof.
  unfold requireDashboardPageJSON. eapply proves_bind; [apply dashboardSession_rule|]. intros K' [[s cookie]|] _ Hf; [|done].
  exists cookie. by apply Hf.
Qed.

Lemma requireDashboardAction_rule admin K :
  proves r (λ K' o, match o with inl s => operator_acts proxy admin r K' (Actor s) | inr _ => True end) K
    (requireDashboardAction r' admin).
Proof.
  unfold requireDashboardAction. destruct (negb (secureTransport r')); [done|].
  eapply proves_bind; [apply dashboardSession_rule|]. intros K' [[s cookie]|] _ Hf; [|done].
  cbn. rewrite (se_form _ _ Hsees). destruct (admin && negb (IsAdmin s)) eqn:Ha; [done|].
  destruct (PostForm r) as [form|] eqn:Hform; [|done]. destruct (ValidateCSRF s (Get form "csrf")) eqn:Hv; [|done].
  exists s, cookie, form. split_and!; try done; [by apply Hf|]. intros ->. by destruct (IsAdmin s).
Qed.

(** ** Pages and actions *)

Abbreviation safe K h := (proves r (λ _ _, True) K h).

Lemma assignment_of_rule K id : safe K (stored_assignment id).
Proof. unfold stored_assignment. walk. Qed.
#[local] Hint Resolve assignment_of_rule : studio.

Lemma load_rows_rule specs : ∀ K, safe K (load_rows specs).
Proof. induction specs as [|spec specs IH]; intros K; cbn [load_rows]; walk. Qed.
#[local] Hint Resolve load_rows_rule : studio.

Lemma loadInstallationRows_rule K : safe K loadInstallationRows.
Proof. unfold loadInstallationRows. walk. auto with studio. Qed.
#[local] Hint Resolve loadInstallationRows_rule : studio.

Lemma events_of_rule l : ∀ K, safe K (events_of l).
Proof. induction l as [|[t id] l IH]; intros K; cbn [events_of]; walk. Qed.
#[local] Hint Resolve events_of_rule : studio.

Lemma collectRecentEvents_rule K machines rows n : safe K (collectRecentEvents machines rows n).
Proof. unfold collectRecentEvents. walk. Qed.
#[local] Hint Resolve collectRecentEvents_rule : studio.

Lemma overview_rule K s : safe K (renderDashboardOverview s).
Proof. unfold renderDashboardOverview. walk. Qed.

Lemma provisionMachines_rule K : safe K provisionMachines.
Proof. unfold provisionMachines. walk. Qed.
#[local] Hint Resolve provisionMachines_rule : studio.

Lemma wizard_error_rule K s v m : safe K (renderDashboardWizardError s v m).
Proof. unfold renderDashboardWizardError. walk. Qed.

(** A page asks for a session. *)
Lemma page_rule K k : (∀ K' s cookie, live proxy r K' s cookie → safe K' (k s)) → safe K (or_answer (requireDashboardPage r') k).
Proof.
  intros Hk. eapply (proves_or_answer _ _ (λ K' s, ∃ cookie, live proxy r K' s cookie)); [apply requireDashboardPage_rule|].
  intros K' s _ [cookie Hl]. by eapply Hk.
Qed.
Lemma feed_rule K k : (∀ K' s cookie, live proxy r K' s cookie → safe K' (k s)) → safe K (or_answer (requireDashboardPageJSON r') k).
Proof.
  intros Hk. eapply (proves_or_answer _ _ (λ K' s, ∃ cookie, live proxy r K' s cookie)); [apply requireDashboardPageJSON_rule|].
  intros K' s _ [cookie Hl]. by eapply Hk.
Qed.

(** An action asks for an operator. *)
Lemma action_rule K admin k :
  (∀ K' s, operator_acts proxy admin r K' (Actor s) → safe K' (k s)) → safe K (or_answer (requireDashboardAction r' admin) k).
Proof.
  intros Hk. eapply (proves_or_answer _ _ (λ K' s, operator_acts proxy admin r K' (Actor s))); [apply requireDashboardAction_rule|].
  intros K' s _ Ho. by apply Hk.
Qed.

Ltac action := apply action_rule; intros K' s Hacts; walk; try exact Hacts; auto with studio.

Lemma pages_rule w x K :
  x ∈ [MachinesList; MachineDetail; MachineManage; MachineMetadata; InstallationsList; InstallationWizard; InstallationDetail;
       InstallationManage; TrustKeys; UsersList; LogsPage; LogFeed; LogTail; LogExport; Style; ScriptAsset; OldOperator; OldLogin; OldWizard] →
  safe K (studio_handler h w x r').
Proof.
  intros Hx. repeat (apply elem_of_cons in Hx as [->|Hx]; [cbn [studio_handler]|]); [..|by apply elem_of_nil in Hx].
  all: match goal with |- StudioLogic.proves _ _ _ _ ?p => let f := head_of p in try unfold f end.
  all: first [apply page_rule | apply feed_rule | idtac]; intros; walk; (exact I || auto with studio).
Qed.

Lemma actions_rule w x K :
  x ∈ [MachinePolicy; MachineNickname; MachineDelete; InstallationArm; InstallationCancel; InstallationDelete;
       TrustApprove; TrustRevoke; UserApprove; UserBlock] →
  safe K (studio_handler h w x r').
Proof.
  intros Hx. repeat (apply elem_of_cons in Hx as [->|Hx]; [cbn [studio_handler]|]); [..|by apply elem_of_nil in Hx].
  all: match goal with |- StudioLogic.proves _ _ _ _ ?p => let f := head_of p in unfold f end.
  all: action; unfold change_trust_key; walk; exact Hacts.
Qed.

#[local] Hint Resolve wizard_error_rule overview_rule : studio.

Lemma create_rule w K : safe K (dashboardCreateInstallation w r').
Proof.
  unfold dashboardCreateInstallation. apply action_rule. intros K' s Hacts. walk; auto with studio.
  split; [exact Hacts|]. match goal with Hv : Debian13.ValidateSpec _ = Ok ?u |- _ => by destruct u end.
Qed.

(** ** Authentication *)

Lemma identity_seen i : externalIdentityFromRequest r' = Some i →
  outer_identity proxy r = Some (e_Subject i) ∧ e_Provider i = trustedProxyProvider.
Proof. rewrite (se_identity _ _ Hsees). by intros (subject & Ho & ->)%fmap_Some. Qed.

Lemma no_identity_seen : externalIdentityFromRequest r' = None → outer_identity proxy r = None.
Proof. rewrite (se_identity _ _ Hsees). apply fmap_None. Qed.

Lemma resolve_identity_rule i K : externalIdentityFromRequest r' = Some i →
  proves r (λ K' o, ∀ u created, o = Ok (u, created) → identified proxy r K' u) K (resolve_identity r' i).
Proof.
  intros [Ho Hp]%identity_seen. unfold resolve_identity. rewrite Hp. split; [by split_and!|]. intros a w u created Hr.
  exists (e_Subject i), (requestID r'), created. split; [done|]. exists a, w. split; [|done].
  apply elem_of_app. right. left.
Qed.

Lemma entry_rule K : safe K (dashboardEntry h renderDashboardOverview r').
Proof.
  unfold dashboardEntry. eapply proves_bind; [apply dashboardSession_rule|]. intros K' found _ _.
  destruct found as [[s cookie]|]; [apply overview_rule|].
  destruct (externalIdentityFromRequest r') as [i|] eqn:Hi; [|done].
  eapply proves_bind; [by apply resolve_identity_rule|]. intros K2 o _ _. walk.
Qed.

Lemma bootstrap_rule K : safe K (bootstrapInitialAdmin r').
Proof.
  unfold bootstrapInitialAdmin. destruct (externalIdentityFromRequest r') as [i|] eqn:Hi; [|done].
  destruct (secureTransport r') eqn:Hs; [|done]. apply (se_secure _ _ Hsees) in Hs. cbn [negb].
  rewrite (se_form _ _ Hsees). destruct (PostForm r) as [form|] eqn:Hform; [|done].
  eapply proves_bind; [by apply resolve_identity_rule|]. intros K2 [[u created]|e] _ Hu; [|done].
  specialize (Hu u created eq_refl). destruct (negb _) eqn:Hp; [done|]. bool_inv.
  call. destruct x; [done|done|]. rewrite (se_remote _ _ Hsees) in *. call; [|by walk].
  exists u. split_and!; try done. split; [done|by eexists].
Qed.

Lemma webauthn_user_rule required K :
  proves r (λ K' o, match o with inl (service, u) => vouched proxy r K' required u | inr _ => True end) K
    (externalWebAuthnUser h r' required).
Proof.
  unfold externalWebAuthnUser. destruct (externalIdentityFromRequest r') as [i|] eqn:Hi; [|done].
  destruct (passkeys h) as [service|]; [|done].
  eapply proves_bind; [by apply resolve_identity_rule|]. intros K2 [[u created]|e] _ Hu; [|done].
  specialize (Hu u created eq_refl). destruct (negb _) eqn:Hp; [done|]. bool_inv.
  call. destruct x as [[u1 l]|]; [|done]. cbn. destruct (_ && _); [done|]. exists u. split_and!; [done|done|by eexists].
Qed.

(** The rest of a handler that begins with such a user. *)
Lemma with_webauthn_user_rule required K k :
  (∀ K' service u, vouched proxy r K' required u → safe K' (k (service, u))) →
  safe K (or_answer (externalWebAuthnUser h r' required) k).
Proof.
  intros Hk. eapply (proves_or_answer _ _ (λ K' x, vouched proxy r K' required x.2)).
  - eapply proves_mono; [apply webauthn_user_rule|]. by intros K' [[service u]|y] _ Hx.
  - intros K' [service u] _ Hv. by apply Hk.
Qed.

Lemma issue_rule K u method failure success : may_enter proxy r K u method → safe K (issue_session r' u method failure success).
Proof. intros He. unfold issue_session. apply proves_do; [exact He|]. intros K' x _ _. by destruct x as [[token s]|]. Qed.

Lemma recovery_user_rule subject K : outer_identity proxy r = None →
  proves r (λ K' o, ∀ u, o = Some u →
    did (Query (OperatorUserByExternalIdentity trustedProxyProvider subject)) (Ok u) K' ∧
    Identity.u_Status u = Identity.StatusActive) K (recovery_user subject).
Proof.
  intros Ho. unfold recovery_user. call. destruct x as [u|]; [|done]. cbn. destruct (_ =? _)%string eqn:Hs; [|done].
  intros u' [= <-]. split; [done|by apply String.eqb_eq].
Qed.

Lemma login_start_rule K : safe K (beginExternalPasskeyLogin h r').
Proof. apply with_webauthn_user_rule. intros K' service u _. walk. Qed.

Lemma enroll_start_rule K : safe K (beginPasskeyEnrollment h r').
Proof. apply with_webauthn_user_rule. intros K' service u _. walk. Qed.

Lemma login_finish_rule K : safe K (finishExternalPasskeyLogin h r').
Proof.
  apply with_webauthn_user_rule. intros K' service [u l] Hv. call. destruct x as [c|]; [|done].
  assert (passkey_login ModeLogin K0 (u, l) c) as Hl by (by exists service, (ceremony_token r'), (http r')).
  call; [exists (u, l); by eauto|]. destruct x as [[]|]; [|done]. apply issue_rule. by eapply by_passkey.
Qed.

Lemma enroll_finish_rule K : safe K (finishPasskeyEnrollment h r').
Proof.
  apply with_webauthn_user_rule. intros K' service u Hv. call. destruct x as [c|]; [|done].
  assert (passkey_enrolled K0 u c) as Hl by (by exists service, (ceremony_token r'), (http r')).
  call; [exists u; by eauto|]. destruct x as [[]|]; [|done]. call. destruct x as [active|]; [|done].
  apply issue_rule. by eapply by_enrollment.
Qed.

Lemma recovery_start_rule K : safe K (beginRecoveryPasskey h r').
Proof.
  unfold beginRecoveryPasskey. destruct (externalIdentityFromRequest r') eqn:Hi; [done|]. apply no_identity_seen in Hi.
  destruct (passkeys h) as [service|]; [|done]. destruct (PostForm r') as [form|]; [|done].
  eapply proves_bind; [by apply recovery_user_rule|]. intros K2 o _ _. walk.
Qed.

Lemma recovery_passkey_rule K : safe K (finishRecoveryPasskey h r').
Proof.
  unfold finishRecoveryPasskey. destruct (externalIdentityFromRequest r') eqn:Hi; [done|]. apply no_identity_seen in Hi.
  destruct (passkeys h) as [service|]; [|done].
  eapply proves_bind; [by apply recovery_user_rule|]. intros K2 [u0|] _ Hu; [|done]. destruct (Hu u0 eq_refl) as [Hd0 Hs].
  clear Hu. call. destruct x as [u|]; [|done].
  assert (recoverable proxy r K0 u) as Hv by (split; [done|]; eexists _, u0; split_and!; [done|done|by eexists]).
  call. destruct x as [c|]; [|done].
  assert (passkey_login ModeRecovery K1 u c) as Hl by (by exists service, (ceremony_token r'), (http r')).
  call; [exists u; by eauto|]. destruct x as [[]|]; [|done]. call; [by exists u, c|]. by destruct x.
Qed.

Lemma recovery_finish_rule K : safe K (finishRecoveryLogin r').
Proof.
  unfold finishRecoveryLogin. destruct (externalIdentityFromRequest r') eqn:Hi; [done|]. apply no_identity_seen in Hi.
  destruct (secureTransport r') eqn:Hs; [|done]. apply (se_secure _ _ Hsees) in Hs. cbn [negb].
  destruct (PostForm r') as [form|]; [|done].
  eapply proves_bind; [by apply recovery_user_rule|]. intros K2 [u|] _ Hu; [|done]. destruct (Hu u eq_refl) as [Hd0 Hst].
  clear Hu. call. destruct x; [done|done|]. rewrite (se_remote _ _ Hsees) in *. call. destruct x; [|done].
  apply issue_rule. eapply by_recovery; try done. split; [done|by eexists].
Qed.

Lemma logout_rule K : safe K (dashboardLogout r').
Proof. unfold dashboardLogout. eapply proves_bind; [apply dashboardSession_rule|]. intros K' found _ _. walk. Qed.

(** Every handler. *)
Lemma studio_handler_rule w x K : safe K (studio_handler h w x r').
Proof.
  destruct x; try (apply pages_rule; by_decide); try (apply actions_rule; by_decide); cbn [studio_handler].
  - apply entry_rule.
  - apply bootstrap_rule.
  - apply login_start_rule.
  - apply login_finish_rule.
  - apply enroll_start_rule.
  - apply enroll_finish_rule.
  - apply recovery_start_rule.
  - apply recovery_passkey_rule.
  - apply recovery_finish_rule.
  - apply logout_rule.
  - apply create_rule.
Qed.
End Rules.

(** ** The listener *)

Section Listener.
Context `{Artifact.Crypto} `{WebAuthn}.
Variable h : DashboardHandler.
Variable proxy : TrustedProxy.

Abbreviation safe r K p := (proves proxy r (λ _ _, True) K p).

Lemma sees_set_http r r' q :
  q_RemoteAddr q = q_RemoteAddr (http r') → sees proxy r r' → sees proxy r (set_http q r').
Proof.
  intros Hq [Hs Hc Hf Hi Hr]. split; try done.
  - unfold secureTransport, set_http. cbn [http TLS]. by rewrite Hq.
  - unfold ui_remoteHost, set_http. cbn [http]. by rewrite Hq.
Qed.

Lemma ServeHTTP_rule w x r r' K : sees proxy r r' → safe r K (ServeHTTP h w x r').
Proof.
  intros Hsees. unfold ServeHTTP. destruct (_ =? _)%string; [done|]. destruct (negb _); [done|].
  eapply (proves_bind _ _ (λ _ _, True)).
  - destruct (_ || _); [|done]. split; [apply keeps_queries_of_interface|done].
  - intros K' [rid|e] _ _; [|done]. eapply proves_bind; [|done]. apply studio_handler_rule. by apply sees_set_http.
Qed.

(** Without a trusted proxy there is no outer identity. *)
Lemma sees_from_wire r : from_wire r → SecureSource proxy r = false → sees proxy r r.
Proof.
  intros [He Ht] Hs. split; try done.
  - unfold transport_secure. intros ->. apply orb_true_r.
  - unfold externalIdentityFromRequest, outer_identity, Identity_. by rewrite He, Hs.
Qed.

Lemma sees_proxied r q :
  from_wire r → SecureSource proxy r = true → q_RemoteAddr q = q_RemoteAddr (http r) →
  sees proxy r (mkUI q true (match Identity_ proxy r with Some s => Some (mkExternal trustedProxyProvider s) | None => external r end)
                 (session_cookie r) (PostForm r) (q_fingerprint r)).
Proof.
  intros [He Ht] Hs Hq. split; try done.
  - intros _. unfold transport_secure. by rewrite Hs.
  - unfold externalIdentityFromRequest, outer_identity. cbn [external]. rewrite He. unfold Identity_. rewrite Hs. cbn [negb].
    destruct (_ || _) eqn:Hb; [done|]. bool_inv. cbn [mbind option_bind fmap option_fmap option_map e_Subject].
    unfold blank. rewrite TrimSpace_idem. by rewrite (proj2 (String.eqb_neq _ _)).
  - unfold ui_remoteHost. cbn [http]. by rewrite Hq.
Qed.

Lemma studio_rule w x r K : from_wire r → safe r K (studio h proxy w x r).
Proof.
  intros Hw. unfold studio, RequireTrustedProxyOrLoopback. destruct (gate_allows proxy r); [|done].
  unfold on_surface. destruct (System.studioSurface _); [|done..].
  unfold NewDashboardWithTrustedProxy. destruct (Enabled proxy) eqn:Hen.
  - unfold with_proxy_identity. destruct (SecureSource proxy r) eqn:Hs; cbn [negb];
      [|apply ServeHTTP_rule; by apply sees_from_wire].
    eapply (proves_bind _ _ (λ _ _, True)).
    + destruct (_ =? _)%string; [|done]. split; [apply keeps_queries_of_interface|done].
    + intros K' [rid|e] _ _; [|done]. apply ServeHTTP_rule, sees_proxied; try done. by destruct (_ =? _)%string.
  - apply ServeHTTP_rule, sees_from_wire; [done|]. unfold SecureSource. by rewrite Hen.
Qed.
End Listener.
