(* ===== verification/StudioTrace.v ===== *)
(** * The trace of the operator interface

    Every call of the trace was permitted, and every session, passkey ceremony
    and recovery ticket found in the interface's state was put there by an
    earlier call of the trace. *)

From stdpp Require Import relations.
From S2P Require Import Prelude GoStrings Fault Op Db Store Http Sessions Passkeys LogBuffer TrustedProxy Console StudioAuth StudioPages Studio StudioLogic StudioRules.
From S2P Require Artifact Identity Invariant.

Section Trace.
Context `{Artifact.Crypto} `{WebAuthn}.
Variable h : DashboardHandler.
Variable proxy : TrustedProxy.

Abbreviation step_ := (studio_step h proxy).
Abbreviation reachable_ := (studio_reachable h proxy).

(** An invariant holds from the start and is kept by every step. *)
Lemma studio_reachable_ind (P : studio_system → Prop) :
  (∀ s, started s → P s) → (∀ s s', reachable_ s → step_ s s' → P s → P s') → ∀ s, reachable_ s → P s.
Proof.
  intros Hstart Hstep s (s0 & Hs0 & Hs). specialize (Hstart s0 Hs0).
  assert (reachable_ s0) as Hr0 by (exists s0; split; [done|apply rtc_refl]). clear Hs0.
  induction Hs as [s|s1 s2 s3 Hst _ IH]; [done|]. apply IH; [by eapply Hstep|].
  destruct Hr0 as (s0 & Hs0 & Hr). exists s0. split; [done|]. by eapply rtc_r.
Qed.

(** ** The requests behind the calls *)

(** The call was made earlier, by the same request. *)
Definition earlier (trace : list trace_entry) (r : UIRequest) (past : list happening) (x : happening) : Prop :=
  ∃ e, e ∈ trace ∧ te_now e = x ∧ te_request e = r ∧ te_past e ⊆ past.

Record entry_ok (trace : list trace_entry) (e : trace_entry) : Prop := {
  eo_wire : from_wire (te_request e);
  eo_permitted : permitted proxy (te_request e) (te_past e) (h_call (te_now e));
  eo_sane : sane (h_at (te_now e));
  eo_result : h_result (te_now e) = (perform (h_call (te_now e)) (h_at (te_now e)) (h_before (te_now e))).1;
  eo_reachable : reachable (h_before (te_now e)).1;
  eo_past x : x ∈ te_past e → earlier trace (te_request e) (te_past e) x }.

Record task_ok (trace : list trace_entry) (t : studio_task) : Prop := {
  to_wire : from_wire (k_request t);
  to_proves : proves proxy (k_request t) (λ _ _, True) (k_past t) (k_program t);
  to_past x : x ∈ k_past t → earlier trace (k_request t) (k_past t) x }.

Record told (s : studio_system) : Prop := {
  td_store : reachable (ss_world s).1;
  td_pool n t : ss_pool s !! n = Some t → task_ok (ss_trace s) t;
  td_trace i e : ss_trace s !! i = Some e → entry_ok (take i (ss_trace s)) e }.

(** One call on the database is a step of the store or leaves it as it was. *)
Lemma perform_store r K {B} (c : call B) a w :
  permitted proxy r K c → sane a → reachable w.1 → reachable (perform c a w).2.1.
Proof.
  intros Hp Ha Hr. destruct c; cbn [perform on_db on_console fst snd]; try exact Hr.
  - destruct (run m a w.1) as [x db] eqn:E. cbn. by rewrite (run_keeps _ _ _ _ _ Hp E).
  - destruct (run (exec_mutation m) a w.1) as [x db] eqn:E. cbn. eapply rtc_r; [exact Hr|].
    exists (mutation_op m), a. rewrite mutation_op_exec.
    destruct (run (discard (exec_mutation m)) a w.1) as [x' db'] eqn:E'. exists x'. split; [done|].
    apply run_discard in E' as [(y & Hy & _)|(y & Hy & _)]; congruence.
Qed.

Lemma earlier_app trace l r past past' x : past ⊆ past' → earlier trace r past x → earlier (trace ++ l) r past' x.
Proof.
  intros Hp (e & He & Hx & Hr & Hpast). exists e. split_and!; try done; [by apply elem_of_app; left|by etrans].
Qed.

Lemma task_ok_app trace l t : task_ok trace t → task_ok (trace ++ l) t.
Proof. intros [Hw Hp Hx]. split; [done|done|]. intros x Hin. by eapply earlier_app, Hx. Qed.

(** The trace grows at its end. *)
Lemma trace_grows {P : list trace_entry → trace_entry → Prop} trace e :
  (∀ i x, trace !! i = Some x → P (take i trace) x) → P trace e →
  ∀ i x, (trace ++ [e]) !! i = Some x → P (take i (trace ++ [e])) x.
Proof.
  intros Hall He i x Hi. apply lookup_app_Some in Hi as [Hi|[Hlen Hi]].
  - rewrite take_app_le by (apply lookup_lt_Some in Hi; lia). by apply Hall.
  - apply list_lookup_singleton_Some in Hi as [Hi <-]. by replace i with (length trace) by lia; rewrite take_app_length.
Qed.

Lemma told_step s s' : step_ s s' → told s → told s'.
Proof.
  intros Hst [Hdb Hpool Htr]. destruct Hst as [w pool trace n outside x r Hn Hw|w pool trace n t B c k a Ht Ek Ha
    |w pool trace n t y Ht Ek|db db' c pool trace Hst|db c pool trace bytes]; cbn [ss_world ss_pool ss_trace fst] in *.
  - split; cbn; [done| |done]. intros i t [[<- <-]|[_ Ht]]%lookup_insert_Some; [|by eapply Hpool].
    split; cbn; [done|by apply studio_rule|]. by intros y []%not_elem_of_nil.
  - destruct (Hpool _ _ Ht) as [Hwire Hpr Hpast]. rewrite Ek in Hpr. cbn in Hpr. destruct Hpr as [Hperm Hnext].
    split; cbn.
    + by eapply perform_store.
    + intros i t' [[<- <-]|[_ Ht']]%lookup_insert_Some; [|by eapply task_ok_app, Hpool].
      split; cbn; [done|apply Hnext|]. intros x [Hx|[->|[]%not_elem_of_nil]%elem_of_cons]%elem_of_app.
      * eapply earlier_app, Hpast, Hx. apply extends_app.
      * eexists (mkTraceEntry _ _ _). cbn. split_and!; [apply elem_of_app; right; left|done..|apply extends_app].
    + apply trace_grows; [done|]. split; cbn; done.
  - split; cbn; [done| |done]. intros i t' [_ Ht']%lookup_delete_Some. by eapply Hpool.
  - split; cbn; [|done|done]. by eapply rtc_r.
  - by split.
Qed.

Lemma told_reachable s : reachable_ s → told s.
Proof.
  apply studio_reachable_ind; [|intros; by eapply told_step].
  intros s0 (db & key & m & logs & Hdb & _ & ->). by split.
Qed.

(** ** Where the entries of a table come from *)

Section Provenance.
Context {V : Type} (table : console → gmap string V) (made : happening → string → V → Prop).

Class Provenance := {
  pv_call {B} (c : call B) a w d v :
    table (perform c a w).2.2 !! d = Some v → table w.2 !! d = Some v ∨ made (happen c a w) d v;
  pv_logs b c : table (set_logs b c) = table c;
  pv_start key m logs : Sessions.New key = Ok m → table (started_console m logs) = ∅ }.

Definition explained (trace : list trace_entry) (w : world) : Prop :=
  ∀ d v, table w.2 !! d = Some v → ∃ e, e ∈ trace ∧ made (te_now e) d v.

Record traced (s : studio_system) : Prop := {
  tc_now : explained (ss_trace s) (ss_world s);
  tc_entry i e : ss_trace s !! i = Some e → explained (take i (ss_trace s)) (h_before (te_now e)) }.

Context {Hprov : Provenance}.

Lemma explained_app trace l w : explained trace w → explained (trace ++ l) w.
Proof. intros Hw d v Hv. destruct (Hw d v Hv) as (e & He & Hm). exists e. split; [by apply elem_of_app; left|done]. Qed.

Lemma traced_step s s' : step_ s s' → traced s → traced s'.
Proof.
  intros Hst [Hnow Htr]. destruct Hst as [w pool trace n outside x r Hn Hw|w pool trace n t B c k a Ht Ek Ha
    |w pool trace n t y Ht Ek|db db' c pool trace Hst|db c pool trace bytes]; cbn [ss_world ss_trace] in *; try by split.
  - split; cbn.
    + intros d v [Hv|Hv]%pv_call; [exact (explained_app trace _ w Hnow d v Hv)|]. eexists. split; [apply elem_of_app; right; left|exact Hv].
    + by apply (trace_grows (P := λ tr e, explained tr (h_before (te_now e)))).
  - split; cbn; [|done]. intros d v Hv. cbn in Hv. rewrite pv_logs in Hv. by apply Hnow.
Qed.

Lemma traced_reachable s : reachable_ s → traced s.
Proof.
  apply studio_reachable_ind; [|intros; by eapply traced_step].
  intros s0 (db & key & m & logs & Hdb & Hm & ->). split; cbn; [|done].
  intros d v Hv. cbn in Hv. by rewrite (pv_start key) in Hv.
Qed.

(** An entry found by a call of the trace was made by an earlier one. *)
Lemma found_was_made s i e d v :
  reachable_ s → ss_trace s !! i = Some e → table (h_before (te_now e)).2 !! d = Some v →
  ∃ j e', (j < i)%nat ∧ ss_trace s !! j = Some e' ∧ made (te_now e') d v.
Proof.
  intros Hs Hi Hv. apply traced_reachable in Hs. destruct (tc_entry _ Hs i e Hi d v Hv) as (e' & He & Hm).
  apply list_elem_of_lookup in He as [j Hj]. apply lookup_take_Some in Hj as [Hj Hlt]. by exists j, e'.
Qed.

(** An entry found later was there after the [i]-th call or was made since. *)
Definition after (e : trace_entry) : console := (perform (h_call (te_now e)) (h_at (te_now e)) (h_before (te_now e))).2.2.

Definition explained_since (trace : list trace_entry) (i : nat) (w : world) : Prop :=
  ∀ e d v, trace !! i = Some e → table w.2 !! d = Some v →
  table (after e) !! d = Some v ∨ ∃ j e', (i < j)%nat ∧ trace !! j = Some e' ∧ made (te_now e') d v.

Record traced_since (s : studio_system) : Prop := {
  ts_now i : explained_since (ss_trace s) i (ss_world s);
  ts_entry k e : ss_trace s !! k = Some e → ∀ i, explained_since (take k (ss_trace s)) i (h_before (te_now e)) }.

Lemma traced_since_step s s' : step_ s s' → traced_since s → traced_since s'.
Proof.
  intros Hst [Hnow Htr]. destruct Hst as [w pool trace n outside x r Hn Hw|w pool trace n t B c k a Ht Ek Ha
    |w pool trace n t y Ht Ek|db db' c pool trace Hst|db c pool trace bytes]; cbn [ss_world ss_trace] in *; try by split.
  - split; cbn.
    + intros i e d v [Hi|[Hlen Hi]]%lookup_app_Some Hv.
      * apply pv_call in Hv as [Hv|Hv].
        -- destruct (Hnow i e d v Hi Hv) as [Ha'|(j & e' & Hj & He' & Hm)]; [by left|right].
           exists j, e'. split_and!; [done|by apply lookup_app_l_Some|done].
        -- right. exists (length trace), (mkTraceEntry (k_request t) (k_past t) (happen c a w)). split_and!; [by eapply lookup_lt_Some| |exact Hv].
           by rewrite lookup_app_r, Nat.sub_diag.
      * apply list_lookup_singleton_Some in Hi as [_ <-]. by left.
    + apply (trace_grows (P := λ tr e, ∀ i, explained_since tr i (h_before (te_now e)))); [exact Htr|exact Hnow].
  - split; cbn; [|done]. intros i e d v Hi Hv. cbn in Hv. rewrite pv_logs in Hv. by eapply Hnow.
Qed.

Lemma traced_since_reachable s : reachable_ s → traced_since s.
Proof.
  apply studio_reachable_ind; [|intros; by eapply traced_since_step].
  intros s0 (db & key & m & logs & Hdb & Hm & ->). by split.
Qed.

(** What was gone after one call and is found by a later one was made anew in
    between. *)
Lemma made_since s i k ei ek d v :
  reachable_ s → (i < k)%nat → ss_trace s !! i = Some ei → ss_trace s !! k = Some ek →
  table (after ei) !! d = None → table (h_before (te_now ek)).2 !! d = Some v →
  ∃ j ej, (i < j < k)%nat ∧ ss_trace s !! j = Some ej ∧ made (te_now ej) d v.
Proof.
  intros Hs Hik Hi Hk Hgone Hv. apply traced_since_reachable in Hs.
  destruct (ts_entry _ Hs k ek Hk i ei d v) as [Ha|(j & ej & Hij & Hj & Hm)]; [by rewrite lookup_take_lt|done|congruence|].
  apply lookup_take_Some in Hj as [Hj Hjk]. by exists j, ej.
Qed.
End Provenance.

(** A call made before by the same request, as an entry of the trace. *)
Lemma past_entry s i e x :
  reachable_ s → ss_trace s !! i = Some e → x ∈ te_past e →
  ∃ j e', (j < i)%nat ∧ ss_trace s !! j = Some e' ∧ te_now e' = x ∧ te_request e' = te_request e ∧ te_past e' ⊆ te_past e.
Proof.
  intros Hs Hi Hx. apply told_reachable in Hs. destruct (eo_past _ _ (td_trace _ Hs i e Hi) x Hx) as (e' & He & Hn & Hr & Hp).
  apply list_elem_of_lookup in He as [j Hj]. apply lookup_take_Some in Hj as [Hj Hlt]. by exists j, e'.
Qed.

(** ** Sessions *)

(** The call issued session [s] under the digest [d]. *)
Definition session_made (x : happening) (d : string) (s : Session) : Prop :=
  ∃ user method a w token, x = happen (IssueSession user method) a w ∧
    (perform (IssueSession user method) a w).1 = Ok (token, s) ∧ d = Artifact.sha256 token.

Lemma IssueUserSession_sessions user method a m d s :
  sessions (IssueUserSession user method a m).2 !! d = Some s →
  sessions m !! d = Some s ∨
  ∃ token, (IssueUserSession user method a m).1 = Ok (token, s) ∧ d = Artifact.sha256 token.
Proof.
  unfold IssueUserSession. destruct (_ || _); [by left|]. destruct (Identity.ValidateRole _); [|by left].
  destruct (_ || _); [by left|]. unfold issueSession. cbv zeta.
  assert (∀ t, sessions (cleanupLocked t m) !! d = Some s → sessions m !! d = Some s) as Hsweep
    by (intros t; unfold cleanupLocked; cbn [sessions]; by intros [? _]%sweep_lookup).
  destruct (_ <=? _)%nat; cbn [fst snd]; [intros Hd; left; by eapply Hsweep|].
  destruct (randomToken a 0 _) as [token|]; cbn [fst snd]; [|intros Hd; left; by eapply Hsweep].
  destruct (randomToken a 1 _) as [csrf|]; cbn [fst snd sessions]; [|intros Hd; left; by eapply Hsweep].
  intros [[<- <-]|[_ Hd]]%lookup_insert_Some; [right; by eexists|left; by eapply Hsweep].
Qed.

Lemma session_provenance : Provenance (λ c, sessions (c_manager c)) session_made.
Proof.
  split; [|done|].
  - intros B c a w d s. destruct c; cbn [perform on_db on_console fst snd set_manager set_flows set_tickets c_manager]; auto.
    + unfold Session_. destruct (blank token); cbn [fst snd]; [by left|]. cbn. intros [Hd _]%sweep_lookup. by left.
    + unfold Logout. destruct (_ =? _)%string; [by left|]. cbn. intros [_ Hd]%lookup_delete_Some. by left.
    + intros [Hd|(token & Hd & ->)]%IssueUserSession_sessions; [by left|]. right. by exists user, authMethod, a, w, token.
    + unfold VerifyRecoveryKey. cbv zeta. repeat case_match; cbn [fst snd sessions cleanupLocked]; intros [Hd _]%sweep_lookup; by left.
  - intros key m logs Hm. unfold Sessions.New in Hm. by repeat case_match; simplify_eq.
Qed.

(** ** Recovery tickets *)

Definition ticket_made (x : happening) (d : string) (t : recoveryTicket) : Prop :=
  ∃ userID a w token, x = happen (IssueTicket userID) a w ∧ (perform (IssueTicket userID) a w).1 = Ok token ∧
    d = Artifact.sha256 token ∧ t = mkTicket (TrimSpace userID) (clock a + recoveryTicketLifetime)%Z.

Lemma IssueRecoveryTicket_tickets userID a items d t :
  (IssueRecoveryTicket userID a items).2 !! d = Some t →
  items !! d = Some t ∨
  ∃ token, (IssueRecoveryTicket userID a items).1 = Ok token ∧ d = Artifact.sha256 token ∧
    t = mkTicket (TrimSpace userID) (clock a + recoveryTicketLifetime)%Z.
Proof.
  unfold IssueRecoveryTicket. destruct (_ =? _)%string; [by left|]. destruct (randomToken a 0 _) as [token|]; [|by left].
  cbv zeta. destruct (_ <=? _)%nat; cbn [fst snd]; [intros [Hd _]%sweep_lookup; by left|].
  intros [[<- <-]|[_ [Hd _]%sweep_lookup]]%lookup_insert_Some; [right; by exists token|by left].
Qed.

Lemma ticket_provenance : Provenance c_tickets ticket_made.
Proof.
  split; [|done|done].
  intros B c a w d t. destruct c; cbn [perform on_db on_console fst snd set_manager set_flows set_tickets c_tickets]; auto.
  - intros [Hd|(token & Hd & -> & ->)]%IssueRecoveryTicket_tickets; [by left|]. right. by exists userID, a, w, token.
  - unfold ConsumeRecoveryTicket. cbn [fst snd]. intros [_ [Hd _]%sweep_lookup]%lookup_delete_Some. by left.
Qed.

(** ** Passkey ceremonies *)

(** The call started the ceremony of the flow: WebAuthn began it for the user
    with the flow's data. *)
Definition flow_made (x : happening) (d : string) (f : flow) : Prop :=
  ∃ service u a w opts token, d = Artifact.sha256 token ∧ f_UserID f = Identity.ID u.1 ∧
    f_ExpiresAt f = (clock a + flowLifetime)%Z ∧
    (x = happen (StartLogin service u (f_Mode f)) a w ∧
     (perform (StartLogin service u (f_Mode f)) a w).1 = Ok (opts, token) ∧
     wa_BeginLogin (wa service) a u = Ok (opts, f_Session f) ∧ f_Mode f ≠ ModeEnrollment ∨
     x = happen (StartRegistration service u) a w ∧
     (perform (StartRegistration service u) a w).1 = Ok (opts, token) ∧
     wa_BeginRegistration (wa service) a u = Ok (opts, f_Session f) ∧ f_Mode f = ModeEnrollment).

Lemma saveFlow_flows userID mode session a flows d f :
  (saveFlow userID mode session a flows).2 !! d = Some f →
  flows !! d = Some f ∨
  ∃ token, (saveFlow userID mode session a flows).1 = Ok token ∧ d = Artifact.sha256 token ∧
    f = mkFlow userID mode session (clock a + flowLifetime)%Z.
Proof.
  unfold saveFlow. destruct (randomToken a 0 _) as [token|]; [|by left].
  cbv zeta. destruct (_ <=? _)%nat; cbn [fst snd]; [intros [Hd _]%sweep_lookup; by left|].
  intros [[<- <-]|[_ [Hd _]%sweep_lookup]]%lookup_insert_Some; [right; by exists token|by left].
Qed.

Lemma takeFlow_flows token userID mode now flows d f :
  (takeFlow token userID mode now flows).2 !! d = Some f → flows !! d = Some f.
Proof.
  unfold takeFlow. destruct (blank token); [done|]. cbn [fst snd]. by intros [_ [Hd _]%sweep_lookup]%lookup_delete_Some.
Qed.

Lemma flow_provenance : Provenance c_flows flow_made.
Proof.
  split; [|done|done].
  intros B c a w d f. destruct c; cbn [perform on_db on_console fst snd set_manager set_flows set_tickets c_flows]; auto.
  - unfold BeginRegistration. destruct (wa_BeginRegistration _ _ _) as [[opts session]|] eqn:Ew; [|by left].
    pose proof (saveFlow_flows (Identity.ID user.1) ModeEnrollment session a (c_flows w.2) d f) as Hs.
    destruct (saveFlow _ _ _ _ _) as [x flows] eqn:Es. cbn [fst snd] in *. intros [Hd|(token & -> & -> & ->)]%Hs; [by left|].
    right. exists s, user, a, w, opts, token. split_and!; try done. right. split_and!; try done.
    cbn [perform on_console fst]. unfold BeginRegistration. by rewrite Ew, Es.
  - unfold FinishRegistration. pose proof (takeFlow_flows token (Identity.ID user.1) ModeEnrollment (clock a) (c_flows w.2) d f) as Hs.
    destruct (takeFlow _ _ _ _ _) as [x flows]. cbn [fst snd] in *. intros Hd%Hs. by left.
  - unfold BeginLogin. destruct (negb _) eqn:Em; [by left|].
    destruct (wa_BeginLogin _ _ _) as [[opts session]|] eqn:Ew; [|by left].
    pose proof (saveFlow_flows (Identity.ID user.1) mode session a (c_flows w.2) d f) as Hs.
    destruct (saveFlow _ _ _ _ _) as [x flows] eqn:Es. cbn [fst snd] in *. intros [Hd|(token & -> & -> & ->)]%Hs; [by left|].
    right. exists s, user, a, w, opts, token. split_and!; try done. left. cbn [f_Mode f_Session]. split_and!; try done.
    + cbn [perform on_console fst]. unfold BeginLogin. by rewrite Em, Ew, Es.
    + intros ->. done.
  - unfold FinishLogin. pose proof (takeFlow_flows token (Identity.ID user.1) mode (clock a) (c_flows w.2) d f) as Hs.
    destruct (takeFlow _ _ _ _ _) as [x flows]. cbn [fst snd] in *. intros Hd%Hs. by left.
Qed.
End Trace.
