(* ===== verification/Scripts.v ===== *)
(** * The iPXE scripts the server writes

    A script is a list of commands, one for each line; what comes from outside
    -- the Host header, machine and installation identifiers, kernel arguments
    -- adds no line to it. *)

From S2P Require Import Prelude GoStrings Regex Encoding StringFacts Fault Db Http HttpDiscovery HttpProvisioning.
From S2P Require Import Debian13 Debian13Theorems DebianReleaseTheorems.
From S2P Require Boot.

(** Checks a boolean property of bytes on all of them. *)
Lemma byte_check (P : ascii → bool) : forallb (λ n, P (byte_of n)) (seq 0 256) = true → ∀ c, P c = true.
Proof.
  intros Hall c. rewrite forallb_forall in Hall. specialize (Hall (byte_nat c)).
  unfold byte_of, byte_nat in Hall. rewrite Ascii.ascii_nat_embedding in Hall. apply Hall, in_seq.
  pose proof (Ascii.nat_ascii_bounded c). lia.
Qed.

Lemma byte_ne_lf (P : ascii → bool) :
  forallb (λ n, implb (P (byte_of n)) (negb (Ascii.eqb (byte_of n) (byte_of 10)))) (seq 0 256) = true →
  ∀ s, all_bytes P s = true → line s = true.
Proof.
  intros Hall s. apply all_bytes_impl. intros c Hc.
  pose proof (byte_check (λ c, implb (P c) (negb (Ascii.eqb c (byte_of 10)))) Hall c) as Hi. simpl in Hi. by rewrite Hc in Hi.
Qed.

(** ** The Host header *)

(** The bytes a host may have after decoding. *)
Definition host_byte (c : ascii) : bool := (128 <=? byte_nat c)%nat || (32 <=? byte_nat c)%nat.

Lemma hex_value_lt c x : hex_value c = Some x → x < 16.
Proof.
  intros Hx. assert (∀ c, match hex_value c with Some x => (x <? 16)%nat | None => true end = true) as Hall
    by (apply byte_check; vm_compute; reflexivity).
  specialize (Hall c). rewrite Hx in Hall. by apply Nat.ltb_lt.
Qed.

Lemma plain_host_byte mode c : (mode = encodeHost ∨ mode = encodeZone) →
  (byte_nat c <? 128)%nat && shouldEscape mode c = false → host_byte c = true.
Proof.
  intros Hm. assert (∀ c, implb (negb ((byte_nat c <? 128)%nat && shouldEscape encodeHost c)) (host_byte c) = true) as H1
    by (apply byte_check; vm_compute; reflexivity).
  assert (∀ c, implb (negb ((byte_nat c <? 128)%nat && shouldEscape encodeZone c)) (host_byte c) = true) as H2
    by (apply byte_check; vm_compute; reflexivity).
  specialize (H1 c). specialize (H2 c). destruct Hm as [-> | ->]; intros E; rewrite E in *; done.
Qed.

Lemma decoded_host_byte v : byte_is 32 v || negb (shouldEscape encodeHost v) = true → host_byte v = true.
Proof.
  assert (∀ c, implb (byte_is 32 c || negb (shouldEscape encodeHost c)) (host_byte c) = true) as H1
    by (apply byte_check; vm_compute; reflexivity).
  specialize (H1 v). intros E. by rewrite E in H1.
Qed.

(** A percent sequence of a host or a zone. *)
Lemma decoded_byte mode a b x y :
  (mode = encodeHost ∨ mode = encodeZone) → hex_value a = Some x → hex_value b = Some y →
  match mode with
  | encodeHost => (x <? 8)%nat && negb (Ascii.eqb a "2" && Ascii.eqb b "5")
  | encodeZone => negb (Ascii.eqb a "2" && Ascii.eqb b "5") && negb (byte_is 32 (byte_of (16 * x + y))) && shouldEscape encodeHost (byte_of (16 * x + y))
  | _ => false
  end = false →
  host_byte (byte_of (16 * x + y)) = true.
Proof.
  intros Hm Ha Hb Hc. pose proof (hex_value_lt _ _ Ha). pose proof (hex_value_lt _ _ Hb).
  destruct (Ascii.eqb a "2" && Ascii.eqb b "5") eqn:E.
  { apply andb_true_iff in E as [->%Ascii.eqb_eq ->%Ascii.eqb_eq]. vm_compute in Ha, Hb. by simplify_eq. }
  destruct Hm as [-> | ->].
  - rewrite andb_true_r in Hc. apply Nat.ltb_ge in Hc. unfold host_byte. rewrite byte_nat_of by lia.
    apply orb_true_iff. left. apply Nat.leb_le. lia.
  - apply decoded_host_byte. cbn [negb andb] in Hc. apply andb_false_iff in Hc as [Hc%negb_false_iff|Hc]; rewrite Hc; [done|apply orb_true_r].
Qed.

Lemma unescape_host mode s r :
  (mode = encodeHost ∨ mode = encodeZone) → unescape mode s = Some r → all_bytes host_byte r = true.
Proof.
  intros Hm. revert r. induction s as [s IH] using (induction_ltof1 _ String.length); unfold ltof in IH. intros r Hr.
  destruct s as [|c t]; [cbn in Hr; by simplify_eq|]. cbn [unescape] in Hr. destruct (Ascii.eqb c "%") eqn:Ec.
  - destruct t as [|a [|b u]]; try done. destruct (hex_value a) as [x|] eqn:Ex; [|done].
    destruct (hex_value b) as [y|] eqn:Ey; [|done]. cbn [mbind option_bind] in Hr. cbv zeta in Hr.
    match type of Hr with (if ?g then _ else _) = _ => destruct g eqn:Eg end; [done|].
    apply fmap_Some in Hr as (r' & Eu & ->). cbn [all_bytes].
    rewrite (decoded_byte mode a b x y) by done. apply (IH u); [cbn; lia|done].
  - match type of Hr with (if ?g then _ else _) = _ => destruct g eqn:Eg end; [done|].
    apply fmap_Some in Hr as (r' & Et & ->). cbn [all_bytes].
    rewrite (plain_host_byte mode) by (done || by destruct Hm as [-> | ->]). apply (IH t); [cbn; lia|done].
Qed.

Lemma host_line s : all_bytes host_byte s = true → line s = true.
Proof. apply byte_ne_lf. by vm_compute. Qed.

Lemma parseHost_bytes h r : parseHost h = Some r → all_bytes host_byte r = true.
Proof.
  unfold parseHost. destruct (HasPrefix h "[").
  - destruct (cut_last "]" h) as [[inside colonPort]|]; [|done]. destruct (negb _); [done|].
    destruct (cut_at "%25" inside) as [[h1 h2]|]; [|by apply unescape_host; left].
    destruct (unescape encodeHost h1) as [a|] eqn:Ea; [|done]. destruct (unescape encodeZone h2) as [b|] eqn:Eb; [|done].
    destruct (unescape encodeHost (String "]" colonPort)) as [c|] eqn:Ec; [|done]. intros [= <-].
    rewrite !all_bytes_app. apply unescape_host in Ea, Eb, Ec; auto. by rewrite Ea, Eb, Ec.
  - destruct (valid_port_of h); [|done]. by apply unescape_host; left.
Qed.

Lemma parseAuthority_bytes a u h : parseAuthority a = Some (u, h) → all_bytes host_byte h = true.
Proof.
  unfold parseAuthority. destruct (cut_last "@" a) as [[ui h']|].
  - destruct (parseHost h') as [x|] eqn:Ex; [|done]. cbn [mbind option_bind]. destruct (negb _); [done|].
    intros Hr. assert (h = x) as ->; [|by eapply parseHost_bytes].
    destruct (cut_byte ":" ui) as [[p q]|]; repeat apply bind_Some in Hr as (? & _ & Hr); congruence.
  - destruct (parseHost a) as [x|] eqn:Ex; [|done]. intros [= <- <-]. by eapply parseHost_bytes.
Qed.

(** The host of a parsed URL adds no line. *)
Lemma url_host_bytes s p : url_Parse s = Some p → all_bytes host_byte (Encoding.Host p) = true.
Proof.
  unfold url_Parse. destruct (match cut_byte "#" s with Some p => p | None => (s, "") end) as [u frag].
  destruct (has_ascii_control u); [done|]. intros Hp.
  match type of Hp with (?m ≫= _) = _ => destruct m as [url|] eqn:Eu end; [|done]. cbn [mbind option_bind] in Hp.
  destruct (unescape encodeFragment frag); [|done]. cbn in Hp. simplify_eq. cbn [Encoding.Host].
  destruct (u =? "*")%string; [by simplify_eq|]. destruct (getScheme u) as [[scheme rest]|]; [|done].
  cbn [mbind option_bind] in Eu. unfold parse_noscheme in Eu. destruct (split_query rest) as [rest' query].
  destruct (_ && _); [by simplify_eq|]. destruct (_ && _); [done|].
  match type of Eu with (?m ≫= _) = _ => destruct m as [[[user host] rest'']|] eqn:Eh end; [|done].
  cbn [mbind option_bind] in Eu. destruct (setPath rest'') as [[path raw]|]; [|done]. cbn in Eu. simplify_eq. cbn [Encoding.Host].
  destruct (_ && _); [|by simplify_eq]. cbv zeta in Eh.
  destruct (match cut_byte "/" (drop_bytes 2 rest') with Some (a, r) => (a, String "/" r) | None => (drop_bytes 2 rest', "") end) as [a r].
  destruct (parseAuthority a) as [[u' h]|] eqn:Ea; [|done]. cbn in Eh. simplify_eq. by eapply parseAuthority_bytes.
Qed.

Lemma base_url_line r : line (requestBaseURL r) = true.
Proof.
  unfold requestBaseURL. cbv zeta. destruct (_ =? "")%string; [done|]. destruct (url_Parse _) as [p|] eqn:Ep; [|done].
  destruct (negb (Encoding.Host p =? _)%string) eqn:Eh; [done|]. destruct (has_User p); [done|]. cbn [orb].
  apply negb_false_iff, String.eqb_eq in Eh. rewrite <- Eh. rewrite byte_free_app. cbn [andb].
  by eapply host_line, url_host_bytes.
Qed.

(** ** Scripts *)

Lemma ipxeSafe_line s : line (ipxeSafe s) = true.
Proof.
  induction s as [|c s IH]; [done|]. cbn [ipxeSafe]. unfold byte_free in *. cbn [all_bytes]. rewrite IH, andb_true_r.
  apply (byte_check (λ c, negb (Ascii.eqb (if byte_is 13 c || byte_is 10 c || Ascii.eqb c ";" then " "%char else c) (byte_of 10)))).
  by vm_compute.
Qed.

Lemma PathEscape_line s : line (PathEscape s) = true.
Proof. eapply byte_ne_lf; [|apply PathEscape_plain]. by vm_compute. Qed.

Lemma argument_line s : ipxeArgumentSafe s = true → line s = true.
Proof. apply byte_ne_lf. by vm_compute. Qed.

Lemma arguments_line args s : renderIPXEKernelArguments args = Ok s → line s = true.
Proof.
  assert (∀ l parts, argument_parts l = Ok parts → ∀ x, x ∈ parts → line x = true) as Hparts.
  { induction l as [|a l IH]; cbn [argument_parts]; intros parts Hp x Hx; [ok_inv; by apply elem_of_nil in Hx|].
    ok_inv. bool_inv. apply elem_of_cons in Hx as [->|Hx]; [|by eapply IH].
    assert (line (Boot.Key a) = true ∧ line (Boot.Value a) = true) as [Hk Hv] by (split; by apply argument_line).
    destruct (Boot.Value a =? "")%string; [done|]. rewrite byte_free_app, Hk. exact Hv. }
  unfold renderIPXEKernelArguments. destruct args as [|a args]; intros Hr; ok_inv; [done|].
  match goal with |- line (String _ ?x) = true => change (line x = true) end. apply Join_line; [done|]. by eapply Hparts.
Qed.

(** The scripts the handlers write. *)
Inductive script (r : Request) : list string → Prop :=
| script_bootstrap : script r (bootstrap_lines r)
| script_chain iid : script r (chain_lines r iid)
| script_boot iid args : line args = true → script r (boot_script_lines (requestBaseURL r) iid args)
| script_local message reason : script r (local_boot_lines message reason)
| script_exit message reason : script r (exit_lines message reason).

Lemma elem_lines (l : list string) : Forall (λ x, line x = true) l → ∀ x, x ∈ l → line x = true.
Proof. by rewrite Forall_forall. Qed.

Lemma script_lines r l : script r l → ∀ x, x ∈ l → line x = true.
Proof.
  intros Hs. apply elem_lines.
  destruct Hs; unfold bootstrap_lines, chain_lines, boot_script_lines, local_boot_lines, exit_lines; cbv zeta;
    rewrite !Forall_cons, Forall_nil; split_and!; try done;
    rewrite !byte_free_app, ?ipxeSafe_line, ?PathEscape_line, ?base_url_line; try done.
  match goal with Ha : line args = true |- _ => by rewrite Ha end.
Qed.

Lemma write_text_split l : (∀ x, x ∈ l → line x = true) →
  ∃ t, p_Body (write_text l) = Text t ∧ split_byte (byte_of 10) t = l ++ [""].
Proof.
  intros Hl. eexists. split; [reflexivity|]. rewrite <- split_write_lines by done. done.
Qed.

(** Only the base URL of the request matters. *)
Lemma script_host r r' l : requestBaseURL r = requestBaseURL r' → script r l → script r' l.
Proof.
  intros E Hs.
  assert (bootstrap_lines r = bootstrap_lines r') as E1 by (unfold bootstrap_lines; by rewrite E).
  assert (∀ iid, chain_lines r iid = chain_lines r' iid) as E2 by (intros; unfold chain_lines; by rewrite E).
  destruct Hs; rewrite ?E1, ?E2, ?E; by constructor.
Qed.
