(* ===== verification/TelemetryTheorems.v ===== *)
(** * What the telemetry of an installation guarantees

    The lifecycle history and the log of every reachable store, the replay of a
    report and the end of a credential's life. *)

From Stdlib Require Import Sorted.
From stdpp Require Import relations.
From S2P Require Import Prelude GoStrings Regex Encoding StringFacts Fault Lifecycle Telemetry Op Db Progress.
From S2P Require Artifact Machine Installation Assignment Boottrust Event Identity.
From S2P Require Import StoreTelemetry StoreMachines StoreInstallations StoreTrust StoreUsers StoreDeletion.
From S2P Require Import Store Invariant Reachable Evolution Sample.

Lemma head_filter_prefix {A} (P : A → Prop) `{!∀ x, Decision (P x)} l l' x :
  l `prefix_of` l' → head (filter P l) = Some x → head (filter P l') = Some x.
Proof. intros [k ->] Hx. rewrite filter_app. by destruct (filter P l). Qed.

Lemma sameOptionalTime_refl t : sameOptionalTime t t = true.
Proof. unfold sameOptionalTime. destruct (IsZero t); simpl; [done|]. apply Z.eqb_refl. Qed.

Lemma same_report_reported report rid t n : same_report (reported_event report rid t n) report = true.
Proof.
  unfold same_report. simpl. rewrite bool_decide_true by done. by rewrite !String.eqb_refl, sameOptionalTime_refl.
Qed.

(** The event just recorded is found by its key. *)
Lemma event_by_key_snoc e db :
  event_by_key (Lifecycle.InstallationID e) (Lifecycle.IdempotencyKey e) db = None →
  event_by_key (Lifecycle.InstallationID e) (Lifecycle.IdempotencyKey e) (add_lifecycle_event e db) = Some e.
Proof.
  unfold event_by_key, installation_history. simpl. rewrite filter_app, filter_app. intros Hn.
  destruct (filter _ (filter _ (lifecycle_events db))); [|done].
  simpl. rewrite !filter_cons, decide_True by done. rewrite filter_cons, decide_True by done. done.
Qed.

Section Replay.
Context `{Artifact.Crypto}.

Lemma accept_history iid report rid t db :
  installation_history iid (accept_report report rid t db) =
  installation_history iid (add_lifecycle_event (reported_event report rid t (lifecycle_seq db + 1)) db).
Proof. unfold accept_report, revoke_if_terminal. by destruct (Terminal _). Qed.

(** A report whose event is stored is answered from the store. *)
Lemma replay_run report rid a db e :
  healthy a → Report_Validate report = Ok tt → is_Some (specs db !! r_InstallationID report) →
  event_by_key (r_InstallationID report) (r_IdempotencyKey report) db = Some e → same_report e report = true →
  run (AppendLifecycleEvent report rid) a db = (Ok (e, true), db).
Proof.
  intros Ha Hv [s Hs] Hk He. apply (run_run a _ _ _ (mkConn db db 3)).
  unfold AppendLifecycleEvent, ensureInstallationExistsTx, lifecycleEventByIdempotencyTx.
  forward Ha. rewrite Hv. forward Ha. rewrite Hs. forward Ha.
  unfold event_by_key in Hk. rewrite Hk. simpl. by rewrite He.
Qed.
End Replay.

(** ** The abstract operation

    [append_lifecycle] is what accepting a report means, without statements
    and transactions. *)
Definition append_lifecycle (report : Report) (requestID : string) (t : time) (db : DB)
    : result (Lifecycle.Event * bool) * DB :=
  let iid := r_InstallationID report in
  match Report_Validate report with
  | Err e => (Err (New InstallerTelemetryInvalid "lifecycle report is invalid" (Some e)), db)
  | Ok _ =>
    if decide (specs db !! iid = None) then (Err (New InstallationNotFound "installation not found" (Some ErrNoRows)), db)
    else match event_by_key iid (r_IdempotencyKey report) db with
    | Some e =>
      if same_report e report then (Ok (e, true), db)
      else (Err (New InstallerTelemetryConflict "idempotency key was reused with different lifecycle content" None), db)
    | None =>
      if CanAdvance (current_stage iid db) (r_Stage report)
      then (Ok (reported_event report requestID t (lifecycle_seq db + 1), false), accept_report report requestID t db)
      else (Err (New InstallerTelemetryConflict "lifecycle event would regress or skip required state" None), db)
    end
  end.

Lemma event_by_key_None iid key db :
  event_by_key iid key db = None →
  Forall (λ y, ¬ (Lifecycle.InstallationID y = iid ∧ Lifecycle.IdempotencyKey y = key)) (lifecycle_events db).
Proof.
  unfold event_by_key, installation_history. intros Hn. apply Forall_forall. intros y Hy [E1 E2].
  assert (y ∈ filter (λ e, Lifecycle.IdempotencyKey e = key) (filter (λ e, Lifecycle.InstallationID e = iid) (lifecycle_events db))) as Hin
    by (apply list_elem_of_filter; split; [done|]; by apply list_elem_of_filter).
  destruct (filter _ (filter _ _)); [by apply elem_of_nil in Hin|done].
Qed.

Lemma SourceAllowed_Valid stage source : SourceAllowed stage source = true → Source_Valid source = true.
Proof.
  unfold SourceAllowed. intros Hs. unfold Source_Valid, one_of. simpl.
  repeat case_match; bool_inv; subst; try done; repeat (destruct Hs as [Hs|Hs]; bool_inv; subst; try done).
Qed.

Lemma insert_reported_run report rid t db :
  Report_Validate report = Ok tt → room db → is_Some (specs db !! r_InstallationID report) →
  event_by_key (r_InstallationID report) (r_IdempotencyKey report) db = None →
  insert_lifecycle_event (reported_event report rid t) db =
  Ok (add_lifecycle_event (reported_event report rid t (lifecycle_seq db + 1)) db, (lifecycle_seq db + 1)%Z).
Proof.
  intros (_ & Hst & Hso%SourceAllowed_Valid & _)%Report_Validate_Ok [Hr _] Hs Hk%event_by_key_None. unfold insert_lifecycle_event.
  rewrite (proj2 (next_rowid_Ok _ _) (conj eq_refl Hr)). simpl.
  rewrite !bool_decide_true by done. by rewrite Hst, Hso.
Qed.

Section Append.
Context `{Artifact.Crypto}.

Lemma currentStage_run iid a d w t :
  healthy a → currentLifecycleStageTx iid a (mkConn d w t) = (Ok (current_stage iid w), mkConn d w (S t)).
Proof.
  intros Ha. unfold currentLifecycleStageTx, current_stage. forward Ha.
  by destruct (last (installation_history iid w)).
Qed.

Lemma append_refines report rid a db :
  healthy a → room db → run (AppendLifecycleEvent report rid) a db = append_lifecycle report rid (clock a) db.
Proof.
  intros Ha Hr. unfold run, AppendLifecycleEvent, append_lifecycle, ensureInstallationExistsTx, lifecycleEventByIdempotencyTx.
  forward Ha. destruct (Report_Validate report) as [[]|e] eqn:Hv; [|done]. forward Ha.
  destruct (specs db !! r_InstallationID report) as [s|] eqn:Hs; [|done]. rewrite decide_False by done. forward Ha.
  unfold event_by_key at 1. destruct (head _) as [e|] eqn:Hk; forward Ha; [by destruct (same_report e report)|].
  fold (event_by_key (r_InstallationID report) (r_IdempotencyKey report) db) in Hk. pass. forward Ha.
  rewrite (currentStage_run _ _ _ _ _ Ha). destruct (CanAdvance _ _); [|done]. forward Ha. pass.
  rewrite (stmt_run _ Ha _ _ _ _ _ _ (insert_reported_run _ _ _ _ Hv Hr (ltac:(by eexists)) Hk)). forward Ha.
  rewrite (append_event_run _ Ha) by apply Hr. forward Ha.
  unfold accept_report, revoke_if_terminal. destruct (Terminal (r_Stage report)); forward Ha; [|done].
  destruct (revoke_credentials _ _ _) as [w n] eqn:Er. rewrite (exec_update_run _ Ha _ _ _ _ _ _ Er). by forward Ha.
Qed.
End Append.

(** ** Credentials *)

Section Credential.
Context `{Artifact.Crypto}.

(** An installation has at most one credential. *)
Lemma credential_unique db i j c d :
  wf db → credentials db !! i = Some c → credentials db !! j = Some d →
  cr_installation c = cr_installation d → i = j.
Proof.
  intros Hwf Hi Hj E. destruct (wf_credentials _ Hwf _ _ Hi) as (_ & s & Hs & <-).
  destruct (wf_credentials _ Hwf _ _ Hj) as (_ & s' & Hs' & <-). rewrite E in Hs. by simplify_eq.
Qed.

Lemma credential_of_row db iid id c : credential_of iid db = Some (id, c) → credentials db !! id = Some c ∧ cr_installation c = iid.
Proof. apply find_row_Some. Qed.

(** The credentials once one of the installation was used. *)
Definition touched (iid : string) (t : time) (db : DB) : DB :=
  set_credentials ((λ c, if bool_decide (cr_installation c = iid) then touch_credential_row t c else c) <$> credentials db) db.

(** A request signed with the live credential is accepted. *)
Lemma verify_run iid m p k t b s a db id row text :
  healthy a → TrimSpace iid ≠ "" → Canonical m p k t b = Ok text →
  (clock a - telemetryAuthClockSkew ≤ time_Unix t ≤ clock a + telemetryAuthClockSkew)%Z →
  credential_of (TrimSpace iid) db = Some (id, row) → String.length (cr_secret_sha256 row) = 32 →
  cr_revoked_at row = None → (clock a < cr_expires_at row)%Z → Verify (cr_secret_sha256 row) text s = true →
  run (VerifyLifecycleMAC iid m p k t b s) a db = (Ok tt, touched (TrimSpace iid) (clock a) db).
Proof.
  intros Ha Hi Hcan Ht Hc Hlen Hrev Hexp Hver.
  unfold run, VerifyLifecycleMAC. cbv zeta. forward Ha. rewrite (proj2 (String.eqb_neq _ _) Hi). forward Ha.
  rewrite Hcan. forward Ha. unfold Before, After.
  rewrite (proj2 (Z.ltb_ge _ _)), (proj2 (Z.ltb_ge (clock a + telemetryAuthClockSkew) _)) by lia. forward Ha.
  rewrite Hc. forward Ha. cbn [snd]. rewrite Hlen, Hrev, Hver, bool_decide_false, (proj2 (Z.ltb_lt _ _)) by (done || by intros []).
  cbn [orb negb Nat.eqb]. forward Ha. by rewrite (auto_run _ Ha _ _ _ _ _ _ eq_refl).
Qed.

(** A revoked credential stays the installation's credential, revoked. *)
Lemma revoked_later db db' iid id c :
  wf db → is_Some (specs db !! iid) → later iid db db' →
  credentials db !! id = Some c → cr_installation c = iid → cr_revoked_at c ≠ None →
  ∀ id' c', credential_of iid db' = Some (id', c') → cr_revoked_at c' = cr_revoked_at c.
Proof.
  intros Hwf Hs Hl Hc Ec Hr id' c' [Hc' Ec']%credential_of_row.
  destruct (pe_credential _ _ _ (later_persists _ _ _ Hs Hl) _ _ Hc Ec) as (d & Hd & Ed & _ & _ & Hrev).
  assert (id = id') as <- by (eapply (credential_unique db'); [by eapply later_wf|exact Hd|exact Hc'|congruence]).
  simplify_eq. by apply Hrev.
Qed.

Lemma revoke_credentials_lookup iid t db id c :
  credentials db !! id = Some c → cr_installation c = iid →
  ∃ d, credentials (revoke_credentials iid t db).1 !! id = Some d ∧ cr_installation d = iid ∧
       cr_revoked_at d ≠ None ∧ (cr_revoked_at c = None → cr_revoked_at d = Some t).
Proof.
  intros Hc Ec. exists (revoke_credential_row iid t c). simpl. rewrite lookup_fmap, Hc. split; [done|].
  unfold revoke_credential_row. case_bool_decide as Hd; [done|]. split; [done|].
  assert (cr_revoked_at c ≠ None) by (intros E; by apply Hd). done.
Qed.
End Credential.

(** ** Properties *)

(** C20. In every store the server can reach, the lifecycle history of an
    installation is a path of the lifecycle diagram from its start, each event
    reported by a source authorised for its stage, each idempotency key used
    once, in the order of the sequence numbers. *)
Theorem reachable_lifecycle_history `{Artifact.Crypto} db iid :
  reachable db →
  let h := installation_history iid db in
  chain "" (Event_Stage <$> h) ∧ NoDup (Lifecycle.IdempotencyKey <$> h) ∧
  StronglySorted (λ x y, Lifecycle.Sequence x < Lifecycle.Sequence y)%Z h ∧
  (∀ e, e ∈ h → SourceAllowed (Event_Stage e) (Event_Source e) = true).
Proof.
  intros [L1 _ L3 L4 L5]%wf_reachable%wf_lifecycle. split_and!; [apply L4|apply L5|by apply StronglySorted_filter|].
  intros e [_ He]%list_elem_of_filter. by destruct (L1 e He) as (_ & ? & _).
Qed.

(** C31. In every store the server can reach, the installer log of an
    installation has the chunks 1, 2, ..., n without a gap, at most the allowed
    number of bytes in all, every text free of what the redaction removes, with
    the digest of that text, and each idempotency key used once. *)
Theorem reachable_installer_log `{Artifact.Crypto} db iid :
  reachable db →
  let l := installation_logs iid db in
  l_Sequence <$> l = upto (length l) ∧ (total_bytes l ≤ MaxInstallationLogBytes)%Z ∧
  NoDup (l_IdempotencyKey <$> l) ∧
  (∀ c, c ∈ l → RedactLogContent (l_Content c) = l_Content c ∧ l_Digest c = Artifact.SHA256 (l_Content c)).
Proof.
  intros [G1 G2 G3 G4]%wf_reachable%wf_logs. split_and!; [apply G2|apply G3|apply G4|].
  intros c [_ Hc]%list_elem_of_filter. by destruct (G1 c Hc) as (_ & _ & ? & ?).
Qed.

(** C19. [AppendLifecycleEvent] implements its abstract operation: when nothing
    outside the program fails, it returns what [append_lifecycle] returns on
    each of its branches (invalid report, unknown installation, replay,
    conflicting key, forbidden stage, accepted event) and leaves its database. *)
Theorem AppendLifecycleEvent_refines `{Artifact.Crypto} report rid a db :
  healthy a → room db → run (AppendLifecycleEvent report rid) a db = append_lifecycle report rid (clock a) db.
Proof. apply append_refines. Qed.

(** A report can be sent again: however many operations after its
    acceptance, as long as the installation is not deleted, the same report is
    answered with the event recorded first and changes nothing. *)
Theorem accepted_report_replays `{Artifact.Crypto} report rid a db e db1 db2 rid' a' :
  run (AppendLifecycleEvent report rid) a db = (Ok (e, false), db1) →
  later (r_InstallationID report) db1 db2 → healthy a' →
  run (AppendLifecycleEvent report rid') a' db2 = (Ok (e, true), db2).
Proof.
  intros (Hv & Hs & [([=] & _)|(_ & Hk & _ & He & E1)])%AppendLifecycleEvent_Ok Hl Ha'.
  assert (specs db1 = specs db) as Es by (rewrite E1; unfold accept_report, revoke_if_terminal; by destruct (Terminal _)).
  rewrite <- Es in Hs. pose proof (later_persists _ _ _ Hs Hl) as Hp.
  apply replay_run; [done|done| | |rewrite He; apply same_report_reported]; [by eapply later_alive|].
  eapply head_filter_prefix; [apply (pe_history _ _ _ Hp)|]. rewrite E1, accept_history, He.
  by apply (event_by_key_snoc (reported_event report rid (clock a) (lifecycle_seq db + 1))).
Qed.

(** C27. The end of an installation is the end of its credential: once a
    terminal stage is accepted, the credential the installation had
    authenticates nothing, neither as a bearer secret nor as a request
    signature, however many operations later. *)
Theorem terminal_stage_ends_credential `{Artifact.Crypto} report rid a db e db1 id c db2 j :
  reachable db → sane a → run (AppendLifecycleEvent report rid) a db = (Ok (e, false), db1) →
  Terminal (r_Stage report) = true →
  credentials db !! id = Some c → cr_installation c = r_InstallationID report → cr_revoked_at c = None →
  later (r_InstallationID report) db1 db2 → TrimSpace j = r_InstallationID report →
  (∀ a' secret, is_ok (run (AuthenticateLifecycleCredential j secret) a' db2).1 = false) ∧
  (∀ a' m p k t b s, is_ok (run (VerifyLifecycleMAC j m p k t b s) a' db2).1 = false).
Proof.
  intros Hreach Hsane Hrun Ht Hc Ec Hnone Hl Hj. pose proof (wf_reachable _ Hreach) as Hwf.
  pose proof (wf_AppendLifecycleEvent _ _ _ _ _ _ _ Hwf Hrun) as Hwf1.
  apply AppendLifecycleEvent_Ok in Hrun as (_ & Hs & [([=] & _)|(_ & _ & _ & _ & E1)]).
  unfold accept_report, revoke_if_terminal in E1. rewrite Ht in E1.
  destruct (revoke_credentials_lookup (r_InstallationID report) (clock a)
    (audit (lifecycle_audit report rid (clock a)) (add_lifecycle_event (reported_event report rid (clock a) (lifecycle_seq db + 1)) db))
    id c Hc Ec) as (d & Hd & Ed & Hrd & Hrev). rewrite <- E1 in Hd. specialize (Hrev Hnone).
  assert (is_Some (specs db1 !! r_InstallationID report)) as Hs1 by (by rewrite E1).
  pose proof (revoked_later _ _ _ _ _ Hwf1 Hs1 Hl Hd Ed Hrd) as Hlater. rewrite Hrev in Hlater.
  split; intros; apply not_true_iff_false; intros Hok.
  - destruct (run _ a' db2) as [[x|] db3] eqn:Hr; [|done].
    apply AuthenticateLifecycleCredential_Ok in Hr as (i & row & Hrow & _ & _ & Hz & _). rewrite Hj in Hrow.
    rewrite (Hlater _ _ Hrow) in Hz. simpl in Hz. destruct Hsane as [? _]. unfold zeroTime in Hz. lia.
  - destruct (run _ a' db2) as [[x|] db3] eqn:Hr; [|done].
    apply VerifyLifecycleMAC_Ok in Hr as (i & row & text & Hrow & _ & _ & Hz & _). rewrite Hj in Hrow.
    by rewrite (Hlater _ _ Hrow) in Hz.
Qed.

(** A request is authenticated exactly when it is signed with the verifier
    of the installation's live credential: the canonical text of the request is
    well formed, the clock is within five minutes of the request's, the
    credential is neither revoked nor expired, and the signature is the MAC of
    the text under the stored verifier. *)
Theorem VerifyLifecycleMAC_accepts `{Artifact.Crypto} iid m p k t b s a db :
  reachable db → healthy a →
  is_ok (run (VerifyLifecycleMAC iid m p k t b s) a db).1 = true ↔
  TrimSpace iid ≠ "" ∧ ∃ id row text,
    Canonical m p k t b = Ok text ∧
    (clock a - telemetryAuthClockSkew ≤ time_Unix t ≤ clock a + telemetryAuthClockSkew)%Z ∧
    credential_of (TrimSpace iid) db = Some (id, row) ∧
    cr_revoked_at row = None ∧ (clock a < cr_expires_at row)%Z ∧
    Verify (cr_secret_sha256 row) text s = true.
Proof.
  intros Hreach Ha. pose proof (wf_reachable _ Hreach) as Hwf. split.
  - destruct (run _ a db) as [[x|] db3] eqn:Hr; [intros _|done]. split.
    + unfold VerifyLifecycleMAC in Hr. db_inv. by bool_inv.
    + apply VerifyLifecycleMAC_Ok in Hr as (id & row & text & ? & ? & ? & ? & ? & ? & _). eauto 10.
  - intros (Hi & id & row & text & Hcan & Ht & Hc & Hrev & Hexp & Hver).
    assert (String.length (cr_secret_sha256 row) = 32) as Hlen.
    { apply credential_of_row in Hc as [Hc _]. by destruct (wf_credentials _ Hwf _ _ Hc). }
    by erewrite verify_run.
Qed.

(** ** Witnesses *)

Definition started_report : Report := sample_report StageInstallerStarted SourceInstaller "started-0001".
Definition failed_report : Report := sample_report StageFailed SourceInstaller "failed-00001".

Lemma reachable_lifecycle_history_witness :
  reachable db_consumed ∧ chain "" (Event_Stage <$> installation_history sample_iid db_consumed) ∧
  (Event_Stage <$> installation_history sample_iid db_consumed) =
    [StageCreated; StageQueued; StagePXEBooted; StageInstallerStarted].
Proof.
  split; [apply reach_consumed|]. split; [|by vm_compute].
  pose proof (reachable_lifecycle_history db_consumed sample_iid reach_consumed) as Hh. cbv zeta in Hh. exact (proj1 Hh).
Defined.

Lemma reachable_installer_log_witness :
  reachable db_consumed ∧ (l_Content <$> installation_logs sample_iid db_consumed) = ["[REDACTED sensitive installer log line]"] ∧
  (l_Sequence <$> installation_logs sample_iid db_consumed) = upto (length (installation_logs sample_iid db_consumed)).
Proof.
  split; [apply reach_consumed|]. split; [by vm_compute|].
  pose proof (reachable_installer_log db_consumed sample_iid reach_consumed) as Hl. cbv zeta in Hl. exact (proj1 Hl).
Defined.

Lemma AppendLifecycleEvent_refines_witness :
  room db_booted ∧
  (run (AppendLifecycleEvent started_report "req") (at_time 1009%Z "a") db_booted).2 = (append_lifecycle started_report "req" (epoch + 1009)%Z db_booted).2 ∧
  is_ok (append_lifecycle started_report "req" (epoch + 1009)%Z db_booted).1 = true.
Proof.
  assert (room db_booted) as Hr by (vm_compute; done).
  split; [exact Hr|]. split; [|by vm_compute].
  rewrite (AppendLifecycleEvent_refines started_report "req" (at_time 1009%Z "a") db_booted (at_time_healthy _ _) Hr). reflexivity.
Defined.

Lemma accepted_report_replays_witness :
  run (AppendLifecycleEvent started_report "retry") (at_time 3000%Z "b") db_consumed =
  (Ok (reported_event started_report "req-10" (epoch + 1009)%Z 4, true), db_consumed).
Proof.
  refine (accepted_report_replays started_report "req-10" (at_time 1009%Z "a") db_booted _ db_started db_consumed
            "retry" (at_time 3000%Z "b") _ started_then_consumed (at_time_healthy _ _)).
  vm_compute. reflexivity.
Defined.

Lemma terminal_stage_ends_credential_witness :
  is_ok (run (AuthenticateLifecycleCredential sample_iid (RawURLEncoding_EncodeToString (filled 32 "a"))) (at_time 1013%Z "a") db_consumed).1 = true ∧
  is_ok (run (AuthenticateLifecycleCredential sample_iid (RawURLEncoding_EncodeToString (filled 32 "a"))) (at_time 1013%Z "a") db_failed).1 = false.
Proof.
  assert (sane (at_time 1012%Z "a")) as Hs by (apply at_time_sane; lia).
  assert (run (AppendLifecycleEvent failed_report "req-12") (at_time 1012%Z "a") db_consumed
    = (Ok (reported_event failed_report "req-12" (epoch + 1012)%Z 5, false), db_failed)) as Hr by (vm_compute; reflexivity).
  assert (match credentials db_consumed !! "lc_1" with
          | Some c => cr_installation c = sample_iid ∧ cr_revoked_at c = None | None => False end) as Hlive
    by (vm_compute; split; reflexivity).
  destruct (credentials db_consumed !! "lc_1") as [c|] eqn:Hc; [|destruct Hlive]. destruct Hlive as [Hi Hn].
  pose proof (terminal_stage_ends_credential failed_report "req-12" _ _ _ _ "lc_1" c db_failed sample_iid
    reach_consumed Hs Hr eq_refl Hc Hi Hn (rtc_refl _ _) eq_refl) as [Hauth _].
  split; [vm_compute; reflexivity|]. exact (Hauth (at_time 1013%Z "a") _).
Defined.

(** The signature of a request under the sample credential. *)
Definition sample_signature : string :=
  match credential_of sample_iid db_consumed, Canonical "POST" "/api/v1/telemetry" "event-00001" 1750000100 "{}" with
  | Some (_, row), Ok text => Sign (cr_secret_sha256 row) text
  | _, _ => ""
  end.

Lemma VerifyLifecycleMAC_accepts_witness :
  TrimSpace sample_iid ≠ "" ∧ (∃ id row text,
    Canonical "POST" "/api/v1/telemetry" "event-00001" 1750000100 "{}" = Ok text ∧
    credential_of (TrimSpace sample_iid) db_consumed = Some (id, row) ∧
    Verify (cr_secret_sha256 row) text sample_signature = true).
Proof.
  pose proof (proj1 (VerifyLifecycleMAC_accepts sample_iid "POST" "/api/v1/telemetry" "event-00001" 1750000100 "{}" sample_signature
    (at_time 1000000%Z "b") db_consumed reach_consumed (at_time_healthy 1000000%Z "b")) ltac:(by vm_compute))
    as (Hne & id & row & text & Htext & _ & Hrow & _ & _ & Hv).
  split; [exact Hne|]. exists id, row, text. split; [exact Htext|]. split; [exact Hrow|exact Hv].
Defined.
