(* ===== verification/InstallationTheorems.v ===== *)
(** * Assignments, the life of an installation and its deletion

    What the store guarantees about the destructive part of the program: which
    installation a machine may run, and that an installation runs once. *)

From stdpp Require Import relations.
From S2P Require Import Prelude GoStrings Regex Encoding StringFacts Fault Lifecycle Telemetry Op Db Progress.
From S2P Require Artifact Machine Installation Assignment Boottrust Event Identity.
From S2P Require Import StoreTelemetry StoreMachines StoreInstallations StoreTrust StoreUsers StoreDeletion.
From S2P Require Import Store Invariant Reachable Evolution Sample.

(** ** Properties *)

(** C28. In every store the server can reach, at most one installation is armed
    for a machine, an installation is assigned at most once, to the machine its
    specification is for, and the metadata of each assignment fits its state. *)
Theorem reachable_assignments `{Artifact.Crypto} db i j x y :
  reachable db → assignments db !! i = Some x → assignments db !! j = Some y →
  (Assignment.InstallationID x = Assignment.InstallationID y → i = j) ∧
  (Assignment.MachineID x = Assignment.MachineID y →
   Assignment.a_State x = Assignment.StateArmed → Assignment.a_State y = Assignment.StateArmed → i = j) ∧
  Assignment.Validate x = Ok tt ∧
  ∃ s, specs db !! Assignment.InstallationID x = Some s ∧ Installation.MachineID s = Assignment.MachineID x.
Proof.
  intros [A1 A2 A3 A4]%wf_reachable%wf_assignments Hx Hy. split_and!; [by eapply A3|by eauto|by apply (A1 i)|by apply (A2 i)].
Qed.

(** C17. Arming is guarded: it succeeds only for a machine the operator approved
    for provisioning, with an installation of that machine that was never
    assigned, when no other installation is armed for it; and then this
    installation is the armed one. *)
Theorem arm_is_guarded `{Artifact.Crypto} mid iid rid actor a db x db' :
  reachable db → sane a → run (ArmInstallation mid iid rid actor) a db = (Ok x, db') →
  (∃ m, machines db !! TrimSpace mid = Some m ∧ Machine.m_Policy m = Machine.PolicyProvision) ∧
  (∃ s, specs db !! TrimSpace iid = Some s ∧ Installation.MachineID s = TrimSpace mid) ∧
  assignment_of (TrimSpace iid) db = None ∧ armed_for (TrimSpace mid) db = None ∧
  armed_for (TrimSpace mid) db' = Some x ∧ Assignment.InstallationID x = TrimSpace iid ∧
  Assignment.ArmedBy x = TrimSpace actor.
Proof.
  intros Hreach Ha Hr. pose proof (wf_reachable _ Hreach) as Hwf. pose proof (wf_ArmInstallation _ _ _ _ _ _ _ _ Hwf Hr) as Hwf'.
  apply ArmInstallation_Ok in Hr as (_ & _ & _ & ? & ? & ? & ? & id & rid' & db1 & db2 & -> & _ & Hi & Hstep & ->).
  split_and!; try done. unfold armed_for.
  apply insert_assignment_Ok in Hi as (_ & _ & _ & _ & _ & E1).
  assert (assignments db2 = assignments db1) as E2 by (by destruct Hstep as [(-> & _)|(_ & _ & _ & t & ->)]).
  destruct (wf_assignments _ Hwf') as [_ _ _ A4]. simpl in *. rewrite E2, E1 in A4 |- *. simpl in A4 |- *.
  erewrite find_row_unique; [reflexivity|apply lookup_insert_eq|done|].
  intros k v Hv [Em Es]. simpl in *. eapply A4; [exact Hv|apply lookup_insert_eq|done..].
Qed.

(** C16. An installation runs once: after the boot server consumed its
    assignment, it can never be armed, cancelled or consumed again, however many
    operations later, as long as it is not deleted. *)
Theorem consumed_installation_is_spent `{Artifact.Crypto} iid rid actor a db x db1 db2 j :
  reachable db → sane a → run (ConsumeAssignment iid rid actor) a db = (Ok x, db1) →
  later (TrimSpace iid) db1 db2 → TrimSpace j = TrimSpace iid →
  assignment_of (TrimSpace iid) db2 = Some x ∧ Assignment.a_State x = Assignment.StateConsumed ∧
  (∀ a mid rid actor, is_ok (run (ArmInstallation mid j rid actor) a db2).1 = false) ∧
  (∀ a rid actor, is_ok (run (CancelAssignment j rid actor) a db2).1 = false) ∧
  (∀ a rid actor, is_ok (run (ConsumeAssignment j rid actor) a db2).1 = false).
Proof.
  intros Hreach Ha Hr Hl Hj. pose proof (wf_reachable _ Hreach) as Hwf.
  pose proof (wf_ConsumeAssignment _ _ _ _ _ _ _ Hwf Ha Hr) as Hwf1.
  apply ConsumeAssignment_Ok in Hr as (y & db0 & e & Hy & _ & _ & -> & Hu & E1).
  pose proof (update_armed_row _ _ _ _ _ Hwf Hy Hu) as E0.
  destruct (assignment_of_Some _ _ _ Hy) as (k & Hk & Ek).
  destruct (ao_spec _ _ (wf_assignments _ Hwf) _ _ Hk) as (s & Hs & _). rewrite Ek in Hs.
  assert (assignment_of (TrimSpace iid) db2 = Some (consumed (clock a) y)) as Hfin.
  { eapply (ended_assignment_later db1); [done| |exact Hl| |exact Ek|done]; rewrite E1, E0; simpl; [by exists s|].
    apply lookup_insert_eq. }
  split_and!; try done; by eapply ended_refuses.
Qed.

(** C29. An installation only moves forward: in any number of operations its
    specification stays the same, its lifecycle history and its log only grow
    at their end, its assignment only leaves the armed state, and its credential
    keeps its verifier and its revocation, and a used boot trust challenge keeps
    its response. *)
Theorem installation_moves_forward `{Artifact.Crypto} iid db db' :
  is_Some (specs db !! iid) → later iid db db' →
  specs db' !! iid = specs db !! iid ∧
  installation_history iid db `prefix_of` installation_history iid db' ∧
  installation_logs iid db `prefix_of` installation_logs iid db' ∧
  (∀ id x, assignments db !! id = Some x → Assignment.InstallationID x = iid →
     ∃ y, assignments db' !! id = Some y ∧ assignment_step x y) ∧
  (∀ id c, credentials db !! id = Some c → cr_installation c = iid →
     ∃ d, credentials db' !! id = Some d ∧ credential_step c d) ∧
  (∀ id r, challenges db !! id = Some r → cl_installation r = iid →
     ∃ r', challenges db' !! id = Some r' ∧ challenge_step r r').
Proof. intros Hs Hl. destruct (later_persists _ _ _ Hs Hl). done. Qed.

(** ** Deletion *)

Section Deletion.
Context `{Artifact.Crypto}.

Lemma exec_deletes_run a (Ha : healthy a) l : ∀ d w t,
  ∃ t', exec_deletes l a (mkConn d w t) = (Ok tt, mkConn d (foldl (λ db f, f db) w l) t').
Proof.
  induction l as [|f l IH]; intros d w t; [by exists t|]. simpl. unfold exec_delete.
  rewrite bind_run, or_err_eq, (exec_update_run _ Ha _ _ _ _ _ _ eq_refl). settle. apply IH.
Qed.

Lemma delete_spec_run iid db :
  is_Some (specs db !! iid) →
  delete_spec iid (delete_dependents iid db) = Ok (set_specs (delete iid (specs db)) (delete_dependents iid db), 1).
Proof.
  intros [s Hs]. unfold delete_spec. simpl. rewrite Hs.
  rewrite !bool_decide_true; try done.
  all: first [intros k x [_ Hx]%map_lookup_filter_Some; exact Hx
             |apply Forall_forall; intros x [Hx _]%list_elem_of_filter; exact Hx].
Qed.

Lemma delete_installation_run iid rid actor a db :
  healthy a → (event_seq db < max_rowid)%Z → TrimSpace iid ≠ "" → TrimSpace actor ≠ "" →
  is_Some (specs db !! TrimSpace iid) →
  (∀ x, assignment_of (TrimSpace iid) db = Some x → Assignment.a_State x ≠ Assignment.StateArmed) →
  run (DeleteInstallation iid rid actor) a db =
  (Ok tt, audit (installation_deletion_event (TrimSpace iid) rid (TrimSpace actor) (clock a))
            (set_specs (delete (TrimSpace iid) (specs db)) (delete_dependents (TrimSpace iid) db))).
Proof.
  intros Ha Hroom Hi Hact [s Hs] Hst. unfold run, DeleteInstallation. cbv zeta. forward Ha.
  rewrite (proj2 (String.eqb_neq _ _) Hi), (proj2 (String.eqb_neq _ _) Hact). forward Ha. rewrite Hs. forward Ha.
  assert (∀ c : conn DB, (match row_or_none (Assignment.a_State <$> assignment_of (TrimSpace iid) db) with
       | Ok s => reject (s =? Assignment.StateArmed)%string
                   (New InstallationDeleteConflict "armed installation must be cancelled before deletion" None)
       | Err err => reject (negb (IsNoRows err)) (storageError "read assignment before installation deletion" err)
       end) a c = (Ok tt, c)) as Hguard.
  { intros c. destruct (assignment_of _ db) as [x|] eqn:Ex; simpl; [|done].
    rewrite reject_run. by rewrite (proj2 (String.eqb_neq _ _) (Hst _ eq_refl)). }
  rewrite Hguard. forward Ha.
  destruct (exec_deletes_run a Ha (delete_statements (TrimSpace iid)) db db 3) as [t' ->]. forward Ha.
  rewrite delete_statements_dependents.
  rewrite (stmt_run _ Ha _ _ _ _ _ _ (delete_spec_run _ _ (ltac:(by eexists)))). forward Ha. pass.
  forward Ha. reflexivity.
Qed.

(** Nothing of the store refers to the installation. *)
Record erased (iid : string) (db : DB) : Prop := {
  er_spec : specs db !! iid = None;
  er_assignment : assignment_of iid db = None;
  er_credential : credential_of iid db = None;
  er_history : installation_history iid db = [];
  er_logs : installation_logs iid db = [];
  er_challenges id r : challenges db !! id = Some r → cl_installation r ≠ iid;
  er_events e : e ∈ events db → Event.EntityType e = Event.EntityInstallation → Event.EntityID e ≠ iid;
}.

Lemma find_row_filtered {V} (f : V → string) i (m : gmap string V) :
  find_row (λ p : string * V, f p.2 = i) (filter (λ p : string * V, f p.2 ≠ i) m) = None.
Proof.
  destruct (find_row _ _) as [[k v]|] eqn:E; [|done].
  by apply find_row_Some in E as [[_ Hn]%map_lookup_filter_Some Hp].
Qed.

Lemma erased_delete iid rid actor t db :
  erased iid (audit (installation_deletion_event iid rid actor t)
    (set_specs (delete iid (specs db)) (delete_dependents iid db))).
Proof.
  split.
  - apply lookup_delete_eq.
  - unfold assignment_of. simpl. by rewrite (find_row_filtered Assignment.InstallationID).
  - unfold credential_of. simpl. by rewrite (find_row_filtered cr_installation).
  - unfold installation_history. simpl. apply elem_of_nil_inv. intros e [? [? _]%list_elem_of_filter]%list_elem_of_filter. done.
  - unfold installation_logs. simpl. apply elem_of_nil_inv. intros e [? [? _]%list_elem_of_filter]%list_elem_of_filter. done.
  - simpl. intros id r [_ Hr]%map_lookup_filter_Some. exact Hr.
  - simpl. intros e [[He _]%list_elem_of_filter| ->%list_elem_of_singleton]%elem_of_app; [|done].
    intros E1 E2. by apply He.
Qed.
(** The audit trail of an entity. *)
Definition trail (entity id : string) (db : DB) : list Event.Event :=
  filter (λ e, Event.EntityType e = entity ∧ Event.EntityID e = id) (events db).

(** Everything that is not the installation's is as it was, but for the audit
    event of the deletion. *)
Record only_erased (iid actor : string) (db db' : DB) : Prop := {
  oe_specs : specs db' = delete iid (specs db);
  oe_assignments id x : assignments db' !! id = Some x ↔ assignments db !! id = Some x ∧ Assignment.InstallationID x ≠ iid;
  oe_credentials id x : credentials db' !! id = Some x ↔ credentials db !! id = Some x ∧ cr_installation x ≠ iid;
  oe_challenges id x : challenges db' !! id = Some x ↔ challenges db !! id = Some x ∧ cl_installation x ≠ iid;
  oe_history other : other ≠ iid → installation_history other db' = installation_history other db;
  oe_logs other : other ≠ iid → installation_logs other db' = installation_logs other db;
  oe_trail : ∃ e, Event.Type_ e = Event.InstallationDeleted ∧ Event.Actor e = actor ∧
    ∀ entity id, (entity, id) ≠ (Event.EntityInstallation, iid) →
    trail entity id db' = trail entity id db ++ (if decide (entity = Event.EntitySystem ∧ id = iid) then [e] else []);
  oe_machines : machines db' = machines db ∧ identifiers db' = identifiers db ∧ trust_keys db' = trust_keys db;
  oe_users : users db' = users db ∧ user_credentials db' = user_credentials db }.

Lemma trail_kept iid entity id (l : list Event.Event) : (entity, id) ≠ (Event.EntityInstallation, iid) →
  filter (λ e, Event.EntityType e = entity ∧ Event.EntityID e = id)
    (filter (λ e, ¬ (Event.EntityType e = Event.EntityInstallation ∧ Event.EntityID e = iid)) l) =
  filter (λ e, Event.EntityType e = entity ∧ Event.EntityID e = id) l.
Proof. intros Hne. apply list_filter_filter_l. intros e [<- <-] [E1 E2]. apply Hne. by rewrite E1, E2. Qed.

Lemma only_erased_delete iid rid actor t db :
  only_erased iid actor db (audit (installation_deletion_event iid rid actor t)
    (set_specs (delete iid (specs db)) (delete_dependents iid db))).
Proof.
  split; try done.
  1-3: intros id x; apply map_lookup_filter_Some.
  - intros other Hne. unfold installation_history. cbn. rewrite list_filter_filter_l; [done|]. congruence.
  - intros other Hne. unfold installation_logs. cbn. rewrite list_filter_filter_l; [done|]. congruence.
  - eexists (Event.mkEvent _ _ _ _ _ _ _ _ _). split; [reflexivity|]. split; [reflexivity|]. intros entity id Hne. unfold trail. cbn [audit events set_events event_seq].
    rewrite filter_app. cbn. f_equal; [by apply trail_kept|]. unfold Event.EntitySystem.
    repeat case_decide; naive_solver.
Qed.
End Deletion.

(** C35. An installation that is not armed can always be deleted, and deletion is
    complete and precise: on a store with room for its audit event, when nothing
    outside the program fails, the operation succeeds, no table refers to the
    installation any more (no foreign key stands in the way), and all the rest is
    as it was: the rows of every other installation in each table, the audit
    trail of everything else, machines, keys and users; only the event of the
    deletion is new. *)
Theorem deletion_is_complete `{Artifact.Crypto} iid rid actor a db :
  healthy a → room db → TrimSpace iid ≠ "" → TrimSpace actor ≠ "" →
  is_Some (specs db !! TrimSpace iid) →
  (∀ x, assignment_of (TrimSpace iid) db = Some x → Assignment.a_State x ≠ Assignment.StateArmed) →
  ∃ db', run (DeleteInstallation iid rid actor) a db = (Ok tt, db') ∧ erased (TrimSpace iid) db' ∧
    only_erased (TrimSpace iid) (TrimSpace actor) db db'.
Proof.
  intros Ha (_ & _ & Hroom) Hi Hact Hs Hst. eexists. split; [by apply delete_installation_run|].
  split; [apply erased_delete|apply only_erased_delete].
Qed.

Section MachineDeletion.
Context `{Artifact.Crypto}.

Definition no_installations (mid : string) (db : DB) : Prop :=
  map_Forall (λ _ s, Installation.MachineID s ≠ mid) (specs db).

(** Without installations nothing else of a well-formed store refers to the
    machine but its keys and identifiers. *)
Lemma machine_unreferenced db mid :
  wf db → no_installations mid db →
  map_Forall (λ _ x, Assignment.MachineID x ≠ mid) (assignments db) ∧
  map_Forall (λ _ c, cl_machine c ≠ mid) (challenges db) ∧
  map_Forall (λ _ c, ((λ k, bool_decide (Boottrust.k_MachineID k = mid)) <$> trust_keys db !! cl_key c) ≠ Some true)
    (challenges db).
Proof.
  intros Hwf Hno. split_and!.
  - intros id x Hx E. destruct (ao_spec _ _ (wf_assignments _ Hwf) _ _ Hx) as (s & Hs & Em).
    apply (Hno _ _ Hs). congruence.
  - intros id r Hr E. destruct (co_spec _ _ _ _ (wf_challenges _ Hwf) _ _ Hr) as (s & Hs & Em).
    apply (Hno _ _ Hs). congruence.
  - intros id r Hr E. destruct (co_spec _ _ _ _ (wf_challenges _ Hwf) _ _ Hr) as (s & Hs & Em).
    destruct (co_key _ _ _ _ (wf_challenges _ Hwf) _ _ Hr) as (k & Hk & Ek).
    rewrite Hk in E. simpl in E. injection E as E%bool_decide_eq_true. apply (Hno _ _ Hs). congruence.
Qed.

Lemma delete_machine_run db mid :
  wf db → no_installations mid db → is_Some (machines db !! mid) →
  ∃ db1, delete_machine mid (drop_machine_events mid (drop_machine_keys mid db)) = Ok (db1, 1) ∧
    machines db1 = delete mid (machines db) ∧ event_seq db1 = event_seq db ∧ specs db1 = specs db ∧
    (∀ k r, identifiers db1 !! k = Some r → id_machine r ≠ mid) ∧
    (∀ fp k, trust_keys db1 !! fp = Some k → Boottrust.k_MachineID k ≠ mid).
Proof.
  intros Hwf Hno [m Hm]. destruct (machine_unreferenced _ _ Hwf Hno) as (Hxs & Hcs & _).
  unfold delete_machine. simpl. rewrite Hm. rewrite !bool_decide_true; try done.
  - simpl. eexists. split_and!; try done; simpl; [intros k r|intros fp k]; intros [_ Hk]%map_lookup_filter_Some; exact Hk.
  - intros k x [_ Hx]%map_lookup_filter_Some. exact Hx.
Qed.

Lemma filter_none {V} (P : string * V → Prop) `{!∀ x, Decision (P x)} (m : gmap string V) :
  (∀ k v, m !! k = Some v → ¬ P (k, v)) → size (filter P m) = 0.
Proof.
  intros Hn. apply map_size_empty_iff, map_empty. intros k. apply map_lookup_filter_None. right. intros v Hv. by apply Hn.
Qed.
End MachineDeletion.

(** A machine without installations can always be deleted: in every store the
    server can reach, when nothing outside the program fails, the operation
    succeeds (boot trust keys, challenges and assignments of other machines
    never block it) and no identifier or key of the machine remains. *)
Theorem machine_deletion_succeeds `{Artifact.Crypto} mid rid actor a db :
  reachable db → healthy a → room db → TrimSpace mid ≠ "" → TrimSpace actor ≠ "" →
  is_Some (machines db !! TrimSpace mid) → no_installations (TrimSpace mid) db →
  ∃ db', run (DeleteMachine mid rid actor) a db = (Ok tt, db') ∧
    machines db' = delete (TrimSpace mid) (machines db) ∧ specs db' = specs db ∧
    (∀ k r, identifiers db' !! k = Some r → id_machine r ≠ TrimSpace mid) ∧
    (∀ fp k, trust_keys db' !! fp = Some k → Boottrust.k_MachineID k ≠ TrimSpace mid).
Proof.
  intros Hreach Ha (_ & _ & Hroom) Hm Hact Hex Hno. pose proof (wf_reachable _ Hreach) as Hwf.
  destruct (machine_unreferenced _ _ Hwf Hno) as (Hxs & Hcs & Hks).
  destruct (delete_machine_run _ _ Hwf Hno Hex) as (db1 & Hd & E1 & E2 & E3 & E4 & E5). destruct Hex as [m Hex].
  exists (audit (machine_deletion_event (TrimSpace mid) (Machine.Nickname m) rid (TrimSpace actor) (clock a)) db1).
  split; [|simpl; by split_and!]. unfold run, DeleteMachine. cbv zeta. forward Ha.
  rewrite (proj2 (String.eqb_neq _ _) Hm), (proj2 (String.eqb_neq _ _) Hact). forward Ha. rewrite Hex. forward Ha.
  rewrite filter_none by (intros k s Hs; by apply (Hno k s Hs)). pass. forward Ha.
  rewrite filter_none by (intros k x Hx [? _]; by apply (Hxs k x Hx)). pass. forward Ha.
  assert (delete_trust_keys (TrimSpace mid) db = Ok (drop_machine_keys (TrimSpace mid) db, 1)) as Hk
    by (unfold delete_trust_keys; by rewrite bool_decide_true).
  rewrite (stmt_run _ Ha _ _ _ _ _ _ Hk). forward Ha.
  unfold exec_delete. rewrite (exec_update_run _ Ha _ _ _ _ _ _ eq_refl). forward Ha.
  rewrite (stmt_run _ Ha _ _ _ _ _ _ Hd). forward Ha. pass. forward Ha.
  rewrite (append_event_run _ Ha) by (rewrite E2; done). forward Ha. reflexivity.
Qed.

(** ** Witnesses *)

Lemma reachable_assignments_witness :
  match assignments db_consumed !! "a_616161616161616161616161" with
  | Some x => Assignment.Validate x = Ok tt ∧ Assignment.a_State x = Assignment.StateConsumed
  | None => False
  end.
Proof.
  assert (match assignments db_consumed !! "a_616161616161616161616161" with
          | Some x => Assignment.a_State x = Assignment.StateConsumed | None => False end) as Hst by (vm_compute; reflexivity).
  destruct (assignments db_consumed !! "a_616161616161616161616161") as [x|] eqn:Hx; [|destruct Hst].
  pose proof (reachable_assignments db_consumed _ _ x x reach_consumed Hx Hx) as (_ & _ & Hv & _).
  split; [exact Hv|exact Hst].
Defined.

Lemma arm_is_guarded_witness :
  ∃ x, armed_for sample_machine_id db_armed = Some x ∧ Assignment.InstallationID x = sample_iid.
Proof.
  assert (sane (at_time 1003%Z "a")) as Hs by (apply at_time_sane; lia).
  assert (is_ok (run (ArmInstallation sample_machine_id sample_iid "req-4" "ops") (at_time 1003%Z "a") db_specified).1 = true) as Hok
    by (vm_compute; reflexivity).
  assert ((run (ArmInstallation sample_machine_id sample_iid "req-4" "ops") (at_time 1003%Z "a") db_specified).2 = db_armed) as Hdb
    by (vm_compute; reflexivity).
  destruct (run _ _ db_specified) as [[x|e] db'] eqn:Hr; [|discriminate Hok]. cbn [snd] in Hdb. subst db'.
  pose proof (arm_is_guarded sample_machine_id sample_iid "req-4" "ops" _ _ _ _ reach_specified Hs Hr)
    as (_ & _ & _ & _ & Harm & Hi & _).
  exists x. split; [exact Harm|exact Hi].
Defined.

Lemma consumed_installation_is_spent_witness :
  is_ok (run (ArmInstallation sample_machine_id sample_iid "req-41" "ops") (at_time 1012%Z "b") db_consumed).1 = false.
Proof.
  assert (sane (at_time 1011%Z "a")) as Hs by (apply at_time_sane; lia).
  assert (is_ok (run (ConsumeAssignment sample_iid "req-11" "ops") (at_time 1011%Z "a") db_logged).1 = true) as Hok
    by (vm_compute; reflexivity).
  assert ((run (ConsumeAssignment sample_iid "req-11" "ops") (at_time 1011%Z "a") db_logged).2 = db_consumed) as Hdb
    by (vm_compute; reflexivity).
  destruct (run _ _ db_logged) as [[x|e] db'] eqn:Hr; [|discriminate Hok]. cbn [snd] in Hdb. subst db'.
  pose proof (consumed_installation_is_spent sample_iid "req-11" "ops" _ _ _ _ db_consumed sample_iid reach_logged Hs Hr
    (rtc_refl _ _) eq_refl) as (_ & _ & Harm & _).
  exact (Harm (at_time 1012%Z "b") sample_machine_id "req-41" "ops").
Defined.

Lemma installation_moves_forward_witness :
  is_Some (specs db_started !! sample_iid) ∧
  installation_history sample_iid db_started `prefix_of` installation_history sample_iid db_consumed.
Proof.
  assert (is_Some (specs db_started !! sample_iid)) as Hs by (eexists; vm_compute; reflexivity).
  split; [exact Hs|].
  pose proof (installation_moves_forward sample_iid db_started db_consumed Hs started_then_consumed) as (_ & Hh & _).
  exact Hh.
Defined.

Lemma deletion_is_complete_witness :
  ∃ db', run (DeleteInstallation sample_iid "req-20" "ops") (at_time 1020%Z "a") db_failed = (Ok tt, db') ∧
    erased sample_iid db' ∧ only_erased sample_iid "ops" db_failed db'.
Proof.
  assert (room db_failed) as Hr by (vm_compute; done).
  assert (is_Some (specs db_failed !! sample_iid)) as Hs by (eexists; vm_compute; reflexivity).
  assert (Assignment.a_State <$> assignment_of sample_iid db_failed = Some Assignment.StateConsumed) as Hst
    by (vm_compute; reflexivity).
  destruct (deletion_is_complete sample_iid "req-20" "ops" _ _ (at_time_healthy 1020%Z "a") Hr ltac:(vm_compute; done)
    ltac:(vm_compute; done) Hs) as (db' & Hrun & Her & Honly).
  - intros x Hx. change (TrimSpace sample_iid) with sample_iid in Hx. rewrite Hx in Hst. injection Hst as ->. done.
  - exists db'. split; [exact Hrun|]. split; [exact Her|exact Honly].
Defined.

Lemma machine_deletion_succeeds_witness :
  ∃ db', run (DeleteMachine sample_machine_id "req-20" "ops") (at_time 1020%Z "a") db_provision = (Ok tt, db') ∧
    machines db' = delete sample_machine_id (machines db_provision).
Proof.
  assert (room db_provision) as Hr by (vm_compute; done).
  assert (is_Some (machines db_provision !! sample_machine_id)) as Hs by (eexists; vm_compute; reflexivity).
  assert (specs db_provision = ∅) as Hn by (vm_compute; reflexivity).
  destruct (machine_deletion_succeeds sample_machine_id "req-20" "ops" _ _ reach_provision (at_time_healthy 1020%Z "a") Hr
    ltac:(vm_compute; done) ltac:(vm_compute; done) Hs) as (db' & Hrun & Hdel & _).
  - unfold no_installations. rewrite Hn. apply map_Forall_empty.
  - exists db'. split; [exact Hrun|exact Hdel].
Defined.

(** ** The store as a whole *)

(** C18. All or nothing: an operation of the store that returns an error has
    changed nothing, whatever failed (a validation, a guard, a constraint, the
    storage engine at any statement or at the commit, the random source). The
    three operator operations that read the user again after their commit are
    excepted. *)
Theorem failed_operation_changes_nothing `{Artifact.Crypto} o a db e db' :
  rereads o = false → run (exec_op o) a db = (Err e, db') → db' = db.
Proof. intros Ho. by apply run_atomic, atomic_exec_op. Qed.

(** The storage engine refuses the statement [n] calls of the outside world
    after the start. *)
Definition failing_at (n : nat) : ambient := mkAmbient epoch (λ _ n, Some (filled n "a")) (λ t, negb (t =? n)%nat).

(** The commit fails, after the machine and its identifier were written to the
    working copy. *)
Lemma failed_operation_changes_nothing_witness :
  is_ok (run (exec_op (DiscoverMachine_ sample_observation "req-1")) (failing_at 7) empty_db).1 = false ∧
  (run (exec_op (DiscoverMachine_ sample_observation "req-1")) (failing_at 7) empty_db).2 = empty_db.
Proof.
  assert (is_ok (run (exec_op (DiscoverMachine_ sample_observation "req-1")) (failing_at 7) empty_db).1 = false) as Hf
    by (vm_compute; reflexivity).
  split; [exact Hf|].
  destruct (run (exec_op (DiscoverMachine_ sample_observation "req-1")) (failing_at 7) empty_db) as [[u|e] db'] eqn:Hr;
    [discriminate Hf|].
  exact (failed_operation_changes_nothing (DiscoverMachine_ sample_observation "req-1") (failing_at 7) empty_db e db' eq_refl Hr).
Defined.

Lemma Spec_Validate_sound_witness :
  Installation.Spec_Validate sample_spec = Ok tt ∧ length (Installation.Artifacts sample_spec) ≤ 16.
Proof.
  assert (Installation.Spec_Validate sample_spec = Ok tt) as Hv by (vm_compute; reflexivity).
  split; [exact Hv|]. exact (proj1 (proj2 (Installation.Spec_Validate_sound sample_spec Hv))).
Defined.
