(* ===== verification/TrustTheorems.v ===== *)
(** * Who gets the lifecycle credential

    The release of the one installation secret: only against a proof by the
    machine's approved key, once, and always in the same encrypted form. *)

From stdpp Require Import relations.
From S2P Require Import Prelude GoStrings Regex Encoding StringFacts Fault Lifecycle Telemetry Op Db Progress.
From S2P Require Artifact Machine Installation Assignment Boottrust Event Identity.
From S2P Require Import StoreTelemetry StoreMachines StoreInstallations StoreTrust StoreUsers StoreDeletion.
From S2P Require Import Store Invariant Reachable Evolution Sample.
From S2P Require Import Boottrust.

Section Trust.
Context `{Artifact.Crypto}.

Lemma credential_of_present db id c :
  wf db → credentials db !! id = Some c → credential_of (cr_installation c) db = Some (id, c).
Proof.
  intros Hwf Hc. apply find_row_unique; [done|done|]. intros k d Hd E. simpl in E.
  destruct (wf_credentials _ Hwf _ _ Hc) as (_ & s & Hs & <-). destruct (wf_credentials _ Hwf _ _ Hd) as (_ & s' & Hs' & <-).
  rewrite E in Hs'. by simplify_eq.
Qed.

(** What a fresh release leaves: the used challenge and the one credential. *)
Lemma release_effect iid id sig rid a db rel db1 :
  wf db → run (CompleteBootTrustChallenge iid id sig rid) a db = (Ok rel, db1) → rl_Duplicate rel = false →
  is_Some (specs db1 !! TrimSpace iid) ∧
  (∃ r, challenges db1 !! TrimSpace id = Some r ∧ cl_installation r = TrimSpace iid ∧ cl_used_at r = Some (clock a) ∧
        cl_response r = rl_Ciphertext rel) ∧
  (∃ cid c, credentials db1 !! cid = Some c ∧ cr_installation c = TrimSpace iid).
Proof.
  intros Hwf [(Hd & _)|(_ & r & k & pub & s & secret & seed & db0 & e & Hp & Hnone & _ & Hi & ->)]%CompleteBootTrustChallenge_Ok Hf;
    [congruence|]. destruct Hp. apply insert_credential_Ok in Hi as (-> & _).
  assert (cl_used_at r = None) as Hu.
  { destruct (cl_used_at r) as [t|] eqn:Eu; [|done].
    destruct (co_used _ _ _ _ (wf_challenges _ Hwf) _ _ pr_row) as (cid & c & Hc & Ec); [by rewrite Eu|].
    pose proof (credential_of_present _ _ _ Hwf Hc) as Hof. rewrite Ec, pr_installation in Hof. congruence. }
  split_and!.
  - unfold use_challenge. simpl. rewrite pr_row, bool_decide_true by done. simpl. by eexists.
  - unfold use_challenge. simpl. rewrite pr_row, bool_decide_true by done. simpl. eexists. by rewrite lookup_insert_eq.
  - unfold use_challenge. simpl. rewrite pr_row, bool_decide_true by done. simpl. do 2 eexists. by rewrite lookup_insert_eq.
Qed.
End Trust.

(** ** Properties *)

(** C1. The lifecycle credential of an installation is released only against a
    proof of possession: the stored challenge is unused and not expired, the
    installation's assignment is not cancelled and its machine still approved
    for provisioning, the operator approved the machine's key, the signature
    verifies under that key on the canonical text of this challenge, and no
    credential was issued before; and what is released is the encryption, under
    that key, of a secret of which the store keeps only the digest. *)
Theorem release_requires_proof `{Artifact.Crypto} iid id signature rid a db rel db' :
  run (CompleteBootTrustChallenge iid id signature rid) a db = (Ok rel, db') → rl_Duplicate rel = false →
  ∃ r k pub s secret seed cid c,
    proven (TrimSpace iid) (TrimSpace id) signature (clock a) db r k pub s ∧
    credential_of (TrimSpace iid) db = None ∧
    Artifact.rsa_encrypt pub seed secret (lifecycleCredentialOAEPLabel +:+ nul) = Some (rl_Ciphertext rel) ∧
    credentials db' !! cid = Some c ∧ cr_installation c = TrimSpace iid ∧
    cr_secret_sha256 c = Artifact.sha256 secret ∧ cr_expires_at c = (clock a + defaultLifecycleCredentialTTL)%Z.
Proof.
  intros [(Hd & _)|(_ & r & k & pub & s & secret & seed & db1 & e & Hp & Hn & He & Hi & ->)]%CompleteBootTrustChallenge_Ok Hf;
    [congruence|].
  exists r, k, pub, s, secret, seed, (Installation.LifecycleCredentialID s),
    (new_credential (TrimSpace iid) secret (clock a) defaultLifecycleCredentialTTL).
  split_and!; try done. apply insert_credential_Ok in Hi as (-> & _).
  unfold use_challenge. simpl. repeat case_match; simpl; apply lookup_insert_eq.
Qed.

(** C8. The secret is revealed once: after a release, however many operations
    later and as long as the installation is not deleted, answering the same
    challenge again returns the same ciphertext as a duplicate and changes
    nothing, and no other challenge of the installation, nor the operator's
    issue of a credential, reveals a second secret. *)
Theorem secret_is_revealed_once `{Artifact.Crypto} iid id signature rid a db rel db1 db2 j :
  reachable db → sane a →
  run (CompleteBootTrustChallenge iid id signature rid) a db = (Ok rel, db1) → rl_Duplicate rel = false →
  later (TrimSpace iid) db1 db2 → TrimSpace j = TrimSpace iid →
  (∀ id' sig' rid' a' rel' db3, run (CompleteBootTrustChallenge j id' sig' rid') a' db2 = (Ok rel', db3) →
     rl_Duplicate rel' = true ∧ db3 = db2 ∧ (TrimSpace id' = TrimSpace id → rl_Ciphertext rel' = rl_Ciphertext rel)) ∧
  (∀ rid' actor ttl a', is_ok (run (IssueLifecycleCredential j rid' actor ttl) a' db2).1 = false).
Proof.
  intros Hreach Ha Hr Hf Hl Hj. pose proof (wf_reachable _ Hreach) as Hwf.
  pose proof (wf_CompleteBootTrustChallenge _ _ _ _ _ _ _ _ Hwf Hr) as Hwf1.
  destruct (release_effect _ _ _ _ _ _ _ _ Hwf Hr Hf) as (Hs & (r & Hc & Er & Hu & Ect) & (cid & c & Hcred & Ec)).
  pose proof (later_persists _ _ _ Hs Hl) as Hp. pose proof (later_wf _ _ _ Hwf1 Hl) as Hwf2.
  destruct (pe_credential _ _ _ Hp _ _ Hcred Ec) as (d & Hd & Ed & _).
  destruct (pe_challenge _ _ _ Hp _ _ Hc Er) as (r' & Hc' & _ & Hsame). rewrite Hsame in Hc' by (by rewrite Hu).
  pose proof (credential_of_present _ _ _ Hwf2 Hd) as Hof. rewrite Ed, Ec in Hof.
  split.
  - intros id' sig' rid' a' rel' db3 [(Hd' & -> & x & Hx & _ & _ & Ex)|(_ & x & k & pub & s & secret & seed & db0 & e & _ & Hn & _)]%CompleteBootTrustChallenge_Ok.
    + split_and!; try done. intros E. rewrite E in Hx. simplify_eq. by rewrite Ex.
    + rewrite Hj in Hn. congruence.
  - intros. apply not_true_iff_false. intros Hok. destruct (run _ a' db2) as [[x|] db3] eqn:Hi; [|done].
    apply IssueLifecycleCredential_Ok in Hi as (_ & s & secret & db0 & e & _ & Hn & _). rewrite Hj in Hn. congruence.
Qed.

(** C30. In every store the server can reach, at most one boot trust key is
    approved for a machine, the fingerprint of a key is the digest of the stored
    key, which is RSA of 2048 to 4096 bits with exponent 65537, every challenge
    is for a key of the machine its installation is for, and an installation
    with a used challenge has its credential. *)
Theorem reachable_boot_trust `{Artifact.Crypto} db :
  reachable db →
  (∀ i j x y, trust_keys db !! i = Some x → trust_keys db !! j = Some y →
     k_State x = KeyApproved → k_State y = KeyApproved → k_MachineID x = k_MachineID y → i = j) ∧
  (∀ fp k, trust_keys db !! fp = Some k → ∃ pub, ParseRSAPublicKeyPEM (k_PublicKeyPEM k) = Ok (pub, fp) ∧
     Artifact.rsa_E pub = 65537%Z ∧ (2048 ≤ BitLen (Artifact.rsa_N pub) ≤ 4096)%Z) ∧
  (∀ id r, challenges db !! id = Some r → ∃ s k, specs db !! cl_installation r = Some s ∧
     trust_keys db !! cl_key r = Some k ∧ k_MachineID k = Installation.MachineID s) ∧
  (∀ id r, challenges db !! id = Some r → cl_used_at r ≠ None → credential_of (cl_installation r) db ≠ None).
Proof.
  intros Hwf%wf_reachable. destruct (wf_keys _ Hwf) as [K1 K2], (wf_challenges _ Hwf) as [C1 C2 C3]. split_and!.
  - exact K2.
  - intros fp k Hk. destruct (K1 fp k Hk) as (_ & _ & pub & Hp). exists pub. destruct (ParseRSA_Ok _ _ _ Hp) as (? & ? & _). done.
  - intros id r Hr. destruct (C1 id r Hr) as (s & ? & ?), (C2 id r Hr) as (k & ? & ?). exists s, k. split_and!; congruence.
  - intros id r Hr Hu Hn. destruct (C3 id r Hr Hu) as (cid & c & Hc & Ec).
    pose proof (credential_of_present _ _ _ Hwf Hc). congruence.
Qed.

(** A revoked key is useless: it can neither be approved again nor enrolled
    again, no challenge is made for it, and no unused challenge for it is
    answered with the credential. *)
Theorem revoked_key_is_useless `{Artifact.Crypto} db fp k :
  trust_keys db !! fp = Some k → k_State k = KeyRevoked → TrimSpace fp = fp →
  (∀ mid rid actor a, is_ok (run (ApproveBootTrustKey mid fp rid actor) a db).1 = false) ∧
  (∀ iid rid a, is_ok (run (CreateBootTrustChallenge iid fp rid) a db).1 = false) ∧
  (∀ iid pem ek rid a key, ParseRSAPublicKeyPEM (TrimSpace pem) = Ok (key, fp) →
     is_ok (run (RegisterBootTrustKey iid pem ek rid) a db).1 = false) ∧
  (∀ iid id sig rid a rel db' r, challenges db !! TrimSpace id = Some r → cl_key r = fp →
     run (CompleteBootTrustChallenge iid id sig rid) a db = (Ok rel, db') → rl_Duplicate rel = true).
Proof.
  intros Hk Hst Htrim. split_and!.
  - intros. apply not_true_iff_false. intros Hok. destruct (run _ a db) as [[x|] db1] eqn:Hr; [|done].
    apply ApproveBootTrustKey_Ok in Hr as (_ & k0 & [Hk0 _]%key_of_Some & Hn & _). rewrite Htrim in Hk0. congruence.
  - intros. apply not_true_iff_false. intros Hok. destruct (run _ a db) as [[x|] db1] eqn:Hr; [|done].
    apply CreateBootTrustChallenge_Ok in Hr as (mid & k0 & _ & [Hk0 _]%key_of_Some & Hs & _). rewrite Htrim in Hk0.
    assert (k0 = k) as -> by congruence. by rewrite Hst in Hs.
  - intros iid pem ek rid a key Hp. apply not_true_iff_false. intros Hok. destruct (run _ a db) as [[[x b]|] db1] eqn:Hr; [|done].
    apply RegisterBootTrustKey_Ok in Hr as (key' & fp' & mid & Hp' & _ & Hcase). rewrite Hp in Hp'. simplify_eq.
    destruct Hcase as [(_ & k0 & [Hk0 _]%key_of_Some & Hn & _)|(_ & _ & Ef & _ & _ & db0 & e & (Hfresh & _)%insert_trust_key_Ok & _)].
    + rewrite Htrim in Hk0. congruence.
    + rewrite Ef in Hfresh. congruence.
  - intros iid id sig rid a rel db' r Hr Hfp [(Hd & _)|(_ & r' & k' & pub & s & secret & seed & db0 & e & [] & _)]%CompleteBootTrustChallenge_Ok;
      [done|]. simplify_eq. apply key_of_Some in pr_key as [Hk' _]. rewrite Htrim in Hk'.
    assert (k' = k) as -> by congruence. by rewrite Hst in pr_approved.
Qed.

(** ** Witnesses *)

Lemma released : run (CompleteBootTrustChallenge sample_iid sample_challenge_id sample_proof "req-8") (at_time 1007%Z "a") db_challenged
  = (Ok (mkRelease sample_challenge_id (RawURLEncoding_EncodeToString (filled 32 "a")) "RSA-OAEP-SHA256"
           (epoch + 1007 + defaultLifecycleCredentialTTL)%Z false), db_released).
Proof. vm_compute. reflexivity. Qed.

Lemma release_requires_proof_witness :
  ∃ secret cid c, credentials db_released !! cid = Some c ∧ cr_secret_sha256 c = Artifact.sha256 secret.
Proof.
  pose proof (release_requires_proof _ _ _ _ _ _ _ _ released eq_refl)
    as (r & k & pub & s & secret & seed & cid & c & _ & _ & _ & Hc & _ & Hs & _).
  exists secret, cid, c. split; [exact Hc|exact Hs].
Defined.

Lemma secret_is_revealed_once_witness :
  is_ok (run (IssueLifecycleCredential sample_iid "req-50" "ops" 0) (at_time 2000%Z "b") db_released).1 = false.
Proof.
  assert (sane (at_time 1007%Z "a")) as Hs by (apply at_time_sane; lia).
  pose proof (secret_is_revealed_once _ _ _ _ _ _ _ _ db_released sample_iid reach_challenged Hs released eq_refl (rtc_refl _ _) eq_refl)
    as [_ Hissue].
  exact (Hissue "req-50" "ops" 0%Z (at_time 2000%Z "b")).
Defined.

Lemma reachable_boot_trust_witness :
  ∃ r, challenges db_released !! sample_challenge_id = Some r ∧ cl_used_at r ≠ None ∧
    credential_of (cl_installation r) db_released ≠ None.
Proof.
  assert (match challenges db_released !! sample_challenge_id with
          | Some r => cl_used_at r = Some (epoch + 1007)%Z | None => False end) as Hused by (vm_compute; reflexivity).
  destruct (challenges db_released !! sample_challenge_id) as [r|] eqn:Hr; [|destruct Hused].
  assert (cl_used_at r ≠ None) as Hn by (rewrite Hused; discriminate).
  pose proof (reachable_boot_trust db_released reach_released) as (_ & _ & _ & Hu).
  exists r. split; [reflexivity|]. split; [exact Hn|]. exact (Hu _ _ Hr Hn).
Defined.

Definition db_revoked : DB :=
  after db_challenged 1007%Z (RevokeBootTrustKey_ sample_machine_id sample_fingerprint "req-30" "ops").

Lemma revoked_key_is_useless_witness :
  is_ok (run (ApproveBootTrustKey sample_machine_id sample_fingerprint "req-31" "ops") (at_time 1008%Z "a") db_revoked).1 = false.
Proof.
  assert ((k_State <$> trust_keys db_revoked !! sample_fingerprint) = Some KeyRevoked) as Hst by (vm_compute; reflexivity).
  destruct (trust_keys db_revoked !! sample_fingerprint) as [k|] eqn:Hk; [|discriminate Hst].
  injection Hst as Hst. pose proof (revoked_key_is_useless db_revoked sample_fingerprint k Hk Hst eq_refl) as [Happ _].
  exact (Happ sample_machine_id "req-31" "ops" (at_time 1008%Z "a")).
Defined.
