(* ===== verification/IdentityTheorems.v ===== *)
(** * Machines, their identifiers, and operator administration

    What discovery may change, and that the last administrator is never lost. *)

From stdpp Require Import relations.
From S2P Require Import Prelude GoStrings Regex Encoding StringFacts Fault Lifecycle Telemetry Op Db Progress.
From S2P Require Artifact Machine Installation Assignment Boottrust Event Identity.
From S2P Require Import StoreTelemetry StoreMachines StoreInstallations StoreTrust StoreUsers StoreDeletion.
From S2P Require Import Store Invariant Reachable Evolution Sample.

(** ** Operations that leave the users alone *)

Section Users.
Context `{Artifact.Crypto}.

Lemma users_server_step j st key msg rid db db' : server_step j st key msg rid db db' → users db' = users db.
Proof. by intros [(-> & _)|(_ & _ & _ & t & ->)]. Qed.

Lemma users_update_armed f id db db' n : update_armed f id db = (db', n) → users db' = users db.
Proof. by intros [(x & _ & _ & _ & ->)|[_ ->]]%update_armed_inv. Qed.

Lemma users_update_key mid fp P f db : users (update_key mid fp P f db) = users db.
Proof. unfold update_key. by repeat case_match. Qed.

Lemma users_use_challenge t ct e id db : users (use_challenge t ct e id db) = users db.
Proof. unfold use_challenge. by repeat case_match. Qed.

Lemma users_accept_report report rid t db : users (accept_report report rid t db) = users db.
Proof. unfold accept_report, revoke_if_terminal. by destruct (Terminal _). Qed.

(** The operations of operator administration. *)
Definition on_users (o : op) : bool :=
  match o with
  | ResolveOperatorUser_ _ _ _ _ _ | ClaimInitialAdmin_ _ _ _ | ApproveOperatorUser_ _ _ _ _ | BlockOperatorUser_ _ _ _
  | SaveOperatorCredential_ _ _ _ _ _ _ => true
  | _ => false
  end.

(** The users after a successful run of another operation. *)
Ltac same_users Hr :=
  first
  [ apply DiscoverMachine_Ok in Hr as (? & ? & ? & ? & ? & ? & _ & _ & [-> _]%persist_all_Ok & -> & _ &
      [(_ & _ & _ & [_ ->]%insert_machine_Ok)|(_ & _ & ->)]); reflexivity
  | apply SetMachineNickname_Ok in Hr as (? & ? & _ & _ & [[-> _]|[? ->]]); reflexivity
  | apply SetMachinePolicy_Ok in Hr as (_ & _ & ? & _ & [(-> & _)|(_ & _ & ? & ->)]); reflexivity
  | apply CreateInstallationSpec_Ok in Hr as (_ & ? & ? & ? & ? & ? & _ & (_ & _ & ->)%insert_spec_Ok & Hs & -> & _);
    simpl; by rewrite (users_server_step _ _ _ _ _ _ _ Hs)
  | apply ArmInstallation_Ok in Hr as (_ & _ & _ & _ & _ & _ & _ & ? & ? & ? & ? & _ & _ &
      (_ & _ & _ & _ & _ & ->)%insert_assignment_Ok & Hs & ->); simpl; by rewrite (users_server_step _ _ _ _ _ _ _ Hs)
  | apply CancelAssignment_Ok in Hr as (? & [? ?] & ? & _ & _ & _ & _ & Hs & ->); simpl; by rewrite (users_update_armed _ _ _ _ _ Hs)
  | apply ConsumeAssignment_Ok in Hr as (? & ? & ? & _ & _ & _ & _ & Hs & ->); simpl; by rewrite (users_update_armed _ _ _ _ _ Hs)
  | apply DeleteInstallation_Ok in Hr as (_ & _ & _ & _ & ->); reflexivity
  | apply DeleteMachine_Ok in Hr as (? & ? & _ & _ & [(? & _)|(_ & _ & _ & _ & _ & _ & ->)]%delete_machine_Ok & ->); [done|reflexivity]
  | apply IssueLifecycleCredential_Ok in Hr as (_ & ? & ? & ? & ? & _ & _ & [-> _]%insert_credential_Ok & -> & _); reflexivity
  | apply AuthenticateLifecycleCredential_Ok in Hr as (? & ? & _ & _ & _ & _ & -> & _); reflexivity
  | apply VerifyLifecycleMAC_Ok in Hr as (? & ? & ? & _ & _ & _ & _ & _ & _ & ->); reflexivity
  | apply RevokeLifecycleCredential_Ok in Hr as ->; reflexivity
  | apply AppendLifecycleEvent_Ok in Hr as (_ & _ & [(_ & -> & _)|(_ & _ & _ & _ & ->)]); [done|apply users_accept_report]
  | apply AppendInstallationLogChunk_Ok in Hr as (_ & _ & [(_ & -> & _)|(_ & _ & _ & _ & _ & ->)]); reflexivity
  | apply RegisterBootTrustKey_Ok in Hr as (? & ? & ? & _ & _ & [(_ & ? & _ & _ & _ & ->)|(_ & _ & _ & _ & _ & ? & ? &
      (_ & _ & ->)%insert_trust_key_Ok & ->)]); [apply users_update_key|reflexivity]
  | apply ApproveBootTrustKey_Ok in Hr as (_ & ? & _ & _ & [(_ & _ & ->)|(_ & _ & ? & ->)]); [done|apply users_update_key]
  | apply RevokeBootTrustKey_Ok in Hr as (? & _ & [(_ & _ & ->)|(_ & ? & ->)]); [done|apply users_update_key]
  | apply CreateBootTrustChallenge_Ok in Hr as (? & ? & _ & _ & _ & _ & _ & _ & _ & (_ & _ & _ & _ & ->)%insert_challenge_Ok); reflexivity
  | apply CompleteBootTrustChallenge_Ok in Hr as [(_ & -> & _)|(_ & ? & ? & ? & ? & ? & ? & ? & ? & _ & _ & _ &
      [-> _]%insert_credential_Ok & ->)]; [done|simpl; by rewrite users_use_challenge] ].

Lemma users_exec_op o a db r db' : on_users o = false → run (exec_op o) a db = (r, db') → users db' = users db.
Proof.
  intros Ho Hr. destruct r as [u|e].
  - destruct o; try discriminate Ho; cbn [exec_op] in Hr; apply run_discard in Hr as [(x & Hr & _)|(e & _ & [=])];
      try destruct x as [? ?]; same_users Hr.
  - apply run_atomic in Hr as ->; [done|]. apply atomic_exec_op. by destruct o.
Qed.

End Users.

(** ** Administrators *)

Section Admins.
Context `{Artifact.Crypto}.

Lemma admin_count_pos db : 0 < admin_count db ↔ ∃ id u, users db !! id = Some u ∧ active_admin u.
Proof.
  unfold admin_count. split.
  - intros Hp. destruct (map_choose (filter (λ p : string * Identity.User, active_admin p.2) (users db))) as (id & u & Hu).
    { intros E. rewrite E, map_size_empty in Hp. lia. }
    apply map_lookup_filter_Some in Hu as [Hu Ha]. eauto.
  - intros (id & u & Hu & Ha). apply Nat.neq_0_lt_0. intros E%map_size_empty_iff.
    assert (filter (λ p : string * Identity.User, active_admin p.2) (users db) !! id = Some u) as Hf
      by (by apply map_lookup_filter_Some). by rewrite E in Hf.
Qed.

(** Another administrator than [id] when there are two. *)
Lemma other_admin db id : 1 < admin_count db → ∃ j u, j ≠ id ∧ users db !! j = Some u ∧ active_admin u.
Proof.
  unfold admin_count. intros Hp. set (m := filter _ (users db)) in Hp.
  destruct (map_choose (delete id m)) as (j & u & [Hne Hu]%lookup_delete_Some).
  { intros E. assert (size (delete id m) = 0) as Hz by (by rewrite E).
    destruct (m !! id) as [v|] eqn:Em; [rewrite map_size_delete_Some in Hz by (by eexists); lia|].
    rewrite map_size_delete_None in Hz by done. lia. }
  apply map_lookup_filter_Some in Hu as [Hu Ha]. eauto.
Qed.

(** An update that keeps the other rows keeps an administrator among them. *)
Lemma admin_count_update f id db :
  0 < admin_count db → (∀ u, users db !! id = Some u → active_admin u → active_admin (f u) ∨ 1 < admin_count db) →
  0 < admin_count (update_user f id db).
Proof.
  intros (j & u & Hu & Ha)%admin_count_pos Hf. apply admin_count_pos. unfold update_user. simpl.
  destruct (decide (id = j)) as [->|Hne].
  - destruct (Hf u Hu Ha) as [Hfu|Hmore].
    + exists j, (f u). by rewrite lookup_alter_eq, Hu.
    + destruct (other_admin _ j Hmore) as (k & v & Hk & Hv & Hav). exists k, v. by rewrite lookup_alter_ne.
  - exists j, u. by rewrite lookup_alter_ne.
Qed.

Lemma admins_Claim u rid actor a db r db' :
  run (ClaimInitialAdmin u rid actor) a db = (r, db') → 0 < admin_count db → 0 < admin_count db'.
Proof.
  intros Hr Hp. apply run_bind_keeps in Hr as [(x & (Hz & _)%claim_tx_Ok)|(e & ->%run_atomic & _)];
    [lia|done|apply atomic_claim_tx|intros; apply keeps_OperatorUser].
Qed.

(** A pending user has no role, so that approval takes none away. *)
Lemma admins_Approve u role rid actor a db r db' :
  wf db → run (ApproveOperatorUser u role rid actor) a db = (r, db') → 0 < admin_count db → 0 < admin_count db'.
Proof.
  intros Hwf Hr Hp. apply run_bind_keeps in Hr as [(x & (_ & Hu & Hst & e & ->)%approve_tx_Ok)|(e & ->%run_atomic & _)];
    [|done|apply atomic_approve_tx|intros; apply keeps_OperatorUser].
  apply (admin_count_update _ _ db); [done|]. intros v Hv [Hrole _].
  destruct (uo_row _ _ (wf_users _ Hwf) _ _ Hu) as (Hid & Hpend & _). rewrite Hid in Hv. simplify_eq.
  by rewrite Hpend in Hrole.
Qed.

Lemma admins_Block u rid actor a db r db' :
  wf db → run (BlockOperatorUser u rid actor) a db = (r, db') → 0 < admin_count db → 0 < admin_count db'.
Proof.
  intros Hwf Hr Hp. apply run_bind_keeps in Hr as [(x & (Hu & Hmore & e & ->)%block_tx_Ok)|(e & ->%run_atomic & _)];
    [|done|apply atomic_block_tx|intros; apply keeps_OperatorUser].
  apply (admin_count_update _ _ db); [done|]. intros v Hv Ha. right.
  destruct (uo_row _ _ (wf_users _ Hwf) _ _ Hu) as (Hid & _). rewrite Hid in Hv. simplify_eq. by apply Hmore.
Qed.

Lemma admins_Resolve p s d e rid a db x db' :
  run (ResolveOperatorUser p s d e rid) a db = (Ok x, db') → 0 < admin_count db → 0 < admin_count db'.
Proof.
  destruct x as [u created].
  intros [(_ & -> & _)|(_ & _ & _ & _ & _ & _ & _ & db1 & ev & (Hf & _ & ->)%insert_user_Ok & ->)]%ResolveOperatorUser_Ok; [done|].
  intros (j & v & Hv & Ha)%admin_count_pos. apply admin_count_pos. exists j, v. simpl. rewrite lookup_insert_ne by congruence. done.
Qed.

Lemma admins_Save u rp c rid actor en a db x db' :
  run (SaveOperatorCredential u rp c rid actor en) a db = (Ok x, db') → 0 < admin_count db → 0 < admin_count db'.
Proof.
  intros (user & db1 & _ & (k & r & -> & _)%upsert_user_credential_Ok & [[_ ->]|(_ & _ & e & ->)])%SaveOperatorCredential_Ok Hp; [done|].
  apply (admin_count_update _ _ (set_user_credentials (<[k := r]> (user_credentials db)) db)); [done|].
  intros v _ [Hrole _]. left. by split.
Qed.

Lemma admins_step db db' : wf db → step db db' → 0 < admin_count db → 0 < admin_count db'.
Proof.
  intros Hwf (o & a & r & _ & Hr) Hp. destruct (on_users o) eqn:Eo.
  2: { unfold admin_count. by rewrite (users_exec_op _ _ _ _ _ Eo Hr). }
  destruct (rereads o) eqn:Er.
  - destruct o; try discriminate Er; cbn [exec_op] in Hr; apply run_discard in Hr as [(x & Hr & _)|(e & Hr & _)];
      first [by eapply admins_Claim|by eapply admins_Approve|by eapply admins_Block].
  - destruct r as [u|e]; [|by apply run_atomic in Hr as ->; [|apply atomic_exec_op]].
    destruct o; try discriminate Eo; try discriminate Er; cbn [exec_op] in Hr;
      apply run_discard in Hr as [(x & Hr & _)|(e & _ & [=])];
      first [by eapply admins_Resolve|by eapply admins_Save].
Qed.
End Admins.

(** ** Properties *)

(** C34. The server never locks out its administrators: once there is an
    administrator who is not blocked, there is one after any number of
    operations, whatever their outcomes. *)
Theorem admin_is_never_lost `{Artifact.Crypto} db db' :
  reachable db → 0 < admin_count db → rtc step db db' → 0 < admin_count db'.
Proof.
  intros Hreach Hp Hs. pose proof (wf_reachable _ Hreach) as Hwf. clear Hreach.
  induction Hs as [|x y z Hs _ IH]; [done|]. apply IH; [by eapply admins_step|by eapply wf_step].
Qed.

(** The initial claim works once: while there is an administrator,
    [ClaimInitialAdmin] is refused and changes nothing, whoever calls it, after
    any number of operations. *)
Theorem initial_claim_is_closed `{Artifact.Crypto} db db' uid rid actor a :
  reachable db → 0 < admin_count db → rtc step db db' →
  is_ok (run (ClaimInitialAdmin uid rid actor) a db').1 = false ∧
  (run (ClaimInitialAdmin uid rid actor) a db').2 = db'.
Proof.
  intros Hreach Hp Hs. assert (0 < admin_count db') as Hp'.
  { pose proof (wf_reachable _ Hreach) as Hwf. clear Hreach.
    induction Hs as [|x y z Hs _ IH]; [done|]. apply IH; [by eapply admins_step|by eapply wf_step]. }
  destruct (run _ a db') as [r db3] eqn:Hr.
  apply run_bind_keeps in Hr as [(x & (Hz & _)%claim_tx_Ok)|(e & ->%run_atomic & ->)];
    [lia|done|apply atomic_claim_tx|intros; apply keeps_OperatorUser].
Qed.

(** In every store the server can reach, a user awaiting review has no role,
    a user who may enrol or sign in has the role of an administrator or an
    operator, no two users share an external identity, and every passkey
    belongs to a user. *)
Theorem reachable_users `{Artifact.Crypto} db :
  reachable db →
  (∀ id u, users db !! id = Some u → Identity.u_Status u = Identity.StatusPendingReview → Identity.u_Role u = "") ∧
  (∀ id u, users db !! id = Some u →
     Identity.u_Status u = Identity.StatusEnrollmentRequired ∨ Identity.u_Status u = Identity.StatusActive →
     Identity.u_Role u = Identity.RoleAdmin ∨ Identity.u_Role u = Identity.RoleOperator) ∧
  (∀ i j x y, users db !! i = Some x → users db !! j = Some y →
     Identity.Provider x = Identity.Provider y → Identity.Subject x = Identity.Subject y → i = j) ∧
  (∀ k r, user_credentials db !! k = Some r → is_Some (users db !! oc_user r)).
Proof.
  intros [U1 U2 U3 U4]%wf_reachable%wf_users. split_and!; [| |exact U3|exact U4].
  - intros id u Hu. by destruct (U1 id u Hu) as (_ & ? & _).
  - intros id u Hu. by destruct (U1 id u Hu) as (_ & _ & ?).
Qed.

(** ** Discovery *)

Section Discovery.
Context `{Artifact.Crypto}.

Lemma scanMachine_ID m : Machine.ID (scanMachine m) = Machine.ID m.
Proof. unfold scanMachine. by case_match. Qed.

Lemma scanMachine_policy m : Machine.m_Policy (scanMachine m) = Machine.m_Policy m.
Proof. unfold scanMachine. by case_match. Qed.

Lemma Identifiers_nonempty obs ids : Machine.Identifiers obs = Ok ids → ids ≠ [].
Proof.
  unfold Machine.Identifiers. intros Hi. apply bind_Ok in Hi as (o1 & _ & Hi). apply bind_Ok in Hi as (o2 & _ & Hi).
  destruct o2; [done|]. simpl in Hi. by injection Hi as <-.
Qed.

Lemma resolved_known l db mid i r :
  resolved l db ⊆ {[mid]} → i ∈ l → identifiers db !! ident_key i = Some r → id_machine r = mid.
Proof.
  intros Hs Hi Hr. assert (id_machine r ∈ resolved l db) as Hin; [|set_solver].
  unfold resolved. apply elem_of_list_to_set, list_elem_of_omap. exists i. unfold ident_key in Hr. by rewrite Hr.
Qed.

(** The discovered machine owns the identifiers it was found by. *)
Lemma persist_all_owned ids id stamp db1 db2 :
  persist_all id stamp ids db1 = Ok db2 → resolved ids db1 ⊆ {[id]} →
  ∀ i, i ∈ ids → id_machine <$> identifiers db2 !! ident_key i = Some id.
Proof.
  intros [_ Hall]%persist_all_Ok Hs i Hi. rewrite Hall.
  destruct (identifiers db1 !! ident_key i) as [r|] eqn:Er; simpl.
  - f_equal. by eapply resolved_known.
  - rewrite bool_decide_true; [done|]. by apply list_elem_of_fmap_2.
Qed.

Lemma resolved_owned ids id db :
  ids ≠ [] → (∀ i, i ∈ ids → id_machine <$> identifiers db !! ident_key i = Some id) → resolved ids db = {[id]}.
Proof.
  intros Hne Hall. apply set_eq. intros x. rewrite elem_of_singleton. unfold resolved.
  rewrite elem_of_list_to_set, list_elem_of_omap. split.
  - intros (i & Hi & Hx). pose proof (Hall i Hi) as E. unfold ident_key in E. congruence.
  - intros ->. destruct ids as [|i ids]; [done|]. exists i. split; [by left|]. apply (Hall i). by left.
Qed.
End Discovery.

(** Discovery only observes: the observed identifiers all resolve to the
    returned machine, identifiers that were known keep their machine, no
    machine loses or changes its policy or nickname, a machine is created (with
    the policy pending) only when no identifier was known, and discovering the
    same observation again finds the same machine. *)
Theorem discovery_only_observes `{Artifact.Crypto} obs rid a db m created db' :
  reachable db → run (DiscoverMachine obs rid) a db = (Ok (m, created), db') →
  (∃ ids, Machine.Identifiers obs = Ok ids ∧
     (∀ i, i ∈ ids → id_machine <$> identifiers db' !! ident_key i = Some (Machine.ID m)) ∧
     (created = true → resolved ids db = ∅ ∧ machines db !! Machine.ID m = None ∧ Machine.m_Policy m = Machine.PolicyPending)) ∧
  (∀ k r, identifiers db !! k = Some r → id_machine <$> identifiers db' !! k = Some (id_machine r)) ∧
  (∀ id x, machines db !! id = Some x → ∃ y, machines db' !! id = Some y ∧
     Machine.m_Policy y = Machine.m_Policy x ∧ Machine.Nickname y = Machine.Nickname x) ∧
  (∀ rid' a' m' created' db'', run (DiscoverMachine obs rid') a' db' = (Ok (m', created'), db'') →
     created' = false ∧ Machine.ID m' = Machine.ID m).
Proof.
  intros Hreach Hr. pose proof (wf_reachable _ Hreach) as Hwf. pose proof (wf_DiscoverMachine _ _ _ _ _ _ _ Hwf Hr) as Hwf'.
  apply DiscoverMachine_Ok in Hr as (state & ids & id & db1 & db2 & e & _ & Hids & Hp & -> & (row & Hrow & ->) & Hcase).
  destruct (mo_row _ _ (wf_machines _ Hwf') _ _ Hrow) as [Hid _]. rewrite scanMachine_ID, Hid.
  pose proof (persist_all_Ok _ _ _ _ _ Hp) as [E2 Hall].
  assert (identifiers db1 = identifiers db ∧ resolved ids db ⊆ {[id]}) as [Ei Hres].
  { destruct Hcase as [(_ & -> & _ & [_ ->]%insert_machine_Ok)|(_ & -> & ->)]; split; set_solver. }
  assert (resolved ids db1 = resolved ids db) as Er by (unfold resolved; by rewrite Ei).
  assert (∀ i, i ∈ ids → id_machine <$> identifiers db2 !! ident_key i = Some id) as Hown
    by (eapply persist_all_owned; [exact Hp|by rewrite Er]).
  split_and!.
  - exists ids. split_and!; [done|exact Hown|]. intros ->.
    destruct Hcase as [(_ & Hnone & _ & [Hf E1]%insert_machine_Ok)|(? & _)]; [|done]. split_and!; [done|done|].
    rewrite E2, E1 in Hrow. simpl in Hrow. rewrite lookup_insert_eq in Hrow. injection Hrow as <-. by rewrite scanMachine_policy.
  - intros k r Hk. simpl. by rewrite Hall, Ei, Hk.
  - intros j x Hx. simpl. rewrite E2. simpl. destruct Hcase as [(_ & _ & _ & [Hf ->]%insert_machine_Ok)|(_ & _ & ->)]; simpl.
    + exists x. rewrite lookup_insert_ne by (simpl in Hf |- *; congruence). done.
    + destruct (decide (id = j)) as [->|Hne]; [|exists x; by rewrite lookup_alter_ne].
      eexists. by rewrite lookup_alter_eq, Hx.
  - intros rid' a' m' created' db'' Hr'. pose proof (wf_DiscoverMachine _ _ _ _ _ _ _ Hwf' Hr') as Hwf''.
    apply DiscoverMachine_Ok in Hr' as (state' & ids' & id' & db3 & db4 & e' & _ & Hids' & _ & -> & (row' & Hrow' & ->) & Hcase').
    destruct (mo_row _ _ (wf_machines _ Hwf'') _ _ Hrow') as [Hid' _]. rewrite scanMachine_ID, Hid'.
    assert (ids' = ids) as -> by congruence.
    assert (resolved ids (audit e db2) = {[id]}) as Hone by (apply resolved_owned; [by eapply Identifiers_nonempty|exact Hown]).
    rewrite Hone in Hcase'. destruct Hcase' as [(_ & Hz & _)|(-> & Hz & _)]; set_solver.
Qed.

(** ** Witnesses *)

Definition db_rediscovered : DB := after db_admin 1015%Z (DiscoverMachine_ sample_observation "req-40").

Lemma admin_is_never_lost_witness : 0 < admin_count db_admin ∧ 0 < admin_count db_rediscovered.
Proof.
  assert (0 < admin_count db_admin) as Hp by (vm_compute; lia).
  assert (rtc step db_admin db_rediscovered) as Hs by (apply rtc_once, after_step; lia).
  split; [exact Hp|]. exact (admin_is_never_lost db_admin db_rediscovered reach_admin Hp Hs).
Defined.

Lemma initial_claim_is_closed_witness :
  0 < admin_count db_admin ∧
  is_ok (run (ClaimInitialAdmin sample_user_id "req-42" "setup") (at_time 1016%Z "a") db_admin).1 = false.
Proof.
  assert (0 < admin_count db_admin) as Hp by (vm_compute; lia).
  split; [exact Hp|].
  exact (proj1 (initial_claim_is_closed db_admin db_admin sample_user_id "req-42" "setup" (at_time 1016%Z "a")
    reach_admin Hp (rtc_refl _ _))).
Defined.

Lemma reachable_users_witness :
  ∃ u, users db_user !! sample_user_id = Some u ∧ Identity.u_Status u = Identity.StatusPendingReview ∧ Identity.u_Role u = "".
Proof.
  assert (match users db_user !! sample_user_id with
          | Some u => Identity.u_Status u = Identity.StatusPendingReview | None => False end) as Hst by (vm_compute; reflexivity).
  destruct (users db_user !! sample_user_id) as [u|] eqn:Hu; [|destruct Hst].
  pose proof (reachable_users db_user reach_user) as (Hpend & _).
  exists u. split; [reflexivity|]. split; [exact Hst|]. exact (Hpend _ _ Hu Hst).
Defined.

Lemma discovery_only_observes_witness :
  ∃ m, (run (DiscoverMachine sample_observation "req-1") (at_time 1000%Z "a") empty_db).1 = Ok (m, true) ∧
    Machine.m_Policy m = Machine.PolicyPending.
Proof.
  assert (match (run (DiscoverMachine sample_observation "req-1") (at_time 1000%Z "a") empty_db).1 with
          | Ok (_, created) => created = true | Err _ => False end) as Hok by (vm_compute; reflexivity).
  destruct (run _ _ empty_db) as [[[m created]|e] db'] eqn:Hr; cbn [fst] in Hok; [|destruct Hok]. subst created.
  exists m. split; [reflexivity|].
  pose proof (discovery_only_observes sample_observation "req-1" _ empty_db m true db' (rtc_refl _ _) Hr)
    as ((ids & _ & _ & Hpend) & _).
  exact (proj2 (proj2 (Hpend eq_refl))).
Defined.
