(* ===== verification/SystemTheorems.v ===== *)
(** * The boot server: what its answers and its runs guarantee *)

From stdpp Require Import relations.
From S2P Require Import Prelude GoStrings Fault Encoding GoParse StringFacts Op Db Http HttpDiscovery HttpProvisioning HttpTelemetry.
From S2P Require Artifact Machine Boot Secureboot Installation Assignment Telemetry Lifecycle Debian13 Debian13Theorems.
From S2P Require Import StoreTelemetry StoreMachines StoreInstallations StoreTrust Store Invariant Reachable Evolution.
From S2P Require Import System Programs Handoff Limiter Answers HttpFacts Sample SampleServer Scripts.

(** ** Boot material *)

Section Material.
Context `{Decoders} `{Artifact.Crypto} (server : Server) (fetch : string → result (Z * result string))
  (env : nat → ambient) (allow : bool).

(** What an authorised request is answered with. *)
Definition material_for (x : route) (r : Request) (db db' : DB) (m : publicBootContext) (b : body) : Prop :=
  match x with
  | BootScript => db' = db ∧ ∃ s args, Debian13.RenderBoot (pc_Spec m) = Ok s ∧
      renderIPXEKernelArguments (Boot.Arguments s) = Ok args ∧
      b = p_Body (write_text (boot_script_lines (requestBaseURL r) (TrimSpace (q_ID r)) args))
  | ArtifactFile => db' = db ∧ ∃ d content, d ∈ Installation.Artifacts (pc_Spec m) ∧
      Artifact.Name d = TrimSpace (q_Name r) ∧ b = Text content ∧ Artifact.SHA256 content = Artifact.Digest d
  | _ => (∃ rid seed, Debian13.RenderSeed (pc_Spec m) rid = Ok seed ∧ b = Text (Debian13.Content seed)) ∧
      ∃ y, assignment_of (TrimSpace (q_ID r)) db' = Some y ∧ Assignment.a_State y = Assignment.StateConsumed
  end.

Lemma by_name l name d : installationArtifactByName l name = Some d → d ∈ l ∧ Artifact.Name d = name.
Proof.
  unfold installationArtifactByName. intros Hh%head_Some_elem_of. by apply list_elem_of_filter in Hh as [? ?].
Qed.

Lemma served_script r rid n db p db' :
  wf db → served env allow (installationBootScript server r rid) n db p db' →
  (p_Status p ≠ StatusOK ∧ db' = db) ∨
  ∃ m, p_Status p = StatusOK ∧ authorised server (TrimSpace (q_ID r)) db m ∧ material_for BootScript r db db' m (p_Body p).
Proof.
  intros Hwf. unfold installationBootScript. intros (material & db1 & n1 & Hc & [-> ->]%served_ret)%served_bind.
  apply served_context in Hc as [-> Hm]. destruct material as [m|err]; [|left; split; [apply error_status|done]].
  specialize (Hm Hwf). destruct (Debian13.RenderBoot (pc_Spec m)) as [s|] eqn:Es; [|by left].
  destruct (renderIPXEKernelArguments _) as [args|] eqn:Ea; [|by left].
  destruct (installationArtifactByName _ _); [|by left].
  right. exists m. split_and!; [done|done|]. split; [done|]. exists s, args. split_and!; try done.
  destruct Hm as (Hs & _). apply (wf_specs _ Hwf) in Hs as [-> _]. done.
Qed.

Lemma served_artifact r rid n db p db' :
  wf db → served env allow (installationArtifact server fetch r rid) n db p db' →
  (p_Status p ≠ StatusOK ∧ db' = db) ∨
  ∃ m, p_Status p = StatusOK ∧ authorised server (TrimSpace (q_ID r)) db m ∧ material_for ArtifactFile r db db' m (p_Body p).
Proof.
  intros Hwf. unfold installationArtifact. intros (material & db1 & n1 & Hc & [-> ->]%served_ret)%served_bind.
  apply served_context in Hc as [-> Hm]. destruct material as [m|err]; [|left; split; [apply error_status|done]].
  specialize (Hm Hwf). destruct (Debian13.ValidateSpec (pc_Spec m)) as [s|] eqn:Es; [|by left]. cbv zeta.
  destruct (_ && _); [by left|].
  destruct (installationArtifactByName _ _) as [d|] eqn:Ed; [|by left].
  destruct (Artifact.Load _ _ _ _) as [content|] eqn:El; [|by left].
  right. exists m. split_and!; [done|done|]. split; [done|]. apply by_name in Ed as [Hd Hn].
  exists d, content. split_and!; try done. unfold Artifact.Load in El. ok_inv.
  match goal with Hv : Artifact.VerifyContent _ _ = _ |- _ => by apply Artifact.VerifyContent_Ok in Hv as (_ & _ & Hdg) end.
Qed.

Lemma served_preseed r rid n db p db' :
  (∀ i, sane (env i)) → wf db → served env allow (installationPreseed server r rid) n db p db' →
  (p_Status p ≠ StatusOK ∧ db' = db) ∨
  ∃ m, p_Status p = StatusOK ∧ authorised server (TrimSpace (q_ID r)) db m ∧ material_for Preseed r db db' m (p_Body p).
Proof.
  intros Henv Hwf. unfold installationPreseed. intros (material & db1 & n1 & Hc & Hk)%served_bind.
  apply served_context in Hc as [-> Hm]. destruct material as [m|err];
    [|apply served_ret in Hk as [-> ->]; left; split; [apply error_status|done]].
  specialize (Hm Hwf). destruct (Debian13.RenderSeed (pc_Spec m) rid) as [seed|] eqn:Es; [|left; by apply served_ret in Hk as [-> ->]].
  apply served_bind in Hk as (handed & db2 & n2 & Hr%served_call & Hk).
  destruct handed as [y|e]; apply served_ret in Hk as [-> ->];
    [|left; split; [done|by eapply run_atomic; [apply atomic_ConsumeAssignment|]]].
  right. exists m. split_and!; [done|done|]. split; [by exists rid, seed|].
  destruct (consumed_assignment_of _ _ _ _ _ _ _ Hwf (Henv _) Hr) as (y' & Hy & Hst). exists y'. split; [|done].
  rewrite <- Hy. f_equal. destruct Hm as (Hs & _). pose proof (wf_specs _ Hwf _ _ Hs) as (-> & _).
  symmetry. apply TrimSpace_idem.
Qed.
End Material.

(** C3. Boot material is served to no one else: the boot script, the preseed and
    the artifacts are answered with status 200 only for an installation that
    exists, whose assignment is armed, on a machine the operator set to
    provision and whose Secure Boot state the policy allows; the answer is then
    the script, the seed or the pinned content of that installation; serving the
    preseed leaves the assignment consumed, and every other answer leaves the
    database as it was. *)
Theorem boot_material_is_authorised `{Decoders} `{Artifact.Crypto} server fetch env allow x r db p db' :
  reachable db → (∀ n, sane (env n)) → x ∈ [BootScript; Preseed; ArtifactFile] →
  serve (handle server fetch x r) env allow 0 db = (p, db') →
  (p_Status p ≠ StatusOK ∧ db' = db) ∨
  ∃ m, p_Status p = StatusOK ∧ authorised server (TrimSpace (q_ID r)) db m ∧ material_for x r db db' m (p_Body p).
Proof.
  intros Hwf%wf_reachable Henv Hx Hs. apply served_handle in Hs as [[Hst ->]|(rid & r' & rid' & n & q & _ & Hq & Hst & Hb & ->)];
    [left; by rewrite Hst|]. rewrite Hst, Hb. clear Hst Hb.
  rewrite !elem_of_cons, elem_of_nil in Hx. destruct Hx as [->|[->|[->|[]]]]; cbn [handler_of] in Hq.
  - by apply served_script in Hq.
  - by apply served_preseed in Hq.
  - by apply served_artifact in Hq.
Qed.

(** ** Telemetry *)

Definition telemetry_routes : list route := [TelemetryEvent; TelemetryLog; ReporterEvent; ReporterLog].

(** The proof of possession a telemetry route asks for. *)
Definition authenticator `{Decoders} `{Artifact.Crypto} (x : route) (r : Request) : string → Prop :=
  match x with TelemetryEvent | TelemetryLog => bearer r | _ => signed r end.

(** The database has the record of the installation with the request's key. *)
Definition recorded (x : route) (iid key : string) (db : DB) : Prop :=
  match x with
  | TelemetryEvent | ReporterEvent =>
    ∃ e, e ∈ lifecycle_events db ∧ Lifecycle.InstallationID e = iid ∧ Lifecycle.IdempotencyKey e = key
  | _ => ∃ c, c ∈ log_chunks db ∧ Telemetry.l_InstallationID c = iid ∧ Telemetry.l_IdempotencyKey c = key
  end.

Section Accepted.
Context `{Decoders} `{Artifact.Crypto} (env : nat → ambient) (allow : bool).

Lemma telemetry_error_status err : (400 ≤ p_Status (writeTelemetryError err))%Z.
Proof. unfold writeTelemetryError. cbv zeta. by repeat case_match. Qed.

Lemma event_recorded report rid a db e dup db' :
  run (AppendLifecycleEvent report rid) a db = (Ok (e, dup), db') →
  recorded TelemetryEvent (Lifecycle.r_InstallationID report) (Lifecycle.r_IdempotencyKey report) db'.
Proof.
  intros (_ & _ & [(_ & -> & Hk & _)|(_ & _ & _ & _ & ->)])%AppendLifecycleEvent_Ok.
  - unfold event_by_key, installation_history in Hk. apply head_Some_elem_of in Hk.
    rewrite !list_elem_of_filter in Hk. destruct Hk as (? & ? & ?). by exists e.
  - exists (reported_event report rid (clock a) (lifecycle_seq db + 1)). split; [|done].
    unfold accept_report, revoke_if_terminal. destruct (Lifecycle.Terminal _); cbn; apply elem_of_app; right; by left.
Qed.

Lemma log_recorded chunk a db c dup db' :
  run (AppendInstallationLogChunk chunk) a db = (Ok (c, dup), db') →
  recorded TelemetryLog (Telemetry.l_InstallationID chunk) (Telemetry.l_IdempotencyKey chunk) db'.
Proof.
  intros (_ & _ & [(_ & -> & Hk & _)|(_ & _ & _ & _ & -> & ->)])%AppendInstallationLogChunk_Ok.
  - unfold log_by_key, installation_logs in Hk. apply head_Some_elem_of in Hk.
    rewrite !list_elem_of_filter in Hk. destruct Hk as (? & ? & ?). by exists c.
  - eexists. split; [apply elem_of_app; right; by left|done].
Qed.

Lemma served_append_event iid key rid payload n db p db' :
  served env allow (append_event iid key rid payload) n db p db' →
  (400 ≤ p_Status p)%Z ∨ recorded TelemetryEvent iid key db'.
Proof.
  unfold append_event. destruct (parseOptionalClientTime _) as [t|]; [|intros [-> ->]%served_ret; by left].
  intros (r & db1 & n1 & Hr%served_call & [-> ->]%served_ret)%served_bind.
  destruct r as [[e dup]|err]; [right|left; apply telemetry_error_status]. by apply event_recorded in Hr.
Qed.

Lemma served_append_log iid key rid payload n db p db' :
  served env allow (append_log iid key rid payload) n db p db' →
  (400 ≤ p_Status p)%Z ∨ recorded TelemetryLog iid key db'.
Proof.
  unfold append_log. destruct (_ <? _)%Z; [intros [-> ->]%served_ret; by left|].
  destruct (parseOptionalClientTime _) as [t|]; [|intros [-> ->]%served_ret; by left].
  intros (r & db1 & n1 & Hr%served_call & [-> ->]%served_ret)%served_bind.
  destruct r as [[c dup]|err]; [right|left; apply telemetry_error_status]. by apply log_recorded in Hr.
Qed.

Lemma served_telemetry x server fetch r rid n db p db' :
  x ∈ telemetry_routes → served env allow (handler_of server fetch x r rid) n db p db' →
  let iid := TrimSpace (q_ID r) in
  ((400 ≤ p_Status p)%Z ∧ db' = db) ∨
  ∃ i, live_credential iid (clock (env i)) (authenticator x r) db ∧
    ((400 ≤ p_Status p)%Z ∨ recorded x iid (TrimSpace (header r "Idempotency-Key")) db').
Proof.
  intros Hx Hs iid. unfold telemetry_routes in Hx. rewrite !elem_of_cons, elem_of_nil in Hx.
  assert (TrimSpace iid = iid) as Ei by apply TrimSpace_idem.
  destruct Hx as [->|[->|[->|[->|[]]]]]; cbn [handler_of] in Hs;
    unfold installationTelemetryEvent, installationTelemetryLog, reporterTelemetryEvent, reporterTelemetryLog in Hs;
    cbv zeta in Hs; fold iid in Hs.
  1,2: apply served_bind in Hs as (refused & db1 & n1 & Hb & Hs); apply served_bearer in Hb;
    destruct refused as [q|];
    [apply served_ret in Hs as [-> ->]; destruct Hb as [-> [-> | ->]]; by left|];
    destruct Hb as (i & Hb); rewrite Ei in Hb; right; exists i; split; [done|];
    destruct (Lifecycle.ValidateIdempotencyKey _); [|apply served_ret in Hs as [-> ->]; by left];
    destruct (decodeTelemetryJSON _ _ _) as [payload|]; [|apply served_ret in Hs as [-> ->]; by left].
  - by apply served_append_event in Hs.
  - by apply served_append_log in Hs.
  - destruct (Lifecycle.ValidateIdempotencyKey _); [|apply served_ret in Hs as [-> ->]; by left].
    apply served_bind in Hs as (refused & db1 & n1 & Hb & Hs). apply served_signed in Hb.
    destruct refused as [q|content]; [apply served_ret in Hs as [-> ->]; destruct Hb as [-> [-> | ->]]; by left|].
    destruct Hb as (i & Hb). rewrite Ei in Hb. right. exists i. split; [done|].
    destruct (decode_event content); [|apply served_ret in Hs as [-> ->]; by left]. by apply served_append_event in Hs.
  - destruct (Lifecycle.ValidateIdempotencyKey _); [|apply served_ret in Hs as [-> ->]; by left].
    apply served_bind in Hs as (refused & db1 & n1 & Hb & Hs). apply served_signed in Hb.
    destruct refused as [q|content]; [apply served_ret in Hs as [-> ->]; destruct Hb as [-> [-> | ->]]; by left|].
    destruct Hb as (i & Hb). rewrite Ei in Hb. right. exists i. split; [done|].
    destruct (decode_log content); [|apply served_ret in Hs as [-> ->]; by left]. by apply served_append_log in Hs.
Qed.

(** The identifier the middleware sets is not what authenticates. *)
Lemma authenticator_middleware x r rid verifier :
  authenticator x (set_request_header "X-Request-ID" rid r) verifier → authenticator x r verifier.
Proof.
  destruct x; unfold authenticator, bearer, signed; by rewrite ?header_set_ne.
Qed.
End Accepted.

(** C4. Telemetry is accepted from the installation only: a request on a
    telemetry route is refused with the database as it was, unless a live
    credential of the installation authenticates it -- the bearer token is the
    credential's secret or the signature is made with its verifier over the
    request as it was received --, and a request that is not refused left an
    event or a log chunk of the installation under its idempotency key. *)
Theorem telemetry_needs_a_credential `{Decoders} `{Artifact.Crypto} server fetch env allow x r db p db' :
  x ∈ telemetry_routes → serve (handle server fetch x r) env allow 0 db = (p, db') →
  let iid := TrimSpace (q_ID r) in
  ((400 ≤ p_Status p)%Z ∧ db' = db) ∨
  ∃ i, live_credential iid (clock (env i)) (authenticator x r) db ∧
    ((400 ≤ p_Status p)%Z ∨ recorded x iid (TrimSpace (header r "Idempotency-Key")) db').
Proof.
  intros Hx Hs. apply served_handle in Hs as [[Hst ->]|(rid & r' & rid' & n & q & _ & Hq & Hst & _ & ->)];
    [left; by rewrite Hst|]. rewrite Hst. eapply served_telemetry in Hq; [|done].
  rewrite header_set_ne in Hq by done. destruct Hq as [Hq|(i & (id & row & Hc & Hr & Ht & Ha) & Hq)]; [by left|right].
  exists i. split; [|done]. exists id, row. split_and!; try done. by eapply authenticator_middleware.
Qed.

(** ** Runs of the server *)

(** C21. The boot server refines the store: whatever requests arrive, however the
    calls of the requests it works on interleave with one another and with other
    users of the database, every step of the server is a step of the store or
    leaves the database as it was; so the database of a running server is one
    the store can reach. *)
Theorem server_refines_store `{Decoders} `{Artifact.Crypto} server s :
  sys_reachable server s →
  reachable (sys_db s) ∧ ∀ s', sys_step server s s' → rtc step (sys_db s) (sys_db s').
Proof.
  intros (db & Hdb & Hs). destruct (sys_steps_refine _ _ _ Hs) as [Hp Hr]; [done|].
  split; [unfold reachable in *; by etrans|]. intros s' Hst. by apply (sys_step_refines server s s').
Qed.

(** C2. The destructive handoff happens once: however many requests for the
    preseed of an installation the server works on at the same time, at most one
    of them is answered with the preseed as long as the installation is not
    deleted; and from then on the installation's assignment has ended. *)
Theorem preseed_is_served_once `{Decoders} `{Artifact.Crypto} server iid db s :
  reachable db → is_Some (specs db !! iid) → rtc (alive_sys server iid) (booted db) s →
  deliveries iid (sys_answers s) ≤ 1 ∧ (deliveries iid (sys_answers s) = 1 → spent iid (sys_db s)).
Proof.
  intros Hwf%wf_reachable Hs Hr.
  destruct (handoff_steps server iid None _ _ (handoff_booted _ _ Hwf Hs) Hr) as [who [_ _ _ _ Hsp Hc]].
  split; [destruct who; lia|]. intros Hd. apply Hsp. right. lia.
Qed.

(** C23. The server always answers: with seven calls at most for each request,
    the requests it works on can keep it busy for no more than eight steps each,
    in whatever order these run, and as long as one of them is not answered
    there is a step to take. *)
Theorem server_quiesces `{Decoders} `{Artifact.Crypto} server s :
  sys_reachable server s →
  (∀ l s', forallb serving l = true → acts server (λ _, true) s l = Some s' → length l ≤ 8 * size (sys_pool s)) ∧
  (sys_pool s ≠ ∅ → ∃ c s', serving c = true ∧ action_ok c ∧ act server s c = Some s').
Proof.
  intros Hs. split.
  - intros l s' Hl Ha. rewrite <- (total_const 7). eapply acts_bounded; [exact Hl| |exact Ha].
    intros n t Ht. exists 7. rewrite lookup_fmap, Ht. split; [done|].
    apply (bounded_tasks server s Hs n t Ht).
  - intros Hn. apply map_choose in Hn as (n & t & Ht). by eapply act_enabled.
Qed.


(** ** Listeners *)

(** The pattern a route is registered with, by either mux. *)
Definition pattern_of (x : route) : option string :=
  match core_pattern x with Some p => Some p | None => outer_pattern x end.

Definition boot_routes : list route :=
  [Health; Bootstrap; DiscoveryJSON; DiscoveryIPXE; BootScript; Preseed; ArtifactFile].

Lemma match_nil path : segments_match [] path = true → path = [].
Proof. by destruct path. Qed.

Lemma match_fixed p ps path : HasPrefix p "{" = false → segments_match (p :: ps) path = true →
  ∃ rest, path = p :: rest ∧ segments_match ps rest = true.
Proof. intros Hp. destruct path as [|x path]; [done|]. cbn. rewrite Hp. intros [->%String.eqb_eq ?]%andb_true_iff. by exists path. Qed.

Lemma match_wild p ps path : HasPrefix p "{" = true → segments_match (p :: ps) path = true →
  ∃ x rest, path = x :: rest ∧ segments_match ps rest = true.
Proof. intros Hp. destruct path as [|x path]; [done|]. cbn. rewrite Hp. intros [_ ?]%andb_true_iff. by exists x, path. Qed.

(** Writes the path of a request out. *)
Ltac match_path Hm :=
  repeat lazymatch type of Hm with
  | segments_match [] _ = true => apply match_nil in Hm
  | segments_match (?p :: _) _ = true =>
    first [ let x := fresh "seg" in apply match_wild in Hm; [destruct Hm as (x & ? & -> & Hm)|reflexivity]
          | apply match_fixed in Hm; [destruct Hm as (? & -> & Hm)|reflexivity] ]
  end; subst.

(** The boot network reaches the boot routes only: of the paths of the
    server's routes the listener for booting machines serves exactly discovery,
    boot material and the health check, and the operators' listener serves none
    but the health check; telemetry, boot trust and the machine inventory are
    behind neither. *)
Theorem listeners_expose x pattern path :
  pattern_of x = Some pattern → pattern_matches pattern path = true →
  (pxeSurface path = Serves ↔ x ∈ boot_routes) ∧ (studioSurface path = Serves ↔ x = Health).
Proof.
  intros Hx Hm. rewrite <- (join_split "/" path).
  destruct x; (injection Hx as <-); unfold pattern_matches in Hm;
    match type of Hm with context [cut_byte ?c ?p] => let v := eval vm_compute in (cut_byte c p) in change (cut_byte c p) with v in Hm end;
    cbv beta iota in Hm;
    match type of Hm with context [split_byte ?c ?p] =>
      lazymatch p with path => fail | _ => let v := eval vm_compute in (split_byte c p) in change (split_byte c p) with v in Hm end end;
    revert Hm; generalize (split_byte "/" path); intros segs Hm.
  all: match_path Hm; split; (split; [intros Hs|intros Hin]);
    first [ reflexivity | discriminate | by_decide | exfalso; revert Hin; by_decide ].
Qed.

(** ** Scripts *)

Section ServedScripts.
Context `{Decoders} `{Artifact.Crypto} (server : Server) (env : nat → ambient) (allow : bool).

(** The response is a script. *)
Definition scripted (r : Request) (p : Response) : Prop := ∃ l, script r l ∧ p_Body p = p_Body (write_text l).

Lemma scripted_ipxe r message reason : scripted r (writeIPXE message reason).
Proof.
  unfold writeIPXE. destruct (localBootReason reason).
  - exists (local_boot_lines message reason). split; [apply script_local|reflexivity].
  - exists (exit_lines message reason). split; [apply script_exit|reflexivity].
Qed.

Lemma served_discovery r rid n db p db' : served env allow (discoveryIPXE server r rid) n db p db' → scripted r p.
Proof.
  unfold discoveryIPXE, served. cbn [serve]. destruct allow; cbn [negb]; [|intros [= <- _]; apply scripted_ipxe].
  destruct (decodeObservation r) as [o|]; [|intros [= <- _]; apply scripted_ipxe].
  intros (d & db1 & n1 & _ & Hk)%served_bind.
  destruct d as [d|]; [|apply served_ret in Hk as [-> _]; apply scripted_ipxe].
  destruct (_ && _); [|apply served_ret in Hk as [-> _]; apply scripted_ipxe].
  apply served_bind in Hk as (e & db2 & n2 & _ & Hk).
  destruct e as [e|]; apply served_ret in Hk as [-> _]; [|apply scripted_ipxe].
  exists (chain_lines r (dr_InstallationID d)). split; [apply script_chain|reflexivity].
Qed.

Lemma served_boot_script r rid n db p db' :
  served env allow (installationBootScript server r rid) n db p db' → p_Status p = StatusOK → scripted r p.
Proof.
  unfold installationBootScript. intros (material & db1 & n1 & _ & [-> _]%served_ret)%served_bind.
  destruct material as [m|err]; [|intros Hst; by destruct (error_status err)].
  destruct (Debian13.RenderBoot (pc_Spec m)) as [s|]; [|done].
  destruct (renderIPXEKernelArguments _) as [args|] eqn:Ea; [|done]. destruct (installationArtifactByName _ _); [|done].
  intros _. exists (boot_script_lines (requestBaseURL r) (Installation.spec_ID (pc_Spec m)) args).
  split; [|reflexivity]. apply script_boot. by eapply arguments_line.
Qed.
End ServedScripts.

(** C22. No one injects a command into a boot script: whatever the Host header,
    the identifiers, the reported hardware or the kernel arguments are, the
    lines of a script that is served are exactly the commands of one of the
    five scripts of the server. *)
Theorem scripts_have_only_server_lines `{Decoders} `{Artifact.Crypto} server fetch env allow x r db p db' :
  x ∈ [Bootstrap; DiscoveryIPXE; BootScript] → serve (handle server fetch x r) env allow 0 db = (p, db') →
  p_Status p = StatusOK →
  ∃ l t, script r l ∧ p_Body p = Text t ∧ split_byte (byte_of 10) t = l ++ [""].
Proof.
  intros Hx Hs. apply served_handle in Hs as [[Hst _]|(rid & r' & rid' & n & q & _ & Hq & Hst & Hb & ->)]; [by rewrite Hst|].
  rewrite Hst, Hb. intros Hok. set (r' := set_request_header "X-Request-ID" rid r) in *.
  assert (scripted r' q) as (l & Hl & El).
  { rewrite !elem_of_cons, elem_of_nil in Hx. destruct Hx as [->|[->|[->|[]]]]; cbn [handler_of] in Hq.
    - apply served_ret in Hq as [-> _]. exists (bootstrap_lines r'). split; [apply script_bootstrap|reflexivity].
    - by eapply served_discovery.
    - by eapply served_boot_script. }
  assert (script r l) as Hr by (by apply (script_host r')).
  rewrite El. destruct (write_text_split l (script_lines _ _ Hr)) as (t & Ht & Hsp). by exists l, t.
Qed.

(** ** The limiter *)

Lemma limiter_ok_step `{Decoders} `{Artifact.Crypto} server s s' :
  sys_step server s s' → limiter_ok (sys_limiter s) → limiter_ok (sys_limiter s').
Proof. intros Hs. destruct Hs; try done. by apply allowDiscovery_ok. Qed.

Lemma limiter_ok_reachable `{Decoders} `{Artifact.Crypto} server s : sys_reachable server s → limiter_ok (sys_limiter s).
Proof.
  intros (db & _ & Hs). assert (limiter_ok (sys_limiter (booted db))) as Hb.
  { split; [unfold booted; cbn; rewrite map_size_empty; lia|done]. }
  revert Hb. induction Hs as [|s1 s2 s3 Hst _ IH]; [done|]. intros Hb. by eapply IH, limiter_ok_step.
Qed.

(** C24. Discovery is limited: in every state the server can reach its table has
    4096 clients at most, and of the requests that follow within a minute, from
    however many clients, it allows 240 at most for one client. *)
Theorem discovery_is_limited `{Decoders} `{Artifact.Crypto} server s :
  sys_reachable server s →
  size (sys_limiter s) ≤ 4096 ∧
  ∀ host t0 l, (∀ e, e ∈ l → (0 < e.2)%Z ∧ (t0 ≤ e.2 < t0 + discoveryWindow)%Z) →
    (allowed_for host l (run_limiter (sys_limiter s) l).1 ≤ 240)%Z.
Proof.
  intros Hok%limiter_ok_reachable. split; [apply Hok|]. intros host t0 l Hl.
  etrans; [by apply (run_limiter_allowed t0)|]. by apply allowance_bounds.
Qed.

(** ** Witnesses *)

Lemma boot_material_is_authorised_witness :
  ∃ p db' m, serve (handle sample_server no_fetch Preseed preseed_request) sample_env true 0 db_debian_armed = (p, db') ∧
    p_Status p = StatusOK ∧ authorised sample_server sample_iid db_debian_armed m.
Proof.
  destruct (serve (handle sample_server no_fetch Preseed preseed_request) sample_env true 0 db_debian_armed) as [p db'] eqn:Hs.
  assert (p_Status p = StatusOK) as Hok.
  { change (p_Status (p, db').1 = StatusOK). rewrite <- Hs. vm_compute. reflexivity. }
  destruct (boot_material_is_authorised sample_server no_fetch sample_env true Preseed preseed_request db_debian_armed p db'
    reach_debian_armed sample_env_sane ltac:(by_decide) Hs) as [[Hn _]|(m & _ & Hm & _)]; [destruct (Hn Hok)|].
  exists p, db', m. split; [reflexivity|]. split; [exact Hok|exact Hm].
Defined.

(** The bearer secret of the sample credential: 32 bytes [a]. *)
Definition event_request : Request :=
  sample_request "/" [("Authorization", "Bearer " +:+ RawURLEncoding_EncodeToString (filled 32 "a"));
    ("Idempotency-Key", "started-0001"); ("Content-Type", "application/json")] "{event}".

Lemma telemetry_needs_a_credential_witness :
  ∃ p db', serve (handle sample_server no_fetch TelemetryEvent event_request) sample_env true 0 db_booted = (p, db') ∧
    p_Status p = StatusAccepted ∧ recorded TelemetryEvent sample_iid "started-0001" db'.
Proof.
  destruct (serve (handle sample_server no_fetch TelemetryEvent event_request) sample_env true 0 db_booted) as [p db'] eqn:Hs.
  assert (p_Status p = StatusAccepted) as Hok.
  { change (p_Status (p, db').1 = StatusAccepted). rewrite <- Hs. vm_compute. reflexivity. }
  exists p, db'. split; [reflexivity|]. split; [exact Hok|].
  destruct (telemetry_needs_a_credential sample_server no_fetch sample_env true TelemetryEvent event_request db_booted p db'
    ltac:(by_decide) Hs) as [[Hn _]|(i & _ & [Hn|Hr])]; [exfalso; rewrite Hok in Hn; by apply Hn..|exact Hr].
Defined.

Lemma preseed_is_served_once_witness :
  deliveries sample_iid (sys_answers (race_from race)) = 1 ∧ length (sys_answers (race_from race)) = 2 ∧
  spent sample_iid (sys_db (race_from race)).
Proof.
  assert (deliveries sample_iid (sys_answers (race_from race)) = 1) as Hd by (vm_compute; reflexivity).
  split; [exact Hd|]. split; [vm_compute; reflexivity|].
  apply (preseed_is_served_once sample_server sample_iid db_debian_armed (race_from race)); [| |apply (race_steps 12)|exact Hd].
  - apply reach_debian_armed.
  - eexists. vm_compute. reflexivity.
  - vm_compute. reflexivity.
Defined.

Lemma server_refines_store_witness :
  size (sys_pool (race_from (take 10 race))) = 2 ∧ reachable (sys_db (race_from (take 10 race))).
Proof.
  split; [vm_compute; reflexivity|].
  apply (server_refines_store sample_server (race_from (take 10 race))), race_reachable. vm_compute. reflexivity.
Defined.

Lemma server_quiesces_witness :
  size (sys_pool (race_from (take 4 race))) = 2 ∧
  ∃ c s', serving c = true ∧ action_ok c ∧ act sample_server (race_from (take 4 race)) c = Some s'.
Proof.
  assert (size (sys_pool (race_from (take 4 race))) = 2) as Hn by (vm_compute; reflexivity).
  split; [exact Hn|]. apply (server_quiesces sample_server (race_from (take 4 race))).
  - apply race_reachable. vm_compute. reflexivity.
  - intros E. rewrite E in Hn. discriminate Hn.
Defined.


(** Requests of one client in the same second. *)
Definition burst (n : nat) : list (string * time) := replicate n ("10.0.0.7:4711", epoch).

Lemma discovery_is_limited_witness :
  allowed_for "10.0.0.7" (burst 130) (run_limiter ∅ (burst 130)).1 = 120%Z ∧
  size (sys_limiter (race_from (take 4 race))) ≤ 4096.
Proof.
  split; [vm_compute; reflexivity|]. apply (discovery_is_limited sample_server (race_from (take 4 race))).
  apply race_reachable. vm_compute. reflexivity.
Defined.

Lemma scripts_have_only_server_lines_witness :
  ∃ l, script preseed_request l ∧ "chain http://10.0.0.1:8090/api/v1/discovery.ipxe?mac=${net0/mac}&smbios_uuid=${uuid}&architecture=${buildarch:uristring}&firmware=${platform:uristring}&secure_boot=${efi/SecureBoot:hex}&setup_mode=${efi/SetupMode:hex} || goto discovery_failed" ∈ l.
Proof.
  destruct (serve (handle sample_server no_fetch Bootstrap preseed_request) sample_env true 0 db_debian_armed) as [p db'] eqn:Hs.
  assert (p_Status p = StatusOK ∧ p_Body p = p_Body (write_text (bootstrap_lines preseed_request))) as [Hok Hb].
  { change p with (p, db').1. rewrite <- Hs. split; vm_compute; reflexivity. }
  destruct (scripts_have_only_server_lines sample_server no_fetch sample_env true Bootstrap preseed_request db_debian_armed p db'
    ltac:(by_decide) Hs Hok) as (l & t & Hl & Ht & Hsp).
  exists l. split; [exact Hl|]. assert (l ++ [""] = bootstrap_lines preseed_request ++ [""]) as E.
  { rewrite <- Hsp. rewrite Hb in Ht. injection Ht as <-. vm_compute. reflexivity. }
  apply (app_inj_2 l (bootstrap_lines preseed_request)) in E as [-> _]; [|reflexivity]. by_decide.
Defined.

Lemma listeners_expose_witness :
  pattern_matches "POST /api/v1/installations/{id}/trust/enroll" "/api/v1/installations/i_1/trust/enroll" = true ∧
  pxeSurface "/api/v1/installations/i_1/trust/enroll" ≠ Serves.
Proof.
  split; [reflexivity|]. intros Hs.
  apply (listeners_expose TrustEnroll "POST /api/v1/installations/{id}/trust/enroll" "/api/v1/installations/i_1/trust/enroll"
    eq_refl eq_refl) in Hs. revert Hs. by_decide.
Defined.
