(* ===== verification/StudioTheorems.v ===== *)
(** * Who may change what through the operator interface *)

From stdpp Require Import relations.
From S2P Require Import Prelude GoStrings Fault Op Db Store Http Sessions Passkeys LogBuffer TrustedProxy Console StudioAuth StudioPages Studio StudioLogic StudioRules StudioTrace.
From S2P Require Artifact Identity Installation Invariant Reachable.
From S2P Require Import StoreUsers.

(** ** What the calls say of the tables *)

Section Calls.
Context `{Artifact.Crypto} `{WebAuthn}.

Lemma IssueUserSession_Ok user method a m token s :
  (IssueUserSession user method a m).1 = Ok (token, s) →
  Identity.u_Status user = Identity.StatusActive ∧ UserID s = Identity.ID user ∧ s_Role s = Identity.u_Role user ∧
  Actor s = "user:" +:+ Identity.Subject user ∧ ExpiresAt s = (clock a + SessionDuration)%Z.
Proof.
  unfold IssueUserSession. destruct (_ || _) eqn:Eu; [done|]. bool_inv. destruct (Identity.ValidateRole _); [|done].
  destruct (_ || _); [done|]. unfold issueSession. cbv zeta. destruct (_ <=? _)%nat; [done|].
  destruct (randomToken a 0 _); [|done]. destruct (randomToken a 1 _); [|done]. cbn. by intros [= <- <-].
Qed.

Lemma Session_found token now m s :
  (Session_ token now m).1 = Some s → sessions m !! Artifact.sha256 token = Some s ∧ (now < ExpiresAt s)%Z.
Proof.
  unfold Session_. destruct (blank token); [done|]. cbn. destruct (sweep _ _ !! _) as [x|] eqn:E; [|done].
  destruct (After _ _); [|done]. intros [= ->]. by apply sweep_lookup in E.
Qed.

Lemma takeFlow_Ok token userID mode now flows f flows' :
  takeFlow token userID mode now flows = (Ok f, flows') →
  flows !! Artifact.sha256 token = Some f ∧ f_UserID f = userID ∧ f_Mode f = mode ∧ (now < f_ExpiresAt f)%Z.
Proof.
  unfold takeFlow. destruct (blank token); [done|]. destruct (cleanup_flows now flows !! _) as [x|] eqn:E; [|done].
  destruct (After _ _ && _ && _) eqn:Ec; [|done]. bool_inv. intros [= <- _]. apply sweep_lookup in E as [? ?]. done.
Qed.

Lemma FinishLogin_Ok s u token mode q a flows c :
  (FinishLogin s u token mode q a flows).1 = Ok c →
  ∃ f, flows !! Artifact.sha256 token = Some f ∧ f_UserID f = Identity.ID u.1 ∧ f_Mode f = mode ∧
    (clock a < f_ExpiresAt f)%Z ∧ wa_FinishLogin (wa s) a u (f_Session f) q = Ok c.
Proof.
  unfold FinishLogin. destruct (takeFlow _ _ _ _ _) as [[f|e] flows'] eqn:E; cbn; [|done].
  apply takeFlow_Ok in E as (Hf & Hu & Hm & Ht). intros Hw. by exists f.
Qed.

Lemma FinishRegistration_Ok s u token q a flows c :
  (FinishRegistration s u token q a flows).1 = Ok c →
  ∃ f, flows !! Artifact.sha256 token = Some f ∧ f_UserID f = Identity.ID u.1 ∧ f_Mode f = ModeEnrollment ∧
    (clock a < f_ExpiresAt f)%Z ∧ wa_FinishRegistration (wa s) a u (f_Session f) q = Ok c.
Proof.
  unfold FinishRegistration. destruct (takeFlow _ _ _ _ _) as [[f|e] flows'] eqn:E; cbn; [|done].
  apply takeFlow_Ok in E as (Hf & Hu & Hm & Ht). intros Hw. by exists f.
Qed.

Lemma ConsumeRecoveryTicket_true token userID now items :
  (ConsumeRecoveryTicket token userID now items).1 = true →
  ∃ t, items !! Artifact.sha256 (TrimSpace token) = Some t ∧ k_UserID t = TrimSpace userID ∧ (now < k_ExpiresAt t)%Z.
Proof.
  unfold ConsumeRecoveryTicket. cbn. destruct (cleanup_tickets now items !! _) as [t|] eqn:E; [|done].
  intros Ht. bool_inv. apply sweep_lookup in E as [? ?]. by exists t.
Qed.

(** The reads of users, on a well-formed database. *)
Lemma run_OperatorUser id a db u :
  (run (OperatorUser id) a db).1 = Ok u → users db !! TrimSpace id = Some u.
Proof.
  destruct (run _ a db) as [r db'] eqn:E. cbn. intros ->. unfold OperatorUser in E. by db_inv.
Qed.

Lemma run_OperatorUserForWebAuthn id rp a db u :
  (run (OperatorUserForWebAuthn id rp) a db).1 = Ok u → users db !! TrimSpace id = Some u.1.
Proof.
  destruct (run _ a db) as [r db'] eqn:E. cbn. intros ->. unfold OperatorUserForWebAuthn, OperatorUser in E. by db_inv.
Qed.

Lemma run_OperatorUserByExternalIdentity p s a db u :
  (run (OperatorUserByExternalIdentity p s) a db).1 = Ok u → ∃ id, users db !! id = Some u.
Proof.
  destruct (run _ a db) as [r db'] eqn:E. cbn. intros ->. unfold OperatorUserByExternalIdentity, user_by_external in E. db_inv.
  match goal with Hf : _ <$> find_row _ _ = Some _ |- _ => apply fmap_Some in Hf as ([id x] & [? _]%find_row_Some & ->) end.
  by exists id.
Qed.
End Calls.

(** ** The past of an entry of the trace *)

Section Past.
Context `{Artifact.Crypto} `{WebAuthn}.
Variable h : DashboardHandler.
Variable proxy : TrustedProxy.

(** The [j]-th entry of the trace is the call, made by the request [r] in the
    ambient [a] and answered [x]. *)
Definition happened_at (s : studio_system) (j : nat) (r : UIRequest) {B} (c : call B) (x : B) (a : ambient) : Prop :=
  ∃ e w, ss_trace s !! j = Some e ∧ te_request e = r ∧ te_now e = happen c a w ∧ (perform c a w).1 = x.

(** An entry before the [i]-th is the call, made at the instant [t]. *)
Definition happened_before (s : studio_system) (i : nat) (r : UIRequest) {B} (c : call B) (x : B) (t : time) : Prop :=
  ∃ j a, (j < i)%nat ∧ happened_at s j r c x a ∧ t = clock a.

(** The session was issued, at the instant [t], with a token whose digest is
    the cookie's. *)
Definition issued_before (s : studio_system) (i : nat) (cookie : string) (session : Session) (t : time) : Prop :=
  ∃ r user method token, happened_before s i r (IssueSession user method) (Ok (token, session)) t ∧
    Artifact.sha256 token = Artifact.sha256 cookie.

(** The request [r] finished a ceremony with the user's passkey: WebAuthn
    accepted its body for the challenge that an earlier call, less than
    [flowLifetime] before, had begun for the same user and purpose. *)
Definition login_before (s : studio_system) (i : nat) (r : UIRequest) (userID : string) (mode : Mode) : Prop :=
  ∃ j j0 r0 service service0 u u0 token token0 q c opts data a a0,
    (j0 < j < i)%nat ∧ Identity.ID u.1 = userID ∧ Identity.ID u0.1 = userID ∧
    happened_at s j r (EndLogin service u token mode q) (Ok c) a ∧
    happened_at s j0 r0 (StartLogin service0 u0 mode) (Ok (opts, token0)) a0 ∧
    Artifact.sha256 token = Artifact.sha256 token0 ∧ (clock a < clock a0 + flowLifetime)%Z ∧
    wa_BeginLogin (wa service0) a0 u0 = Ok (opts, data) ∧ wa_FinishLogin (wa service) a u data q = Ok c.

(** Likewise for the enrolment of a passkey. *)
Definition enrolment_before (s : studio_system) (i : nat) (r : UIRequest) (userID : string) : Prop :=
  ∃ j j0 r0 service service0 u u0 token token0 q c opts data a a0,
    (j0 < j < i)%nat ∧ Identity.ID u.1 = userID ∧ Identity.ID u0.1 = userID ∧
    happened_at s j r (EndRegistration service u token q) (Ok c) a ∧
    happened_at s j0 r0 (StartRegistration service0 u0) (Ok (opts, token0)) a0 ∧
    Artifact.sha256 token = Artifact.sha256 token0 ∧ (clock a < clock a0 + flowLifetime)%Z ∧
    wa_BeginRegistration (wa service0) a0 u0 = Ok (opts, data) ∧ wa_FinishRegistration (wa service) a u data q = Ok c.

Variable s : studio_system.
Hypothesis Hs : studio_reachable h proxy s.

Lemma entry_facts i e : ss_trace s !! i = Some e →
  permitted proxy (te_request e) (te_past e) (h_call (te_now e)) ∧ from_wire (te_request e) ∧
  Invariant.wf (h_before (te_now e)).1.
Proof.
  intros Hi. pose proof (td_trace _ _ (told_reachable h proxy s Hs) i e Hi) as He.
  split_and!; [apply (eo_permitted _ _ _ He)|apply (eo_wire _ _ _ He)|apply Reachable.wf_reachable, (eo_reachable _ _ _ He)].
Qed.

Lemma did_at i e {B} (c : call B) x : ss_trace s !! i = Some e → did c x (te_past e) →
  ∃ j a w e', (j < i)%nat ∧ ss_trace s !! j = Some e' ∧ te_request e' = te_request e ∧ te_now e' = happen c a w ∧ (perform c a w).1 = x.
Proof.
  intros Hi (a & w & Hin & Hx). destruct (past_entry h proxy s i e _ Hs Hi Hin) as (j & e' & Hj & He' & Hn & Hr & _).
  by exists j, a, w, e'.
Qed.

Lemma did_before i e {B} (c : call B) x : ss_trace s !! i = Some e → did c x (te_past e) →
  ∃ t, happened_before s i (te_request e) c x t.
Proof.
  intros Hi Hd. destruct (did_at i e c x Hi Hd) as (j & a & w & e' & Hj & He' & Hr & Hn & Hx).
  exists (clock a), j, a. split_and!; try done. by exists e', w.
Qed.

Lemma found_before i r cookie session t :
  happened_before s i r (LookupSession cookie) (Some session) t →
  ∃ t0, issued_before s i cookie session t0 ∧ (t < t0 + SessionDuration)%Z.
Proof.
  intros (j & a & Hj & (e & w & He & Hr & Hn & Hx) & ->). cbn in Hx. apply Session_found in Hx as [Hx Ht].
  assert (sessions (c_manager (h_before (te_now e)).2) !! Artifact.sha256 cookie = Some session) as Hfound by (by rewrite Hn).
  destruct (found_was_made h proxy (λ c, sessions (c_manager c)) session_made (Hprov := session_provenance) s j e _ _ Hs He Hfound)
    as (j0 & e0 & Hj0 & He0 & user & method & a0 & w0 & token & Hn0 & Hx0 & Hd).
  exists (clock a0). split.
  - exists (te_request e0), user, method, token. split; [|done]. exists j0, a0. split_and!; [lia| |done]. by exists e0, w0.
  - cbn in Hx0. apply IssueUserSession_Ok in Hx0 as (_ & _ & _ & _ & Hexp). by rewrite <- Hexp.
Qed.

Lemma login_found i r service u token mode q c a :
  happened_at s i r (EndLogin service u token mode q) (Ok c) a → mode ≠ ModeEnrollment →
  ∀ k, (i < k)%nat → login_before s k r (Identity.ID u.1) mode.
Proof.
  intros Hat Hm k Hk. pose proof Hat as (e & w & He & Hr & Hn & Hx). cbn in Hx.
  apply FinishLogin_Ok in Hx as (f & Hf & Hu & Hmode & Ht & Hw).
  assert (c_flows (h_before (te_now e)).2 !! Artifact.sha256 token = Some f) as Hfound by (by rewrite Hn).
  destruct (found_was_made h proxy c_flows flow_made (Hprov := flow_provenance) s i e _ _ Hs He Hfound)
    as (j0 & e0 & Hj0 & He0 & service0 & u0 & a0 & w0 & opts & token0 & Hd & Hu0 & Hexp & [(Hn0 & Hx0 & Hw0 & _)|(_ & _ & _ & Hbad)]);
    [|congruence]. rewrite Hmode in *.
  exists i, j0, (te_request e0), service, service0, u, u0, token, token0, q, c, opts, (f_Session f), a, a0.
  split_and!; try done; [congruence|by exists e0, w0|by rewrite <- Hexp].
Qed.

Lemma enrolment_found i r service u token q c a :
  happened_at s i r (EndRegistration service u token q) (Ok c) a →
  ∀ k, (i < k)%nat → enrolment_before s k r (Identity.ID u.1).
Proof.
  intros Hat k Hk. pose proof Hat as (e & w & He & Hr & Hn & Hx). cbn in Hx.
  apply FinishRegistration_Ok in Hx as (f & Hf & Hu & Hmode & Ht & Hw).
  assert (c_flows (h_before (te_now e)).2 !! Artifact.sha256 token = Some f) as Hfound by (by rewrite Hn).
  destruct (found_was_made h proxy c_flows flow_made (Hprov := flow_provenance) s i e _ _ Hs He Hfound)
    as (j0 & e0 & Hj0 & He0 & service0 & u0 & a0 & w0 & opts & token0 & Hd & Hu0 & Hexp & [(_ & _ & _ & Hbad)|(Hn0 & Hx0 & Hw0 & _)]);
    [congruence|].
  exists i, j0, (te_request e0), service, service0, u, u0, token, token0, q, c, opts, (f_Session f), a, a0.
  split_and!; try done; [congruence|by exists e0, w0|by rewrite <- Hexp].
Qed.

(** A user that a request reads for WebAuthn has a trimmed identifier. *)
Lemma loaded_id i e id u : ss_trace s !! i = Some e → loaded (te_past e) id u →
  Identity.ID u.1 = TrimSpace id ∧ TrimSpace (Identity.ID u.1) = Identity.ID u.1.
Proof.
  intros Hi [rp Hd]. destruct (did_at i e _ _ Hi Hd) as (j & a & w & e' & _ & He' & _ & Hn & Hx).
  cbn [perform on_db fst] in Hx. apply run_OperatorUserForWebAuthn in Hx.
  destruct (entry_facts j e' He') as (_ & _ & Hwf). rewrite Hn in Hwf. cbn in Hwf.
  destruct (Invariant.uo_row _ _ (Invariant.wf_users _ Hwf) _ _ Hx) as [-> _].
  split; [done|]. by apply (Invariant.uo_trim _ _ (Invariant.wf_users _ Hwf) _ _ Hx).
Qed.

Lemma read_id i e id u : ss_trace s !! i = Some e → did (Query (OperatorUser id)) (Ok u) (te_past e) →
  Identity.ID u = TrimSpace id.
Proof.
  intros Hi Hd. destruct (did_at i e _ _ Hi Hd) as (j & a & w & e' & _ & He' & _ & Hn & Hx).
  cbn [perform on_db fst] in Hx. apply run_OperatorUser in Hx.
  destruct (entry_facts j e' He') as (_ & _ & Hwf). rewrite Hn in Hwf. cbn in Hwf.
  by destruct (Invariant.uo_row _ _ (Invariant.wf_users _ Hwf) _ _ Hx) as [-> _].
Qed.

Lemma external_id i e p subject u : ss_trace s !! i = Some e →
  did (Query (OperatorUserByExternalIdentity p subject)) (Ok u) (te_past e) → TrimSpace (Identity.ID u) = Identity.ID u.
Proof.
  intros Hi Hd. destruct (did_at i e _ _ Hi Hd) as (j & a & w & e' & _ & He' & _ & Hn & Hx).
  cbn [perform on_db fst] in Hx. apply run_OperatorUserByExternalIdentity in Hx as [id Hx].
  destruct (entry_facts j e' He') as (_ & _ & Hwf). rewrite Hn in Hwf. cbn in Hwf.
  destruct (Invariant.uo_row _ _ (Invariant.wf_users _ Hwf) _ _ Hx) as [<- _].
  by apply (Invariant.uo_trim _ _ (Invariant.wf_users _ Hwf) _ _ Hx).
Qed.

(** The proxy vouches for a user of that identifier in the request. *)
Definition vouched_before (i : nat) (r : UIRequest) (userID : string) (status : Identity.Status) : Prop :=
  ∃ subject u rid created t, outer_identity proxy r = Some subject ∧
    happened_before s i r (Mutate (ResolveUser trustedProxyProvider subject subject "" rid)) (Ok (u, created)) t ∧
    Identity.u_Status u = status ∧ TrimSpace (Identity.ID u) = userID.

Lemma vouched_found i e status u : ss_trace s !! i = Some e → vouched proxy (te_request e) (te_past e) status u →
  vouched_before i (te_request e) (Identity.ID u.1) status.
Proof.
  intros Hi (u0 & (subject & rid & created & Ho & Hd) & Hst & Hl).
  destruct (did_before i e _ _ Hi Hd) as [t Ht]. destruct (loaded_id i e _ _ Hi Hl) as [-> _].
  by exists subject, u0, rid, created, t.
Qed.

Lemma passkey_found i e mode u c : ss_trace s !! i = Some e → mode ≠ ModeEnrollment → passkey_login mode (te_past e) u c →
  login_before s i (te_request e) (Identity.ID u.1) mode.
Proof.
  intros Hi Hm (service & token & q & Hd). destruct (did_at i e _ _ Hi Hd) as (j & a & w & e' & Hj & He' & Hr & Hn & Hx).
  eapply login_found; [|done|exact Hj]. by exists e', w.
Qed.

Lemma enrolled_found i e u c : ss_trace s !! i = Some e → passkey_enrolled (te_past e) u c →
  enrolment_before s i (te_request e) (Identity.ID u.1).
Proof.
  intros Hi (service & token & q & Hd). destruct (did_at i e _ _ Hi Hd) as (j & a & w & e' & Hj & He' & Hr & Hn & Hx).
  eapply enrolment_found; [|exact Hj]. by exists e', w.
Qed.

(** Less than [recoveryTicketLifetime] before, a request without an outer
    identity that had finished a recovery ceremony got the ticket. *)
Definition ticket_before (i : nat) (userID ticket : string) (t : time) : Prop :=
  ∃ j r token t0, (j < i)%nat ∧ (∃ a, happened_at s j r (IssueTicket userID) (Ok token) a ∧ t0 = clock a) ∧
    Artifact.sha256 token = Artifact.sha256 (TrimSpace ticket) ∧ (t < t0 + recoveryTicketLifetime)%Z ∧
    outer_identity proxy r = None ∧ login_before s j r userID ModeRecovery.

Lemma ticket_found i e userID ticket : ss_trace s !! i = Some e → TrimSpace userID = userID →
  did (ConsumeTicket ticket userID) true (te_past e) → ∃ t, ticket_before i userID ticket t ∧
    happened_before s i (te_request e) (ConsumeTicket ticket userID) true t.
Proof.
  intros Hi Htrim Hd. destruct (did_at i e _ _ Hi Hd) as (j & a & w & e' & Hj & He' & Hr & Hn & Hx).
  pose proof Hx as Hx'. cbn in Hx'. apply ConsumeRecoveryTicket_true in Hx' as (tk & Htk & Hu & Ht).
  assert (c_tickets (h_before (te_now e')).2 !! Artifact.sha256 (TrimSpace ticket) = Some tk) as Hfound by (by rewrite Hn).
  destruct (found_was_made h proxy c_tickets ticket_made (Hprov := ticket_provenance) s j e' _ _ Hs He' Hfound)
    as (j0 & e0 & Hj0 & He0 & userID0 & a0 & w0 & token & Hn0 & Hx0 & Hdig & ->).
  destruct (entry_facts j0 e0 He0) as (Hp & _ & _). rewrite Hn0 in Hp. cbn in Hp.
  destruct Hp as (u & c & Hrec & Hlogin & ->). cbn in Hu, Ht. rewrite Htrim in Hu.
  destruct Hrec as (Hno & subject & u1 & _ & _ & Hl). destruct (loaded_id j0 e0 _ _ He0 Hl) as [_ Hid]. rewrite Hid in Hu.
  exists (clock a). split; [|exists j, a; split_and!; [done|by exists e', w|done]].
  rewrite <- Hu. exists j0, (te_request e0), token, (clock a0). split_and!; try done; [lia| |by eapply passkey_found].
  exists a0. split; [|done]. by exists e0, w0.
Qed.
End Past.

(** ** Theorems *)

(** The changes an operator makes: who is said to make them, and whether an
    administrator is asked for. *)
Definition operator_change {B} (m : mutation B) : option (string * bool) :=
  match m with
  | SetNickname _ _ _ actor | SetPolicy _ _ _ actor | Arm _ _ _ actor | Cancel _ _ actor => Some (actor, false)
  | CreateSpec spec _ => Some (Installation.CreatedBy spec, false)
  | DeleteInst _ _ actor | DeleteMach _ _ actor | ApproveKey _ _ _ actor | RevokeKey _ _ _ actor
  | ApproveUser _ _ _ actor | BlockUser _ _ actor => Some (actor, true)
  | ResolveUser _ _ _ _ _ | ClaimAdmin _ _ _ | SaveCredential _ _ _ _ _ _ => None
  end.

Lemma may_change_operator `{Artifact.Crypto} `{WebAuthn} proxy r K B (m : mutation B) actor admin :
  operator_change m = Some (actor, admin) → may_change proxy r K m → operator_acts proxy admin r K actor.
Proof. destruct m; intros [= <- <-]; cbn; try done. by intros [? _]. Qed.

(** C5. Every change an operator makes through the interface -- to a machine, an
    installation, an assignment, a trust key or a user -- is the act of an
    authenticated operator: the request came over a transport the proxy vouches
    for or from the loopback, its cookie is the token of a session that had been
    issued less than eight hours before, its form carries that session's CSRF
    token, and during the request the session's user was active, with the role
    of the session, the name the audit event bears and, for deletions, trust
    keys and users, the role of an administrator. *)
Theorem operator_changes_are_authorised `{Artifact.Crypto} `{WebAuthn} h proxy s i e B (m : mutation B) a w actor admin :
  studio_reachable h proxy s → ss_trace s !! i = Some e → te_now e = happen (Mutate m) a w →
  operator_change m = Some (actor, admin) →
  let r := te_request e in
  transport_secure proxy r = true ∧
  ∃ session cookie form u t0 t1 t2,
    session_cookie r = Some cookie ∧ PostForm r = Ok form ∧ ValidateCSRF session (Get form "csrf") = true ∧
    issued_before s i cookie session t0 ∧
    happened_before s i r (LookupSession cookie) (Some session) t1 ∧ (t1 < t0 + SessionDuration)%Z ∧
    happened_before s i r (Query (OperatorUser (UserID session))) (Ok u) t2 ∧
    Identity.u_Status u = Identity.StatusActive ∧ Identity.u_Role u = s_Role session ∧
    actor = "user:" +:+ Identity.Subject u ∧ (admin = true → Identity.u_Role u = Identity.RoleAdmin).
Proof.
  intros Hs Hi Hn Hop r. destruct (entry_facts h proxy s Hs i e Hi) as (Hp & _ & _). rewrite Hn in Hp. cbn in Hp.
  apply (may_change_operator _ _ _ _ _ _ _ Hop) in Hp as (session & cookie & form & Hl & Hadmin & Hform & Hcsrf & ->).
  destruct Hl as [Hsec Hck Hf (u & Hu & Hst & Hrole & Hact)]. split; [done|].
  destruct (did_before h proxy s Hs i e _ _ Hi Hf) as [t1 Ht1]. destruct (did_before h proxy s Hs i e _ _ Hi Hu) as [t2 Ht2].
  destruct (found_before h proxy s Hs i _ _ _ _ Ht1) as (t0 & Ht0 & Hlt).
  exists session, cookie, form, u, t0, t1, t2. split_and!; try done.
  intros Ha. rewrite Hrole. by apply String.eqb_eq, Hadmin.
Qed.

(** C6. Nobody enters the interface without a passkey: a session is issued only
    to a request that, for the very user of the session, finished a passkey
    login while the proxy vouched for that user as an active one, or finished
    the enrolment of a passkey while the proxy vouched for that user as one
    whose status asks for an enrolment (how users come to that status, by an
    administrator's approval or by the claim of the first administrator, is not
    part of this theorem), or -- without an outer identity --
    presented the recovery key over a secure transport together with a ticket
    that a recovery ceremony with the user's passkey had earned less than five
    minutes before.  Each ceremony answers a challenge begun for that user and
    purpose less than five minutes before. *)
Theorem sessions_need_a_passkey `{Artifact.Crypto} `{WebAuthn} h proxy s i r user method token session a :
  studio_reachable h proxy s → happened_at s i r (IssueSession user method) (Ok (token, session)) a →
  UserID session = Identity.ID user ∧
  ((vouched_before proxy s i r (Identity.ID user) Identity.StatusActive ∧ login_before s i r (Identity.ID user) ModeLogin) ∨
   (vouched_before proxy s i r (Identity.ID user) Identity.StatusEnrollmentRequired ∧ enrolment_before s i r (Identity.ID user)) ∨
   (outer_identity proxy r = None ∧ transport_secure proxy r = true ∧
    (∃ key t, happened_before s i r (CheckRecoveryKey (ui_remoteHost r) key) Verified t) ∧
    ∃ ticket t, happened_before s i r (ConsumeTicket ticket (Identity.ID user)) true t ∧
      ticket_before proxy s i (Identity.ID user) ticket t)).
Proof.
  intros Hs (e & w & Hi & <- & Hn & Hx). cbn in Hx. apply IssueUserSession_Ok in Hx as (_ & Hid & _). split; [done|].
  destruct (entry_facts h proxy s Hs i e Hi) as (Hp & _ & _). rewrite Hn in Hp. cbn in Hp.
  destruct Hp as [l c Hv Hl|u1 c rp rid actor Hv Hl Hsave Hread|subject ticket Hno Hext Hst [Hsec [key Hkey]] Hticket].
  - left. split; [by apply (vouched_found h proxy s Hs i e _ (user, l))|].
    by apply (passkey_found h proxy s Hs i e _ (user, l) c).
  - right; left. pose proof Hv as (u0 & _ & _ & Hld). destruct (loaded_id h proxy s Hs i e _ _ Hi Hld) as [_ Htrim].
    rewrite (read_id h proxy s Hs i e _ _ Hi Hread), Htrim.
    split; [by eapply vouched_found|by eapply enrolled_found].
  - right; right. split_and!; [done|done| |].
    + destruct (did_before h proxy s Hs i e _ _ Hi Hkey) as [t Ht]. by exists key, t.
    + pose proof (external_id h proxy s Hs i e _ _ _ Hi Hext) as Htrim.
      destruct (ticket_found h proxy s Hs i e _ _ Hi Htrim Hticket) as (t & Ht & Hb). by exists ticket, t.
Qed.

(** ** Tokens are used up *)

Section Spent.
Context `{Artifact.Crypto} `{WebAuthn}.

Lemma Logout_gone token m : (token =? "")%string = false → sessions (Logout token m) !! Artifact.sha256 token = None.
Proof. intros Ht. unfold Logout. rewrite Ht. cbn. apply lookup_delete_eq. Qed.

Lemma takeFlow_gone token userID mode now flows : blank token = false →
  (takeFlow token userID mode now flows).2 !! Artifact.sha256 token = None.
Proof. unfold takeFlow. intros ->. cbn. apply lookup_delete_eq. Qed.

Lemma FinishLogin_gone s u token mode q a flows : blank token = false →
  (FinishLogin s u token mode q a flows).2 !! Artifact.sha256 token = None.
Proof.
  intros Hb. unfold FinishLogin. pose proof (takeFlow_gone token (Identity.ID u.1) mode (clock a) flows Hb) as Hgone.
  by destruct (takeFlow _ _ _ _ _).
Qed.

Lemma FinishRegistration_gone s u token q a flows : blank token = false →
  (FinishRegistration s u token q a flows).2 !! Artifact.sha256 token = None.
Proof.
  intros Hb. unfold FinishRegistration. pose proof (takeFlow_gone token (Identity.ID u.1) ModeEnrollment (clock a) flows Hb) as Hgone.
  by destruct (takeFlow _ _ _ _ _).
Qed.

Lemma ConsumeRecoveryTicket_gone token userID now items :
  (ConsumeRecoveryTicket token userID now items).2 !! Artifact.sha256 (TrimSpace token) = None.
Proof. unfold ConsumeRecoveryTicket. cbn. apply lookup_delete_eq. Qed.

Variable h : DashboardHandler.
Variable proxy : TrustedProxy.
Variable s : studio_system.
Hypothesis Hs : studio_reachable h proxy s.

(** A session signed out. *)
Lemma session_spent i k r r' token token' session a a' :
  (i < k)%nat → token ≠ "" → Artifact.sha256 token' = Artifact.sha256 token →
  happened_at s i r (EndSession token) tt a → happened_at s k r' (LookupSession token') (Some session) a' →
  ∃ j r0 user method token0 a0, (i < j < k)%nat ∧
    happened_at s j r0 (IssueSession user method) (Ok (token0, session)) a0 ∧ Artifact.sha256 token0 = Artifact.sha256 token.
Proof.
  intros Hik Hne Hd (ei & wi & Hi & _ & Hni & _) (ek & wk & Hk & _ & Hnk & Hx).
  cbn in Hx. apply Session_found in Hx as [Hx _]. rewrite Hd in Hx. apply String.eqb_neq in Hne.
  edestruct (made_since h proxy (λ c, sessions (c_manager c)) session_made (Hprov := session_provenance) s i k ei ek)
    as (j & ej & Hj & Hej & user & method & a0 & w0 & token0 & Hn0 & Hx0 & Hd0); try done.
  - unfold after. rewrite Hni. by apply Logout_gone.
  - by rewrite Hnk.
  - exists j, (te_request ej), user, method, token0, a0. split_and!; [lia|lia| |done]. by exists ej, w0.
Qed.

(** The call presents the token of a ceremony to finish it, for a login, a
    recovery or an enrolment; [accepted_at] is that it succeeds. *)
Definition presented_at (i : nat) (r : UIRequest) (token : string) (a : ambient) : Prop :=
  blank token = false ∧
  ((∃ service u mode q x, happened_at s i r (EndLogin service u token mode q) x a) ∨
   ∃ service u q x, happened_at s i r (EndRegistration service u token q) x a).

Definition accepted_at (i : nat) (r : UIRequest) (token : string) (mode : Mode) (a : ambient) : Prop :=
  (∃ service u q c, happened_at s i r (EndLogin service u token mode q) (Ok c) a) ∨
  mode = ModeEnrollment ∧ ∃ service u q c, happened_at s i r (EndRegistration service u token q) (Ok c) a.

(** The call begins a ceremony of that purpose under the token. *)
Definition begun_at (i : nat) (r : UIRequest) (token : string) (mode : Mode) (a : ambient) : Prop :=
  (∃ service u opts, happened_at s i r (StartLogin service u mode) (Ok (opts, token)) a) ∨
  mode = ModeEnrollment ∧ ∃ service u opts, happened_at s i r (StartRegistration service u) (Ok (opts, token)) a.

Lemma presented_gone i r token a : presented_at i r token a →
  ∃ e, ss_trace s !! i = Some e ∧ c_flows (after e) !! Artifact.sha256 token = None.
Proof.
  intros [Hb [(service & u & mode & q & x & e & w & Hi & _ & Hn & _)|(service & u & q & x & e & w & Hi & _ & Hn & _)]];
    exists e; (split; [done|]); unfold after; rewrite Hn; [by apply FinishLogin_gone|by apply FinishRegistration_gone].
Qed.

Lemma accepted_flow k r token mode a : accepted_at k r token mode a →
  ∃ e f, ss_trace s !! k = Some e ∧ c_flows (h_before (te_now e)).2 !! Artifact.sha256 token = Some f ∧ f_Mode f = mode.
Proof.
  intros [(service & u & q & c & e & w & Hk & _ & Hn & Hx)|(-> & service & u & q & c & e & w & Hk & _ & Hn & Hx)]; cbn in Hx.
  - apply FinishLogin_Ok in Hx as (f & Hf & _ & Hm & _). exists e, f. by rewrite Hn.
  - apply FinishRegistration_Ok in Hx as (f & Hf & _ & Hm & _). exists e, f. by rewrite Hn.
Qed.

(** A challenge answered. *)
Lemma challenge_spent i k r r' token token' mode a a' :
  (i < k)%nat → Artifact.sha256 token' = Artifact.sha256 token →
  presented_at i r token a → accepted_at k r' token' mode a' →
  ∃ j r0 token0 a0, (i < j < k)%nat ∧ Artifact.sha256 token0 = Artifact.sha256 token ∧ begun_at j r0 token0 mode a0.
Proof.
  intros Hik Hd (ei & Hi & Hgone)%presented_gone (ek & f & Hk & Hf & Hm)%accepted_flow. rewrite Hd in Hf. subst mode.
  edestruct (made_since h proxy c_flows flow_made (Hprov := flow_provenance) s i k ei ek)
    as (j & ej & Hj & Hej & service0 & u0 & a0 & w0 & opts & token0 & Hd0 & _ & _ & Hn0); try done.
  exists j, (te_request ej), token0, a0. split_and!; [lia|lia|done|].
  destruct Hn0 as [(? & ? & _)|(? & ? & _ & ->)]; [left|right; split; [done|]]; exists service0, u0, opts; by exists ej, w0.
Qed.

(** A ticket redeemed. *)
Lemma ticket_spent i k r r' ticket ticket' userID userID' b a a' :
  (i < k)%nat → Artifact.sha256 (TrimSpace ticket') = Artifact.sha256 (TrimSpace ticket) →
  happened_at s i r (ConsumeTicket ticket userID) b a → happened_at s k r' (ConsumeTicket ticket' userID') true a' →
  ∃ j r0 token a0 userID0, (i < j < k)%nat ∧ happened_at s j r0 (IssueTicket userID0) (Ok token) a0 ∧
    Artifact.sha256 token = Artifact.sha256 (TrimSpace ticket).
Proof.
  intros Hik Hd (ei & wi & Hi & _ & Hni & _) (ek & wk & Hk & _ & Hnk & Hx).
  cbn in Hx. apply ConsumeRecoveryTicket_true in Hx as (t & Ht & _). rewrite Hd in Ht.
  edestruct (made_since h proxy c_tickets ticket_made (Hprov := ticket_provenance) s i k ei ek)
    as (j & ej & Hj & Hej & userID0 & a0 & w0 & token & Hn0 & Hx0 & Hd0 & _); try done.
  - unfold after. rewrite Hni. apply ConsumeRecoveryTicket_gone.
  - by rewrite Hnk.
  - exists j, (te_request ej), token, a0, userID0. split_and!; [lia|lia| |done]. by exists ej, w0.
Qed.
End Spent.

(** C7. Tokens are used up: after a session has signed out, its cookie finds no
    session; after the token of a passkey ceremony has been presented, to log
    in, to recover or to enrol and with whatever result, it finishes no ceremony
    of any kind; after a recovery ticket has been presented, it is not
    redeemed -- unless the server has in the meantime issued a token with the
    same digest again. *)
Theorem tokens_are_used_up `{Artifact.Crypto} `{WebAuthn} h proxy s i k r r' :
  studio_reachable h proxy s → (i < k)%nat →
  (∀ token token' session a a', token ≠ "" → Artifact.sha256 token' = Artifact.sha256 token →
     happened_at s i r (EndSession token) tt a → happened_at s k r' (LookupSession token') (Some session) a' →
     ∃ j r0 user method token0 a0, (i < j < k)%nat ∧
       happened_at s j r0 (IssueSession user method) (Ok (token0, session)) a0 ∧ Artifact.sha256 token0 = Artifact.sha256 token) ∧
  (∀ token token' mode a a', Artifact.sha256 token' = Artifact.sha256 token →
     presented_at s i r token a → accepted_at s k r' token' mode a' →
     ∃ j r0 token0 a0, (i < j < k)%nat ∧ Artifact.sha256 token0 = Artifact.sha256 token ∧ begun_at s j r0 token0 mode a0) ∧
  (∀ ticket ticket' userID userID' b a a', Artifact.sha256 (TrimSpace ticket') = Artifact.sha256 (TrimSpace ticket) →
     happened_at s i r (ConsumeTicket ticket userID) b a → happened_at s k r' (ConsumeTicket ticket' userID') true a' →
     ∃ j r0 token a0 userID0, (i < j < k)%nat ∧ happened_at s j r0 (IssueTicket userID0) (Ok token) a0 ∧
       Artifact.sha256 token = Artifact.sha256 (TrimSpace ticket)).
Proof.
  intros Hs Hik. split_and!; intros.
  - by eapply session_spent.
  - by eapply challenge_spent.
  - by eapply ticket_spent.
Qed.
