(* ===== verification/ReporterProtocol.v ===== *)
(** * The protocol of a process with the event queue

    [obeys] says of a program what it may do in each phase of its access to the
    queue, whatever its calls answer; every command of the reporter obeys.  The
    last part is the text of the queue file and what reading it back gives. *)

From S2P Require Import Prelude GoStrings StringFacts Fault Encoding Http ReporterHost ReporterClient Reporter ReporterFinalizer.
From S2P Require Artifact Lifecycle LogBuffer.
From stdpp Require Import relations.

Section Protocol.
Context `{Artifact.Crypto} `{ReporterCodec}.

(** ** Phases *)

Inductive phase :=
| Idle                                              (* without the lock *)
| Locked                                            (* with the lock, the queue as it was left *)
| Draining (events : list queuedEvent) (n : nat)    (* read; the first [n] events were accepted *)
| Emptied (rest : list queuedEvent).                (* the file is empty, [rest] must go back *)

(** The server has accepted the event: the request carries it and was answered
    with a status of 2xx. *)
Definition posts (e : queuedEvent) (r : http_request) : bool :=
  (h_Method r =? "POST")%string && (Get (h_Header r) "Idempotency-Key" =? qe_IdempotencyKey e)%string
  && (h_Body r =? marshal (event_payload (qe_Stage e) (qe_Source e) (qe_Message e) (qe_ErrorCode e) (qe_ClientTime e)))%string.

Definition accepted (answer : result (Z * result string)) : bool :=
  match answer with Ok (status, Ok _) => (200 <=? status)%Z && (status <? 300)%Z | _ => false end.

Definition accepts (e : queuedEvent) {B} (c : sys B) : B → bool :=
  match c in sys B return B → bool with
  | Exchange r => λ answer, posts e r && accepted answer
  | _ => λ _, false
  end.

Definition after {B} (c : sys B) : B → phase → phase :=
  match c in sys B return B → phase → phase with
  | Flock _ => λ r ph, match r with Ok _ => Locked | Err _ => ph end
  | Unlock _ => λ _ _, Idle
  | ReadFile path => λ r ph,
    match r, ph with
    | Ok content, Locked =>
      if (path =? queuePath)%string then
        match decode_queue (default "" content) with Ok events => Draining events 0 | Err _ => Locked end
      else Locked
    | _, _ => ph
    end
  | Exchange q => λ r ph,
    match ph with
    | Draining events n =>
      match events !! n with Some e => if accepts e (Exchange q) r then Draining events (S n) else ph | None => ph end
    | _ => ph
    end
  | Truncate path => λ r ph,
    match r, ph with Ok _, Draining events n => if (path =? queuePath)%string then Emptied (drop n events) else ph | _, _ => ph end
  | WriteStart path _ => λ _ ph, if (path =? queuePath)%string then Locked else ph (* a write that fails is not a step *)
  | _ => λ _ ph, ph
  end.

(** What a process may do. *)
Definition allowed {B} (c : sys B) (ph : phase) : Prop :=
  match c with
  | Append path text => path = queuePath → ph = Locked ∧ ∃ e l, marshal_queued e = Ok l ∧ text = l +:+ nl
  | Truncate path => path = queuePath → ∃ events n, ph = Draining events n ∧ 0 < n
  | WriteStart path text => path = queuePath → ∃ rest, ph = Emptied rest ∧ text = encode_queue rest
  | WriteFile path _ _ | Remove path => path ≠ queuePath
  | Rename old new => old ≠ queuePath ∧ new ≠ queuePath
  | Flock path => path = queuePath ∧ ph = Idle
  | Unlock path => path = queuePath
  | _ => True
  end ∧ (rewrites_queue (Sys c Ret) = false → ∀ e rest, ph ≠ Emptied (e :: rest)).

Fixpoint obeys {A} (post : A → phase → Prop) (p : proc A) (ph : phase) : Prop :=
  match p with
  | Ret x => post x ph ∧ ∀ e rest, ph ≠ Emptied (e :: rest)
  | Panic => ∀ e rest, ph ≠ Emptied (e :: rest)
  | Sys c k => allowed c ph ∧ ∀ r, obeys post (k r) (after c r ph)
  end.

Lemma obeys_bind {A B} (post : B → phase → Prop) (p : proc A) (f : A → proc B) : ∀ ph,
  obeys (λ x, obeys post (f x)) p ph → obeys post (p ≫= f) ph.
Proof.
  induction p as [x| |T c k IH]; intros ph; cbn [obeys mbind proc_bind].
  - by intros [? _].
  - done.
  - intros [Hc Hk]. split; [done|]. intros r. by apply IH, Hk.
Qed.

Lemma obeys_impl {A} (post post' : A → phase → Prop) (p : proc A) : ∀ ph,
  (∀ x ph, post x ph → post' x ph) → obeys post p ph → obeys post' p ph.
Proof.
  induction p as [x| |T c k IH]; intros ph Himp; cbn [obeys]; [naive_solver|done|].
  intros [Hc Hk]. split; [done|]. intros r. by apply IH.
Qed.

(** ** Programs that leave the queue alone *)

(** A process without the lock stays without it. *)
Definition idle {A} (p : proc A) : Prop := obeys (λ _ ph, ph = Idle) p Idle.

Lemma idle_ret {A} (x : A) : idle (mret x).
Proof. by split. Qed.
Lemma idle_panic {A} : idle (@Panic A).
Proof. done. Qed.

Lemma idle_bind {A B} (p : proc A) (f : A → proc B) : idle p → (∀ x, idle (f x)) → idle (p ≫= f).
Proof. intros Hp Hf. apply obeys_bind. eapply obeys_impl; [|exact Hp]. intros x ph ->. apply Hf. Qed.

Lemma idle_or_return {A B} (p : proc (result A)) (f : A → proc (result B)) : idle p → (∀ x, idle (f x)) → idle (or_return p f).
Proof. intros Hp Hf. apply idle_bind; [done|]. intros [x|e]; [apply Hf|apply idle_ret]. Qed.

(** Calls that are allowed without the lock and do not take it. *)
Definition harmless {B} (c : sys B) : Prop :=
  match c with
  | Append path _ | Truncate path | WriteStart path _ | WriteFile path _ _ | Remove path => path ≠ queuePath
  | Rename old new => old ≠ queuePath ∧ new ≠ queuePath
  | Flock _ | Unlock _ => False
  | _ => True
  end.

Lemma after_harmless {B} (c : sys B) r : harmless c → after c r Idle = Idle.
Proof. destruct c; cbn; try done; try by destruct r. intros Hp%String.eqb_neq. by rewrite Hp. Qed.

Lemma idle_sys {B} (c : sys B) : harmless c → idle (sys_ c).
Proof.
  intros Hc. split; [split; [destruct c; cbn in *; naive_solver|done]|].
  intros r. cbn [obeys]. by rewrite after_harmless.
Qed.

Lemma idle_ignore {A} (p : proc A) : idle p → idle (ignore p).
Proof. intros Hp. apply idle_bind; [done|]. intros x. apply idle_ret. Qed.

(** The phases from which a process may go on without the lock. *)
Definition settled (ph : phase) : Prop := ∀ e rest, ph ≠ Emptied (e :: rest).

Lemma idle_with_lock {A} mode (body : proc (result A)) :
  obeys (λ _, settled) body Locked → idle (with_lock queuePath mode body).
Proof.
  intros Hb. apply idle_or_return; [by apply idle_sys|]. intros []. apply obeys_bind. cbn [mbind proc_bind or_return sys_ obeys].
  split; [by split|]. intros [[]|e]; cbn [after obeys mbind proc_bind mret proc_ret].
  - eapply obeys_impl; [|exact Hb]. intros r ph Hph. by split; [split|].
  - by split.
Qed.

#[local] Opaque with_lock.

(** ** Paths below a target or next to a file *)

Lemma suffix_HasSuffix t s : LogBuffer.HasSuffix (t +:+ s) s = true.
Proof. induction t as [|c t IH]; cbn; [by destruct s; cbn; rewrite ?Ascii.eqb_refl, ?String.eqb_refl|by rewrite IH, orb_true_r]. Qed.

Lemma not_queue t s : LogBuffer.HasSuffix queuePath s = false → t +:+ s ≠ queuePath.
Proof. intros Hs E. pose proof (suffix_HasSuffix t s) as Ht. rewrite E in Ht. congruence. Qed.

Ltac other_path := first [by vm_compute | by apply not_queue | rewrite <- app_assoc_s; by apply not_queue].

Lemma idle_pure_return {A B} (r : result A) (f : A → proc (result B)) : (∀ x, r = Ok x → idle (f x)) → idle (or_return (pure r) f).
Proof. intros Hf. destruct r as [x|e]; [by apply Hf|apply idle_ret]. Qed.

(** Walks through a program without the lock. *)
Ltac idle_step :=
  first [ apply idle_ret | apply idle_panic
        | by auto with aegis
        | apply idle_sys; solve [done | other_path | split; other_path]
        | apply idle_pure_return; intros ? ? | apply idle_or_return; [|intros ?] | apply idle_bind; [|intros ?]
        | case_match ].
Ltac solve_idle := repeat idle_step.

Lemma idle_pure {A} (r : result A) : idle (pure r).
Proof. apply idle_ret. Qed.
#[local] Hint Resolve idle_pure : aegis.

Lemma idle_atomic_write path content mode : path ≠ queuePath → idle (atomic_write path content mode).
Proof. intros Hp. unfold atomic_write. solve_idle. Qed.

Lemma idle_readIntFile path : idle (readIntFile path).
Proof. unfold readIntFile. solve_idle. Qed.
Lemma idle_writeIntFile path n : path ≠ queuePath → idle (writeIntFile path n).
Proof. apply idle_atomic_write. Qed.
Lemma idle_LoadConfig path : idle (LoadConfig path).
Proof. unfold LoadConfig. solve_idle. Qed.
Lemma idle_open_device devices : ∀ e, idle (open_device devices e).
Proof. induction devices as [|d devices IH]; intros e; cbn [open_device]; solve_idle. Qed.
#[local] Hint Resolve idle_readIntFile idle_LoadConfig idle_open_device : aegis.
Lemma idle_OpenTPMKey : idle OpenTPMKey.
Proof. unfold OpenTPMKey, or_close. solve_idle. Qed.
Lemma idle_Sign k m : idle (TPMKey_Sign k m).
Proof. unfold TPMKey_Sign. solve_idle. Qed.
Lemma idle_Decrypt k c : idle (DecryptLifecycleCredential k c).
Proof. unfold DecryptLifecycleCredential. solve_idle. Qed.
Lemma idle_client_do {A} r (d : string → result A) : idle (client_do r d).
Proof. unfold client_do. solve_idle. Qed.
#[local] Hint Resolve idle_OpenTPMKey idle_Sign idle_Decrypt idle_client_do : aegis.
Lemma idle_postJSON {A} url p (d : string → result A) : idle (postJSON url p d).
Proof. unfold postJSON. solve_idle. Qed.
Lemma idle_postSigned c secret key suffix p : idle (postSigned c secret key suffix p).
Proof. unfold postSigned. solve_idle. Qed.
#[local] Hint Resolve idle_postJSON idle_postSigned : aegis.
Lemma idle_PostLog c secret key n src content t : idle (PostLog c secret key n src content t).
Proof. apply idle_postSigned. Qed.
Lemma idle_post_now c secret key st src m e : idle (post_now c secret key st src m e).
Proof. unfold post_now, PostEvent. solve_idle. Qed.
Lemma idle_AcquireCredential c k : idle (AcquireCredential c k).
Proof. unfold AcquireCredential. solve_idle. Qed.
#[local] Hint Resolve idle_PostLog idle_post_now idle_AcquireCredential : aegis.

(** ** Programs with the lock *)

Lemma idle_QueueEvent stage source message errorCode : idle (QueueEvent stage source message errorCode).
Proof.
  unfold QueueEvent. solve_idle. 
  apply idle_with_lock. cbn [sys_ obeys]. split.
  - split; [|done]. intros _. split; [done|]. eauto.
  - done.
Qed.

Lemma encode_queue_empty events : encode_queue events = "" → events = [].
Proof.
  destruct events as [|e events]; [done|]. cbn [encode_queue foldr]. intros E%(f_equal String.length).
  rewrite !length_app_s in E. cbn in E. lia.
Qed.

(** A post in the drain: accepted exactly when it returns no error. *)
Definition post_result (events : list queuedEvent) (n : nat) (r : result unit) (ph : phase) : Prop :=
  ph = match r with Ok _ => Draining events (S n) | Err _ => Draining events n end.

Lemma obeys_PostEvent c secret events n e :
  events !! n = Some e →
  obeys (post_result events n)
    (PostEvent c secret (qe_IdempotencyKey e) (qe_Stage e) (qe_Source e) (qe_Message e) (qe_ErrorCode e) (qe_ClientTime e))
    (Draining events n).
Proof.
  intros He. unfold PostEvent, postSigned. destruct (NewRequest _ _ _ _) as [req|err]; [|by split].
  cbn [mbind proc_bind sys_ obeys]. split; [by split|]. intros t. destruct (Telemetry.Canonical _ _ _ _ _) as [canonical|err]; [|by split].
  unfold client_do. cbn [or_return mbind proc_bind sys_ obeys]. split; [by split|]. intros r.
  unfold after. rewrite He. cbn [accepts]. unfold posts. cbn [h_Method h_Header h_Body Get String.eqb Ascii.eqb Bool.eqb].
  rewrite !String.eqb_refl. cbn [andb]. unfold accepted.
  destruct r as [[status [body|err]]|err]; cbn [mret proc_ret obeys fst snd mbind result_bind]; try by split.
  destruct (Z.ltb_spec status 200); destruct (Z.leb_spec 300 status); cbn [orb];
    destruct (Z.leb_spec 200 status); destruct (Z.ltb_spec status 300); try lia; cbn [andb];
    try (destruct (api_error _) as [code message]; case_match); by split.
Qed.

Lemma obeys_post_events c secret events : ∀ n, n ≤ length events →
  obeys (λ rest ph, ∃ m, m ≤ length events ∧ rest = drop m events ∧ ph = Draining events m)
    (post_events c secret (drop n events)) (Draining events n).
Proof.
  intros n Hn. remember (drop n events) as rest eqn:E. revert n E Hn. induction rest as [|e rest IH]; intros n E Hn; cbn [post_events].
  - split; [|done]. eauto.
  - assert (events !! n = Some e) as He by (rewrite <- (Nat.add_0_r n), <- lookup_drop, <- E; done).
    apply obeys_bind. eapply obeys_impl; [|apply (obeys_PostEvent c secret events n e He)].
    intros [[]|err] ph ->.
    + apply IH; [|by apply lookup_lt_Some in He]. by rewrite <- Nat.add_1_r, <- drop_drop, <- E.
    + split; [|done]. eauto.
Qed.

Lemma idle_drainEvents c secret : idle (drainEvents c secret).
Proof.
  apply idle_with_lock. cbn [or_return mbind proc_bind sys_ obeys]. split; [by split|].
  intros [content|e]; cbn [after]; [|by split]. rewrite String.eqb_refl. unfold pure.
  destruct (decode_queue (default "" content)) as [events|e]; cbn [or_return mbind proc_bind mret proc_ret obeys]; [|by split].
  apply obeys_bind. eapply obeys_impl; [|apply (obeys_post_events c secret events 0); lia].
  intros rest ph (n & Hn & -> & ->). case_match eqn:Hlen; [by split|].
  assert (0 < n) as Hpos by (destruct n; [|lia]; rewrite drop_0, Nat.eqb_refl in Hlen; done).
  cbn [or_return mbind proc_bind sys_ obeys]. split; [split; [intros _; eauto|done]|].
  intros [[]|e]; cbn [after]; [|by split]. rewrite String.eqb_refl.
  case_match eqn:Hempty; [apply String.eqb_eq, encode_queue_empty in Hempty; rewrite Hempty; by split|].
  cbn [sys_ obeys]. split.
  - split; [intros _; eauto|]. intros Hf. by vm_compute in Hf.
  - intros r. cbn [after]. by rewrite String.eqb_refl.
Qed.
#[local] Hint Resolve idle_QueueEvent idle_drainEvents : aegis.

(** ** The commands *)

Lemma idle_writePrivateFile path content : path ≠ queuePath → idle (writePrivateFile path content).
Proof. apply idle_atomic_write. Qed.
Lemma idle_QueueEmpty : idle QueueEmpty.
Proof. unfold QueueEmpty. solve_idle. Qed.
Lemma idle_readEvidenceState : idle readEvidenceState.
Proof. unfold readEvidenceState. solve_idle. Qed.
Lemma idle_writeEvidenceState seen : idle (writeEvidenceState seen).
Proof. apply idle_writePrivateFile. by vm_compute. Qed.
#[local] Hint Resolve idle_QueueEmpty idle_readEvidenceState idle_writeEvidenceState : aegis.
Lemma idle_run_checks l text : ∀ seen changed, idle (run_checks l text seen changed).
Proof. induction l as [|k l IH]; intros seen changed; cbn [run_checks]; solve_idle. Qed.
#[local] Hint Resolve idle_run_checks : aegis.
Lemma idle_detect : idle detectNativeInstallerEvidence.
Proof. unfold detectNativeInstallerEvidence. solve_idle. Qed.
#[local] Hint Resolve idle_detect : aegis.
Lemma idle_QueueHookEvent stage source message errorCode : idle (QueueHookEvent stage source message errorCode).
Proof. unfold QueueHookEvent. solve_idle. Qed.
Lemma idle_syslogOffset n : idle (writeIntFile syslogOffsetPath n).
Proof. apply idle_writeIntFile. by vm_compute. Qed.
Lemma idle_logSequence n : idle (writeIntFile logSequencePath n).
Proof. apply idle_writeIntFile. by vm_compute. Qed.
Lemma idle_systemSequence n : idle (writeIntFile systemLogSequence n).
Proof. apply idle_writeIntFile. by vm_compute. Qed.
Lemma idle_ciphertext x : idle (writePrivateFile ciphertextPath x).
Proof. apply idle_writePrivateFile. by vm_compute. Qed.
#[local] Hint Resolve idle_QueueHookEvent idle_syslogOffset idle_logSequence idle_systemSequence idle_ciphertext : aegis.
Lemma idle_uploadInstallerLog c secret : idle (uploadInstallerLog c secret).
Proof. unfold uploadInstallerLog. solve_idle. Qed.
#[local] Hint Resolve idle_uploadInstallerLog : aegis.
Lemma idle_acquire_loop c k : ∀ turns, idle (acquire_loop turns c k).
Proof. intros turns; induction turns as [|turns IH]; cbn [acquire_loop]; solve_idle. Qed.
Lemma idle_report_loop c secret : ∀ turns, idle (report_loop turns c secret).
Proof. intros turns; induction turns as [|turns IH]; cbn [report_loop]; solve_idle. Qed.
#[local] Hint Resolve idle_acquire_loop idle_report_loop : aegis.
Lemma idle_RunDaemon turns c : idle (RunDaemon turns c).
Proof. unfold RunDaemon. solve_idle. Qed.

Lemma idle_below target path content mode :
  LogBuffer.HasSuffix queuePath path = false → idle (writeTargetFile (target +:+ path) content mode).
Proof. intros Hp. apply idle_atomic_write. by apply not_queue. Qed.
Lemma idle_copyFile source target path mode :
  LogBuffer.HasSuffix queuePath path = false → idle (copyFile source (target +:+ path) mode).
Proof. intros Hp. unfold copyFile. solve_idle; apply idle_sys; split; by apply not_queue. Qed.
#[local] Hint Extern 1 (idle (writeTargetFile _ _ _)) => apply idle_below; by vm_compute : aegis.
#[local] Hint Extern 1 (idle (copyFile _ _ _)) => apply idle_copyFile; by vm_compute : aegis.
Lemma idle_wait_ciphertext deadline : ∀ turns, idle (wait_ciphertext turns deadline).
Proof. intros turns; induction turns as [|turns IH]; cbn [wait_ciphertext]; solve_idle. Qed.
Lemma idle_wait_drained deadline : ∀ turns, idle (wait_drained turns deadline).
Proof. intros turns; induction turns as [|turns IH]; cbn [wait_drained]; solve_idle. Qed.
Lemma idle_install_files c target : idle (install_files c target).
Proof. unfold install_files. solve_idle. Qed.
#[local] Hint Resolve idle_wait_ciphertext idle_wait_drained idle_install_files : aegis.
Lemma idle_InstallFirstBoot turns c target : idle (InstallFirstBoot turns c target).
Proof. unfold InstallFirstBoot, WaitForCredentialCiphertext. solve_idle. Qed.
Lemma idle_validate c : idle (validateInstalledSystem c).
Proof. unfold validateInstalledSystem. solve_idle. Qed.
Lemma idle_postFirstBootLog c secret x : idle (postFirstBootLog c secret x).
Proof. unfold postFirstBootLog. solve_idle. Qed.
#[local] Hint Resolve idle_validate idle_postFirstBootLog : aegis.
Lemma idle_report_first_boot c secret : idle (report_first_boot c secret).
Proof. unfold report_first_boot. solve_idle. Qed.
#[local] Hint Resolve idle_report_first_boot : aegis.
Lemma idle_RunFirstBoot c : idle (RunFirstBoot c).
Proof. unfold RunFirstBoot. solve_idle. Qed.
#[local] Hint Resolve idle_RunDaemon idle_InstallFirstBoot idle_RunFirstBoot : aegis.

Lemma idle_process_of x : idle (process_of x).
Proof.
  destruct x; apply idle_ignore; unfold runDaemon, runEvent, runInstallFirstBoot, runFirstBoot, with_config; solve_idle.
Qed.
End Protocol.

(** ** The queue file *)

(** ** What encoding/json promises

    A marshalled event is one line; it can be read back, and what is read can be
    written and read again (texts that are not UTF-8 are coerced once). *)
Definition is_line (l : string) : Prop := byte_free (byte_of 10) l = true ∧ blank l = false ∧ drop_cr l = l.

Class ReporterCodecLaws (C : ReporterCodec) := {
  marshal_queued_line e l : marshal_queued e = Ok l → is_line l;
  unmarshal_marshal e l : marshal_queued e = Ok l →
    ∃ e', unmarshal_queued l = Ok e' ∧ ∃ l', marshal_queued e' = Ok l' ∧ unmarshal_queued l' = Ok e' }.

Section Queue.
Context `{Artifact.Crypto} `{C : ReporterCodec} `{!ReporterCodecLaws C}.

(** ** The content of a queue file *)

Definition unlines (lines : list string) : string := foldr (λ l rest, l +:+ nl +:+ rest) "" lines.

(** A line from which an event is read that can be written and read again. *)
Definition line_of (l : string) (e : queuedEvent) : Prop :=
  is_line l ∧ unmarshal_queued l = Ok e ∧ ∃ l', marshal_queued e = Ok l' ∧ unmarshal_queued l' = Ok e.

Definition queue_holds (content : string) (events : list queuedEvent) : Prop :=
  ∃ lines, content = unlines lines ∧ Forall2 line_of lines events.

Lemma line_of_marshal e l : marshal_queued e = Ok l → ∃ e', line_of l e'.
Proof.
  intros Hl. destruct (unmarshal_marshal _ _ Hl) as (e' & He' & l' & Hl' & Hu). exists e'. split; [by eapply marshal_queued_line|].
  split; [done|]. by exists l'.
Qed.

Lemma queue_holds_nil : queue_holds "" [].
Proof. exists []. by split. Qed.

Lemma unlines_cons l ls : unlines (l :: ls) = l +:+ nl +:+ unlines ls.
Proof. done. Qed.

Lemma unlines_app ls ls' : unlines (ls ++ ls') = unlines ls +:+ unlines ls'.
Proof. induction ls as [|l ls IH]; [done|]. by rewrite <- app_comm_cons, !unlines_cons, IH, !app_assoc_s. Qed.

Lemma queue_holds_snoc content events l e : queue_holds content events → line_of l e → queue_holds (content +:+ l +:+ nl) (events ++ [e]).
Proof.
  intros (lines & -> & Hl) He. exists (lines ++ [l]). split; [|by apply Forall2_app; [|constructor]].
  by rewrite unlines_app, unlines_cons, app_nil_r_s.
Qed.

Lemma queue_holds_encode events : (∃ lines, Forall2 line_of lines events) → queue_holds (encode_queue events) events.
Proof.
  intros (lines & Hl). induction Hl as [|l e lines events (_ & _ & l' & Hl' & Hu) _ (lines' & Hc & IH)]; [apply queue_holds_nil|].
  exists (l' :: lines'). split.
  - rewrite unlines_cons, <- Hc. unfold encode_queue. cbn [foldr]. by rewrite Hl'.
  - constructor; [|done]. split; [by eapply marshal_queued_line|]. split; [done|]. by exists l'.
Qed.

Lemma queue_holds_drop content events n : queue_holds content events → queue_holds (encode_queue (drop n events)) (drop n events).
Proof. intros (lines & _ & Hl). apply queue_holds_encode. exists (drop n lines). by apply Forall2_drop. Qed.

(** Reading a queue gives the events it holds, unless a line is too long. *)
Lemma split_unlines lines : Forall is_line lines → split_byte (byte_of 10) (unlines lines) = lines ++ [""].
Proof.
  induction 1 as [|l lines (Hl & _) _ IH]; [done|]. rewrite unlines_cons. unfold nl. cbn [String.append app].
  rewrite split_byte_app by done. by rewrite IH.
Qed.

Lemma decode_lines_app lines events : Forall2 line_of lines events →
  decode_lines (lines ++ [""]) = Ok events ∨ ∃ l, l ∈ lines ∧ maxScanToken ≤ String.length l.
Proof.
  induction 1 as [|l e lines events (Hl & Hu & _) _ IH]; [by left|]. destruct Hl as (_ & Hb & Hcr).
  destruct (decide (maxScanToken ≤ String.length l)) as [Hlong|Hshort]; [right; exists l; set_solver|].
  destruct IH as [IH|(l' & Hin & Hlong)]; [left|right; exists l'; set_solver].
  cbn [app decode_lines]. destruct l as [|c l0] eqn:El; [done|]. rewrite <- El in *.
  replace (maxScanToken <=? String.length l)%nat with false by (symmetry; apply Nat.leb_gt; lia).
  rewrite Hcr, Hb, Hu, IH. subst l. by destruct (lines ++ [""]).
Qed.

Lemma decode_queue_holds content events : queue_holds content events →
  decode_queue content = Ok events ∨ ∃ l, l ∈ split_byte (byte_of 10) content ∧ maxScanToken ≤ String.length l.
Proof.
  intros (lines & -> & Hl). unfold decode_queue. rewrite split_unlines.
  - destruct (decode_lines_app _ _ Hl) as [?|(l & Hin & Hlen)]; [by left|right]. exists l. set_solver.
  - clear -Hl. induction Hl as [|? ? ? ? (Hl & _)]; by constructor.
Qed.

(** A queue that can be decoded is decoded to what it holds. *)
Lemma decode_lines_long lines events l : l ∈ lines → l ≠ "" → maxScanToken ≤ String.length l → decode_lines lines ≠ Ok events.
Proof.
  revert events. induction lines as [|x lines IH]; intros events Hin Hne Hlen; [by apply elem_of_nil in Hin|].
  destruct (decide (x = "" ∧ lines = [])) as [[-> ->]|Hx]; [set_solver|].
  replace (decode_lines (x :: lines)) with
    (if (maxScanToken <=? String.length x)%nat then Err (Plain "bufio.Scanner: token too long")
     else if blank (drop_cr x) then decode_lines lines
     else item ← or_fail (unmarshal_queued (drop_cr x)) (Wrapped "decode queued event"); events ← decode_lines lines; Ok (item :: events))
    by (destruct x as [|c x0]; destruct lines as [|y ys]; naive_solver).
  destruct (decide (x = l)) as [->|Hxl].
  - by rewrite (proj2 (Nat.leb_le _ _) Hlen).
  - assert (l ∈ lines) as Hin' by set_solver. destruct (_ <=? _)%nat; [done|]. destruct (blank _); [by apply IH|].
    destruct (unmarshal_queued _) as [e|]; cbn; [|done]. destruct (decode_lines lines) as [es|] eqn:E; cbn; [|done]. by destruct (IH es).
Qed.

Lemma decode_queue_inv content events events' : queue_holds content events → decode_queue content = Ok events' → events' = events.
Proof.
  intros Hq Hd. destruct (decode_queue_holds _ _ Hq) as [Hd'|(l & Hin & Hlen)]; [congruence|].
  destruct (decode_lines_long _ events' _ Hin) as []; [|done|done]. intros ->. by apply Nat.leb_le in Hlen.
Qed.
End Queue.
