(* ===== verification/ReporterSafety.v ===== *)
(** * What the reporter signs, and when it reports success

    [safe] is a program logic for the programs of ReporterHost.v: whatever the
    calls answer, each call keeps a rule that may look at the calls the program
    made before. *)

From S2P Require Import Prelude GoStrings Fault Encoding StringFacts GoParse Http ReporterHost ReporterClient Reporter ReporterFinalizer.
From S2P Require Artifact Lifecycle Boottrust Telemetry.

(** ** Runs of a program *)

(** A call a program made, and its answer. *)
Record made := mkMade { m_type : Type; m_call : sys m_type; m_answer : m_type }.

Definition did {B} (c : sys B) (x : B) (l : list made) : Prop := mkMade B c x ∈ l.

(** [reaches p l p']: after the calls [l], [p] is at [p']. *)
Inductive reaches {A} : proc A → list made → proc A → Prop :=
| reaches_here p : reaches p [] p
| reaches_call {B} (c : sys B) k x l p : reaches (k x) l p → reaches (Sys c k) (mkMade B c x :: l) p.

(** ** The logic *)

Section Logic.
Variable rule : list made → ∀ B, sys B → Prop.

Fixpoint safe {A} (Q : A → list made → Prop) (p : proc A) (h : list made) : Prop :=
  match p with
  | Ret x => Q x h
  | Panic => True
  | Sys c k => rule h _ c ∧ ∀ x, safe Q (k x) (h ++ [mkMade _ c x])
  end.

Lemma safe_reaches {A} (Q : A → list made → Prop) p l p' :
  reaches p l p' → ∀ h, safe Q p h → safe Q p' (h ++ l).
Proof.
  induction 1 as [p|B c k x l p _ IH]; intros h Hs; [by rewrite app_nil_r|].
  destruct Hs as [_ Hs]. specialize (Hs x). apply IH in Hs. by rewrite <- app_assoc in Hs.
Qed.

Lemma safe_bind {A B} (Q : B → list made → Prop) (p : proc A) (f : A → proc B) : ∀ h,
  safe (λ x, safe Q (f x)) p h → safe Q (p ≫= f) h.
Proof.
  induction p as [x| |T c k IH]; intros h; [done|done|]. intros [Hc Hk]. split; [done|]. intros x. apply IH, Hk.
Qed.

Lemma safe_impl {A} (Q Q' : A → list made → Prop) (p : proc A) : ∀ h,
  safe Q p h → (∀ x h', h ⊆ h' → Q x h' → Q' x h') → safe Q' p h.
Proof.
  induction p as [x| |T c k IH]; intros h Hs Hq; [by apply Hq|done|]. destruct Hs as [Hc Hk]. split; [done|].
  intros x. eapply IH; [apply Hk|]. intros y h' Hh. apply Hq. set_solver.
Qed.

(** A program whose calls the rule allows at any time. *)
Definition quiet {A} (p : proc A) : Prop := ∀ h, safe (λ _ _, True) p h.

Lemma quiet_ret {A} (x : A) : quiet (mret x).
Proof. done. Qed.
Lemma quiet_panic {A} : quiet (@Panic A).
Proof. done. Qed.
Lemma quiet_bind {A B} (p : proc A) (f : A → proc B) : quiet p → (∀ x, quiet (f x)) → quiet (p ≫= f).
Proof. intros Hp Hf h. apply safe_bind. eapply safe_impl; [apply Hp|]. intros x h' _ _. apply Hf. Qed.
Lemma quiet_or_return {A B} (p : proc (result A)) (f : A → proc (result B)) : quiet p → (∀ x, quiet (f x)) → quiet (or_return p f).
Proof. intros Hp Hf. apply quiet_bind; [done|]. intros [x|e]; [apply Hf|apply quiet_ret]. Qed.
Lemma quiet_sys {B} (c : sys B) : (∀ h, rule h B c) → quiet (sys_ c).
Proof. intros Hc h. by split. Qed.

(** After a quiet program what was known is still known. *)
Lemma safe_quiet {A B} (Q : B → list made → Prop) (p : proc A) (f : A → proc B) h :
  quiet p → (∀ x h', h ⊆ h' → safe Q (f x) h') → safe Q (p ≫= f) h.
Proof. intros Hp Hf. apply safe_bind. eapply safe_impl; [apply Hp|]. intros x h' Hh _. by apply Hf. Qed.

Lemma safe_or_return {A B} (Q : A → list made → Prop) (R : result B → list made → Prop) (p : proc (result A)) (f : A → proc (result B)) h :
  safe (λ r h', match r with Ok x => Q x h' | Err _ => True end) p h →
  (∀ e h', R (Err e) h') → (∀ x h', h ⊆ h' → Q x h' → safe R (f x) h') → safe R (or_return p f) h.
Proof.
  intros Hp He Hf. apply safe_bind. eapply safe_impl; [exact Hp|]. intros [x|e] h' Hh HQ; [by apply Hf|apply He].
Qed.

Lemma safe_sys {B} (Q : B → list made → Prop) (c : sys B) h :
  rule h B c → (∀ x, Q x (h ++ [mkMade B c x])) → safe Q (sys_ c) h.
Proof. by split. Qed.
End Logic.

(** Walks through a program whose calls are all allowed. *)
Ltac quiet_step :=
  first [ apply quiet_ret | apply quiet_panic
        | by auto with aegis
        | apply quiet_sys; intros ?; exact I
        | apply quiet_or_return; [|intros ?] | apply quiet_bind; [|intros ?]
        | case_match ].
Ltac solve_quiet := repeat quiet_step.

Section Programs.
Context `{Artifact.Crypto} `{ReporterCodec}.

(** ** Programs whose rules concern signatures and requests only *)

Class Lenient (rule : list made → ∀ B, sys B → Prop) :=
  lenient h B (c : sys B) : match c with TPMSign _ | Exchange _ => False | _ => True end → rule h B c.

Section Lenient.
Context (rule : list made → ∀ B, sys B → Prop) `{!Lenient rule}.

Lemma quiet_lenient {B} (c : sys B) : match c with TPMSign _ | Exchange _ => False | _ => True end → quiet rule (sys_ c).
Proof. intros Hc. apply quiet_sys. intros h. by apply lenient. Qed.

(** The configuration a file holds. *)
Definition configured (path : string) (c : Config) (h : list made) : Prop :=
  ∃ content, did (ReadFile path) (Ok (Some content)) h ∧ decode_config content = Ok c ∧ Config_Validate c = Ok tt.

Lemma safe_LoadConfig path h :
  safe rule (λ r h', match r with Ok c => configured path c h' | Err _ => True end) (LoadConfig path) h.
Proof.
  unfold LoadConfig. apply (safe_or_return _ (λ x h', did (ReadFile path) (Ok x) h')); [|done|].
  - apply safe_sys; [by apply lenient|]. intros [x|e]; [|done]. unfold did. set_solver.
  - intros [content|] h' _ Hd; [|done]. cbn. destruct (decode_config content) as [c|] eqn:Ec; [|done]. cbn.
    destruct (Config_Validate c) as [[]|] eqn:Ev; [|done]. cbn. by exists content.
Qed.

(** The TPM's own key and its fingerprint. *)
Definition own_key (key : TPMKey) (h : list made) : Prop :=
  did TPMCreatePrimary (Ok (Some (publicKey key))) h ∧
  ∃ der pk, MarshalPKIXPublicKey (publicKey key) = Ok der ∧
    Boottrust.ParseRSAPublicKeyPEM (pem_EncodeToMemory der) = Ok (pk, fingerprint key).

Lemma quiet_open_device devices : ∀ e, quiet rule (open_device devices e).
Proof.
  induction devices as [|d devices IH]; intros e; cbn [open_device]; [apply quiet_ret|].
  apply quiet_bind; [by apply quiet_lenient|]. intros [[[[size regular] permissions]|]|e']; [|apply IH..].
  apply quiet_bind; [by apply quiet_lenient|]. intros [[]|e']; [apply quiet_ret|apply IH].
Qed.

Lemma safe_OpenTPMKey h :
  safe rule (λ r h', match r with Ok key => own_key key h' | Err _ => True end) OpenTPMKey h.
Proof.
  unfold OpenTPMKey. apply (safe_or_return _ (λ _ _, True)).
  - eapply safe_impl; [apply quiet_open_device|]. by intros [].
  - done.
  - intros u h' _ _. unfold or_close. apply safe_bind, safe_bind, safe_sys; [by apply lenient|]. intros created.
    destruct created as [[rsa|]|e]; cbn; [|by (split; [apply lenient|])..].
    destruct (MarshalPKIXPublicKey rsa) as [der|] eqn:Ed; cbn; [|by (split; [apply lenient|])].
    destruct (Boottrust.ParseRSAPublicKeyPEM _) as [[pk fp]|] eqn:Ep; cbn; [|by (split; [apply lenient|])].
    split; [unfold did; cbn; set_solver|]. by exists der, pk.
Qed.

Lemma quiet_Decrypt key ciphertext : quiet rule (DecryptLifecycleCredential key ciphertext).
Proof. apply quiet_bind; [by apply quiet_lenient|]. intros. apply quiet_ret. Qed.

Lemma quiet_atomic_write path content mode : quiet rule (atomic_write path content mode).
Proof. unfold atomic_write. repeat first [by apply quiet_lenient | quiet_step]. Qed.

Lemma quiet_readIntFile path : quiet rule (readIntFile path).
Proof. unfold readIntFile. repeat first [by apply quiet_lenient | quiet_step]. Qed.
End Lenient.

(** ** Signatures *)

(** A request to [url] was answered with success, and the answer decoded. *)
Definition answered {A} (url : string) (decode : string → result A) (x : A) (h : list made) : Prop :=
  ∃ q status body, url_Parse url = Some (h_URL q) ∧ did (Exchange q) (Ok (status, Ok body)) h ∧
    (200 ≤ status < 300)%Z ∧ decode (first_bytes maxResponse body) = Ok x.

(** The server knows the key as approved and has challenged it: [text] is the
    challenge, for the configured installation and machine. *)
Definition asked_to_sign (c : Config) (key : TPMKey) (text : string) (h : list made) : Prop :=
  ∃ e ch nonce created expires used,
    answered (endpoint c "/trust/enroll") decode_enrolled e h ∧
    er_Fingerprint e = fingerprint key ∧ er_State e = Boottrust.KeyApproved ∧
    answered (endpoint c "/trust/challenge") decode_challenge_reply ch h ∧ RawURLEncoding_DecodeString (cr_Nonce ch) = Some nonce ∧
    Boottrust.CanonicalChallenge
      (Boottrust.mkChallenge (cr_ID ch) (InstallationID c) (MachineID c) (fingerprint key) nonce created expires used "" zeroTime) = Ok text.

Definition sign_rule (h : list made) B (c : sys B) : Prop :=
  match c with
  | TPMSign digest => ∃ path cfg key text,
      configured path cfg h ∧ own_key key h ∧ asked_to_sign cfg key text h ∧ digest = Artifact.sha256 text
  | _ => True
  end.

#[local] Instance sign_lenient : Lenient sign_rule.
Proof. intros h B c Hc. by destruct c. Qed.

Lemma answered_later {A} url (decode : string → result A) x h h' : h ⊆ h' → answered url decode x h → answered url decode x h'.
Proof. intros Hh (q & status & body & Hu & Hd & Hs). exists q, status, body. split; [done|]. split; [by apply Hh|done]. Qed.
Lemma configured_later path c h h' : h ⊆ h' → configured path c h → configured path c h'.
Proof. intros Hh (content & Hd & Hc). exists content. split; [by apply Hh|done]. Qed.
Lemma own_key_later key h h' : h ⊆ h' → own_key key h → own_key key h'.
Proof. intros Hh (Hd & Hk). split; [by apply Hh|done]. Qed.

#[local] Opaque maxResponse.

Lemma safe_postJSON {A} url payload (decode : string → result A) h :
  safe sign_rule (λ r h', match r with Ok x => answered url decode x h' | Err _ => True end) (postJSON url payload decode) h.
Proof.
  unfold postJSON, NewRequest. destruct (url_Parse url) as [u|] eqn:Hu; [|done]. unfold client_do.
  apply (safe_or_return _ (λ x h', did (Exchange (mkHttp "POST" u [("Content-Type", "application/json")] (marshal payload))) (Ok x) h')).
  - apply safe_sys; [done|]. intros [x|e]; [|done]. unfold did. set_solver.
  - done.
  - intros [status [body|e]] h' _ Hd; [|done]. cbn [fst snd mret proc_ret safe mbind result_bind].
    destruct (_ || _) eqn:Es; [destruct (api_error _) as [code message]; by destruct (negb _)|].
    destruct (decode _) as [x|] eqn:Ex; [|done]. bool_inv.
    exists (mkHttp "POST" u [("Content-Type", "application/json")] (marshal payload)), status, body. by split_and!.
Qed.

(** A step that only looks at a value. *)
Lemma safe_pure_return {A B} rule (R : result B → list made → Prop) (r : result A) (f : A → proc (result B)) h :
  (∀ e, R (Err e) h) → (∀ x, r = Ok x → safe rule R (f x) h) → safe rule R (or_return (pure r) f) h.
Proof. intros He Hf. destruct r as [x|e]; [by apply Hf|apply He]. Qed.

Lemma safe_AcquireCredential path c key h :
  configured path c h → own_key key h → safe sign_rule (λ _ _, True) (AcquireCredential c key) h.
Proof.
  intros Hc Hk. unfold AcquireCredential.
  eapply safe_or_return; [apply safe_postJSON|done|]. intros e h1 H1 He.
  apply safe_pure_return; [done|]. intros [] Hf%fail_if_Ok. apply safe_pure_return; [done|]. intros [] Ha%fail_if_Ok. bool_inv.
  eapply safe_or_return; [apply safe_postJSON|done|]. intros ch h2 H2 Hch.
  apply safe_pure_return; [done|]. intros nonce Hn. apply safe_pure_return; [done|]. intros text Ht.
  apply safe_pure_return; [done|]. intros [] Hb%fail_if_Ok. bool_inv.
  apply (safe_or_return _ (λ _ _, True)); [|done|].
  - unfold TPMKey_Sign. apply safe_bind, safe_sys; [|intros x; cbn [safe mret proc_ret]; match goal with |- match ?r with _ => _ end => by destruct r end]. exists path, c, key, text.
    split; [apply (configured_later _ _ h); [by transitivity h1|done]|]. split; [apply (own_key_later _ h); [by transitivity h1|done]|]. split; [|done].
    exists e, ch, nonce, zeroTime, zeroTime, zeroTime. split_and!; try done; [by eapply answered_later|by case_match; simplify_eq|].
    congruence.
  - intros signature h3 _ _. eapply safe_or_return; [apply safe_postJSON|done|]. intros rel h4 _ _.
    apply safe_pure_return; [done|]. intros [] _. apply safe_pure_return; [done|]. intros ciphertext _.
    apply (safe_or_return _ (λ _ _, True)); [|done|done].
    eapply safe_impl; [apply quiet_Decrypt, _|]. by intros [].
Qed.

(** ** The programs that do not sign *)

#[local] Abbreviation silent := (quiet sign_rule).

Lemma silent_sys {B} (c : sys B) : match c with TPMSign _ => False | _ => True end → silent (sys_ c).
Proof. intros Hc. apply quiet_sys. intros h. by destruct c. Qed.
#[local] Hint Extern 1 (quiet sign_rule (sys_ _)) => apply silent_sys; exact I : aegis.
#[local] Hint Extern 1 (quiet sign_rule (atomic_write _ _ _)) => apply quiet_atomic_write, _ : aegis.
#[local] Hint Extern 1 (quiet sign_rule (readIntFile _)) => apply quiet_readIntFile, _ : aegis.
#[local] Hint Extern 1 (quiet sign_rule (open_device _ _)) => apply quiet_open_device, _ : aegis.
#[local] Hint Extern 1 (quiet sign_rule (pure _)) => apply quiet_ret : aegis.
#[local] Hint Extern 1 (quiet sign_rule (DecryptLifecycleCredential _ _)) => apply quiet_Decrypt, _ : aegis.

Lemma silent_LoadConfig path : silent (LoadConfig path).
Proof. unfold LoadConfig. solve_quiet. Qed.
Lemma silent_OpenTPMKey : silent OpenTPMKey.
Proof. unfold OpenTPMKey, or_close. solve_quiet. Qed.
Lemma silent_QueueEvent stage source message errorCode : silent (QueueEvent stage source message errorCode).
Proof. unfold QueueEvent, with_lock. solve_quiet. Qed.
Lemma silent_postSigned c secret key suffix p : silent (postSigned c secret key suffix p).
Proof. unfold postSigned, client_do. solve_quiet. Qed.
#[local] Hint Resolve silent_LoadConfig silent_OpenTPMKey silent_QueueEvent silent_postSigned : aegis.
Lemma silent_post_events c secret events : silent (post_events c secret events).
Proof. induction events as [|e events IH]; cbn [post_events]; [apply quiet_ret|]. unfold PostEvent. solve_quiet. Qed.
Lemma silent_run_checks l text : ∀ seen changed, silent (run_checks l text seen changed).
Proof. induction l as [|k l IH]; intros seen changed; cbn [run_checks]; solve_quiet. Qed.
#[local] Hint Resolve silent_post_events silent_run_checks : aegis.
Lemma silent_drainEvents c secret : silent (drainEvents c secret).
Proof. unfold drainEvents, with_lock. solve_quiet. Qed.
Lemma silent_detect : silent detectNativeInstallerEvidence.
Proof. unfold detectNativeInstallerEvidence, readEvidenceState, writeEvidenceState, writePrivateFile. solve_quiet. Qed.
#[local] Hint Resolve silent_drainEvents silent_detect : aegis.
Lemma silent_uploadInstallerLog c secret : silent (uploadInstallerLog c secret).
Proof. unfold uploadInstallerLog, PostLog, writeIntFile. solve_quiet. Qed.
#[local] Hint Resolve silent_uploadInstallerLog : aegis.
Lemma silent_report_loop c secret : ∀ turns, silent (report_loop turns c secret).
Proof. intros turns; induction turns as [|turns IH]; cbn [report_loop]; solve_quiet. Qed.
Lemma silent_wait_ciphertext deadline : ∀ turns, silent (wait_ciphertext turns deadline).
Proof. intros turns; induction turns as [|turns IH]; cbn [wait_ciphertext]; solve_quiet. Qed.
Lemma silent_wait_drained deadline : ∀ turns, silent (wait_drained turns deadline).
Proof. intros turns; induction turns as [|turns IH]; cbn [wait_drained]; unfold QueueEmpty; solve_quiet. Qed.
#[local] Hint Resolve silent_report_loop silent_wait_ciphertext silent_wait_drained : aegis.
Lemma silent_InstallFirstBoot turns c target : silent (InstallFirstBoot turns c target).
Proof.
  unfold InstallFirstBoot, WaitForCredentialCiphertext, QueueEmpty, install_files, copyFile, writeTargetFile. cbv zeta. solve_quiet.
Qed.
Lemma silent_report_first_boot c secret : silent (report_first_boot c secret).
Proof.
  unfold report_first_boot, validateInstalledSystem, postFirstBootLog, post_now, PostEvent, PostLog, writeIntFile. cbv zeta. solve_quiet.
Qed.
#[local] Hint Resolve silent_InstallFirstBoot silent_report_first_boot : aegis.
Lemma silent_RunFirstBoot c : silent (RunFirstBoot c).
Proof. unfold RunFirstBoot. solve_quiet. Qed.
#[local] Hint Resolve silent_RunFirstBoot : aegis.

(** ** The daemon *)

Lemma safe_acquire_loop path c key : ∀ turns h,
  configured path c h → own_key key h → safe sign_rule (λ _ _, True) (acquire_loop turns c key) h.
Proof.
  induction turns as [|turns IH]; intros h Hc Hk; cbn [acquire_loop]; [done|]. apply safe_bind.
  eapply safe_impl; [by eapply safe_AcquireCredential|]. intros [material|e] h1 H1 _.
  - apply safe_quiet; [unfold writePrivateFile; auto with aegis|]. done.
  - apply safe_quiet; [auto with aegis|]. intros [] h2 H2; [done|].
    apply IH; [apply (configured_later _ _ h)|apply (own_key_later _ h)]; try done; by transitivity h1.
Qed.

Lemma safe_RunDaemon path turns c h :
  configured path c h → safe sign_rule (λ _ _, True) (RunDaemon turns c) h.
Proof.
  intros Hc. unfold RunDaemon. apply safe_quiet; [auto with aegis|]. intros [[]|e] h1 H1; [|done].
  apply safe_bind. eapply safe_impl; [apply safe_OpenTPMKey, _|]. intros [key|e] h2 H2 Hk.
  - apply safe_bind. eapply safe_impl.
    { apply (safe_acquire_loop path); [|exact Hk]. apply (configured_later _ _ h); [by transitivity h1|done]. }
    intros secret h3 H3 _. apply safe_quiet; [solve_quiet|]. intros outcome h4 H4. apply safe_quiet; [solve_quiet|]. done.
  - apply safe_quiet; [auto with aegis|]. done.
Qed.

Lemma safe_process x : safe sign_rule (λ _ _, True) (process_of x) [].
Proof.
  assert (∀ p : proc unit, silent p → safe sign_rule (λ _ _, True) p []) as Hq by (intros p Hp; apply Hp).
  destruct x as [turns path|stage source message errorCode|turns path target|path]; cbn [process_of].
  - unfold ignore, runDaemon, with_config. apply safe_bind, safe_bind. eapply safe_impl; [apply safe_LoadConfig, _|].
    intros [c|e] h' _ Hc; [|done]. eapply safe_impl; [by eapply safe_RunDaemon|]. done.
  - apply Hq. unfold ignore, runEvent, QueueHookEvent. cbv zeta. solve_quiet.
  - apply Hq. unfold ignore, runInstallFirstBoot, with_config. solve_quiet.
  - apply Hq. unfold ignore, runFirstBoot, with_config. solve_quiet.
Qed.

(** C14. The TPM signs nothing but challenges of its own installation: whatever
    the server, the file system and the TPM answer, when a command of the
    reporter asks the TPM for a signature, it is of the canonical text of a
    challenge the configured server has sent, with the installation and the
    machine of the configuration and the fingerprint of this TPM's key, and
    that server has said before that an operator approved the key. *)
Theorem tpm_signs_only_challenges x l digest k :
  reaches (process_of x) l (Sys (TPMSign digest) k) →
  ∃ path c key text, configured path c l ∧ own_key key l ∧ asked_to_sign c key text l ∧ digest = Artifact.sha256 text.
Proof. intros Hr. destruct (safe_reaches _ _ _ _ _ Hr [] (safe_process x)) as [Hs _]. exact Hs. Qed.

(** ** The report of success *)

Ltac lenient_call := apply quiet_lenient; [apply _|exact I].

Definition with_key (key : string) (q : http_request) : Prop := Get (h_Header q) "Idempotency-Key" = key.

(** A signed request with this key was accepted. *)
Definition posted (key : string) (h : list made) : Prop :=
  ∃ q status body, did (Exchange q) (Ok (status, Ok body)) h ∧ with_key key q ∧ (200 ≤ status < 300)%Z.

(** What the first boot has found: the administrator's account with its keys,
    which nobody else may read, the hardening of the SSH server, which accepts
    its configuration, and the sudo policy. *)
Definition system_valid (c : Config) (h : list made) : Prop :=
  (∃ passwd, did (ReadFile "/etc/passwd") (Ok (Some passwd)) h ∧ has_user passwd (AdminUsername c) = true) ∧
  (∃ size permissions, did (Stat ("/home/" +:+ AdminUsername c +:+ "/.ssh/authorized_keys")) (Ok (Some (size, true, permissions))) h ∧
     size ≠ 0%Z ∧ Z.land permissions 63 = 0%Z) ∧
  (∃ size permissions, did (Stat "/etc/ssh/sshd_config.d/90-aegispxe.conf") (Ok (Some (size, true, permissions))) h) ∧
  (∃ output, did Sshd_t (output, true) h) ∧
  (∃ info, did (Stat "/etc/sudoers.d/90-aegispxe-admin") (Ok (Some info)) h).

(** The first boot has been reported, the installation validated and the log of
    the validation stored. *)
Definition first_boot_passed (c : Config) (h : list made) : Prop :=
  posted "reporter:first-boot" h ∧ posted "reporter:validating" h ∧
  (∃ sequence, posted ("reporter:firstboot-log:" +:+ FormatInt sequence) h) ∧ system_valid c h.

Lemma posted_later key h h' : h ⊆ h' → posted key h → posted key h'.
Proof. intros Hh (q & status & body & Hd & Hk). exists q, status, body. split; [by apply Hh|done]. Qed.

Lemma system_valid_later c h h' : h ⊆ h' → system_valid c h → system_valid c h'.
Proof.
  intros Hh ((passwd & H1 & U1) & (size & permissions & H2 & U2) & (size' & permissions' & H3) & (output & H4) & (info & H5)).
  unfold did in *. split; [exists passwd; split; [by apply Hh|done]|]. split; [exists size, permissions; split; [by apply Hh|done]|].
  split; [exists size', permissions'; by apply Hh|]. split; [exists output|exists info]; by apply Hh.
Qed.

(** The first-boot command of the configuration at [path] may report success. *)
Definition may_succeed (path : string) (h : list made) : Prop := ∃ c, configured path c h ∧ first_boot_passed c h.

Lemma may_succeed_later path h h' : h ⊆ h' → may_succeed path h → may_succeed path h'.
Proof.
  intros Hh (c & Hc & H1 & H2 & (n & H3) & H4). exists c. split; [by eapply configured_later|].
  split; [by eapply posted_later|]. split; [by eapply posted_later|]. split; [exists n; by eapply posted_later|by eapply system_valid_later].
Qed.

Definition success_rule (path : string) (h : list made) B (x : sys B) : Prop :=
  match x with Exchange q => with_key "reporter:success" q → may_succeed path h | _ => True end.

#[local] Instance success_lenient path : Lenient (success_rule path).
Proof. intros h B x Hx. by destruct x. Qed.

Lemma safe_postSigned path c secret key suffix payload h :
  (key = "reporter:success" → may_succeed path h) →
  safe (success_rule path) (λ r h', match r with Ok _ => posted key h' | Err _ => True end) (postSigned c secret key suffix payload) h.
Proof.
  intros Hkey. unfold postSigned, NewRequest. destruct (url_Parse _) as [u|]; [|done].
  apply safe_bind, safe_sys; [done|]. intros now. cbv zeta. destruct (Telemetry.Canonical _ _ _ _ _) as [canonical|]; [|done].
  match goal with |- context [client_do ?r _] => set (q := r) end. assert (with_key key q) as Hq by done. clearbody q. unfold client_do.
  apply (safe_or_return _ (λ x h', did (Exchange q) (Ok x) h')).
  - apply safe_sys; [|intros [x|e]; [|done]; unfold did; set_solver]. cbn. unfold with_key in *. rewrite Hq. intros Hs.
    apply (may_succeed_later _ h); [set_solver|by apply Hkey].
  - done.
  - intros [status [body|e]] h' _ Hd; [|done]. cbn [fst snd mret proc_ret safe mbind result_bind].
    destruct (_ || _) eqn:Es; [destruct (api_error _) as [code message]; by destruct (negb _)|]. bool_inv. by exists q, status, body.
Qed.

Lemma safe_validate path c h :
  safe (success_rule path) (λ r h', match r.2 with None => system_valid c h' | Some _ => True end) (validateInstalledSystem c) h.
Proof.
  unfold validateInstalledSystem.
  apply safe_bind, safe_sys; [done|]. intros [[passwd|]|e]; [|done..]. destruct (has_user _ _) eqn:Hu; cbn [negb]; [|done]. cbv zeta.
  apply safe_bind, safe_sys; [done|]. intros [[[[size regular] permissions]|]|e]; [|done..].
  destruct (negb regular || _) eqn:Hs; [done|]. destruct (negb (Z.land permissions 63 =? 0)%Z) eqn:Hp; [done|]. bool_inv. subst regular.
  apply safe_bind, safe_sys; [done|]. intros [[[[size' [|]] permissions']|]|e]; [|done..].
  apply safe_bind, safe_sys; [done|]. intros [output [|]]; [|done]. cbn [negb snd].
  apply safe_bind, safe_sys; [done|]. intros [[info|]|e]; [|done..]. cbn [safe mret proc_ret snd].
  unfold did. split_and!; [exists passwd|exists size, permissions|exists size', permissions'|exists output|exists info];
    split_and?; try done; set_solver.
Qed.

Lemma safe_post_now path c secret key stage source message errorCode h :
  (∀ h', h ⊆ h' → key = "reporter:success" → may_succeed path h') →
  safe (success_rule path) (λ r h', match r with Ok _ => posted key h' | Err _ => True end)
    (post_now c secret key stage source message errorCode) h.
Proof.
  intros Hkey. unfold post_now. apply safe_quiet; [lenient_call|]. intros t h' Hh. apply safe_postSigned. by apply Hkey.
Qed.

Lemma safe_postFirstBootLog path c secret content h :
  safe (success_rule path)
    (λ r h', match r with Ok _ => ∃ sequence, posted ("reporter:firstboot-log:" +:+ FormatInt sequence) h' | Err _ => True end)
    (postFirstBootLog c secret content) h.
Proof.
  unfold postFirstBootLog. apply safe_quiet; [apply quiet_readIntFile, _|]. intros last h1 _. cbv zeta.
  apply safe_quiet; [lenient_call|]. intros t h2 _.
  eapply safe_or_return; [apply safe_postSigned; by intros|done|]. intros u h3 _ Hp.
  eapply safe_impl; [apply quiet_atomic_write, _|]. intros [[]|e] h4 H4 _; [|done]. exists (next_sequence last). exact (posted_later _ _ _ H4 Hp).
Qed.

Lemma safe_report_first_boot path c secret h :
  configured path c h → safe (success_rule path) (λ _ _, True) (report_first_boot c secret) h.
Proof.
  intros Hc. unfold report_first_boot.
  eapply safe_or_return; [apply safe_post_now; by intros|done|]. intros u1 h1 H1 P1.
  eapply safe_or_return; [apply safe_post_now; by intros|done|]. intros u2 h2 H2 P2.
  apply safe_bind. eapply safe_impl; [apply safe_validate|]. intros outcome h3 H3 Hv.
  eapply safe_or_return; [apply safe_postFirstBootLog|done|]. intros u4 h4 H4 (n & P4).
  destruct outcome as [log [message|]]; cbn [snd] in *.
  - eapply safe_or_return; [apply safe_post_now; by intros|done|]. intros u5 h5 _ _.
    apply safe_quiet; [lenient_call|]. done.
  - eapply safe_or_return; [apply safe_post_now|done|].
    + intros h' Hh _. exists c. split; [apply (configured_later _ _ h); [set_solver|done]|]. split_and!; [apply (posted_later _ h1)|apply (posted_later _ h2)|exists n; by apply (posted_later _ h4)|
        apply (system_valid_later _ h3)]; try done; set_solver.
    + intros u5 h5 _ _. apply (safe_or_return _ (λ _ _, True)); [|done|done]. apply safe_sys; [done|]. by intros [].
Qed.

Lemma safe_first_boot path : safe (success_rule path) (λ _ _, True) (process_of (FirstBootCommand path)) [].
Proof.
  cbn [process_of]. unfold ignore, runFirstBoot, with_config. apply safe_bind, safe_bind. eapply safe_impl; [apply safe_LoadConfig, _|].
  intros [c|e] h Hh Hc; [|done]. apply safe_bind. unfold RunFirstBoot.
  apply safe_quiet; [lenient_call|]. intros [[ciphertext|]|e] h1 H1; [|done..].
  apply safe_bind. eapply safe_impl; [apply safe_OpenTPMKey, _|]. intros [key|e] h2 H2 _; [|done].
  apply safe_quiet; [apply quiet_Decrypt, _|]. intros secret h3 H3. apply safe_bind.
  eapply safe_impl with (Q := λ _ _, True).
  - destruct secret as [secret|e]; [|done]. apply (safe_report_first_boot path). apply (configured_later _ _ h); [set_solver|done].
  - intros r h4 _ _. apply safe_quiet; [lenient_call|]. done.
Qed.

(** C15. A first boot reports success only for a system that passed: whatever the
    server and the system answer, before the first-boot command sends the
    report of success it has read its configuration, reported the first boot
    and the start of the validation, found the administrator's account with
    authorized keys nobody else may read, the hardened SSH configuration,
    accepted by the SSH server, and the sudo policy, and stored the log of the
    validation; the server has accepted each report. *)
Theorem success_is_validated path l q k :
  reaches (process_of (FirstBootCommand path)) l (Sys (Exchange q) k) → with_key "reporter:success" q →
  ∃ c, configured path c l ∧ first_boot_passed c l.
Proof.
  intros Hr Hq. destruct (safe_reaches _ _ _ _ _ Hr [] (safe_first_boot path)) as [Hs _]. by apply Hs.
Qed.
End Programs.
