(* ===== verification/ReporterTheorems.v ===== *)
(** * What the reporter's event queue guarantees *)

From stdpp Require Import relations sorting.
From S2P Require Import Prelude GoStrings StringFacts Fault Encoding Http ReporterHost ReporterClient Reporter ReporterFinalizer ReporterProtocol.
From S2P Require Artifact Lifecycle.

Section Queue.
Context `{Artifact.Crypto} `{C : ReporterCodec} `{!ReporterCodecLaws C}.

(** ** The history of the queue *)

(** The event a call has added to the queue. *)
Definition appended_by (x : called) : option queuedEvent :=
  match e_call x in sys B return B → option queuedEvent with
  | Append path text => λ r,
    if (path =? queuePath)%string then
      match r, split_byte (byte_of 10) text with
      | Ok _, l :: _ => match unmarshal_queued l with Ok e => Some e | Err _ => None end
      | _, _ => None
      end
    else None
  | _ => λ _, None
  end (e_answer x).

Definition appended (trace : list called) : list queuedEvent := omap appended_by trace.
Arguments appended : simpl never.

Lemma appended_none trace x : appended_by x = None → appended (trace ++ [x]) = appended trace.
Proof. intros Hx. unfold appended. rewrite omap_app. cbn. rewrite Hx. by rewrite app_nil_r. Qed.

Lemma appended_some trace x e : appended_by x = Some e → appended (trace ++ [x]) = appended trace ++ [e].
Proof. intros Hx. unfold appended. rewrite omap_app. cbn. by rewrite Hx. Qed.

(** The server accepted the event in the call number [t]. *)
Definition accepted_at (trace : list called) (e : queuedEvent) (t : nat) : Prop :=
  ∃ x, trace !! t = Some x ∧ accepts e (e_call x) (e_answer x) = true.

Definition queue_text (d : disk) : string := default "" (files d !! queuePath).

(** ** The invariant *)

(** What the file holds in each phase of the process with the lock. *)
Definition file_in (ph : phase) (d : disk) (trace : list called) (ts : list nat) (rest : list queuedEvent) : Prop :=
  match ph with
  | Idle | Locked => queue_holds (queue_text d) rest
  | Draining events n =>
    queue_holds (queue_text d) rest ∧ events = rest ∧
    ∃ ts', Forall2 (accepted_at trace) (take n rest) ts' ∧ StronglySorted lt (ts ++ ts')
  | Emptied events => queue_text d = "" ∧ events = rest ∧ ∃ lines, Forall2 line_of lines rest
  end.

Record queue_inv (h : host) (cur : phase) (delivered rest : list queuedEvent) (ts : list nat) : Prop := {
  qi_pool n p : h_pool h !! n = Some p →
    obeys (λ _ ph, ph = Idle) p (if decide (locks (h_disk h) !! queuePath = Some n) then cur else Idle);
  qi_holder n : locks (h_disk h) !! queuePath = Some n → is_Some (h_pool h !! n);
  qi_free : locks (h_disk h) !! queuePath = None → cur = Idle;
  qi_appended : appended (h_trace h) = delivered ++ rest;
  qi_accepted : Forall2 (accepted_at (h_trace h)) delivered ts;
  qi_sorted : StronglySorted lt ts;
  qi_file : file_in cur (h_disk h) (h_trace h) ts rest }.

Lemma accepted_at_app trace new e t : accepted_at trace e t → accepted_at (trace ++ new) e t.
Proof. intros (x & Hx & Ha). exists x. split; [by apply lookup_app_l_Some|done]. Qed.

Lemma accepted_app trace new es ts : Forall2 (accepted_at trace) es ts → Forall2 (accepted_at (trace ++ new)) es ts.
Proof. intros Hf. eapply Forall2_impl; [exact Hf|]. intros e t. apply accepted_at_app. Qed.

Lemma accepted_before trace es ts : Forall2 (accepted_at trace) es ts → Forall (λ t, t < length trace) ts.
Proof. induction 1 as [|e t es ts (x & Hx & _) _ IH]; constructor; [by apply lookup_lt_Some in Hx|done]. Qed.

Lemma sorted_snoc (ts : list nat) n : StronglySorted lt ts → Forall (λ t, t < n) ts → StronglySorted lt (ts ++ [n]).
Proof.
  induction 1 as [|t ts Hs IH Ht]; intros Hn; cbn [app]; [repeat constructor|]. apply Forall_cons in Hn as [Htn Hn].
  constructor; [by apply IH|]. apply Forall_app. split; [done|]. by constructor.
Qed.

Lemma file_in_app ph d trace x ts rest : file_in ph d trace ts rest → file_in ph d (trace ++ [x]) ts rest.
Proof. destruct ph as [| |events n|]; [done|done| |done]. intros (? & ? & ts' & Hf & ?). split_and!; [done..|]. exists ts'. split; [by apply accepted_app|done]. Qed.

Lemma file_in_text ph d d' trace ts rest : queue_text d' = queue_text d → file_in ph d trace ts rest → file_in ph d' trace ts rest.
Proof. intros E. destruct ph; cbn; by rewrite E. Qed.

Lemma file_in_settled ph d trace ts rest : settled ph → file_in ph d trace ts rest → queue_holds (queue_text d) rest.
Proof.
  intros Hs. destruct ph as [| |events n|events]; cbn; [done|done|by intros [? _]|].
  intros (E & <- & _). destruct events as [|e events]; [|by destruct (Hs e events)]. rewrite E. apply queue_holds_nil.
Qed.

(** ** Calls that leave the queue and its lock alone *)

Definition touches_queue {B} (c : sys B) : bool :=
  match c with
  | Flock _ | Unlock _ | Exchange _ => true
  | ReadFile path | Append path _ | Truncate path | WriteStart path _ => (path =? queuePath)%string
  | _ => false
  end.

Lemma queue_text_set path content d : path ≠ queuePath → queue_text (set_file path content d) = queue_text d.
Proof. intros Hp. unfold queue_text, set_file. cbn. by rewrite lookup_insert_ne. Qed.
Lemma queue_text_unset path d : path ≠ queuePath → queue_text (unset_file path d) = queue_text d.
Proof. intros Hp. unfold queue_text, unset_file. cbn. by rewrite lookup_delete_ne. Qed.

Lemma queue_text_create path d : files d !! path = None → queue_text (set_file path "" d) = queue_text d.
Proof.
  intros Hp. destruct (decide (path = queuePath)) as [->|Hne]; [|by apply queue_text_set].
  unfold queue_text, set_file. cbn. by rewrite Hp, lookup_insert_eq.
Qed.

Lemma untouched {B} (c : sys B) n o d r d' ph :
  touches_queue c = false → allowed c ph → perform n c o d = Some (r, d') →
  queue_text d' = queue_text d ∧ locks d' = locks d ∧ after c r ph = ph ∧ appended_by (mkCalled n B c r) = None.
Proof.
  intros Ht [Ha _] Hp. unfold appended_by. destruct c; cbn in Ht, Ha, Hp |- *; try done;
    try apply String.eqb_neq in Ht as Hne; simplify_eq; rewrite ?Ht; unfold unless_fails in *;
    repeat (case_match; simplify_eq; cbn in * ); rewrite ?queue_text_set, ?queue_text_unset by (done || by destruct Ha); try done.
  all: try (by split_and!; destruct ph).
  split; [by apply queue_text_create|done].
Qed.

(** ** Every step keeps the invariant *)

Lemma host_queue_inv h : booted_host h → queue_inv h Idle [] [] [].
Proof.
  intros (fs & Hfs & ->). split; cbn; try done; try (by intros ? ?%lookup_empty_Some); try by constructor.
  unfold queue_text. cbn. rewrite Hfs. apply queue_holds_nil.
Qed.

Lemma inv_spawn d pool trace n x cur del rest ts :
  pool !! n = None → queue_inv (mkHost d pool trace) cur del rest ts →
  queue_inv (mkHost d (<[n := process_of x]> pool) trace) cur del rest ts.
Proof.
  intros Hn [Q1 Q2 Q3 Q4 Q5 Q6 Q7]. split; cbn in *; try done.
  - intros m p. destruct (decide (m = n)) as [->|Hne]; [|rewrite lookup_insert_ne by done; apply Q1].
    rewrite lookup_insert_eq. intros [= <-]. case_decide as Hl; [|apply idle_process_of].
    destruct (Q2 _ Hl) as [p Hp]. congruence.
  - intros m Hm. destruct (Q2 _ Hm) as [p Hp]. exists p. rewrite lookup_insert_ne; [done|]. congruence.
Qed.

Lemma free_locks_holder n d path : locks d !! path = Some n → locks (free_locks n d) !! path = None.
Proof. intros Hl. unfold free_locks. cbn. apply map_lookup_filter_None. right. intros m Hm. cbn. naive_solver congruence. Qed.

Lemma free_locks_other n d path : locks d !! path ≠ Some n → locks (free_locks n d) !! path = locks d !! path.
Proof.
  intros Hl. unfold free_locks. cbn. destruct (locks d !! path) as [m|] eqn:E.
  - apply map_lookup_filter_Some_2; [done|]. cbn. congruence.
  - apply map_lookup_filter_None. by left.
Qed.

Lemma inv_end d pool trace n p cur del rest ts :
  pool !! n = Some p → rewrites_queue p = false → queue_inv (mkHost d pool trace) cur del rest ts →
  ∃ cur', queue_inv (mkHost (free_locks n d) (delete n pool) trace) cur' del rest ts.
Proof.
  intros Hn Hw [Q1 Q2 Q3 Q4 Q5 Q6 Q7]. cbn [h_disk h_pool h_trace] in *.
  destruct (decide (locks d !! queuePath = Some n)) as [Hl|Hl].
  - exists Idle. pose proof (Q1 _ _ Hn) as Ho. rewrite decide_True in Ho by done. pose proof (free_locks_holder _ _ _ Hl) as Hf.
    split; cbn [h_disk h_pool h_trace]; try done.
    + intros m q Hq. rewrite Hf. rewrite decide_False by done. apply lookup_delete_Some in Hq as [Hne Hq].
      specialize (Q1 _ _ Hq). rewrite decide_False in Q1; [done|]. congruence.
    + intros m Hm. congruence.
    + apply (file_in_settled cur d trace ts rest); [|done]. destruct p as [x| |B c k]; cbn in Ho; [exact (proj2 Ho)|exact Ho|].
      destruct Ho as [[_ Ho] _]. intros e r. apply Ho. by destruct c.
  - exists cur. pose proof (free_locks_other _ _ _ Hl) as Hf. split; cbn [h_disk h_pool h_trace]; try rewrite Hf; try done.
    + intros m q Hq. apply lookup_delete_Some in Hq as [Hne Hq]. by apply Q1.
    + intros m Hm. destruct (Q2 _ Hm) as [q Hq]. exists q. apply lookup_delete_Some. split; [congruence|done].
Qed.

Lemma inv_other d fs pool trace cur del rest ts :
  fs !! queuePath = files d !! queuePath → queue_inv (mkHost d pool trace) cur del rest ts →
  queue_inv (mkHost (mkDisk fs (locks d)) pool trace) cur del rest ts.
Proof.
  intros Hf [Q1 Q2 Q3 Q4 Q5 Q6 Q7]. split; cbn in *; try done. eapply file_in_text; [|exact Q7]. unfold queue_text. cbn. by rewrite Hf.
Qed.

(** A call that changes neither the queue nor the phase. *)
Lemma inv_call_quiet d d' pool trace n B (c : sys B) k r cur del rest ts :
  pool !! n = Some (Sys c k) → queue_inv (mkHost d pool trace) cur del rest ts →
  queue_text d' = queue_text d → locks d' = locks d → appended_by (mkCalled n B c r) = None →
  (let ph := if decide (locks d !! queuePath = Some n) then cur else Idle in after c r ph = ph) →
  queue_inv (mkHost d' (<[n := k r]> pool) (trace ++ [mkCalled n B c r])) cur del rest ts.
Proof.
  intros Hn [Q1 Q2 Q3 Q4 Q5 Q6 Q7] Ht Hl Happ Hph. cbn in *. split; cbn; rewrite ?Hl; try done.
  - intros m p. destruct (decide (m = n)) as [->|Hne]; [|rewrite lookup_insert_ne by done; apply Q1].
    rewrite lookup_insert_eq. intros [= <-]. destruct (Q1 _ _ Hn) as [_ Hk]. specialize (Hk r). cbv zeta in Hph. by rewrite Hph in Hk.
  - intros m Hm. destruct (Q2 _ Hm) as [p Hp]. by apply lookup_insert_is_Some'; right.
  - by rewrite appended_none.
  - by apply accepted_app.
  - by apply (file_in_text cur d), file_in_app.
Qed.

(** A call of the process with the lock that moves its phase. *)
Lemma inv_call_holder d d' pool trace n B (c : sys B) k r cur cur' del del' rest rest' ts ts' :
  pool !! n = Some (Sys c k) → queue_inv (mkHost d pool trace) cur del rest ts →
  locks d !! queuePath = Some n → locks d' = locks d → cur' = after c r cur →
  appended (trace ++ [mkCalled n B c r]) = del' ++ rest' →
  Forall2 (accepted_at (trace ++ [mkCalled n B c r])) del' ts' → StronglySorted lt ts' →
  file_in cur' d' (trace ++ [mkCalled n B c r]) ts' rest' →
  queue_inv (mkHost d' (<[n := k r]> pool) (trace ++ [mkCalled n B c r])) cur' del' rest' ts'.
Proof.
  intros Hn [Q1 Q2 Q3 Q4 Q5 Q6 Q7] Hh Hl -> Happ Hacc Hs Hf. cbn in *. split; cbn; rewrite ?Hl; try done.
  - intros m p. destruct (decide (m = n)) as [->|Hne].
    + rewrite lookup_insert_eq. intros [= <-]. rewrite decide_True by done. specialize (Q1 _ _ Hn). rewrite decide_True in Q1 by done. apply Q1.
    + rewrite lookup_insert_ne by done. intros Hp. rewrite decide_False by congruence. specialize (Q1 _ _ Hp).
      rewrite decide_False in Q1 by congruence. done.
  - intros m Hm. apply lookup_insert_is_Some'. right. by apply Q2.
  - congruence.
Qed.

Lemma drop_bytes_nil n : drop_bytes n "" = "".
Proof. by destruct n. Qed.

Lemma first_bytes_0 s : first_bytes 0 s = "".
Proof. by destruct s. Qed.

(** The calls with the lock, one by one. *)
Section Holder.
Context (d : disk) (pool : gmap nat (proc unit)) (trace : list called) (n : nat) (cur : phase)
  (del rest : list queuedEvent) (ts : list nat).
Context (Hinv : queue_inv (mkHost d pool trace) cur del rest ts) (Hl : locks d !! queuePath = Some n).

Lemma holder_quiet d' B (c : sys B) k r :
  pool !! n = Some (Sys c k) → queue_text d' = queue_text d → locks d' = locks d → appended_by (mkCalled n B c r) = None →
  after c r cur = cur → queue_inv (mkHost d' (<[n := k r]> pool) (trace ++ [mkCalled n B c r])) cur del rest ts.
Proof. intros Hn Ht Hk Ha Hc. eapply (inv_call_quiet d); [done..|]. by rewrite decide_True. Qed.

Lemma holder_append e l k :
  pool !! n = Some (Sys (Append queuePath (l +:+ nl)) k) → cur = Locked → marshal_queued e = Ok l →
  ∃ e', queue_inv (mkHost (set_file queuePath (queue_text d +:+ l +:+ nl) d) (<[n := k (Ok tt)]> pool)
    (trace ++ [mkCalled n _ (Append queuePath (l +:+ nl)) (Ok tt)])) Locked del (rest ++ [e']) ts.
Proof.
  intros Hn -> Hm. destruct (line_of_marshal _ _ Hm) as [e' He']. exists e'. pose proof He' as ((Hfree & _) & Hu & _).
  pose proof Hinv as [_ _ _ Q4 Q5 Q6 Q7]. cbn in *. eapply (inv_call_holder d); try done.
  - rewrite (appended_some _ _ e'), Q4, <- app_assoc; [done|]. unfold appended_by. cbn [e_call e_answer].
    rewrite String.eqb_refl. unfold nl. by rewrite split_byte_app, Hu.
  - by apply accepted_app.
  - cbn. unfold queue_text at 1. cbn. rewrite lookup_insert_eq. cbn. by apply queue_holds_snoc.
Qed.

Lemma holder_read k content :
  pool !! n = Some (Sys (ReadFile queuePath) k) → files d !! queuePath = content →
  queue_inv (mkHost d (<[n := k (Ok content)]> pool) (trace ++ [mkCalled n _ (ReadFile queuePath) (Ok content)]))
    (after (ReadFile queuePath) (Ok content) cur) del rest ts.
Proof.
  intros Hn Hc. pose proof Hinv as [_ _ _ Q4 Q5 Q6 Q7]. cbn in *. eapply (inv_call_holder d); try done.
  - by rewrite appended_none.
  - by apply accepted_app.
  - apply file_in_app. cbn. destruct cur; try done. unfold file_in in Q7. unfold queue_text in Q7. rewrite Hc in Q7.
    destruct (decode_queue (default "" content)) as [events|e] eqn:Hd; cbn; unfold queue_text; rewrite ?Hc; [|done].
    split; [done|]. split; [by eapply decode_queue_inv|]. exists []. rewrite app_nil_r. split; [constructor|done].
Qed.

Lemma holder_exchange q k r :
  pool !! n = Some (Sys (Exchange q) k) →
  queue_inv (mkHost d (<[n := k r]> pool) (trace ++ [mkCalled n _ (Exchange q) r])) (after (Exchange q) r cur) del rest ts.
Proof.
  intros Hn. pose proof Hinv as [_ _ _ Q4 Q5 Q6 Q7]. cbn in *. eapply (inv_call_holder d); try done.
  - by rewrite appended_none.
  - by apply accepted_app.
  - destruct cur as [| |events m|]; try (by apply file_in_app). cbn [after accepts].
    destruct (events !! m) as [e|] eqn:He; [|by apply file_in_app]. destruct (posts e q && accepted r) eqn:Ha; [|by apply file_in_app].
    destruct Q7 as (Hq & -> & ts' & Hf & Hs). cbn. split; [done|]. split; [done|].
    exists (ts' ++ [length trace]). rewrite (take_S_r _ _ _ He), app_assoc. split.
    + apply Forall2_app; [by apply accepted_app|]. constructor; [|done]. eexists. split; [rewrite lookup_app_r, Nat.sub_diag by done; done|done].
    + apply sorted_snoc; [done|]. apply Forall_app. split; by eapply accepted_before.
Qed.

Lemma holder_truncate events m k :
  pool !! n = Some (Sys (Truncate queuePath) k) → cur = Draining events m →
  ∃ ts', queue_inv (mkHost (set_file queuePath "" d) (<[n := k (Ok tt)]> pool) (trace ++ [mkCalled n _ (Truncate queuePath) (Ok tt)]))
    (Emptied (drop m events)) (del ++ take m rest) (drop m rest) ts'.
Proof.
  intros Hn ->. pose proof Hinv as [_ _ _ Q4 Q5 Q6 (Hq & -> & ts' & Hf & Hs)]. cbn in *. exists (ts ++ ts').
  eapply (inv_call_holder d); try done.
  - rewrite appended_none by done. by rewrite Q4, <- app_assoc, take_drop.
  - apply Forall2_app; by apply accepted_app.
  - cbn. unfold queue_text. cbn. rewrite lookup_insert_eq. split; [done|]. split; [done|].
    destruct Hq as (lines & _ & Hlines). exists (drop m lines). by apply Forall2_drop.
Qed.

Lemma holder_write events k r :
  pool !! n = Some (Sys (WriteStart queuePath (encode_queue events)) k) → cur = Emptied events →
  queue_inv (mkHost (set_file queuePath (encode_queue events +:+ drop_bytes (String.length (encode_queue events)) (queue_text d)) d)
    (<[n := k r]> pool) (trace ++ [mkCalled n _ (WriteStart queuePath (encode_queue events)) r])) Locked del rest ts.
Proof.
  intros Hn ->. pose proof Hinv as [_ _ _ Q4 Q5 Q6 (Ht & -> & Hlines)]. cbn in *. eapply (inv_call_holder d); try done.
  - by rewrite appended_none.
  - by apply accepted_app.
  - cbn. unfold queue_text at 1. cbn. rewrite lookup_insert_eq. cbn. rewrite Ht, drop_bytes_nil, app_nil_r_s. by apply queue_holds_encode.
Qed.
End Holder.

(** Taking and giving back the lock. *)
Lemma inv_flock d pool trace n k cur del rest ts :
  pool !! n = Some (Sys (Flock queuePath) k) → queue_inv (mkHost d pool trace) cur del rest ts → locks d !! queuePath = None →
  queue_inv (mkHost (mkDisk (files d) (<[queuePath := n]> (locks d))) (<[n := k (Ok tt)]> pool)
    (trace ++ [mkCalled n _ (Flock queuePath) (Ok tt)])) Locked del rest ts.
Proof.
  intros Hn [Q1 Q2 Q3 Q4 Q5 Q6 Q7] Hl. cbn in *. rewrite (Q3 Hl) in *. split; cbn; rewrite ?lookup_insert_eq; try done.
  - intros m p. destruct (decide (m = n)) as [->|Hne].
    + rewrite lookup_insert_eq. intros [= <-]. rewrite decide_True by done. specialize (Q1 _ _ Hn). rewrite Hl in Q1. by apply Q1.
    + rewrite lookup_insert_ne by done. intros Hp. rewrite decide_False by congruence. specialize (Q1 _ _ Hp). by rewrite Hl in Q1.
  - intros m [= <-]. rewrite lookup_insert_eq. by eexists.
  - by rewrite appended_none.
  - by apply accepted_app.
Qed.

Lemma inv_unlock d pool trace n k cur del rest ts :
  pool !! n = Some (Sys (Unlock queuePath) k) → queue_inv (mkHost d pool trace) cur del rest ts → locks d !! queuePath = Some n →
  queue_inv (mkHost (mkDisk (files d) (delete queuePath (locks d))) (<[n := k tt]> pool)
    (trace ++ [mkCalled n _ (Unlock queuePath) tt])) Idle del rest ts.
Proof.
  intros Hn [Q1 Q2 Q3 Q4 Q5 Q6 Q7] Hl. cbn in *. split; cbn; rewrite ?lookup_delete_eq; try done.
  - intros m p. rewrite decide_False by done. destruct (decide (m = n)) as [->|Hne].
    + rewrite lookup_insert_eq. intros [= <-]. specialize (Q1 _ _ Hn). rewrite decide_True in Q1 by done. apply Q1.
    + rewrite lookup_insert_ne by done. intros Hp. specialize (Q1 _ _ Hp). rewrite decide_False in Q1 by congruence. done.
  - by rewrite appended_none.
  - by apply accepted_app.
  - apply (file_in_settled cur d trace ts rest); [|done]. specialize (Q1 _ _ Hn). rewrite decide_True in Q1 by done.
    destruct Q1 as [[_ Hs] _]. intros e r. by apply Hs.
Qed.

Lemma inv_call d d' pool trace n B (c : sys B) k o r cur del rest ts :
  pool !! n = Some (Sys c k) → perform n c o d = Some (r, d') → tears_queue c o = false →
  queue_inv (mkHost d pool trace) cur del rest ts →
  ∃ cur' del' rest' ts', queue_inv (mkHost d' (<[n := k r]> pool) (trace ++ [mkCalled n B c r])) cur' del' rest' ts'.
Proof.
  intros Hn Hp Hw Hq. pose proof (qi_pool _ _ _ _ _ Hq _ _ Hn) as [Ha Hk]. cbn [h_disk] in Ha, Hk.
  assert (Hquiet : queue_text d' = queue_text d → locks d' = locks d → appended_by (mkCalled n B c r) = None →
    (let ph := if decide (locks d !! queuePath = Some n) then cur else Idle in after c r ph = ph) →
    ∃ cur' del' rest' ts', queue_inv (mkHost d' (<[n := k r]> pool) (trace ++ [mkCalled n B c r])) cur' del' rest' ts').
  { intros. exists cur, del, rest, ts. by eapply inv_call_quiet. }
  destruct (touches_queue c) eqn:Ht.
  2: { destruct (untouched c n o d r d' _ Ht Ha Hp) as (? & ? & ? & ?). by apply Hquiet. }
  destruct (decide (locks d !! queuePath = Some n)) as [Hl|Hl].
  - destruct c; cbn [touches_queue] in Ht; try done; try apply String.eqb_eq in Ht as ->; cbn in Hp.
    + unfold unless_fails in Hp. destruct (o_fails o); simplify_eq; [by apply Hquiet|].
      eexists _, _, _, _. by eapply holder_read.
    + destruct Ha as [[-> Hi] _]. rewrite Hl in Hp. destruct (o_fails o); simplify_eq. by apply Hquiet.
    + destruct Ha as [-> _]. rewrite decide_True in Hp by done. simplify_eq. eexists _, _, _, _. by eapply inv_unlock.
    + destruct Ha as [(Hc & e & l & Hm & ->) _]; [done|]. unfold status, written in Hp. unfold tears_queue in Hw. destruct (o_fails o); simplify_eq.
      { rewrite String.eqb_refl in Hw. apply negb_false_iff, Nat.eqb_eq in Hw. apply Hquiet; try done.
        rewrite Hw. unfold queue_text. cbn. rewrite lookup_insert_eq. cbn. by rewrite first_bytes_0, app_nil_r_s. }
      edestruct holder_append as [e' He']; [done..|]. eauto.
    + destruct Ha as [(events & m & Hc & _) _]; [done|]. unfold unless_fails in Hp. destruct (o_fails o); simplify_eq; [by apply Hquiet|].
      edestruct holder_truncate as [ts' Hts']; [done..|]. eauto.
    + destruct Ha as [(events & Hc & ->) _]; [done|]. unfold status, written in Hp. unfold tears_queue in Hw. rewrite String.eqb_refl in Hw. destruct (o_fails o); simplify_eq.
      eexists _, _, _, _. by eapply holder_write.
    + simplify_eq. eexists _, _, _, _. by eapply holder_exchange.
  - destruct c; cbn [touches_queue] in Ht; try done; try apply String.eqb_eq in Ht as ->; cbn in Hp.
    + unfold unless_fails in Hp. apply Hquiet; try (by destruct (o_fails o); simplify_eq).
    + destruct Ha as [[-> Hi] _]. destruct (o_fails o); simplify_eq; [by apply Hquiet|]. destruct (locks d !! queuePath) eqn:E; [done|].
      simplify_eq. eexists _, _, _, _. by eapply inv_flock.
    + destruct Ha as [-> _]. rewrite decide_False in Hp by done. simplify_eq. by apply Hquiet.
    + destruct Ha as [(Hc & _) _]; done.
    + destruct Ha as [(events & m & Hc & _) _]; done.
    + destruct Ha as [(events & Hc & ->) _]; done.
    + simplify_eq. by apply Hquiet.
Qed.

Lemma host_inv h : host_reachable h → ∃ cur del rest ts, queue_inv h cur del rest ts.
Proof.
  intros (h0 & H0 & Hr). enough (∀ cur del rest ts, queue_inv h0 cur del rest ts → ∃ cur' del' rest' ts', queue_inv h cur' del' rest' ts') as Hx
    by (eapply Hx, host_queue_inv, H0).
  clear H0. induction Hr as [h|h h1 h' Hs Hr IH]; intros cur del rest ts Hq; [eauto|].
  assert (∃ cur' del' rest' ts', queue_inv h1 cur' del' rest' ts') as (? & ? & ? & ? & Hq'); [|by eapply IH].
  destruct Hs.
  - eexists _, _, _, _. by apply inv_spawn.
  - by eapply inv_call.
  - edestruct inv_end; eauto.
  - eexists _, _, _, _. by apply inv_other.
Qed.

(** C9. No lifecycle event of the installer is lost, invented or overtaken in
    the reporter: however the daemon, the hooks and the hand-over interleave,
    lose answers, die or find that calls fail, the events whose writing to the
    queue succeeded are, in the order in which they were queued, those the
    server has accepted one after the other, followed by exactly the content of
    the queue file whenever nobody holds its lock (which the daemon can read
    unless a line has 64 KiB or more).  Three failures are excluded, against
    which the code has no protection: that a part of an event reaches the queue
    file and the rest of its line does not, that writing back the rest of the
    queue fails after the file was emptied, and that a process dies between
    these two calls. *)
Theorem queued_events_arrive_in_order h :
  host_reachable h →
  ∃ delivered rest ts,
    appended (h_trace h) = delivered ++ rest ∧
    Forall2 (accepted_at (h_trace h)) delivered ts ∧ StronglySorted lt ts ∧
    (locks (h_disk h) !! queuePath = None →
     decode_queue (queue_text (h_disk h)) = Ok rest ∨
     ∃ l, l ∈ split_byte (byte_of 10) (queue_text (h_disk h)) ∧ maxScanToken ≤ String.length l).
Proof.
  intros (cur & del & rest & ts & Hq)%host_inv. exists del, rest, ts. destruct Hq as [_ _ Q3 Q4 Q5 Q6 Q7].
  split_and!; try done. intros Hl. rewrite (Q3 Hl) in Q7. by apply decode_queue_holds.
Qed.
End Queue.
