(* ===== verification/Delivery.v ===== *)
(** * From the reporter's queue to the installation's history

    The client of ReporterClient.v talks to the handlers of System.v over a
    network that may lose a request or its answer and through a listener that
    passes on some paths (the listeners of the server hide the reporter's); between two requests other
    users of the server may change the store.  However often the daemon has to
    start over, every event of the queue is recorded once and in order. *)

From S2P Require Import Prelude GoStrings StringFacts Fault Encoding GoParse Op Db Progress Http HttpDiscovery HttpTelemetry System HttpFacts.
From S2P Require Import ReporterHost ReporterClient Reporter ReporterProtocol.
From S2P Require Artifact Lifecycle Telemetry.
From S2P Require Import StoreTelemetry TelemetryTheorems SystemTheorems.

(** ** The network *)

(** What happens to the requests of the client: the clock it reads, what others
    have done to the store when the request arrives, the ambients of the server's
    calls ([None] when the request is lost), and whether the answer arrives. *)
Record fate := mkFate {
  f_clock : time;
  f_others : DB → DB;
  f_served : option (nat → ambient);
  f_answered : bool }.

(** The TPM, as the two calls of a conversation see it. *)
Record tpm := mkTPM {
  tpm_Sign : string → result (option string);
  tpm_Decrypt : string → string → result string }.

Section Delivery.
Context `{Artifact.Crypto} `{Decoders} `{ReporterCodec} (server : Server) (passes : string → bool) (fetch : string → result (Z * result string)).
Context (chip : tpm) (c : Config) (secret : string).

Abbreviation iid := (InstallationID c).

(** The handlers the client talks to, and the wildcard of their patterns. *)
Definition client_routes : list route := [TrustEnroll; TrustChallenge; TrustProve; ReporterEvent; ReporterLog].

Definition route_of (path : string) : option (route * string) :=
  x ← List.find (λ x, match outer_pattern x with Some p => pattern_matches p path | None => false end) client_routes;
  id ← split_byte "/" path !! 4; Some (x, id).

(** What the client posts to. *)
Definition suffix_of (x : route) : string :=
  match x with
  | TrustEnroll => "/trust/enroll" | TrustChallenge => "/trust/challenge" | TrustProve => "/trust/prove"
  | ReporterEvent => "/reporter/events" | _ => "/reporter/logs"
  end.

(** The listener passes some paths to the handlers and hides the others. *)
Definition dispatch (path : string) : option (route * string) := if passes path then route_of path else None.

(** The requests of the client are addressed to its installation. *)
Definition addressed : Prop :=
  TrimSpace iid = iid ∧
  ∀ x u, x ∈ client_routes → url_Parse (endpoint c (suffix_of x)) = Some u → route_of (Path u) = Some (x, iid).

(** The API base is a URL whose paths begin with a slash and are passed on by
    the listener. *)
Definition api_exists : Prop :=
  ∀ x, x ∈ client_routes → ∃ u, url_Parse (endpoint c (suffix_of x)) = Some u ∧ HasPrefix (TrimSpace (Path u)) "/" = true ∧ passes (Path u) = true.

(** The request as net/http hands it to the handler. *)
Definition received (id : string) (q : http_request) : Request :=
  mkRequest (h_Method q) (Path (h_URL q)) id "" (Host (h_URL q)) "192.0.2.7:40000" (h_Header q) [] (Ok []) (Ok (h_Body q)).

Definition lost {A} : result A := Err (Plain "connection lost").

(** The body as it is sent; [json.Encoder] ends a value with a line feed. *)
Definition answer_text (p : Response) : string :=
  match p_Body p with JSON j => marshal j +:+ nl | Text s => s end.

Definition exchange (q : http_request) (x : fate) (db : DB) : result (Z * result string) * DB :=
  let db := f_others x db in
  match f_served x with
  | None => (lost, db)
  | Some env =>
    let '(p, db') :=
      match dispatch (Path (h_URL q)) with
      | None => (not_found, db)
      | Some (route, id) => serve (handle server fetch route (received id q)) env true 0 db
      end in
    (if f_answered x then Ok (p_Status p, Ok (answer_text p)) else lost, db')
  end.

(** Runs a program of the client that reads the clock, asks the TPM and sends
    requests; request [n] has fate [fates n]. *)
Fixpoint converse {A} (p : proc A) (fates : nat → fate) (n : nat) (db : DB) : option (A * nat * DB) :=
  match p with
  | Ret x => Some (x, n, db)
  | Panic => None
  | Sys call k =>
    match call in sys B return (B → nat → DB → option (A * nat * DB)) → option (A * nat * DB) with
    | Now => λ go, go (f_clock (fates n)) n db
    | TPMSign digest => λ go, go (tpm_Sign chip digest) n db
    | TPMDecrypt ciphertext label => λ go, go (tpm_Decrypt chip ciphertext label) n db
    | Exchange q => λ go, let '(r, db') := exchange q (fates n) db in go r (S n) db'
    | _ => λ _, None
    end (λ r n db, converse (k r) fates n db)
  end.

(** The turns of the daemon: each posts the events of the queue in order; the
    queue is cut unless the process dies first. *)
Inductive turns : list queuedEvent → DB → list queuedEvent → DB → Prop :=
| no_turn queue db : turns queue db queue db
| one_turn queue db rest n db1 queue' db' (fates : nat → fate) (survives : bool) :
    (∀ n db, installation_history iid (f_others (fates n) db) = installation_history iid db) →
    converse (post_events c secret queue) fates 0 db = Some (rest, n, db1) →
    turns (if survives then rest else queue) db1 queue' db' → turns queue db queue' db'.

(** ** What the server makes of an event *)

(** The report of a queued event. *)
Definition report_of (e : queuedEvent) : Lifecycle.Report :=
  Lifecycle.mkReport iid (qe_Stage e) (qe_Source e) (qe_ClientTime e) (qe_IdempotencyKey e)
    (TrimSpace (qe_Message e)) (TrimSpace (qe_ErrorCode e)) ∅.

(** encoding/json and time carry the event from the client to the server. *)
Definition understood (e : queuedEvent) : Prop :=
  TrimSpace (qe_IdempotencyKey e) = qe_IdempotencyKey e ∧
  ∃ payload clientTime,
    decode_event (marshal (event_payload (qe_Stage e) (qe_Source e) (qe_Message e) (qe_ErrorCode e) (qe_ClientTime e))) = Ok payload ∧
    parseOptionalClientTime (te_ClientTime payload) = Ok clientTime ∧
    event_report iid (qe_IdempotencyKey e) payload clientTime = report_of e.

(** The record of an event. *)
Definition record_of (r : Lifecycle.Event) (e : queuedEvent) : Prop :=
  Lifecycle.IdempotencyKey r = qe_IdempotencyKey e ∧ same_report r (report_of e) = true.

(** The installation's history is [base] and the first [k] events. *)
Definition history_has (base : list Lifecycle.Event) (events : list queuedEvent) (k : nat) (db : DB) : Prop :=
  k ≤ length events ∧
  ∃ records, installation_history iid db = base ++ records ∧ Forall2 record_of records (take k events).

Definition last_stage (history : list Lifecycle.Event) : Lifecycle.Stage :=
  match last history with Some r => Lifecycle.Event_Stage r | None => "" end.

Section Base.
Context (base : list Lifecycle.Event) (events : list queuedEvent).
Context (Hbase : ∀ r e, r ∈ base → e ∈ events → Lifecycle.IdempotencyKey r ≠ qe_IdempotencyKey e).
Context (Hkeys : NoDup (qe_IdempotencyKey <$> events)).

Lemma filter_nothing {A} (P : A → Prop) `{!∀ x, Decision (P x)} l : (∀ x, x ∈ l → ¬ P x) → filter P l = [].
Proof.
  induction l as [|x l IH]; intros Hl; [done|]. rewrite filter_cons_False by (apply Hl; left). apply IH. intros y Hy. apply Hl. by right.
Qed.

(** The record of an event is found by its key, if there is one. *)
Lemma find_record k db i e :
  history_has base events k db → events !! i = Some e →
  match event_by_key iid (qe_IdempotencyKey e) db with
  | Some r => i < k ∧ record_of r e
  | None => k ≤ i
  end.
Proof.
  intros (Hk & records & Hh & Hr) He. unfold event_by_key. rewrite Hh, filter_app.
  rewrite (filter_nothing _ base), app_nil_l by (intros r Hin; apply Hbase; [done|by eapply list_elem_of_lookup_2]).
  destruct (decide (i < k)) as [Hi|Hi].
  - assert (take k events !! i = Some e) as He' by (by rewrite lookup_take_lt).
    destruct (Forall2_lookup_r _ _ _ _ _ Hr He') as (r & Hri & Hre).
    assert (records = take i records ++ r :: drop (S i) records) as Hsplit by (symmetry; by apply take_drop_middle).
    rewrite Hsplit, filter_app, filter_nothing, app_nil_l.
    + rewrite filter_cons_True by apply Hre. cbn. done.
    + intros x (j & Hj)%list_elem_of_lookup Hx. apply lookup_take_Some in Hj as [Hj Hlt].
      destruct (Forall2_lookup_l _ _ _ _ _ Hr Hj) as (y & Hy & Hxy). apply lookup_take_Some in Hy as [Hy _].
      assert (j = i); [|lia]. eapply (NoDup_lookup _ _ _ (qe_IdempotencyKey e) Hkeys); rewrite list_lookup_fmap.
      * rewrite Hy. cbn. f_equal. destruct Hxy as [<- _]. done.
      * by rewrite He.
  - rewrite filter_nothing; [cbn; lia|]. intros r (j & Hj)%list_elem_of_lookup Hx.
    destruct (Forall2_lookup_l _ _ _ _ _ Hr Hj) as (y & Hy & Hxy). apply lookup_take_Some in Hy as [Hy Hlt].
    assert (j = i); [|lia]. eapply (NoDup_lookup _ _ _ (qe_IdempotencyKey e) Hkeys); rewrite list_lookup_fmap.
    * rewrite Hy. cbn. f_equal. destruct Hxy as [<- _]. done.
    * by rewrite He.
Qed.

(** ** One request *)

Lemma served_event env r rid n db p db' e :
  understood e → q_Body r = Ok (marshal (event_payload (qe_Stage e) (qe_Source e) (qe_Message e) (qe_ErrorCode e) (qe_ClientTime e))) →
  header r "Idempotency-Key" = qe_IdempotencyKey e → TrimSpace (q_ID r) = iid →
  served env true (reporterTelemetryEvent r rid) n db p db' →
  ((400 ≤ p_Status p)%Z ∧ installation_history iid db' = installation_history iid db) ∨
  ∃ a dbm ev dup, installation_history iid dbm = installation_history iid db ∧
    run (AppendLifecycleEvent (report_of e) rid) a dbm = (Ok (ev, dup), db').
Proof.
  intros (Hkey & payload & t & Hd & Ht & Hr) Hbody Hh Hid Hs. unfold reporterTelemetryEvent in Hs. cbv zeta in Hs.
  rewrite Hh, Hkey, Hid in Hs. destruct (Lifecycle.ValidateIdempotencyKey _); [|apply served_ret in Hs as [-> ->]; by left].
  apply served_bind in Hs as (authenticated & db1 & n1 & Ha & Hs).
  assert (installation_history iid db1 = installation_history iid db ∧
    match authenticated with
    | inl p => (400 ≤ p_Status p)%Z
    | inr content => content = marshal (event_payload (qe_Stage e) (qe_Source e) (qe_Message e) (qe_ErrorCode e) (qe_ClientTime e))
    end) as [Hh1 Hcontent].
  { unfold authenticateReporterBody in Ha. unfold read_body in Ha. rewrite Hbody in Ha. cbn [mbind result_bind] in Ha.
    destruct (fail_if _ _) as [[]|err]; cbn [mbind result_bind] in Ha; [|by apply served_ret in Ha as [-> ->]].
    cbv zeta in Ha. destruct (negb _); [by apply served_ret in Ha as [-> ->]|].
    destruct (ParseInt _) as [timestamp|]; [|by apply served_ret in Ha as [-> ->]].
    destruct (timestamp <=? 0)%Z; [by apply served_ret in Ha as [-> ->]|].
    apply served_bind in Ha as (verified & db2 & n2 & Hv%served_call & [-> ->]%served_ret). destruct verified as [u|err].
    - split; [|done]. by apply VerifyLifecycleMAC_Ok in Hv as (id & row & text & _ & _ & _ & _ & _ & _ & ->).
    - split; [|done]. by apply run_atomic in Hv as ->; [|apply atomic_VerifyLifecycleMAC]. }
  destruct authenticated as [q|content]; [apply served_ret in Hs as [-> ->]; by left|]. subst content. rewrite Hd in Hs.
  unfold append_event in Hs. rewrite Ht, Hr in Hs.
  apply served_bind in Hs as (accepted & db2 & n2 & Hrun%served_call & [-> ->]%served_ret). destruct accepted as [[ev dup]|err].
  - right. exists (env n1), db1, ev, dup. split; [done|]. exact Hrun.
  - left. split; [apply telemetry_error_status|]. by apply run_atomic in Hrun as ->; [|apply atomic_AppendLifecycleEvent].
Qed.

Lemma history_has_eq k db db' :
  installation_history iid db' = installation_history iid db → history_has base events k db → history_has base events k db'.
Proof. unfold history_has. by intros ->. Qed.

(** The next event is recorded. *)
Lemma record_next k e rid t db :
  history_has base events k db → events !! k = Some e → history_has base events (S k) (accept_report (report_of e) rid t db).
Proof.
  intros (Hlen & records & Hh & Hr) He. split; [by apply lookup_lt_Some in He|].
  exists (records ++ [reported_event (report_of e) rid t (lifecycle_seq db + 1)]). split.
  - rewrite accept_history. unfold installation_history in *. cbn [lifecycle_events add_lifecycle_event set_lifecycle].
    rewrite filter_app, Hh, filter_cons_True, filter_nil by done. by rewrite app_assoc.
  - rewrite (take_S_r _ _ _ He). apply Forall2_app; [done|]. constructor; [|done]. split; [done|apply same_report_reported].
Qed.

(** Accepting an event of the queue: a repetition, or the next event. *)
Lemma append_progress k i e rid a db ev dup db' :
  history_has base events k db → events !! i = Some e → i ≤ k →
  run (AppendLifecycleEvent (report_of e) rid) a db = (Ok (ev, dup), db') →
  ∃ k', k ≤ k' ∧ i < k' ∧ history_has base events k' db'.
Proof.
  intros Hk He Hi (_ & _ & [(_ & -> & Hkey & _)|(_ & Hkey & _ & _ & ->)])%AppendLifecycleEvent_Ok;
    pose proof (find_record _ _ _ _ Hk He) as Hf; cbn [Lifecycle.r_InstallationID Lifecycle.r_IdempotencyKey report_of] in Hkey;
    rewrite Hkey in Hf.
  - exists k. split_and!; [lia|apply Hf|done].
  - assert (i = k) as -> by lia. exists (S k). split_and!; [lia..|]. by apply record_next.
Qed.

Lemma exchange_event q x id k i e db r db' :
  history_has base events k db → events !! i = Some e → i ≤ k → understood e → posts e q = true →
  route_of (Path (h_URL q)) = Some (ReporterEvent, id) → TrimSpace id = iid →
  (∀ db, installation_history iid (f_others x db) = installation_history iid db) →
  exchange q x db = (r, db') →
  ∃ k', k ≤ k' ∧ history_has base events k' db' ∧ (accepted r = true → i < k').
Proof.
  intros Hk He Hi Hu Hp Hroute Hid Ho Hx. unfold posts in Hp. bool_inv. unfold exchange, dispatch in Hx. rewrite Hroute in Hx.
  pose proof (history_has_eq _ _ _ (Ho db) Hk) as Hk0. destruct (f_served x) as [env|]; [|simplify_eq; by exists k].
  destruct (passes _); [|simplify_eq; exists k; by destruct (f_answered x)].
  destruct (serve _ _ _ _ _) as [p db1] eqn:Hs. simplify_eq. apply served_handle in Hs as
    [[Hst ->]|(rid & r' & rid' & n & a & _ & Ha & Hst & _ & ->)].
  { exists k. split_and!; [done..|]. rewrite Hst. by destruct (f_answered x). }
  eapply (served_event env _ _ _ _ _ _ e) in Ha; try done.
  - destruct Ha as [[Hp Hh]|(a' & dbm & ev & dup & Hh & Hrun)].
    + exists k. split; [done|]. split; [by eapply history_has_eq|]. destruct (f_answered x); [|done]. cbn. intros Hacc. bool_inv.
      rewrite Hst in *. lia.
    + eapply append_progress in Hrun as (k' & Hkk & Hik & Hk'); [|by eapply history_has_eq|done|done]. by exists k'.
  - cbn. by f_equal.
  - rewrite header_set_ne by done. unfold header, received. cbn [q_Header]. done.
Qed.

(** ** The programs of the client *)

Lemma converse_bind {A B} (p : proc A) (f : A → proc B) fates : ∀ n db,
  converse (p ≫= f) fates n db = '(x, n, db) ← converse p fates n db; converse (f x) fates n db.
Proof.
  induction p as [x| |T call k IH]; intros n db; [done|done|]. destruct call; try done; cbn [mbind proc_bind converse].
  - apply IH.
  - destruct (exchange r (fates n) db) as [x db']. apply IH.
  - apply IH.
  - apply IH.
Qed.

Context (Haddr : addressed) (Hund : Forall understood events).

#[local] Opaque maxResponse.

Lemma converse_PostEvent e fates n db k i r n' db' :
  history_has base events k db → events !! i = Some e → i ≤ k →
  (∀ n db, installation_history iid (f_others (fates n) db) = installation_history iid db) →
  converse (PostEvent c secret (qe_IdempotencyKey e) (qe_Stage e) (qe_Source e) (qe_Message e) (qe_ErrorCode e) (qe_ClientTime e))
    fates n db = Some (r, n', db') →
  ∃ k', k ≤ k' ∧ history_has base events k' db' ∧ (r = Ok tt → i < k').
Proof.
  intros Hk He Hi Ho. unfold PostEvent, postSigned, NewRequest. destruct Haddr as [Hid Hroute].
  destruct (url_Parse _) as [u|] eqn:Hu; [|cbn; intros [= <- _ <-]; by exists k].
  cbn [mbind proc_bind sys_ converse]. set (now := f_clock (fates n)). clearbody now.
  destruct (Telemetry.Canonical _ _ _ _ _) as [canonical|]; [|cbn; intros [= <- _ <-]; by exists k].
  unfold client_do. cbn [or_return mbind proc_bind sys_ converse].
  destruct (exchange _ (fates n) db) as [answer db1] eqn:Hx.
  apply (exchange_event _ _ iid k i e) in Hx as (k' & Hkk & Hk' & Hacc); try done.
  - intros Hr. exists k'. split; [done|]. destruct answer as [[status [body|err]]|err]; cbn [mret proc_ret converse fst snd mbind result_bind] in Hr; simplify_eq; try done.
    split; [done|]. intros Hok. apply Hacc. cbn [accepted]. cbv zeta in Hok.
    destruct (Z.ltb_spec status 200); destruct (Z.leb_spec 300 status); cbn [orb] in Hok; try (destruct (api_error _); by case_match).
    apply andb_true_iff. split; [by apply Z.leb_le|by apply Z.ltb_lt].
  - rewrite Forall_lookup in Hund. by eapply Hund.
  - unfold posts. cbn. by rewrite !String.eqb_refl.
  - apply Hroute; [|done]. do 3 right. left.
Qed.

Lemma converse_post_events fates i : ∀ n db k rest n' db',
  history_has base events k db → i ≤ k →
  (∀ n db, installation_history iid (f_others (fates n) db) = installation_history iid db) →
  converse (post_events c secret (drop i events)) fates n db = Some (rest, n', db') →
  ∃ i' k', i ≤ i' ∧ i' ≤ k' ∧ k ≤ k' ∧ rest = drop i' events ∧ history_has base events k' db'.
Proof.
  remember (drop i events) as queue eqn:E. revert i E. induction queue as [|e queue IH]; intros i E n db k rest n' db' Hk Hi Ho Hc.
  - cbn in Hc. simplify_eq. exists i, k. by rewrite <- E.
  - assert (events !! i = Some e) as He by (rewrite <- (Nat.add_0_r i), <- lookup_drop, <- E; done).
    cbn [post_events] in Hc. rewrite converse_bind in Hc.
    destruct (converse (PostEvent _ _ _ _ _ _ _ _) fates n db) as [[[r n1] db1]|] eqn:Hp; [|done]. cbn [mbind option_bind] in Hc.
    apply (converse_PostEvent _ _ _ _ k i) in Hp as (k1 & Hkk & Hk1 & Hok); try done. destruct r as [[]|err].
    + specialize (Hok eq_refl). eapply (IH (S i)) in Hc as (i' & k' & ? & ? & ? & ? & ?); try done.
      * exists i', k'. split_and!; try done; lia.
      * by rewrite <- Nat.add_1_r, <- drop_drop, <- E.
    + cbn in Hc. simplify_eq. exists i, k1. rewrite E. split_and!; try done. lia.
Qed.

Lemma turns_deliver i k db queue' db' :
  history_has base events k db → i ≤ k → turns (drop i events) db queue' db' →
  ∃ i' k', i ≤ i' ∧ i' ≤ k' ∧ k ≤ k' ∧ queue' = drop i' events ∧ history_has base events k' db'.
Proof.
  intros Hk Hi Ht. remember (drop i events) as queue eqn:E. revert i k E Hk Hi.
  induction Ht as [queue db|queue db rest n db1 queue' db' fates survives Ho Hc Ht IH]; intros i k -> Hk Hi.
  - exists i, k. by split_and!.
  - eapply converse_post_events in Hc as (i1 & k1 & ? & ? & ? & -> & Hk1); [|done..]. destruct survives.
    + edestruct (IH i1 k1) as (i' & k' & ? & ? & ? & ? & ?); try done. exists i', k'. split_and!; try done; lia.
    + edestruct (IH i k1) as (i' & k' & ? & ? & ? & ? & ?); try done; [lia|]. exists i', k'. split_and!; try done; lia.
Qed.
(** ** A reliable turn *)

Context `{!Artifact.CryptoLaws _} (until : time).

(** The installation's credential is the client's, and lives until [until]. *)
Definition credentialed (db : DB) : Prop :=
  (∃ id row, credentials db !! id = Some row ∧ cr_installation row = iid) ∧
  ∀ id row, credentials db !! id = Some row → cr_installation row = iid →
    cr_secret_sha256 row = Telemetry.KeyFromSecret secret ∧ cr_revoked_at row = None ∧ (until ≤ cr_expires_at row)%Z.

(** [n] more events can be recorded. *)
Definition ready (n : nat) (db : DB) : Prop :=
  is_Some (specs db !! iid) ∧ credentialed db ∧
  (lifecycle_seq db + Z.of_nat n < max_rowid)%Z ∧ (log_seq db < max_rowid)%Z ∧ (event_seq db + Z.of_nat n < max_rowid)%Z.

(** Nothing gets lost, nothing fails, and what others do leaves the
    installation's history and its credential alone. *)
Definition reliable (x : fate) : Prop :=
  f_answered x = true ∧ (0 < Unix (f_clock x) < 2 ^ 63)%Z ∧
  (∀ db, installation_history iid (f_others x db) = installation_history iid db) ∧
  (∀ n db, ready n db → ready n (f_others x db)) ∧
  ∃ env, f_served x = Some env ∧ ∀ j, healthy (env j) ∧ (clock (env j) < until)%Z ∧
    (clock (env j) - telemetryAuthClockSkew ≤ time_Unix (Unix (f_clock x)) ≤ clock (env j) + telemetryAuthClockSkew)%Z.

Definition body_of (e : queuedEvent) : string :=
  marshal (event_payload (qe_Stage e) (qe_Source e) (qe_Message e) (qe_ErrorCode e) (qe_ClientTime e)).

(** The server accepts the event as it is. *)
Definition acceptable (e : queuedEvent) : Prop :=
  Lifecycle.Report_Validate (report_of e) = Ok tt ∧
  (len (body_of e) ≤ maxTelemetryEventBody)%Z.

Lemma room_ready n db : ready n db → room db.
Proof. intros (_ & _ & ? & ? & ?). split_and!; lia. Qed.

Lemma ready_less m n db : n ≤ m → ready m db → ready n db.
Proof. intros Hnm (? & ? & ? & ? & ?). split_and!; try done; lia. Qed.

Lemma credential_found db :
  credentialed db → ∃ id row, credential_of iid db = Some (id, row) ∧
    cr_secret_sha256 row = Telemetry.KeyFromSecret secret ∧ cr_revoked_at row = None ∧ (until ≤ cr_expires_at row)%Z.
Proof.
  intros [(id & row & Hrow & Hi) Hall]. destruct (credential_of iid db) as [[id' row']|] eqn:Hc.
  - exists id', row'. split; [done|]. apply credential_of_row in Hc as [Hc Hi']. by eapply Hall.
  - by apply (find_row_None _ _ _ _ Hc) in Hrow.
Qed.

Lemma touched_ready n t db : ready n db → ready n (touched iid t db).
Proof.
  intros (Hs & [(id & row & Hrow & Hi) Hall] & Hr). split; [done|]. split; [|done]. split.
  - exists id, (touch_credential_row t row). unfold touched. cbn [credentials set_credentials]. rewrite lookup_fmap, Hrow. cbn.
    by rewrite bool_decide_true.
  - intros id' row' Hrow' Hi'. unfold touched in Hrow'. cbn [credentials set_credentials] in Hrow'.
    apply lookup_fmap_Some in Hrow' as (row0 & <- & Hrow0). case_bool_decide; [|by eapply Hall]. by apply (Hall id' row0).
Qed.

Lemma accept_ready n report rid t db :
  Lifecycle.Terminal (Lifecycle.r_Stage report) = false → ready (S n) db → ready n (accept_report report rid t db).
Proof.
  intros Ht (Hs & Hc & Hr). unfold accept_report, revoke_if_terminal. rewrite Ht. split; [done|]. split; [done|]. cbn. lia.
Qed.

(** The server's clocks while it works on a request of second [ts]. *)
Definition on_time (env : nat → ambient) (ts : Z) : Prop :=
  ∀ j, healthy (env j) ∧ (clock (env j) < until)%Z ∧
    (clock (env j) - telemetryAuthClockSkew ≤ time_Unix ts ≤ clock (env j) + telemetryAuthClockSkew)%Z.

(** The request [r] is the client's. *)
Definition signed_by_client (r : Request) (key content : string) (ts : Z) : Prop :=
  header r "X-Aegis-Timestamp" = FormatInt ts ∧
  ∃ text, Telemetry.Canonical (q_Method r) (q_Path r) key ts content = Ok text ∧
    header r "Authorization" = HttpTelemetry.Scheme +:+ " " +:+ Telemetry.Sign (Telemetry.KeyFromSecret secret) text.

Lemma Sign_visible key text :
  all_bytes is_graph (Telemetry.Sign key text) = true ∧ Telemetry.Sign key text ≠ "".
Proof.
  split; [unfold Telemetry.Sign; auto with aegis|]. intros E. pose proof (Telemetry.Verify_Sign key text) as Hver.
  rewrite E in Hver. by vm_compute in Hver.
Qed.

Lemma client_authenticated env r key content ts limit n db x db' :
  credentialed db → on_time env ts → (0 < ts < 2 ^ 63)%Z → iid ≠ "" → TrimSpace iid = iid →
  q_Body r = Ok content → (len content ≤ limit)%Z → signed_by_client r key content ts →
  served env true (authenticateReporterBody r iid key limit) n db x db' →
  x = inr content ∧ ∃ t, db' = touched iid t db.
Proof.
  intros Hcred Henv Hts Hne Hid Hbody Hlen (Htime & text & Htext & Hauth) Ha. unfold authenticateReporterBody, read_body in Ha.
  rewrite Hbody in Ha. cbn [mbind result_bind] in Ha. rewrite (proj2 (Z.ltb_ge _ _) Hlen) in Ha. cbn [fail_if mbind result_bind] in Ha.
  cbv zeta in Ha. rewrite Hauth, Htime in Ha. destruct (Sign_visible (Telemetry.KeyFromSecret secret) text) as [Hgraph Hsig0].
  rewrite TrimSpace_words in Ha by done.
  change (HttpTelemetry.Scheme +:+ " " +:+ Telemetry.Sign (Telemetry.KeyFromSecret secret) text)
    with ((HttpTelemetry.Scheme +:+ " ") +:+ Telemetry.Sign (Telemetry.KeyFromSecret secret) text) in Ha.
  rewrite HasPrefix_self, TrimPrefix_app, (TrimSpace_graph _ Hgraph), (TrimSpace_graph (FormatInt ts)), ParseInt_FormatInt in Ha by auto with aegis.
  cbn [negb] in Ha. rewrite (proj2 (Z.leb_gt ts 0)) in Ha by lia.
  apply served_bind in Ha as (verified & db2 & n2 & Hv%served_call & [-> ->]%served_ret).
  destruct (Henv n) as (Hhealthy & Hclock & Hskew), (credential_found _ Hcred) as (cid & row & Hc & Hverifier & Hrev & Hexp).
  rewrite (verify_run _ _ _ _ _ _ _ _ _ cid row text) in Hv; try done.
  - rewrite Hid in Hv. simplify_eq. split; [done|]. by eexists.
  - by rewrite Hid.
  - by rewrite Hid.
  - rewrite Hverifier. apply Artifact.sha256_length.
  - lia.
  - rewrite Hverifier. apply Telemetry.Verify_Sign.
Qed.

(** The handler, for an event of the client. *)
Lemma reliable_event env r rid n db p db' e ts m :
  understood e → acceptable e → ready m db → on_time env ts → (0 < ts < 2 ^ 63)%Z →
  TrimSpace (q_ID r) = iid → q_Body r = Ok (body_of e) → header r "Idempotency-Key" = qe_IdempotencyKey e →
  signed_by_client r (qe_IdempotencyKey e) (body_of e) ts →
  served env true (reporterTelemetryEvent r rid) n db p db' →
  ∃ t t' rid' answer, append_lifecycle (report_of e) rid' t' (touched iid t db) = (answer, db') ∧
    (is_ok answer = true → (200 ≤ p_Status p < 300)%Z).
Proof.
  intros (Hkey & payload & t & Hd & Ht & Hr) [Hval Hlen] Hready Henv Hts Hid Hbody Hh Hsigned Hs.
  pose proof (Lifecycle.Report_Validate_Ok _ _ Hval) as (Hne & _ & _ & Hk & _).
  cbn [Lifecycle.r_InstallationID Lifecycle.r_IdempotencyKey report_of] in Hne, Hk.
  assert (TrimSpace iid = iid) as Hid' by (by rewrite <- Hid, TrimSpace_idem). rewrite Hid' in Hne.
  unfold reporterTelemetryEvent in Hs. cbv zeta in Hs. rewrite Hh, Hkey, Hid, Hk in Hs.
  apply served_bind in Hs as (authenticated & db1 & n1 & Ha & Hs).
  apply (client_authenticated _ _ _ (body_of e) ts) in Ha; try done; [|apply Hready].
  destruct Ha as [-> [t1 ->]]. unfold body_of in Hs. rewrite Hd in Hs.
  unfold append_event in Hs. rewrite Ht, Hr in Hs.
  apply served_bind in Hs as (accepted & db2 & n2 & Hrun%served_call & [-> ->]%served_ret).
  rewrite append_refines in Hrun; [|apply Henv|by eapply room_ready, touched_ready].
  exists t1, (clock (env n1)), rid, accepted. split; [done|]. destruct accepted as [[ev dup]|err]; [|done].
  intros _. by destruct dup.
Qed.

(** The stages of the queue continue the history. *)
Context (Hchain : Lifecycle.chain (last_stage base) (qe_Stage <$> events)).

Lemma next_stage k e db :
  history_has base events k db → events !! k = Some e → Lifecycle.CanAdvance (current_stage iid db) (qe_Stage e) = true.
Proof.
  intros (_ & records & Hh & Hr) He. unfold current_stage. rewrite Hh.
  assert ((qe_Stage <$> events) !! k = Some (qe_Stage e)) as Hs by (by rewrite list_lookup_fmap, He).
  pose proof (Lifecycle.chain_lookup _ _ _ _ Hchain Hs) as Hc. destruct k as [|k].
  - rewrite take_0 in Hr. apply Forall2_nil_inv_r in Hr as ->. by rewrite app_nil_r.
  - destruct (events !! k) as [d|] eqn:Hd; [|apply lookup_ge_None in Hd; apply lookup_lt_Some in He; lia].
    rewrite (take_S_r _ _ _ Hd) in Hr. apply Forall2_app_inv_r in Hr as (l1 & l2 & _ & Hl & ->).
    apply Forall2_cons_inv_r in Hl as (r & l3 & [_ Hsame] & ->%Forall2_nil_inv_r & ->).
    rewrite app_assoc, last_snoc. rewrite list_lookup_fmap, Hd in Hc. cbn in Hc. unfold same_report in Hsame. rewrite !andb_true_iff, !String.eqb_eq in Hsame.
    by destruct Hsame as (((((_ & ->) & _) & _) & _) & _).
Qed.

Lemma append_recorded k i e rid t db answer db' :
  history_has base events k db → events !! i = Some e → i ≤ k → acceptable e → ready (length events - k) db →
  append_lifecycle (report_of e) rid t db = (answer, db') →
  is_ok answer = true ∧
  ∃ k', i < k' ∧ history_has base events k' db' ∧ (S i < length events → ready (length events - k') db').
Proof.
  intros Hk He Hi [Hval _] Hready Ha. pose proof (find_record _ _ _ _ Hk He) as Hf. unfold append_lifecycle in Ha. rewrite Hval in Ha.
  cbn [Lifecycle.r_InstallationID Lifecycle.r_IdempotencyKey Lifecycle.r_Stage report_of] in Ha.
  rewrite decide_False in Ha by (destruct Hready as [[s ->] _]; done).
  destruct (event_by_key iid (qe_IdempotencyKey e) db) as [r|].
  - destruct Hf as [Hik [_ Hsame]]. rewrite Hsame in Ha. simplify_eq. split; [done|]. by exists k.
  - assert (i = k) as -> by lia. rewrite (next_stage _ _ _ Hk He) in Ha. simplify_eq. split; [done|]. exists (S k).
    split; [lia|]. split; [by apply record_next|]. intros Hlt. apply accept_ready.
    + apply not_true_iff_false. intros Hterm. cbn in Hterm.
      assert ((qe_Stage <$> events) !! k = Some (qe_Stage e)) as Hs by (by rewrite list_lookup_fmap, He).
      apply (Lifecycle.chain_terminal_end _ _ _ _ Hchain) in Hs; [|done]. rewrite length_fmap in Hs. lia.
    + by replace (S (length events - S k)) with (length events - k) by lia.
Qed.

(** The events are posted to a path of the server. *)
Context (Hurl : api_exists).

Lemma key_visible e : acceptable e → understood e → TrimSpace (qe_IdempotencyKey e) ≠ "".
Proof.
  intros [(_ & _ & _ & Hk & _)%Lifecycle.Report_Validate_Ok _] [-> _] E. cbn in Hk. rewrite E in Hk. by vm_compute in Hk.
Qed.

Lemma Canonical_post p key ts content :
  HasPrefix (TrimSpace p) "/" = true → TrimSpace key ≠ "" → (0 < ts)%Z →
  ∃ text, Telemetry.Canonical "POST" p key ts content = Ok text.
Proof.
  intros Hp Hk Hts. unfold Telemetry.Canonical. cbv zeta. rewrite Hp.
  destruct (String.eqb_spec (TrimSpace p) "") as [E|_]; [by rewrite E in Hp|].
  rewrite (proj2 (String.eqb_neq _ _) Hk), (proj2 (Z.leb_gt ts 0)) by done. by eexists.
Qed.

Lemma reliable_exchange x k i e db u text :
  history_has base events k db → events !! i = Some e → i ≤ k → acceptable e → ready (length events - k) db → reliable x →
  route_of (Path u) = Some (ReporterEvent, iid) → passes (Path u) = true → TrimSpace iid = iid → understood e →
  Telemetry.Canonical "POST" (Path u) (qe_IdempotencyKey e) (Unix (f_clock x)) (body_of e) = Ok text →
  ∃ status reply k' db', exchange
    (mkHttp "POST" u
       [("Content-Type", "application/json"); ("Idempotency-Key", qe_IdempotencyKey e);
        ("X-Aegis-Timestamp", FormatInt (Unix (f_clock x)));
        ("Authorization", HttpTelemetry.Scheme +:+ " " +:+ Telemetry.Sign (Telemetry.KeyFromSecret secret) text)] (body_of e)) x db =
    (Ok (status, Ok reply), db') ∧ (200 ≤ status < 300)%Z ∧
    i < k' ∧ history_has base events k' db' ∧ (S i < length events → ready (length events - k') db').
Proof.
  intros Hk He Hi Hacc Hready (Hans & Hts & Hhist & Hothers & env & Henv & Htimes) Hroute Hpass Hid Hu Htext.
  unfold exchange, dispatch. cbn [h_URL]. rewrite Henv, Hpass, Hroute, Hans.
  pose proof (history_has_eq _ _ _ (Hhist db) Hk) as Hk0. apply Hothers in Hready.
  destruct (serve _ _ _ _ _) as [p db1] eqn:Hs. apply served_handle_tracked in Hs as
    [(Hun & _)|(rid & r' & rid' & n & a & _ & Ha & Hst & _ & ->)].
  { exfalso. revert Hun. apply healthy_tracked. intros j. apply Htimes. }
  rewrite Hst. eapply (reliable_event env _ _ _ _ _ _ e (Unix (f_clock x))) in Ha; try done.
  - destruct Ha as (t & t' & rid'' & answer & Hl & Hstatus).
    apply (append_recorded k i) in Hl as (Hok & k' & Hik & Hk' & Hr'); try done; [|by apply touched_ready].
    exists (p_Status a), (answer_text p), k', db1. split; [done|]. split; [by apply Hstatus|]. done.
  - split; [by rewrite header_set_ne|]. exists text. split; [done|]. by rewrite header_set_ne.
Qed.

Lemma reliable_PostEvent fates n db k i e :
  history_has base events k db → events !! i = Some e → i ≤ k → acceptable e → ready (length events - k) db → reliable (fates n) →
  ∃ k' db', converse (PostEvent c secret (qe_IdempotencyKey e) (qe_Stage e) (qe_Source e) (qe_Message e) (qe_ErrorCode e) (qe_ClientTime e))
      fates n db = Some (Ok tt, S n, db') ∧
    i < k' ∧ history_has base events k' db' ∧ (S i < length events → ready (length events - k') db').
Proof.
  intros Hk He Hi Hacc Hready Hrel. assert (understood e) as Hu by (rewrite Forall_lookup in Hund; by eapply Hund).
  assert (ReporterEvent ∈ client_routes) as Hin by (do 3 right; left).
  destruct (Hurl _ Hin) as (u & Hparse & Hslash & Hpass), Haddr as [Hid Hroute]. specialize (Hroute _ _ Hin Hparse). cbn [suffix_of] in Hparse.
  destruct (Canonical_post (Path u) (qe_IdempotencyKey e) (Unix (f_clock (fates n))) (body_of e)) as [text Htext];
    [done|by apply key_visible|apply Hrel|].
  destruct (reliable_exchange _ _ _ _ _ _ _ Hk He Hi Hacc Hready Hrel Hroute Hpass Hid Hu Htext) as (status & reply & k' & db' & Hx & Hst & Hrest).
  exists k', db'. split; [|done]. unfold PostEvent, postSigned, NewRequest. rewrite Hparse.
  cbn [mbind proc_bind sys_ converse h_URL]. fold (body_of e). rewrite Htext. unfold client_do.
  cbn [or_return mbind proc_bind sys_ converse]. rewrite Hx. cbn [mret proc_ret converse fst snd mbind result_bind]. cbv zeta.
  rewrite (proj2 (Z.ltb_ge _ _)), (proj2 (Z.leb_gt _ _)) by lia. done.
Qed.

Lemma reliable_post_events fates i : ∀ n db k,
  history_has base events k db → i ≤ k → (∀ n, reliable (fates n)) → Forall acceptable events →
  (i < length events → ready (length events - k) db) → i ≤ length events →
  ∃ n' db', converse (post_events c secret (drop i events)) fates n db = Some ([], n', db') ∧
    history_has base events (length events) db'.
Proof.
  remember (drop i events) as queue eqn:E. revert i E. induction queue as [|e queue IH]; intros i E n db k Hk Hi Hrel Hacc Hready Hlen.
  - exists n, db. split; [done|]. assert (length (drop i events) = 0) as Hd by (by rewrite <- E). rewrite length_drop in Hd.
    replace (length events) with k by (destruct Hk; lia). done.
  - assert (events !! i = Some e) as He by (rewrite <- (Nat.add_0_r i), <- lookup_drop, <- E; done).
    pose proof (lookup_lt_Some _ _ _ He) as Hlt.
    assert (acceptable e) as Hae by (rewrite Forall_lookup in Hacc; by eapply Hacc).
    destruct (reliable_PostEvent fates n db k i e Hk He Hi Hae (Hready Hlt) (Hrel n)) as (k' & db' & Hp & Hik & Hk' & Hr').
    destruct (IH (S i) ltac:(by rewrite <- Nat.add_1_r, <- drop_drop, <- E) (S n) db' k') as (n' & db2 & Hc & Hh); [done..|].
    exists n', db2. split; [|done]. cbn [post_events]. rewrite converse_bind, Hp. exact Hc.
Qed.
End Base.

(** C10. Every event of the queue is recorded at most once and in order, whatever
    the network and the server do to the client's requests: after any number of
    turns of the daemon, in which requests and answers get lost, a listener hides
    the path, the server fails or refuses and the daemon dies before it cuts the
    queue, the history of the installation is what it was followed by the records
    of a prefix of the queue, and what the queue still holds begins no later than
    the first event that is not recorded.  It is assumed that the events of the
    queue have different keys, none of which the history has at the start; that
    JSON carries them to the server as they are; that the client's URLs name the
    installation; and that nobody else writes this installation's history
    meanwhile, while others may change anything else in the store. *)
Theorem events_are_recorded_once base events db queue db' :
  addressed → Forall understood events → NoDup (qe_IdempotencyKey <$> events) →
  (∀ r e, r ∈ base → e ∈ events → Lifecycle.IdempotencyKey r ≠ qe_IdempotencyKey e) →
  installation_history iid db = base → turns events db queue db' →
  ∃ i k records, i ≤ k ∧ k ≤ length events ∧ queue = drop i events ∧
    installation_history iid db' = base ++ records ∧ Forall2 record_of records (take k events).
Proof.
  intros Ha Hu Hn Hb Hh Ht. assert (history_has base events 0 db) as Hk0.
  { split; [lia|]. exists []. rewrite app_nil_r, take_0. by split. }
  destruct (turns_deliver base events Hb Hn Ha Hu 0 0 _ _ _ Hk0 (le_n _) Ht) as (i & k & _ & ? & _ & -> & ? & records & ? & ?).
  by exists i, k, records.
Qed.

(** What the server asks of the events of a queue: that it understands and
    accepts each, that the keys are fresh, and that the stages are a path of the
    lifecycle from the last stage of the history. *)
Definition deliverable (base : list Lifecycle.Event) (events : list queuedEvent) : Prop :=
  Forall understood events ∧ Forall acceptable events ∧ NoDup (qe_IdempotencyKey <$> events) ∧
  (∀ r e, r ∈ base → e ∈ events → Lifecycle.IdempotencyKey r ≠ qe_IdempotencyKey e) ∧
  Lifecycle.chain (last_stage base) (qe_Stage <$> events).

(** C11. A turn in which nothing fails delivers a queue the server can accept.
    The queue is [deliverable]: the server understands each event and would
    accept it on its own, the keys are different and new to the history, and the
    stages go on from the history's last one as the lifecycle allows (an event
    that does not would be refused each time and hold up those behind it).  The
    client's URLs name the installation and a listener passes them to the
    handlers (the listeners of the server hide these paths today).  However many
    turns went wrong before, and however far they got, when the credential still
    lives, the clocks agree, the store has room and others leave the history and
    the credential alone, the next turn posts every event that is left, the queue
    is empty, and the history of the installation is what it was followed by
    exactly one record of each event, in order. *)
Theorem reliable_turn_delivers `{!Artifact.CryptoLaws _} until base events db queue db1 fates :
  addressed → api_exists →
  deliverable base events → installation_history iid db = base → turns events db queue db1 →
  (queue ≠ [] → ready until (length events) db1) → (∀ n, reliable until (fates n)) →
  ∃ n db2 records, converse (post_events c secret queue) fates 0 db1 = Some ([], n, db2) ∧
    installation_history iid db2 = base ++ records ∧ Forall2 record_of records events.
Proof.
  intros Haddr Hurl (Hu & Hacc & Hn & Hb & Hchain) Hh Ht Hready Hrel. assert (history_has base events 0 db) as Hk0.
  { split; [lia|]. exists []. rewrite app_nil_r, take_0. by split. }
  destruct (turns_deliver base events Hb Hn Haddr Hu 0 0 _ _ _ Hk0 (le_n _) Ht) as (i & k & _ & Hik & _ & -> & Hk).
  edestruct (reliable_post_events base events) as (n & db2 & Hc & Hend); try done; [|by destruct Hk; lia|].
  - intros Hi. apply (ready_less _ (length events)); [lia|]. apply Hready. intros E%(f_equal length). rewrite length_drop in E. cbn in E. lia.
  - destruct Hend as (_ & records & Hrec & Hall). rewrite firstn_all in Hall. by exists n, db2, records.
Qed.
End Delivery.
