(* ===== verification/Enrollment.v ===== *)
(** * How an approved reporter gets its credential

    The protocol of boot trust between the client of ReporterClient.v, its TPM
    and the server: enrolment, challenge, proof, release.  The first part
    computes the operations of the store on a store in which the operator has
    approved the machine's key; the second part is the handlers; the third the
    conversation. *)

From S2P Require Import Prelude GoStrings Regex StringFacts Fault Encoding Op Db Progress Http HttpDiscovery HttpTelemetry System HttpFacts.
From S2P Require Import ReporterHost ReporterClient Reporter ReporterProtocol.
From S2P Require Artifact Lifecycle Machine Installation Assignment Telemetry.
From S2P Require Import StoreTelemetry TelemetryTheorems StoreInstallations StoreTrust Store Delivery.
From S2P Require Import Boottrust.

(** ** The operations of the store *)

Section Store.
Context `{Artifact.Crypto} `{!Artifact.CryptoLaws _}.
Context (iid mid fp praw pem : string) (pub : Artifact.rsa_PublicKey) (s : Installation.Spec).
Context (Hiid : TrimSpace iid = iid) (Hmid : TrimSpace mid = mid) (Hfp : TrimSpace fp = fp) (Hpem : TrimSpace praw = pem).
Context (Hparse : ParseRSAPublicKeyPEM pem = Ok (pub, fp)).

(** The operator approved the key of the installation's machine. *)
Record approved (db : DB) : Prop := {
  ap_spec : specs db !! iid = Some s ∧ Installation.MachineID s = mid;
  ap_assignment : ∃ x, assignment_of iid db = Some x ∧ Assignment.a_State x ≠ Assignment.StateCancelled;
  ap_machine : ∃ m, machines db !! mid = Some m ∧ Machine.m_Policy m = Machine.PolicyProvision;
  ap_key : ∃ k, trust_keys db !! fp = Some k ∧ k_Fingerprint k = fp ∧ k_MachineID k = mid ∧ k_State k = KeyApproved ∧ k_PublicKeyPEM k = pem }.

Lemma binding_run a d w t :
  healthy a → approved w →
  ∃ st, st ≠ Assignment.StateCancelled ∧ trustBindingTx iid a (mkConn d w t) = (Ok (mid, st), mkConn d w (S t)).
Proof.
  intros Ha [[Hs Hm] (x & Hx & Hst) _ _]. exists (Assignment.a_State x). split; [done|].
  unfold trustBindingTx, trust_binding. rewrite Hiid. forward Ha. by rewrite Hs, Hx, Hm.
Qed.

Lemma policy_run a d w t : healthy a → approved w → requireProvisionPolicyTx mid a (mkConn d w t) = (Ok tt, mkConn d w (S t)).
Proof.
  intros Ha [_ _ (m & Hm & Hp) _]. unfold requireProvisionPolicyTx. forward Ha. rewrite Hm. forward Ha. by rewrite Hp.
Qed.

Lemma key_run k a d w t :
  healthy a → trust_keys w !! fp = Some k → k_MachineID k = mid → bootTrustKeyTx mid fp a (mkConn d w t) = (Ok k, mkConn d w (S t)).
Proof.
  intros Ha Hk Hkm. unfold bootTrustKeyTx. forward Ha. rewrite Hmid, Hfp. unfold key_of. by rewrite Hk, bool_decide_true.
Qed.

Lemma register_run rid a db :
  healthy a → approved db →
  ∃ k, k_Fingerprint k = fp ∧ k_MachineID k = mid ∧ k_State k = KeyApproved ∧
  run (RegisterBootTrustKey iid praw "" rid) a db = (Ok (k, false), update_key mid fp (λ _, true) (touch_key (clock a) "") db).
Proof.
  intros Ha Hap. pose proof Hap as [_ _ _ (k & Hk & Hkf & Hkm & Hks & Hkp)].
  exists (touch_key (clock a) "" k). split_and!; [done..|].
  unfold run, RegisterBootTrustKey. cbv zeta. rewrite Hiid, Hpem. forward Ha. rewrite Hparse. forward Ha.
  change (ValidateEKFingerprint (TrimSpace "")) with (Ok tt : result unit). forward Ha. cbn [fst snd].
  destruct (binding_run a db db 1 Ha Hap) as (st & Hst & Hb). rewrite Hb. forward Ha.
  cbn [fst snd]. rewrite (proj2 (String.eqb_neq _ _) Hst). forward Ha. rewrite policy_run by done. forward Ha.
  rewrite (key_run k) by done. forward Ha. rewrite Hkp, Hks, String.eqb_refl. change (TrimSpace "") with "".
  rewrite String.eqb_refl. cbn [negb andb orb]. rewrite andb_false_r. forward Ha.
  erewrite exec_update_run by done. by forward Ha.
Qed.

Lemma rand_value {DB} a n (d w : DB) t x : entropy a t n = Some x → rand_Read n a (mkConn d w t) = (Ok x, mkConn d w (S t)).
Proof. unfold rand_Read. cbn. by intros ->. Qed.

Lemma idgen_value p a d w t raw :
  entropy a t 12 = Some raw → idgen_New p a (mkConn d w t) = (Ok (p +:+ hex_encode raw), mkConn d w (S t)).
Proof. intros Hr. unfold idgen_New. by rewrite bind_run, (rand_value _ _ _ _ _ _ Hr). Qed.

Definition row_of (nonce : string) (t : time) : ChallengeRow :=
  mkChallengeRow iid mid fp nonce t (t + bootTrustChallengeTTL)%Z None "" None.

(** The identifiers the server would draw are not in use. *)
Definition drawn_fresh (a : ambient) (db : DB) : Prop :=
  ∀ t raw, entropy a t 12 = Some raw → challenges db !! ("btc_" +:+ hex_encode raw) = None.

Lemma challenge_run rid a db :
  healthy a → entropy_ok a → approved db → drawn_fresh a db →
  ∃ raw nonce, String.length raw = 12 ∧ String.length nonce = 32 ∧
    let id := "btc_" +:+ hex_encode raw in
    challenges db !! id = None ∧
    run (CreateBootTrustChallenge iid fp rid) a db =
    (Ok (mkChallenge id iid mid fp nonce (clock a) (clock a + bootTrustChallengeTTL)%Z zeroTime "" zeroTime),
     set_challenges (<[id := row_of nonce (clock a)]> (challenges db)) db).
Proof.
  intros Ha He Hap Hfresh. pose proof Hap as [[Hs _] _ (m & Hm & _) (k & Hk & Hkf & Hkm & Hks & Hkp)].
  destruct (proj2 Ha 4 12) as [raw Hraw], (proj2 Ha 5 32) as [nonce Hnonce].
  exists raw, nonce. split; [by apply He in Hraw|]. split; [by apply He in Hnonce|]. cbv zeta. split; [by eapply Hfresh|].
  unfold run, CreateBootTrustChallenge. cbv zeta. rewrite Hiid, Hfp. forward Ha.
  destruct (binding_run a db db 1 Ha Hap) as (st & Hst & Hb). rewrite Hb. forward Ha.
  cbn [fst snd]. rewrite (proj2 (String.eqb_neq _ _) Hst). forward Ha. rewrite policy_run by done. forward Ha.
  rewrite (key_run k) by done. forward Ha. rewrite Hks, String.eqb_refl. forward Ha.
  rewrite (idgen_value _ _ _ _ _ raw) by done. forward Ha. rewrite (rand_value _ _ _ _ _ _ Hnonce). forward Ha.
  assert (insert_challenge ("btc_" +:+ hex_encode raw) (row_of nonce (clock a)) db =
    Ok (set_challenges (<["btc_" +:+ hex_encode raw := row_of nonce (clock a)]> (challenges db)) db)) as Hins.
  { unfold insert_challenge. cbn [cl_installation cl_machine cl_key cl_nonce row_of].
    rewrite !bool_decide_true by first [by eapply Hfresh|by eexists]. by rewrite (He _ _ _ Hnonce). }
  rewrite (exec_insert_run _ Ha _ _ _ _ _ Hins). by forward Ha.
Qed.

(** The challenge [id] is open: not used, and good until [expiry]. *)
Definition open_challenge (id nonce : string) (t : time) (db : DB) : Prop := challenges db !! id = Some (row_of nonce t).

(** No credential was released. *)
Definition unreleased (db : DB) : Prop :=
  credentials db !! Installation.LifecycleCredentialID s = None ∧ ∀ cid row, credentials db !! cid = Some row → cr_installation row ≠ iid.

Definition canonical_of (id nonce : string) : string :=
  Join ["AEGISPXE-BOOT-TRUST-V1"; id; iid; mid; fp; RawURLEncoding_EncodeToString nonce] nl +:+ nl.

Lemma canonical_run id nonce t1 t2 t3 ct t4 :
  blank id = false → blank iid = false → blank mid = false → blank fp = false → String.length nonce = 32 →
  CanonicalChallenge (mkChallenge id iid mid fp nonce t1 t2 t3 ct t4) = Ok (canonical_of id nonce).
Proof.
  intros H1 H2 H3 H4 Hn. unfold CanonicalChallenge. cbn [ch_ID ch_InstallationID ch_MachineID ch_KeyFingerprint ch_Nonce].
  unfold len. by rewrite H1, H2, H3, H4, Hn.
Qed.

Definition released_db (id ciphertext secret : string) (rid : string) (t : time) (db : DB) : DB :=
  audit (trust_event Event.EntityInstallation iid "BOOT_TRUST_VERIFIED" rid "boottrust:tpm"
           "TPM-bound proof verified; encrypted lifecycle credential released" t)
    (use_challenge t ciphertext (t + defaultLifecycleCredentialTTL)%Z id
       (set_credentials (<[Installation.LifecycleCredentialID s := new_credential iid secret t defaultLifecycleCredentialTTL]> (credentials db)) db)).

Lemma encoded_secret_length x : String.length x = 32 → String.length (RawURLEncoding_EncodeToString x) = 43.
Proof. intros Hx. do 32 (destruct x as [|? x]; [done|]). by destruct x. Qed.

(** OAEP with the key of the machine takes a secret. *)
Definition encrypts : Prop :=
  ∀ seed m, String.length m = 43 → is_Some (Artifact.rsa_encrypt pub seed m (lifecycleCredentialOAEPLabel +:+ nul)).

Lemma release_run rid a d w t id ch :
  healthy a → entropy_ok a → unreleased w → is_Some (specs w !! iid) → encrypts → (event_seq w < max_rowid)%Z →
  ch_InstallationID ch = iid → ch_ID ch = id →
  ∃ secret seed ciphertext c', String.length secret = 32 ∧
    Artifact.rsa_encrypt pub seed (RawURLEncoding_EncodeToString secret) (lifecycleCredentialOAEPLabel +:+ nul) = Some ciphertext ∧
    release_credential ch pub (Installation.LifecycleCredentialID s) rid (clock a) a (mkConn d w t) =
    (Ok (mkRelease id ciphertext "RSA-OAEP-SHA256" (clock a + defaultLifecycleCredentialTTL)%Z false), c') ∧
    committed c' = released_db id ciphertext (RawURLEncoding_EncodeToString secret) rid (clock a) w.
Proof.
  intros Ha He [Hcid Hnone] Hspec Henc Hroom Hi Hid.
  destruct (proj2 Ha (S t) 32) as [secret Hsecret], (proj2 Ha (S (S t)) 32) as [seed Hseed].
  pose proof (He _ _ _ Hsecret) as Hlen. destruct (Henc seed _ (encoded_secret_length _ Hlen)) as [ct Hct].
  assert (credential_of iid w = None) as Hnocred.
  { destruct (credential_of iid w) as [[cid row]|] eqn:E; [|done]. apply find_row_Some in E as [E1 E2]. by apply Hnone in E1. }
  assert (insert_credential (Installation.LifecycleCredentialID s)
      (new_credential iid (RawURLEncoding_EncodeToString secret) (clock a) defaultLifecycleCredentialTTL) w =
    Ok (set_credentials (<[Installation.LifecycleCredentialID s :=
      new_credential iid (RawURLEncoding_EncodeToString secret) (clock a) defaultLifecycleCredentialTTL]> (credentials w)) w)) as Hins.
  { unfold insert_credential. cbn [cr_installation cr_secret_sha256 new_credential].
    rewrite !bool_decide_true by first [done|intros ? ? Hrow; by apply Hnone in Hrow]. by rewrite Artifact.sha256_length. }
  exists secret, seed, ct. eexists. split; [done|]. split; [done|].
  unfold release_credential. cbv zeta. rewrite Hi, Hid. forward Ha. rewrite Hnocred. forward Ha. cbn [IsNoRows negb]. forward Ha.
  rewrite (rand_value _ _ _ _ _ _ Hsecret). forward Ha. unfold EncryptOAEP. forward Ha.
  rewrite (rand_value _ _ _ _ _ _ Hseed). forward Ha. rewrite Hct. forward Ha.
  rewrite (exec_insert_run _ Ha _ _ _ _ _ Hins). forward Ha. erewrite exec_update_run by done. forward Ha.
  assert (∀ t c e db, event_seq (use_challenge t c e id db) = event_seq db) as Hseq
    by (intros; unfold use_challenge; repeat case_match; done).
  rewrite (append_event_run _ Ha) by (rewrite Hseq; done). forward Ha. done.
Qed.

Lemma prove_run rid a db id nonce t0 signature :
  healthy a → entropy_ok a → approved db → unreleased db → open_challenge id nonce t0 db →
  TrimSpace id = id → blank id = false → blank iid = false → blank mid = false → blank fp = false → String.length nonce = 32 →
  (event_seq db < max_rowid)%Z → (clock a < t0 + bootTrustChallengeTTL)%Z →
  (0 < len signature ≤ 1024)%Z → Artifact.rsa_verify pub (Artifact.sha256 (canonical_of id nonce)) signature = true →
  encrypts →
  ∃ secret seed ciphertext, String.length secret = 32 ∧
    Artifact.rsa_encrypt pub seed (RawURLEncoding_EncodeToString secret) (lifecycleCredentialOAEPLabel +:+ nul) = Some ciphertext ∧
    run (CompleteBootTrustChallenge iid id signature rid) a db =
    (Ok (mkRelease id ciphertext "RSA-OAEP-SHA256" (clock a + defaultLifecycleCredentialTTL)%Z false),
     released_db id ciphertext (RawURLEncoding_EncodeToString secret) rid (clock a) db).
Proof.
  intros Ha He Hap [Hcid Hnone] Hopen Hid Bid Bi Bm Bf Hn Hroom Hfresh Hsig Hver Henc.
  pose proof Hap as [[Hs Hsm] _ _ (k & Hk & Hkf & Hkm & Hks & Hkp)].
  assert (Hparsed : ParseRSAPublicKeyPEM (k_PublicKeyPEM k) = Ok (pub, fp)) by (by rewrite Hkp).
  set (ch := scan_challenge id (row_of nonce t0)).
  assert (∀ t, ∃ secret seed ciphertext c', String.length secret = 32 ∧
    Artifact.rsa_encrypt pub seed (RawURLEncoding_EncodeToString secret) (lifecycleCredentialOAEPLabel +:+ nul) = Some ciphertext ∧
    release_credential ch pub (Installation.LifecycleCredentialID s) rid (clock a) a (mkConn db db t) =
    (Ok (mkRelease id ciphertext "RSA-OAEP-SHA256" (clock a + defaultLifecycleCredentialTTL)%Z false), c') ∧
    committed c' = released_db id ciphertext (RawURLEncoding_EncodeToString secret) rid (clock a) db) as Hrelease
    by (intros t; apply release_run; try done; by rewrite Hs).
  destruct (Hrelease 6) as (secret & seed & ct & c' & Hlen & Hct & Hrun & Hc'). exists secret, seed, ct. split; [done|]. split; [done|].
  unfold run, CompleteBootTrustChallenge. cbv zeta. rewrite Hiid, Hid.
  assert ((iid =? "")%string = false) as -> by (unfold blank in Bi; by rewrite Hiid in Bi).
  assert ((id =? "")%string = false) as -> by (unfold blank in Bid; by rewrite Hid in Bid).
  rewrite (proj2 (Z.eqb_neq (len signature) 0)), (proj2 (Z.ltb_ge 1024 (len signature))) by lia. cbn [orb]. forward Ha.
  unfold bootTrustChallengeTx, challenge_of. forward Ha. rewrite Hopen. cbn [cl_installation row_of]. rewrite bool_decide_true by done.
  fold (row_of nonce t0). fold ch. forward Ha.
  change (IsZero (ch_UsedAt ch)) with true. cbn [negb]. forward Ha.
  unfold After. change (ch_ExpiresAt ch) with (t0 + bootTrustChallengeTTL)%Z. rewrite (proj2 (Z.ltb_lt _ _) Hfresh). cbn [negb]. forward Ha.
  destruct (binding_run a db db 2 Ha Hap) as (st & Hst & Hb). rewrite Hb. forward Ha. cbn [fst snd].
  change (ch_MachineID ch) with mid. rewrite String.eqb_refl, (proj2 (String.eqb_neq _ _) Hst). cbn [negb orb]. forward Ha.
  rewrite policy_run by done. forward Ha. change (ch_KeyFingerprint ch) with fp. rewrite (key_run k) by done. forward Ha.
  rewrite Hks, String.eqb_refl. cbn [negb]. forward Ha. rewrite Hparsed. forward Ha. cbn [fst snd]. rewrite String.eqb_refl. cbn [negb]. forward Ha.
  unfold ch at 1, scan_challenge. cbn [cl_installation cl_machine cl_key cl_nonce row_of].
  rewrite canonical_run by done. forward Ha. rewrite Hver. cbn [negb]. forward Ha. rewrite Hs, Hsm, bool_decide_true by done. forward Ha.
  rewrite Hrun. cbn beta iota. by rewrite Hc'.
Qed.
End Store.

(** ** What the two sides assume of the outside *)

(** A text of ASCII that is not long. *)
Definition plain (s : string) : Prop := all_bytes (λ c, byte_nat c <? 128)%nat s = true ∧ String.length s ≤ 1024.

(** The years 1 to 9999. *)
Definition json_time (t : time) : Prop := (0 ≤ t < 315537897600 * Second)%Z.

Section Laws.
Context `{Decoders} `{ReporterCodec}.

(** The body of an answer as the client reads it. *)
Definition read_back (j : json) : string := first_bytes maxResponse (marshal j +:+ nl).

Definition enroll_request (pem : string) : json := JObject [("public_key_pem", JString pem)].
Definition challenge_request (fp : string) : json := JObject [("fingerprint", JString fp)].
Definition prove_request (id signature : string) : json := JObject [("challenge_id", JString id); ("signature", JString signature)].

Definition enroll_reply (iid mid fp state : string) (created : bool) : json :=
  JObject [("installation_id", JString iid); ("machine_id", JString mid); ("fingerprint", JString fp); ("state", JString state);
           ("created", JBool created)].
Definition challenge_reply (id iid mid fp nonce : string) (expires : time) : json :=
  JObject [("challenge_id", JString id); ("installation_id", JString iid); ("machine_id", JString mid); ("fingerprint", JString fp);
           ("nonce", JString nonce); ("expires_at", JTime expires); ("proof_format", JString "AEGISPXE-BOOT-TRUST-V1")].
Definition release_reply (id algorithm ciphertext : string) (expires : time) (duplicate : bool) : json :=
  JObject [("challenge_id", JString id); ("algorithm", JString algorithm); ("ciphertext", JString ciphertext);
           ("credential_expires", JTime expires); ("duplicate", JBool duplicate)].

(** encoding/json reads back the fields it wrote: of the requests, which stay
    below the server's limit, and of the answers. *)
Class TrustCodecLaws : Prop := {
  law_enroll pem : plain pem →
    decode_enroll (marshal (enroll_request pem)) = Ok (mkEnrollRequest pem "") ∧ (len (marshal (enroll_request pem)) ≤ maxBootTrustBody)%Z;
  law_challenge fp : plain fp →
    decode_challenge (marshal (challenge_request fp)) = Ok (mkChallengeRequest fp) ∧ (len (marshal (challenge_request fp)) ≤ maxBootTrustBody)%Z;
  law_prove id signature : plain id → plain signature →
    decode_prove (marshal (prove_request id signature)) = Ok (mkProveRequest id signature) ∧
    (len (marshal (prove_request id signature)) ≤ maxBootTrustBody)%Z;
  law_enrolled iid mid fp state created : plain iid → plain mid → plain fp → plain state →
    decode_enrolled (read_back (enroll_reply iid mid fp state created)) = Ok (mkEnrolled fp state);
  law_challenged id iid mid fp nonce expires : plain id → plain iid → plain mid → plain fp → plain nonce → json_time expires →
    decode_challenge_reply (read_back (challenge_reply id iid mid fp nonce expires)) = Ok (mkChallengeReply id iid mid fp nonce);
  law_released id algorithm ciphertext expires duplicate : plain id → plain algorithm → plain ciphertext → json_time expires →
    decode_release (read_back (release_reply id algorithm ciphertext expires duplicate)) = Ok (mkReleaseReply id algorithm ciphertext expires) }.
End Laws.

(** The TPM holds the private key of [pub]. *)
Record holds `{Artifact.Crypto} (chip : tpm) (pub : Artifact.rsa_PublicKey) : Prop := {
  holds_sign digest : String.length digest = 32 → ∃ signature, tpm_Sign chip digest = Ok (Some signature) ∧ Artifact.rsa_verify pub digest signature = true ∧
    0 < String.length signature ≤ 512;
  holds_encrypts : encrypts pub;
  holds_decrypt seed m ciphertext : String.length m = 43 → Artifact.rsa_encrypt pub seed m (lifecycleCredentialOAEPLabel +:+ nul) = Some ciphertext →
    tpm_Decrypt chip ciphertext lifecycleOAEPLabel = Ok m ∧ String.length ciphertext ≤ 512 }.

Lemma encode_length s : String.length (RawURLEncoding_EncodeToString s) ≤ 2 * String.length s.
Proof.
  enough (∀ n s, String.length s ≤ n → String.length (RawURLEncoding_EncodeToString s) ≤ 2 * String.length s) as Hn by by eapply Hn.
  clear s. induction n as [|n IH]; intros [|a [|b [|c s]]] Hs; cbn in *; try lia.
  specialize (IH s ltac:(lia)). lia.
Qed.

Lemma plain_graph s : all_bytes is_graph s = true → String.length s ≤ 1024 → plain s.
Proof.
  intros Hs. split; [|done]. revert Hs. apply all_bytes_impl. intros c Hc. unfold is_graph, in_range in Hc. bool_inv.
  apply Nat.ltb_lt. match goal with Hl : (byte_nat c <=? 126)%nat = true |- _ => apply Nat.leb_le in Hl end. lia.
Qed.

Lemma plain_encoded s : String.length s ≤ 512 → plain (RawURLEncoding_EncodeToString s).
Proof. intros Hs. apply plain_graph; [auto with aegis|]. pose proof (encode_length s). lia. Qed.

Definition challenge_id (raw : string) : string := "btc_" +:+ hex_encode raw.

Lemma challenge_id_ok raw :
  String.length raw = 12 → plain (challenge_id raw) ∧ TrimSpace (challenge_id raw) = challenge_id raw ∧ blank (challenge_id raw) = false.
Proof.
  intros Hr. assert (all_bytes is_graph (challenge_id raw) = true) as Hg
    by (unfold challenge_id; rewrite all_bytes_app, hex_encode_graph; done).
  pose proof (TrimSpace_graph _ Hg) as Ht. split; [|split; [done|unfold blank; by rewrite Ht]].
  apply plain_graph; [done|]. unfold challenge_id. cbn. rewrite hex_encode_length, Hr. lia.
Qed.

(** ** The handlers *)

Section Conversation.
Context `{Artifact.Crypto} `{!Artifact.CryptoLaws _} `{Decoders} `{ReporterCodec} `{!TrustCodecLaws}.
Context (server : Server) (passes : string → bool) (fetch : string → result (Z * result string)) (chip : tpm) (c : Config) (key : TPMKey) (s : Installation.Spec).

Abbreviation iid := (InstallationID c).
Abbreviation mid := (MachineID c).
Abbreviation fp := (fingerprint key).
Abbreviation pem := (TrimSpace (publicPEM key)).

(** The reporter is configured for its installation and machine, and its key is
    the one the TPM holds. *)
Record commissioned : Prop := {
  co_trim : TrimSpace iid = iid ∧ TrimSpace mid = mid ∧ TrimSpace fp = fp;
  co_visible : blank iid = false ∧ blank mid = false ∧ blank fp = false;
  co_plain : plain iid ∧ plain mid ∧ plain fp ∧ plain (publicPEM key);
  co_key : ParseRSAPublicKeyPEM pem = Ok (publicKey key, fp);
  co_chip : holds chip (publicKey key) }.

Context (Hco : commissioned).

(** The store before the proof: approved, nothing released, and [m] events can
    still be recorded after the release. *)
Definition enrollable (m : nat) (db : DB) : Prop :=
  approved iid mid fp pem s db ∧ unreleased iid s db ∧
  (lifecycle_seq db + Z.of_nat m < max_rowid)%Z ∧ (log_seq db < max_rowid)%Z ∧ (event_seq db + Z.of_nat m + 1 < max_rowid)%Z.

(** A request of the client as a handler sees it. *)
Definition posted (r : Request) (payload : json) : Prop :=
  TrimSpace (q_ID r) = iid ∧ content_type r = "application/json" ∧ q_Body r = Ok (marshal payload).

Lemma posted_decodes {A} (decode : string → result A) r payload x :
  posted r payload → decode (marshal payload) = Ok x ∧ (len (marshal payload) ≤ maxBootTrustBody)%Z →
  decodeTelemetryJSON decode r maxBootTrustBody = Ok x.
Proof.
  intros (_ & Ht & Hb) [Hd Hl]. unfold decodeTelemetryJSON. rewrite Ht. cbn [mbind result_bind fail_if String.eqb Ascii.eqb negb].
  unfold read_body. rewrite Hb. cbn [mbind result_bind]. rewrite (proj2 (Z.ltb_ge _ _) Hl). exact Hd.
Qed.

Section Handlers.
Context (env : nat → ambient) (Henv : ∀ j, healthy (env j) ∧ entropy_ok (env j)).

Lemma served_enroll m r rid n db p db' :
  enrollable m db → posted r (enroll_request (publicPEM key)) → served env true (bootTrustEnroll r rid) n db p db' →
  p_Status p = StatusOK ∧ p_Body p = JSON (enroll_reply iid mid fp KeyApproved false) ∧
  ∃ t, db' = update_key mid fp (λ _, true) (touch_key t "") db.
Proof.
  intros [Hap _] Hr Hs. destruct Hco as [(Hi & Hm & Hf) _ (_ & _ & _ & Hplain) Hkey _]. unfold bootTrustEnroll in Hs. cbv zeta in Hs.
  rewrite (posted_decodes _ _ _ _ Hr (law_enroll _ Hplain)), (proj1 Hr) in Hs.
  apply served_bind in Hs as (answer & db1 & n1 & Hrun%served_call & [-> ->]%served_ret). cbn [en_PublicKeyPEM en_EKFingerprint] in Hrun.
  destruct (register_run iid mid fp (publicPEM key) pem (publicKey key) s Hi Hm Hf eq_refl Hkey rid (env n) db (proj1 (Henv n)) Hap)
    as (k & Hkf & Hkm & Hks & Hreg).
  rewrite Hreg in Hrun. simplify_eq. cbn. unfold enroll_reply. split_and!; [done| |by eexists]. by rewrite Hkm, Hkf, Hks.
Qed.

Lemma served_challenge m r rid n db p db' :
  enrollable m db → drawn_fresh (env n) db → posted r (challenge_request fp) → served env true (bootTrustChallenge r rid) n db p db' →
  ∃ raw nonce, String.length raw = 12 ∧ String.length nonce = 32 ∧ challenges db !! challenge_id raw = None ∧
    p_Status p = StatusCreated ∧
    p_Body p = JSON (challenge_reply (challenge_id raw) iid mid fp (RawURLEncoding_EncodeToString nonce) (clock (env n) + bootTrustChallengeTTL)%Z) ∧
    db' = set_challenges (<[challenge_id raw := row_of iid mid fp nonce (clock (env n))]> (challenges db)) db.
Proof.
  intros [Hap _] Hfresh Hr Hs. destruct Hco as [(Hi & Hm & Hf) _ (_ & _ & Hplain & _) Hkey _]. unfold bootTrustChallenge in Hs. cbv zeta in Hs.
  rewrite (posted_decodes _ _ _ _ Hr (law_challenge _ Hplain)), (proj1 Hr) in Hs. cbn [cq_Fingerprint] in Hs. rewrite Hf in Hs.
  apply served_bind in Hs as (answer & db1 & n1 & Hrun%served_call & [-> ->]%served_ret).
  destruct (challenge_run iid mid fp pem s Hi Hm Hf rid (env n) db (proj1 (Henv n)) (proj2 (Henv n)) Hap Hfresh)
    as (raw & nonce & Hraw & Hnonce & Hnew & Hch).
  rewrite Hch in Hrun. simplify_eq. exists raw, nonce. by split_and!.
Qed.

Lemma served_prove m r rid n db p db' raw nonce t0 signature :
  enrollable m db → open_challenge iid mid fp (challenge_id raw) nonce t0 db → String.length raw = 12 → String.length nonce = 32 →
  (clock (env n) < t0 + bootTrustChallengeTTL)%Z →
  0 < String.length signature ≤ 512 →
  Artifact.rsa_verify (publicKey key) (Artifact.sha256 (canonical_of iid mid fp (challenge_id raw) nonce)) signature = true →
  posted r (prove_request (challenge_id raw) (RawURLEncoding_EncodeToString signature)) →
  served env true (bootTrustProve r rid) n db p db' →
  ∃ secret seed ciphertext, String.length secret = 32 ∧
    Artifact.rsa_encrypt (publicKey key) seed (RawURLEncoding_EncodeToString secret) (lifecycleCredentialOAEPLabel +:+ nul) = Some ciphertext ∧
    p_Status p = StatusCreated ∧
    p_Body p = JSON (release_reply (challenge_id raw) "RSA-OAEP-SHA256" (RawURLEncoding_EncodeToString ciphertext)
                       (clock (env n) + defaultLifecycleCredentialTTL)%Z false) ∧
    db' = released_db iid s (challenge_id raw) ciphertext (RawURLEncoding_EncodeToString secret) rid (clock (env n)) db.
Proof.
  intros (Hap & Hun & _ & _ & Hroom) Hopen Hraw Hnonce Httl Hlen Hver Hr Hs.
  destruct Hco as [(Hi & Hm & Hf) (Bi & Bm & Bf) _ Hkey Hchip]. destruct (challenge_id_ok _ Hraw) as (Hplain & Hid & Hblank).
  unfold bootTrustProve in Hs. cbv zeta in Hs.
  rewrite (posted_decodes _ _ _ _ Hr (law_prove _ _ Hplain (plain_encoded signature ltac:(lia)))), (proj1 Hr) in Hs.
  cbn [pv_ChallengeID pv_Signature] in Hs. rewrite Hid, (TrimSpace_graph (RawURLEncoding_EncodeToString signature)), RawURL_roundtrip in Hs by auto with aegis.
  apply served_bind in Hs as (answer & db1 & n1 & Hrun%served_call & [-> ->]%served_ret).
  destruct (prove_run iid mid fp pem (publicKey key) s Hi Hm Hf Hkey rid (env n) db (challenge_id raw) nonce t0 signature)
    as (secret & seed & ct & Hsecret & Hct & Hprove); try done; [apply Henv|apply Henv|lia|unfold len; lia|apply Hchip|].
  rewrite Hprove in Hrun. simplify_eq. exists secret, seed, ct. by split_and!.
Qed.
End Handlers.

(** ** What others do in the meantime *)

(** Others leave the installation, its machine's approval and key, its
    challenges and its credential alone, and the sequences have room. *)
Record undisturbed (db db' : DB) : Prop := {
  un_spec : specs db' !! iid = specs db !! iid;
  un_assignment : assignment_of iid db' = assignment_of iid db;
  un_machine : Machine.m_Policy <$> machines db' !! mid = Machine.m_Policy <$> machines db !! mid;
  un_key : trust_keys db' !! fp = trust_keys db !! fp;
  un_credential : ∀ cid row, cr_installation row = iid → credentials db' !! cid = Some row ↔ credentials db !! cid = Some row;
  un_reserved : credentials db !! Installation.LifecycleCredentialID s = None → credentials db' !! Installation.LifecycleCredentialID s = None;
  un_challenge : ∀ id row, cl_installation row = iid → challenges db !! id = Some row → challenges db' !! id = Some row;
  un_unused : ∀ id, challenges db !! id = None → challenges db' !! id = None;
  un_history : installation_history iid db' = installation_history iid db;
  un_room : ∀ m, (lifecycle_seq db + m < max_rowid)%Z → (lifecycle_seq db' + m < max_rowid)%Z;
  un_log_room : (log_seq db < max_rowid)%Z → (log_seq db' < max_rowid)%Z;
  un_event_room : ∀ m, (event_seq db + m < max_rowid)%Z → (event_seq db' + m < max_rowid)%Z }.

Lemma undisturbed_refl db : undisturbed db db.
Proof. by constructor. Qed.

Lemma undisturbed_approved db db' : undisturbed db db' → approved iid mid fp pem s db → approved iid mid fp pem s db'.
Proof.
  intros [Us Ux Um Uk _ _ _ _ _ _ _ _] [Hs Hx (m & Hm & Hp) Hk]. split; [by rewrite Us|by rewrite Ux| |by rewrite Uk].
  rewrite Hm in Um. apply fmap_Some in Um as (m' & Hm' & E). exists m'. by rewrite <- E.
Qed.

Lemma undisturbed_enrollable m db db' : undisturbed db db' → enrollable m db → enrollable m db'.
Proof.
  intros Hu (Hap & [Hfree Hnone] & Hr1 & Hr2 & Hr3). split; [by eapply undisturbed_approved|]. split; [split|].
  - by apply (un_reserved _ _ Hu).
  - intros cid row Hrow Hi. apply (un_credential _ _ Hu) in Hrow; [|done]. by eapply Hnone.
  - split_and!; [by apply (un_room _ _ Hu)|by apply (un_log_room _ _ Hu)|].
    rewrite <- Z.add_assoc in *. by apply (un_event_room _ _ Hu).
Qed.

Lemma undisturbed_ready secret until m db db' :
  undisturbed db db' → ready c secret until m db → ready c secret until m db'.
Proof.
  intros Hu (Hs & [(id & row & Hrow & Hi) Hall] & Hr1 & Hr2 & Hr3). split; [by rewrite (un_spec _ _ Hu)|]. split; [split|].
  - exists id, row. split; [|done]. by apply (un_credential _ _ Hu).
  - intros id' row' Hrow' Hi'. apply (un_credential _ _ Hu) in Hrow'; [|done]. by eapply Hall.
  - split_and!; [by apply (un_room _ _ Hu)|by apply (un_log_room _ _ Hu)|by apply (un_event_room _ _ Hu)].
Qed.

(** A request and its answer arrive, nothing fails, and the server's clocks are
    within two minutes of [start] and five of the client's. *)
Record steady (start : time) (x : fate) : Prop := {
  st_answered : f_answered x = true;
  st_clock : (0 < Unix (f_clock x) < 2 ^ 63)%Z;
  st_others : ∀ db, undisturbed db (f_others x db);
  st_served : ∃ env, f_served x = Some env ∧ ∀ j, healthy (env j) ∧ entropy_ok (env j) ∧
    (start ≤ clock (env j) < start + bootTrustChallengeTTL)%Z ∧
    (clock (env j) - telemetryAuthClockSkew ≤ time_Unix (Unix (f_clock x)) ≤ clock (env j) + telemetryAuthClockSkew)%Z }.

(** No identifier the server may draw while it serves the request is in use. *)
Definition draws_fresh (x : fate) (db : DB) : Prop :=
  ∀ env j, f_served x = Some env → drawn_fresh (env j) db.

(** ** The conversation *)

Context (start : time) (Hstart : json_time start ∧ json_time (start + bootTrustChallengeTTL + defaultLifecycleCredentialTTL)%Z).
Context (Haddr : addressed c) (Hurl : api_exists passes c).

Lemma converse_post {A} x payload (dest : string → result A) fates n db (P : (nat → ambient) → nat → string → Response → DB → Prop) :
  x ∈ client_routes → steady start (fates n) →
  (∀ env r rid n' q db', f_served (fates n) = Some env → posted r payload →
     served env true (handler_of server fetch x r rid) n' (f_others (fates n) db) q db' →
     (200 ≤ p_Status q < 300)%Z ∧ P env n' rid q db') →
  ∃ env n' rid q db', f_served (fates n) = Some env ∧ P env n' rid q db' ∧
    converse server passes fetch chip (postJSON (endpoint c (suffix_of x)) payload dest) fates n db =
    Some (dest (first_bytes maxResponse (answer_text q)), S n, db').
Proof.
  intros Hx [Hans _ _ (env & Henv & Henvs)] Hh. destruct (Hurl _ Hx) as (u & Hu & _ & Hpass). pose proof (proj2 Haddr _ _ Hx Hu) as Hroute.
  unfold postJSON, NewRequest. rewrite Hu. unfold client_do. cbn [mbind proc_bind sys_ converse or_return].
  unfold exchange, dispatch. cbn [h_URL]. rewrite Henv, Hpass, Hroute, Hans. destruct (serve _ _ _ _ _) as [p db'] eqn:Hs.
  apply served_handle_tracked in Hs as [(Hun & _)|(rid & r' & rid' & n' & q & _ & Hq & Hst & Hbody & ->)].
  { exfalso. revert Hun. apply healthy_tracked. intros j. apply Henvs. }
  apply Hh in Hq as [Hq2 HP]; [|done|].
  2: { split; [apply Haddr|]. split; [|done]. unfold content_type. by rewrite header_set_ne. }
  exists env, n', rid', q, db'. split; [done|]. split; [done|].
  cbn [mret proc_ret converse fst snd mbind result_bind]. cbv zeta.
  rewrite Hst, (proj2 (Z.ltb_ge _ _)), (proj2 (Z.leb_gt _ _)) by lia. cbn [orb].
  unfold answer_text. by rewrite Hbody.
Qed.

(** Times within the conversation can be written. *)
Lemma window_json_time t : (start ≤ t < start + bootTrustChallengeTTL)%Z → json_time (t + bootTrustChallengeTTL)%Z.
Proof. destruct Hstart as [[] []]. unfold json_time, bootTrustChallengeTTL, defaultLifecycleCredentialTTL, Hour, Minute, Second in *. lia. Qed.

Lemma release_json_time t : (start ≤ t < start + bootTrustChallengeTTL)%Z → json_time (t + defaultLifecycleCredentialTTL)%Z.
Proof. destruct Hstart as [[] []]. unfold json_time, bootTrustChallengeTTL, defaultLifecycleCredentialTTL, Hour, Minute, Second in *. lia. Qed.

Lemma enrolled_enrollable m t db :
  enrollable m db → let db' := update_key mid fp (λ _, true) (touch_key t "") db in
  enrollable m db' ∧ installation_history iid db' = installation_history iid db ∧ challenges db' = challenges db.
Proof.
  intros ([Hs Hx Hm (k & Hk & Hkf & Hkm & Hks & Hkp)] & Hun & Hroom). cbv zeta.
  unfold update_key, key_of. rewrite Hk, bool_decide_true by done. split_and!; [|done|done]. split; [|done].
  split; [done..|]. exists (touch_key t "" k). cbn. by rewrite lookup_insert_eq.
Qed.

Lemma challenged_enrollable m x db : enrollable m db → enrollable m (set_challenges x db).
Proof. intros ([] & [] & ?). split; [by split|]. by split. Qed.

Lemma converse_enroll m fates n db :
  enrollable m db → steady start (fates n) →
  ∃ db', converse server passes fetch chip
      (postJSON (endpoint c "/trust/enroll") (enroll_request (publicPEM key)) decode_enrolled) fates n db =
    Some (Ok (mkEnrolled fp KeyApproved), S n, db') ∧
    enrollable m db' ∧ installation_history iid db' = installation_history iid db ∧
    (∀ id, challenges db !! id = None → challenges db' !! id = None).
Proof.
  intros Hen Hst. pose proof (undisturbed_enrollable _ _ _ (st_others _ _ Hst db) Hen) as Hen'.
  destruct (converse_post TrustEnroll (enroll_request (publicPEM key)) decode_enrolled fates n db
    (λ _ _ _ q db', p_Body q = JSON (enroll_reply iid mid fp KeyApproved false) ∧
       ∃ t, db' = update_key mid fp (λ _, true) (touch_key t "") (f_others (fates n) db)))
    as (env & n' & rid & q & db' & _ & (Hbody & t & ->) & Hc); [left|done| |].
  { intros env r rid n' q db' Henv Hr Hs. destruct (st_served _ _ Hst) as (env' & E & Hall). rewrite E in Henv. simplify_eq.
    destruct (served_enroll env ltac:(intros j; split; apply Hall) m r rid n' _ q db' Hen' Hr Hs) as (-> & Hb & Hdb). split; [done|]. by split. }
  exists (update_key mid fp (λ _, true) (touch_key t "") (f_others (fates n) db)). split.
  - cbn [suffix_of] in Hc. rewrite Hc. unfold answer_text. rewrite Hbody. fold (read_back (enroll_reply iid mid fp KeyApproved false)).
    destruct (co_plain Hco) as (? & ? & ? & _). rewrite law_enrolled; [done..|]. split; [done|cbn; lia].
  - destruct (enrolled_enrollable _ t _ Hen') as (He & Hh & Hch). rewrite Hh, Hch. split; [done|].
    split; [apply (un_history _ _ (st_others _ _ Hst db))|]. intros id. apply (un_unused _ _ (st_others _ _ Hst db)).
Qed.

Lemma converse_challenge m fates n db :
  enrollable m db → steady start (fates n) → draws_fresh (fates n) db →
  ∃ raw nonce t db', String.length raw = 12 ∧ String.length nonce = 32 ∧ (start ≤ t)%Z ∧
    converse server passes fetch chip (postJSON (endpoint c "/trust/challenge") (challenge_request fp) decode_challenge_reply) fates n db =
    Some (Ok (mkChallengeReply (challenge_id raw) iid mid fp (RawURLEncoding_EncodeToString nonce)), S n, db') ∧
    enrollable m db' ∧ open_challenge iid mid fp (challenge_id raw) nonce t db' ∧
    installation_history iid db' = installation_history iid db.
Proof.
  intros Hen Hst Hfresh. pose proof (st_others _ _ Hst db) as Hun. pose proof (undisturbed_enrollable _ _ _ Hun Hen) as Hen'.
  destruct (st_served _ _ Hst) as (env' & E & Hall).
  destruct (converse_post TrustChallenge (challenge_request fp) decode_challenge_reply fates n db
    (λ env n' _ q db', ∃ raw nonce, String.length raw = 12 ∧ String.length nonce = 32 ∧
       p_Body q = JSON (challenge_reply (challenge_id raw) iid mid fp (RawURLEncoding_EncodeToString nonce) (clock (env n') + bootTrustChallengeTTL)%Z) ∧
       db' = set_challenges (<[challenge_id raw := row_of iid mid fp nonce (clock (env n'))]> (challenges (f_others (fates n) db))) (f_others (fates n) db)))
    as (env & n' & rid & q & db' & Henv & (raw & nonce & Hraw & Hnonce & Hbody & ->) & Hc); [right; left|done| |].
  { intros env r rid n' q db' Henv Hr Hs. rewrite E in Henv. simplify_eq.
    destruct (served_challenge env ltac:(intros j; split; apply Hall) m r rid n' _ q db' Hen') as (raw & nonce & ? & ? & _ & -> & Hb & Hdb);
      [|done..|split; [done|by exists raw, nonce]].
    intros t raw Hdraw. apply (un_unused _ _ Hun). by eapply Hfresh. }
  rewrite E in Henv. simplify_eq. destruct (Hall n') as (_ & _ & Hclock & _).
  exists raw, nonce, (clock (env n')). eexists. do 2 (split; [done|]). split; [lia|]. split.
  - cbn [suffix_of] in Hc. rewrite Hc. unfold answer_text. rewrite Hbody.
    fold (read_back (challenge_reply (challenge_id raw) iid mid fp (RawURLEncoding_EncodeToString nonce) (clock (env n') + bootTrustChallengeTTL)%Z)).
    destruct (co_plain Hco) as (? & ? & ? & _), (challenge_id_ok _ Hraw) as [? _].
    rewrite law_challenged; [done|done..|apply plain_encoded; lia|]. by apply window_json_time.
  - split; [by apply challenged_enrollable|]. split; [|apply (un_history _ _ Hun)]. unfold open_challenge. cbn. by rewrite lookup_insert_eq.
Qed.

(** The client's credential once it was released. *)
Lemma released_ready id ct secret rid t m db :
  enrollable m db → (start ≤ t)%Z →
  ready c secret (start + defaultLifecycleCredentialTTL)%Z m (released_db iid s id ct secret rid t db) ∧
  installation_history iid (released_db iid s id ct secret rid t db) = installation_history iid db.
Proof.
  intros ([[Hs _] _ _ _] & [Hfree Hnone] & Hr1 & Hr2 & Hr3) Ht.
  assert (∀ e, let db' := use_challenge t ct e id (set_credentials (<[Installation.LifecycleCredentialID s :=
      new_credential iid secret t defaultLifecycleCredentialTTL]> (credentials db)) db) in
    specs db' = specs db ∧ credentials db' = <[Installation.LifecycleCredentialID s := new_credential iid secret t defaultLifecycleCredentialTTL]> (credentials db) ∧
    lifecycle_seq db' = lifecycle_seq db ∧ log_seq db' = log_seq db ∧ event_seq db' = event_seq db ∧ lifecycle_events db' = lifecycle_events db) as Huse.
  { intros e. cbv zeta. unfold use_challenge. by repeat case_match. }
  specialize (Huse (t + defaultLifecycleCredentialTTL)%Z). cbv zeta in Huse. destruct Huse as (E1 & E2 & E3 & E4 & E5 & E6).
  unfold released_db. split; [|unfold installation_history; cbn; by rewrite E6].
  split; [cbn; rewrite E1; by rewrite Hs|]. split; [split|].
  - exists (Installation.LifecycleCredentialID s), (new_credential iid secret t defaultLifecycleCredentialTTL). cbn. by rewrite E2, lookup_insert_eq.
  - intros cid row Hrow Hi. cbn in Hrow. rewrite E2 in Hrow. apply lookup_insert_Some in Hrow as [[_ <-]|[_ Hrow]].
    + cbn. split; [done|]. split; [done|]. lia.
    + by apply Hnone in Hrow.
  - cbn. rewrite E3, E4, E5. lia.
Qed.

Lemma converse_prove m fates n db raw nonce t0 signature :
  enrollable m db → open_challenge iid mid fp (challenge_id raw) nonce t0 db → String.length raw = 12 → String.length nonce = 32 →
  (start ≤ t0)%Z → steady start (fates n) → 0 < String.length signature ≤ 512 →
  Artifact.rsa_verify (publicKey key) (Artifact.sha256 (canonical_of iid mid fp (challenge_id raw) nonce)) signature = true →
  ∃ secret seed ciphertext expires db', String.length secret = 32 ∧
    Artifact.rsa_encrypt (publicKey key) seed (RawURLEncoding_EncodeToString secret) (lifecycleCredentialOAEPLabel +:+ nul) = Some ciphertext ∧
    converse server passes fetch chip (postJSON (endpoint c "/trust/prove")
      (prove_request (challenge_id raw) (RawURLEncoding_EncodeToString signature)) decode_release) fates n db =
    Some (Ok (mkReleaseReply (challenge_id raw) "RSA-OAEP-SHA256" (RawURLEncoding_EncodeToString ciphertext) expires), S n, db') ∧
    ready c (RawURLEncoding_EncodeToString secret) (start + defaultLifecycleCredentialTTL)%Z m db' ∧
    installation_history iid db' = installation_history iid db.
Proof.
  intros Hen Hopen Hraw Hnonce Ht0 Hst Hlen Hver. pose proof (st_others _ _ Hst db) as Hun.
  pose proof (undisturbed_enrollable _ _ _ Hun Hen) as Hen'.
  assert (open_challenge iid mid fp (challenge_id raw) nonce t0 (f_others (fates n) db)) as Hopen'
    by (by apply (un_challenge _ _ Hun)).
  destruct (st_served _ _ Hst) as (env' & E & Hall).
  destruct (converse_post TrustProve (prove_request (challenge_id raw) (RawURLEncoding_EncodeToString signature)) decode_release fates n db
    (λ env n' rid q db', ∃ secret seed ciphertext, String.length secret = 32 ∧
       Artifact.rsa_encrypt (publicKey key) seed (RawURLEncoding_EncodeToString secret) (lifecycleCredentialOAEPLabel +:+ nul) = Some ciphertext ∧
       p_Body q = JSON (release_reply (challenge_id raw) "RSA-OAEP-SHA256" (RawURLEncoding_EncodeToString ciphertext)
                       (clock (env n') + defaultLifecycleCredentialTTL)%Z false) ∧
       db' = released_db iid s (challenge_id raw) ciphertext (RawURLEncoding_EncodeToString secret) rid (clock (env n')) (f_others (fates n) db)))
    as (env & n' & rid & q & db' & Henv & (secret & seed & ct & Hsecret & Hct & Hbody & ->) & Hc); [right; right; left|done| |].
  { intros env r rid n' q db' Henv Hr Hs. rewrite E in Henv. simplify_eq. destruct (Hall n') as (_ & _ & Hclock & _).
    destruct (served_prove env ltac:(intros j; split; apply Hall) m r rid n' _ q db' raw nonce t0 signature Hen' Hopen' Hraw Hnonce
      ltac:(lia) Hlen Hver Hr Hs) as (secret & seed & ct & ? & ? & -> & Hb & Hdb).
    split; [done|]. by exists secret, seed, ct. }
  rewrite E in Henv. simplify_eq. destruct (Hall n') as (_ & _ & Hclock & _).
  destruct (released_ready (challenge_id raw) ct (RawURLEncoding_EncodeToString secret) rid (clock (env n')) m _ Hen' (proj1 Hclock)) as [Hready Hh].
  exists secret, seed, ct. eexists _, _. do 2 (split; [done|]). split; [|split; [exact Hready|by rewrite Hh, (un_history _ _ Hun)]].
  cbn [suffix_of] in Hc. rewrite Hc. unfold answer_text. rewrite Hbody.
  fold (read_back (release_reply (challenge_id raw) "RSA-OAEP-SHA256" (RawURLEncoding_EncodeToString ct) (clock (env n') + defaultLifecycleCredentialTTL)%Z false)).
  destruct (challenge_id_ok _ Hraw) as [Hplain _]. destruct (holds_decrypt _ _ (co_chip Hco) _ _ _ (encoded_secret_length _ Hsecret) Hct) as [_ Hctlen].
  rewrite law_released; [done|done| |apply plain_encoded; lia|by apply release_json_time]. split; [done|cbn; lia].
Qed.

Lemma converse_ok {A B} (p : proc (result A)) (k : A → proc (result B)) fates n db x n' db' :
  converse server passes fetch chip p fates n db = Some (Ok x, n', db') →
  converse server passes fetch chip (or_return p k) fates n db = converse server passes fetch chip (k x) fates n' db'.
Proof. intros Hp. unfold or_return. by rewrite converse_bind, Hp. Qed.

(** The signature of the TPM verifies under its own key, and its plaintext has
    the length of a secret. *)
Lemma converse_sign text signature fates n db :
  tpm_Sign chip (Artifact.sha256 text) = Ok (Some signature) → Artifact.rsa_verify (publicKey key) (Artifact.sha256 text) signature = true →
  converse server passes fetch chip (TPMKey_Sign key text) fates n db = Some (Ok signature, n, db).
Proof.
  intros Hs Hv. unfold TPMKey_Sign. cbn [mbind proc_bind sys_ converse]. rewrite Hs. cbn [or_fail mbind result_bind]. by rewrite Hv.
Qed.

Lemma converse_decrypt ct secret fates n db :
  tpm_Decrypt chip ct lifecycleOAEPLabel = Ok (RawURLEncoding_EncodeToString secret) → String.length secret = 32 →
  converse server passes fetch chip (DecryptLifecycleCredential key ct) fates n db = Some (Ok (RawURLEncoding_EncodeToString secret), n, db).
Proof.
  intros Hd Hl. unfold DecryptLifecycleCredential. cbn [mbind proc_bind sys_ converse]. rewrite Hd. cbn [or_fail mbind result_bind].
  unfold len. by rewrite encoded_secret_length.
Qed.

(** The client gets the secret whose digest the store keeps. *)
Lemma converse_acquire m fates n db :
  enrollable m db → (∀ j, steady start (fates j)) → draws_fresh (fates (S n)) db →
  ∃ material db', converse server passes fetch chip (AcquireCredential c key) fates n db = Some (Ok material, S (S (S n)), db') ∧
    ready c (cm_Secret material) (start + defaultLifecycleCredentialTTL)%Z m db' ∧
    installation_history iid db' = installation_history iid db.
Proof.
  intros Hen Hst Hfresh. destruct (converse_enroll m fates n db Hen (Hst n)) as (db1 & Hc1 & Hen1 & Hh1 & Hids).
  assert (draws_fresh (fates (S n)) db1) as Hfresh1 by (intros env j Henv t raw Hd; apply Hids; by eapply Hfresh).
  destruct (converse_challenge m fates (S n) db1 Hen1 (Hst _) Hfresh1) as (raw & nonce & t & db2 & Hraw & Hnonce & Ht & Hc2 & Hen2 & Hopen & Hh2).
  destruct (holds_sign _ _ (co_chip Hco) (Artifact.sha256 (canonical_of iid mid fp (challenge_id raw) nonce)) (Artifact.sha256_length _)) as (signature & Hsign & Hver & Hlen).
  destruct (converse_prove m fates (S (S n)) db2 raw nonce t signature Hen2 Hopen Hraw Hnonce Ht (Hst _) Hlen Hver)
    as (secret & seed & ct & expires & db3 & Hsecret & Hct & Hc3 & Hready & Hh3).
  destruct (holds_decrypt _ _ (co_chip Hco) _ _ _ (encoded_secret_length _ Hsecret) Hct) as [Hdec _].
  exists (mkMaterial (RawURLEncoding_EncodeToString secret) ct expires fp), db3.
  split; [|split; [done|by rewrite Hh3, Hh2]].
  destruct (co_visible Hco) as (Bi & Bm & Bf), (challenge_id_ok _ Hraw) as (_ & _ & Bid).
  unfold AcquireCredential. rewrite (converse_ok _ _ _ _ _ _ _ _ Hc1). cbn [er_Fingerprint er_State].
  rewrite !String.eqb_refl. cbn [negb fail_if]. do 2 (erewrite converse_ok by done). rewrite (converse_ok _ _ _ _ _ _ _ _ Hc2).
  cbn [cr_ID cr_InstallationID cr_MachineID cr_Fingerprint cr_Nonce]. rewrite RawURL_roundtrip. erewrite converse_ok by done.
  rewrite canonical_run by done. erewrite converse_ok by done. rewrite !String.eqb_refl. cbn [negb orb fail_if]. erewrite converse_ok by done.
  rewrite (converse_ok _ _ _ _ _ _ _ _ (converse_sign _ _ _ _ _ Hsign Hver)), (converse_ok _ _ _ _ _ _ _ _ Hc3).
  cbn [rr_ChallengeID rr_Algorithm rr_Ciphertext rr_ExpiresAt]. rewrite !String.eqb_refl. cbn [negb orb fail_if]. erewrite converse_ok by done.
  rewrite RawURL_roundtrip. erewrite converse_ok by done. by rewrite (converse_ok _ _ _ _ _ _ _ _ (converse_decrypt _ _ _ _ _ Hdec Hsecret)).
Qed.

Lemma steady_reliable secret x :
  steady start x → reliable c secret (start + defaultLifecycleCredentialTTL)%Z x.
Proof.
  intros [Hans Hclock Hun (env & Henv & Hall)]. split; [done|]. split; [done|]. split; [intros db; apply (un_history _ _ (Hun db))|].
  split; [intros m db; by apply undisturbed_ready|]. exists env. split; [done|]. intros j.
  destruct (Hall j) as (Hh & _ & Hwindow & Hskew). split; [done|]. split; [|done].
  unfold bootTrustChallengeTTL, defaultLifecycleCredentialTTL, Hour, Minute, Second in *. lia.
Qed.
End Conversation.

(** ** Property *)

