(* ===== verification/StudioSample.v ===== *)
(** * A concrete run of the operator interface

    An administrator claims a new server, enrols a passkey, approves a machine,
    signs in with the passkey, signs out and signs in again; the theorems about
    the interface are evaluated on this run.  Then starts of the server: under
    the packaged configuration with the pinned files, with a file that was
    changed, with a listener open to the network. *)

From stdpp Require Import relations.
From S2P Require Import Prelude GoStrings Encoding GoParse Fault Op Db Store Http HttpDiscovery Netip Sessions Passkeys LogBuffer TrustedProxy Console StudioAuth StudioPages Studio StudioLogic StudioRules StudioTrace StudioTheorems.
From S2P Require Artifact Identity Machine DebianReleaseTheorems DebianRelease.
From S2P Require Import StoreUsers Sample.
From S2P Require Import BootAssets Startup.
From S2P Require Secureboot.

(** ** Schedules of the interface *)

Section Schedule.
Context `{Artifact.Crypto} `{WebAuthn}.
Variable h : DashboardHandler.
Variable proxy : TrustedProxy.

Inductive studio_action :=
| Visits (n : nat) (outside : DebianRelease.outside) (x : studio_route) (r : UIRequest)
| Steps (n : nat) (a : ambient)
| Leaves (n : nat).

Definition studio_action_ok (c : studio_action) : Prop :=
  match c with Visits _ _ _ r => from_wire r | Steps _ a => sane a | Leaves _ => True end.

Definition studio_act (s : studio_system) (c : studio_action) : option studio_system :=
  let '(mkStudio w pool trace) := s in
  match c with
  | Visits n outside x r =>
    match pool !! n with
    | None => Some (mkStudio w (<[n := mkStudioTask r [] (studio h proxy outside x r)]> pool) trace)
    | Some _ => None end
  | Steps n a =>
    match pool !! n with
    | Some t => match k_program t with
                | Do c k => Some (mkStudio (perform c a w).2
                    (<[n := mkStudioTask (k_request t) (k_past t ++ [happen c a w]) (k (perform c a w).1)]> pool)
                    (trace ++ [mkTraceEntry (k_request t) (k_past t) (happen c a w)]))
                | Return _ => None end
    | None => None end
  | Leaves n =>
    match pool !! n with
    | Some t => match k_program t with Return _ => Some (mkStudio w (delete n pool) trace) | Do _ _ => None end
    | None => None end
  end.

Lemma studio_act_step s c s' : studio_action_ok c → studio_act s c = Some s' → studio_step h proxy s s'.
Proof.
  destruct s as [w pool trace]. intros Hc Ha. destruct c as [n outside x r|n a|n]; cbn in *.
  - destruct (pool !! n) eqn:E; simplify_eq. by apply StudioArrive.
  - destruct (pool !! n) as [t|] eqn:E; [|done]. destruct (k_program t) as [|B c k] eqn:Et; [done|]. simplify_eq. by eapply StudioRun.
  - destruct (pool !! n) as [t|] eqn:E; [|done]. destruct (k_program t) as [y|] eqn:Et; [|done]. simplify_eq. by eapply StudioReply.
Qed.

Fixpoint studio_acts (s : studio_system) (l : list studio_action) : option studio_system :=
  match l with [] => Some s | c :: l => s ← studio_act s c; studio_acts s l end.

Lemma studio_acts_steps l : ∀ s s',
  Forall studio_action_ok l → studio_acts s l = Some s' → rtc (studio_step h proxy) s s'.
Proof.
  induction l as [|c l IH]; intros s s' Hl Ha; cbn in Ha; [simplify_eq; apply rtc_refl|].
  apply Forall_cons in Hl as [Hc Hl]. apply bind_Some in Ha as (s1 & Hs1 & Ha).
  eapply rtc_l; [by eapply studio_act_step|by apply IH].
Qed.

(** What an entry of a trace is, for evaluation. *)
Definition issued_call (x : happening) : option (Identity.User * string * string * Session) :=
  match h_call x in call B return B → option (Identity.User * string * string * Session) with
  | IssueSession user method => λ r, match r with Ok (token, session) => Some (user, method, token, session) | Err _ => None end
  | _ => λ _, None
  end (h_result x).

Definition policy_call (x : happening) : option (string * string * string * string) :=
  match h_call x with
  | Mutate (SetPolicy mid policy rid actor) => Some (mid, policy, rid, actor)
  | _ => None
  end.

Definition ended_call (x : happening) : option string :=
  match h_call x with EndSession token => Some token | _ => None end.

Definition found_call (x : happening) : option (string * Session) :=
  match h_call x in call B return B → option (string * Session) with
  | LookupSession token => λ r, session ← r; Some (token, session)
  | _ => λ _, None
  end (h_result x).
End Schedule.

(** ** The sample interface *)

(** WebAuthn whose responses name the challenge. *)
#[global] Instance sample_webauthn : WebAuthn := {|
  wa_Instance := unit;
  SessionData := string;
  wa_New := λ _ _, Ok tt;
  wa_BeginRegistration := λ _ _ u, Ok (JString "create", "create:" +:+ Identity.ID u.1);
  wa_FinishRegistration := λ _ _ _ data q,
    match q_Body q with
    | Ok content => if (content =? data)%string then Ok (mkWebAuthnCredential "cred-1" "{credential}") else Err (Plain "attestation")
    | Err e => Err e end;
  wa_BeginLogin := λ _ _ u, Ok (JString "get", "get:" +:+ Identity.ID u.1);
  wa_FinishLogin := λ _ _ _ data q,
    match q_Body q with
    | Ok content => if (content =? data)%string then Ok (mkWebAuthnCredential "cred-1" "{credential}") else Err (Plain "assertion")
    | Err e => Err e end |}.

Definition sample_handler : DashboardHandler := mkDashboard (Some (mkService "pxe.example" tt)).

Definition sample_proxy : TrustedProxy :=
  match ParseTrustedProxy "10.0.0.0/8, fd00::/8" "Remote-User" "X-Forwarded-Proto" with
  | Ok p => p | Err _ => mkProxy [] "" "" end.

(** The recovery key and the manager that knows it. *)
Definition sample_recovery_key : string := RawURLEncoding_EncodeToString (filled 32 "k").
Definition sample_manager : Manager :=
  match Sessions.New sample_recovery_key with Ok m => m | Err _ => mkManager "" ∅ ∅ end.

Definition token_of (n : nat) (c : ascii) : string := RawURLEncoding_EncodeToString (filled n c).

(** A request of the user [alice] through the proxy. *)
Definition alice (method path id ceremony content : string) (cookie : option string) (form : list (string * string)) : UIRequest :=
  mkUI (mkRequest method path id "" "studio.example" "10.0.0.2:5000"
          [("X-Forwarded-Proto", "https"); ("Remote-User", "alice"); ("X-Request-Id", "req-ui"); ("X-Aegispxe-Ceremony", ceremony)]
          [] (Ok []) (Ok content))
    false None cookie (Ok form) "".

Definition visit (n : nat) (x : studio_route) (r : UIRequest) (t : Z) (steps : list ascii) : list studio_action :=
  Visits n DebianReleaseTheorems.sample_world x r :: imap (λ i c, Steps n (at_time (t + Z.of_nat i)%Z c)) steps ++ [Leaves n].

Definition session_token : string := token_of 32 "s".
Definition csrf_token : string := token_of 24 "s".

Definition sample_visits : list studio_action :=
  visit 0 BootstrapAdmin (alice "POST" "/ui/auth/bootstrap" "" "" "" None [("key", sample_recovery_key)]) 3000%Z ["a"; "a"; "a"]%char ++
  visit 1 EnrollStart (alice "POST" "/ui/api/passkey/enroll/start" "" "" "" None []) 3010%Z ["a"; "a"; "e"]%char ++
  visit 2 EnrollFinish (alice "POST" "/ui/api/passkey/enroll/finish" "" (token_of 32 "e") ("create:" +:+ sample_user_id) None [])
    3020%Z ["a"; "a"; "a"; "a"; "a"; "s"]%char ++
  visit 3 MachinePolicy (alice "POST" ("/ui/machines/" +:+ sample_machine_id +:+ "/policy") sample_machine_id "" "" (Some session_token)
      [("csrf", csrf_token); ("policy", "provision")]) 3030%Z ["a"; "a"; "a"]%char ++
  visit 4 SignOut (alice "POST" "/ui/logout" "" "" "" (Some session_token) [("csrf", csrf_token)]) 3040%Z ["a"; "a"; "a"]%char ++
  visit 5 LoginStart (alice "POST" "/ui/api/passkey/login/start" "" "" "" None []) 3050%Z ["a"; "a"; "l"]%char ++
  visit 6 LoginFinish (alice "POST" "/ui/api/passkey/login/finish" "" (token_of 32 "l") ("get:" +:+ sample_user_id) None [])
    3060%Z ["a"; "a"; "a"; "a"; "s"]%char ++
  visit 7 MachinesList (alice "GET" "/ui/machines" "" "" "" (Some session_token) []) 3070%Z ["a"; "a"; "a"]%char.

Definition studio_start : studio_system := mkStudio (db_discovered, started_console sample_manager 2000) ∅ [].

Definition studio_after : option studio_system := studio_acts sample_handler sample_proxy studio_start sample_visits.

Definition sample_studio : studio_system := default studio_start studio_after.

(** What [f] reads off the [i]-th entry. *)
Definition entry_in {A} (s : studio_system) (f : happening → option A) (i : nat) : option A :=
  match ss_trace s !! i with Some e => f (te_now e) | None => None end.

Lemma entry_found {A} s (f : happening → option A) i x : entry_in s f i = Some x →
  ∃ e, ss_trace s !! i = Some e ∧ f (te_now e) = Some x.
Proof. unfold entry_in. destruct (ss_trace s !! i) as [e|] eqn:E; [|done]. intros Hx. by exists e. Qed.

Abbreviation entry_call := (entry_in sample_studio).

Lemma sample_visits_ok : Forall studio_action_ok sample_visits.
Proof.
  unfold sample_visits, visit. cbn [imap app].
  repeat (apply Forall_cons; split; [first [exact I | split; reflexivity | apply at_time_sane; lia]|]). by apply Forall_nil.
Qed.

Lemma sample_studio_reachable : studio_reachable sample_handler sample_proxy sample_studio.
Proof.
  assert (reachable db_discovered) as Hdb by (apply after_reachable; [lia|apply rtc_refl]).
  exists studio_start. split; [by exists db_discovered, sample_recovery_key, sample_manager, 2000|].
  unfold sample_studio. destruct studio_after as [s|] eqn:E; [|apply rtc_refl].
  apply (studio_acts_steps _ _ sample_visits); [apply sample_visits_ok|exact E].
Qed.

(** Reading a happening as a call. *)
Section Read.
Context `{Artifact.Crypto} `{WebAuthn}.

(** The result is the one the call gave. *)
Definition genuine (x : happening) : Prop := h_result x = (perform (h_call x) (h_at x) (h_before x)).1.

Lemma read_policy x mid policy rid actor : genuine x → policy_call x = Some (mid, policy, rid, actor) →
  x = happen (Mutate (SetPolicy mid policy rid actor)) (h_at x) (h_before x).
Proof.
  destruct x as [B c a w y]. unfold genuine. cbn [h_call h_result h_at h_before]. intros ->.
  destruct c as [?|? m|?|?|?|?|?|?|?|?|?|?|?]; try done. destruct m; try done. by intros [= -> -> -> ->].
Qed.

Lemma read_issued x user method token session : genuine x → issued_call x = Some (user, method, token, session) →
  x = happen (IssueSession user method) (h_at x) (h_before x) ∧
  (perform (IssueSession user method) (h_at x) (h_before x)).1 = Ok (token, session).
Proof.
  destruct x as [B c a w y]. unfold genuine. cbn [h_call h_result h_at h_before]. intros ->. unfold issued_call. cbn [h_call h_result].
  destruct c; try done. intros Hc. destruct (perform _ a w).1 as [[token' session']|] eqn:E in Hc; [|done]. by simplify_eq.
Qed.

Lemma read_ended x token : genuine x → ended_call x = Some token → x = happen (EndSession token) (h_at x) (h_before x).
Proof.
  destruct x as [B c a w y]. unfold genuine. cbn [h_call h_result h_at h_before]. intros ->. destruct c; try done. by intros [= ->].
Qed.

Lemma read_found x token session : genuine x → found_call x = Some (token, session) →
  x = happen (LookupSession token) (h_at x) (h_before x) ∧
  (perform (LookupSession token) (h_at x) (h_before x)).1 = Some session.
Proof.
  destruct x as [B c a w y]. unfold genuine. cbn [h_call h_result h_at h_before]. intros ->. unfold found_call. cbn [h_call h_result].
  destruct c; try done. intros Hc. destruct (perform _ a w).1 as [session'|] eqn:E in Hc; [|done]. cbn in Hc. by simplify_eq.
Qed.
End Read.

Lemma sample_result i e : ss_trace sample_studio !! i = Some e →
  genuine (te_now e).
Proof. intros Hi. apply (eo_result _ _ _ (td_trace _ _ (told_reachable _ _ _ sample_studio_reachable) i e Hi)). Qed.

#[local] Opaque sample_studio.

(** ** Witnesses *)

Lemma operator_changes_are_authorised_witness :
  ∃ e session t0, ss_trace sample_studio !! 14 = Some e ∧ session_cookie (te_request e) = Some session_token ∧
    issued_before sample_studio 14 session_token session t0 ∧ ValidateCSRF session csrf_token = true.
Proof.
  assert (entry_call policy_call 14 = Some (sample_machine_id, "provision", "req-ui", "user:alice")) as Hc by (vm_compute; reflexivity).
  apply entry_found in Hc as (e & Hi & Hc). pose proof (read_policy _ _ _ _ _ (sample_result _ _ Hi) Hc) as Hn.
  assert (match ss_trace sample_studio !! 14 with
          | Some e => match session_cookie (te_request e), PostForm (te_request e) with
                      | Some c, Ok form => (c, Get form "csrf") | _, _ => ("", "") end
          | None => ("", "") end = (session_token, csrf_token)) as Hreq by (vm_compute; reflexivity).
  rewrite Hi in Hreq.
  destruct (operator_changes_are_authorised sample_handler sample_proxy _ 14 e _ _ _ _ "user:alice" false
    sample_studio_reachable Hi Hn eq_refl) as (_ & session & cookie & form & u & t0 & t1 & t2 & Hck & Hform & Hcsrf & Hiss & _).
  rewrite Hck, Hform in Hreq. pose proof (f_equal fst Hreq) as Hck'. pose proof (f_equal snd Hreq) as Hcsrf'.
  cbn [fst snd] in Hck', Hcsrf'. rewrite Hck' in Hck, Hiss. rewrite Hcsrf' in Hcsrf.
  exists e, session, t0. split; [exact Hi|]. split; [exact Hck|]. split; [exact Hiss|exact Hcsrf].
Defined.

Lemma sessions_need_a_passkey_witness :
  ∃ r user token session a,
    happened_at sample_studio 25 r (IssueSession user "zoraxy+passkey") (Ok (token, session)) a ∧
    (login_before sample_studio 25 r (UserID session) ModeLogin ∨ enrolment_before sample_studio 25 r (UserID session)).
Proof.
  assert (match entry_call issued_call 25 with Some x => x.1.1.2 | None => "" end = "zoraxy+passkey") as Hm by (vm_compute; reflexivity).
  assert (match ss_trace sample_studio !! 25 with Some e => outer_identity sample_proxy (te_request e) | None => None end = Some "alice")
    as Ho by (vm_compute; reflexivity).
  destruct (entry_call issued_call 25) as [[[[user method] token] session]|] eqn:Hc; cbn [fst snd] in Hm; [|discriminate Hm].
  subst method. apply entry_found in Hc as (e & Hi & Hc). rewrite Hi in Ho.
  destruct (read_issued _ _ _ _ _ (sample_result _ _ Hi) Hc) as [Hn Hx].
  assert (happened_at sample_studio 25 (te_request e) (IssueSession user "zoraxy+passkey") (Ok (token, session)) (h_at (te_now e)))
    as Hat by (exists e, (h_before (te_now e)); split_and!; [exact Hi|reflexivity|exact Hn|exact Hx]).
  exists (te_request e), user, token, session, (h_at (te_now e)). split; [exact Hat|].
  destruct (sessions_need_a_passkey sample_handler sample_proxy _ 25 _ _ _ _ _ _ sample_studio_reachable Hat)
    as [-> [[_ Hl]|[[_ Hl]|[Hno _]]]]; [left; exact Hl|right; exact Hl|]. rewrite Hno in Ho. discriminate Ho.
Defined.

Lemma tokens_are_used_up_witness :
  ∃ session j r user method token a, (17 < j < 26)%nat ∧
    happened_at sample_studio j r (IssueSession user method) (Ok (token, session)) a ∧
    Artifact.sha256 token = Artifact.sha256 session_token.
Proof.
  assert (entry_call ended_call 17 = Some session_token) as He by (vm_compute; reflexivity).
  assert (match entry_call found_call 26 with Some x => x.1 | None => "" end = session_token) as Hf by (vm_compute; reflexivity).
  destruct (entry_call found_call 26) as [[token' session]|] eqn:Hc; cbn [fst] in Hf; [|discriminate Hf]. subst token'.
  apply entry_found in He as (e & Hi & He). apply entry_found in Hc as (e' & Hi' & Hc).
  pose proof (read_ended _ _ (sample_result _ _ Hi) He) as Hn. destruct (read_found _ _ _ (sample_result _ _ Hi') Hc) as [Hn' Hx'].
  destruct (tokens_are_used_up sample_handler sample_proxy sample_studio 17 26 (te_request e) (te_request e') sample_studio_reachable
    ltac:(lia)) as [Hspent _].
  destruct (Hspent session_token session_token session (h_at (te_now e)) (h_at (te_now e'))) as (j & r & user & method & token & a & Hj & Hat & Hd).
  - discriminate.
  - reflexivity.
  - exists e, (h_before (te_now e)). split_and!; [exact Hi|reflexivity|exact Hn|reflexivity].
  - exists e', (h_before (te_now e')). split_and!; [exact Hi'|reflexivity|exact Hn'|exact Hx'].
  - exists session, j, r, user, method, token, a. split; [exact Hj|]. split; [exact Hat|exact Hd].
Defined.

(** ** Starting the server *)

Definition sample_entry (content : string) : ManifestFile := mkManifestFile (Artifact.SHA256 content) (len content).

Definition sample_manifest : Manifest :=
  mkManifest ExpectedIPXERelease ExpectedIPXECommit (Artifact.SHA256 "release.zip")
    (<["ipxe-shim.efi" := sample_entry "shim"]> {["ipxe.efi" := sample_entry "ipxe"]}).

(** One text is read as the sample manifest. *)
#[global] Instance sample_manifest_decoder : ManifestDecoder := {|
  decode_manifest s := if (s =? "{manifest}")%string then Ok sample_manifest else Err (Plain "json");
  at_EOF _ := true |}.

Definition no_entry {A} : result A := Err (Plain "no such file or directory").

(** A directory with the given contents of the files. *)
Definition sample_files (content : gmap string string) : filesystem := {|
  Lstat path := if (path =? "/usr/lib/aegispxe/secureboot")%string then Ok (mkInfo (2 ^ 31 + 493) 4096) else
    match content !! path with Some text => Ok (mkInfo 420 (len text)) | None => no_entry end;
  Open path := match content !! path with Some text => Ok (mkFile text None) | None => no_entry end |}.

Definition in_directory (name : string) : string := "/usr/lib/aegispxe/secureboot/" +:+ name.

Definition packaged (ipxe : string) : filesystem :=
  sample_files (<[in_directory "manifest.json" := "{manifest}"]> (<[in_directory "ipxe-shim.efi" := "shim"]> {[in_directory "ipxe.efi" := ipxe]})).

(** No recovery key yet, on a disk without errors. *)
Definition new_key_file : KeyFile := mkKeyFile Missing no_entry (Ok tt) (Ok tt) (Ok tt) (Ok tt) (Ok tt).
Definition sample_random : ambient := at_time 3000%Z "k".

Definition sample_surroundings (variables : gmap string string) (ipxe : string) : surroundings :=
  mkSurroundings (λ name, default "" (variables !! name)) (packaged ipxe) (λ _, Ok empty_db) (λ _, new_key_file) sample_random.

Definition start (variables : gmap string string) (ipxe : string) : startup * option string :=
  main "1.0.0" (sample_surroundings variables ipxe).

(** The exit code of a start, or the addresses it listens on. *)
Definition outcome_of (x : startup * option string) : Z + list (string * string) :=
  match x.1 with Exits code => inl code | Serving r => inr ((λ l, (name l, Addr (server l))) <$> run_listeners r) end.

Example starts :
  outcome_of (start ∅ "ipxe") = inr [("pxe", "0.0.0.0:8090"); ("studio", "127.0.0.1:8091")] ∧
  outcome_of (start ∅ "ipxf") = inl 1%Z ∧
  outcome_of (start {["AEGISPXE_SECURE_BOOT_POLICY" := "audit"]} "ipxf") = inr [("pxe", "0.0.0.0:8090"); ("studio", "127.0.0.1:8091")] ∧
  outcome_of (start {["AEGISPXE_STUDIO_LISTEN" := "Disabled"]} "ipxe") = inr [("pxe", "0.0.0.0:8090")] ∧
  outcome_of (start {["AEGISPXE_STUDIO_LISTEN" := "0.0.0.0:8091"]} "ipxe") = inl 1%Z ∧
  outcome_of (start (<["AEGISPXE_TRUSTED_PROXY_CIDRS" := "10.0.0.1"]> {["AEGISPXE_STUDIO_LISTEN" := "0.0.0.0:8091"]}) "ipxe")
  = inr [("pxe", "0.0.0.0:8090"); ("studio", "0.0.0.0:8091")] ∧
  outcome_of (start {["AEGISPXE_LOG_LEVEL" := "loud"]} "ipxe") = inl 2%Z ∧
  outcome_of (start {["AEGISPXE_WEBAUTHN_RP_ID" := "aegis.example"]} "ipxe") = inl 1%Z.
Proof. split_and!; by vm_compute. Qed.

Lemma startup_is_guarded_witness :
  match start ∅ "ipxe" with
  | (Serving r, _) =>
    s_secureBootPolicy (run_server r) ∈ [Secureboot.PolicyRequired; Secureboot.PolicyAudit; Secureboot.PolicyDisabled] ∧
    (s_secureBootAssetsValid (run_server r) = true ↔ ∃ report, accepted (packaged "ipxe") "/usr/lib/aegispxe/secureboot" report) ∧
    (s_secureBootPolicy (run_server r) = Secureboot.PolicyRequired → s_secureBootAssetsValid (run_server r) = true) ∧
    (∀ l, l ∈ run_listeners r → handler_surface (server l) = PXE ∨
      ∃ host port ip, SplitHostPort (TrimSpace (Addr (server l))) = Some (host, port) ∧ port ≠ "" ∧
        ParseIP host = Some ip ∧ (IsLoopback ip = true ∨ prefixes (run_proxy r) ≠ [])) ∧
    (reachable (run_db r) → started (mkStudio (run_db r, run_console r) ∅ []))
  | (Exits _, _) => False
  end.
Proof.
  destruct (start ∅ "ipxe") as [[code|r] created] eqn:E.
  - assert (match outcome_of (start ∅ "ipxe") with inl _ => false | inr _ => true end = true) as Hs by (by vm_compute).
    by rewrite E in Hs.
  - exact (@startup_is_guarded _ _ _ Artifact.sample_crypto_laws "1.0.0" (sample_surroundings ∅ "ipxe") r created E).
Defined.

(** The recovery key of the first start is there for the second. *)
Definition first_key : result Manager * option string := LoadOrCreate "/var/lib/aegispxe/operator.key" (λ _, new_key_file) sample_random.

Definition second_disk (path : string) : KeyFile :=
  mkKeyFile (Present true 384) (match first_key.2 with Some text => Ok text | None => no_entry end) (Ok tt) (Ok tt) (Ok tt) (Ok tt) (Ok tt).

Lemma recovery_key_survives_restart_witness :
  match first_key with
  | (Ok m, Some text) => LoadOrCreate "/var/lib/aegispxe/operator.key" second_disk (at_time 4000%Z "x") = (Ok m, None)
  | _ => False
  end.
Proof.
  destruct first_key as [[m|e] [text|]] eqn:E;
    try (assert (match first_key with (Ok _, Some _) => true | _ => false end = true) as Hs by (by vm_compute); by rewrite E in Hs).
  apply (recovery_key_survives_restart "/var/lib/aegispxe/operator.key" (λ _, new_key_file) sample_random m text second_disk).
  - exact E.
  - reflexivity.
  - unfold second_disk. cbn [kf_ReadFile]. by rewrite E.
Defined.
