(* ===== verification/ReporterSample.v ===== *)
(** * Concrete runs of the reporter

    A codec that satisfies the laws, executable schedules of [host_step], a run
    in which the queue is drained in part, and what happens when the hand-over
    to the installed system looks at the queue at the wrong moment; then the
    client and the server of the sample store, over a network that loses the
    first answer. *)

From stdpp Require Import relations sorting pretty.
From S2P Require Import Prelude GoStrings Regex StringFacts Fault Encoding GoParse Http ReporterHost ReporterClient Reporter ReporterFinalizer ReporterProtocol ReporterTheorems ReporterSafety.
From S2P Require Artifact Lifecycle Boottrust Machine Installation Assignment StoreInstallations Telemetry.
From S2P Require Import Op Db Progress Store HttpTelemetry System.
From S2P Require Import StoreTelemetry TelemetryTheorems Reachable Sample SampleServer Delivery Enrollment.

(** ** A codec

    The messages of the two sides can be read back. *)

(** Texts are hexadecimal fields, a time is its seconds and nanoseconds. *)
Definition json_text (j : json) : string :=
  match j with
  | JString s => hex_encode s
  | JInt n => FormatInt n
  | JTime t => FormatInt (t / Second + 1) +:+ "." +:+ FormatInt (t mod Second + 1)
  | JBool b => if b then "true" else "false"
  | _ => ""
  end.

Definition member (p : string * json) : string := p.1 +:+ ":" +:+ json_text p.2.
Definition sample_marshal (j : json) : string := match j with JObject l => Join (member <$> l) ";" | j => json_text j end.

(** The members of an object, with the text of their values. *)
Definition members (s : string) : list (string * string) :=
  omap (λ f, match split_byte ":" f with [k; v] => Some (k, v) | _ => None end)
    (split_byte ";" (default "" (head (split_byte (byte_of 10) s)))).

Definition member_of (s key : string) : option string := snd <$> List.find (λ p, p.1 =? key)%string (members s).
Definition text_of (s key : string) : option string := v ← member_of s key; hex_decode v.
Definition time_of (s key : string) : option time :=
  v ← member_of s key;
  match split_byte "." v with
  | [a; b] => a ← ParseInt a; b ← ParseInt b; Some ((a - 1) * Second + (b - 1))%Z
  | _ => None
  end.

(** What members are written with. *)
Definition is_word (c : ascii) : bool := is_alnum c || Ascii.eqb c "_" || Ascii.eqb c "." || Ascii.eqb c "-".

Lemma word_free s : all_bytes is_word s = true →
  byte_free ":" s = true ∧ byte_free ";" s = true ∧ byte_free (byte_of 10) s = true.
Proof. intros Hs. split_and!; revert Hs; apply all_bytes_impl; intros c Hc; apply negb_true_iff, Ascii.eqb_neq; by intros ->. Qed.

Lemma hex_word s : all_bytes is_word (hex_encode s) = true.
Proof.
  induction s as [|c s IH]; [done|]. cbn [hex_encode all_bytes]. rewrite IH, andb_true_r.
  assert (∀ n, (n < 16)%nat → is_word (hex_digit n) = true) as Hd by (intros n Hn; do 16 (destruct n as [|n]; [done|]); lia).
  byte_arith c. rewrite !Hd; [done|lia|]. lia.
Qed.

Lemma pretty_word x s : all_bytes is_word s = true → all_bytes is_word (pretty_N_go x s) = true.
Proof.
  revert s. induction (N.lt_wf_0 x) as [x _ IH]. intros s Hs. destruct (decide (0 < x)%N) as [Hx|Hx].
  - rewrite pretty_N_go_step by done. apply IH; [by apply N.div_lt|]. cbn [all_bytes]. rewrite Hs, andb_true_r.
    assert (x `mod` 10 < 10)%N as Hm by (by apply N.mod_lt). destruct (pretty_N_char_digit _ Hm) as [Hd _].
    unfold is_word, is_alnum. rewrite Hd. by rewrite !orb_true_r.
  - assert (x = 0%N) as -> by lia. by rewrite pretty_N_go_0.
Qed.

Lemma FormatInt_word n : (0 < n)%Z → all_bytes is_word (FormatInt n) = true.
Proof. destruct n as [|p|p]; [lia| |lia]. intros _. by apply (pretty_word (Npos p) ""). Qed.

Definition value_ok (j : json) : Prop :=
  match j with JString _ | JBool _ => True | JTime t => (0 ≤ t)%Z | _ => False end.

Lemma json_text_word j : value_ok j → all_bytes is_word (json_text j) = true.
Proof.
  destruct j as [s|n|b|t|l|l]; cbn; try done; intros Hj.
  - apply hex_word.
  - by destruct b.
  - assert (0 ≤ t / Second)%Z by (apply Z.div_pos; [done|unfold Second; lia]).
    assert (0 ≤ t mod Second)%Z by (apply Z.mod_pos_bound; unfold Second; lia).
    rewrite all_bytes_app. cbn [String.append all_bytes]. rewrite !FormatInt_word by lia. done.
Qed.

Lemma members_marshal l rest :
  l ≠ [] → Forall (λ p, all_bytes is_word p.1 = true ∧ value_ok p.2) l → rest = "" ∨ rest = nl →
  members (sample_marshal (JObject l) +:+ rest) = (λ p, (p.1, json_text p.2)) <$> l.
Proof.
  intros Hne Hl Hrest. unfold members.
  assert (∀ m, m ∈ member <$> l → byte_free ";" m = true ∧ byte_free (byte_of 10) m = true) as Hm.
  { intros m ([k v] & -> & Hp)%list_elem_of_fmap. rewrite Forall_forall in Hl. destruct (Hl _ Hp) as [Hk Hv%json_text_word].
    apply word_free in Hk as (_ & K1 & K2), Hv as (_ & V1 & V2). unfold member. cbn [fst snd] in *. by rewrite !byte_free_app, K1, K2, V1, V2. }
  assert (byte_free (byte_of 10) (Join (member <$> l) ";") = true) as Hline.
  { assert (∀ ms, (∀ m, m ∈ ms → byte_free (byte_of 10) m = true) → byte_free (byte_of 10) (Join ms ";") = true) as Hj.
    { induction ms as [|m ms IH]; [done|]. intros Hms. destruct ms as [|m' ms]; [apply Hms; by left|].
      change (Join (m :: m' :: ms) ";") with (m +:+ ";" +:+ Join (m' :: ms) ";"). rewrite !byte_free_app, IH, Hms; [done|by left|].
      intros x Hx. apply Hms. by right. }
    apply Hj. intros m Hin. by apply Hm. }
  assert (default "" (head (split_byte (byte_of 10) (sample_marshal (JObject l) +:+ rest))) = Join (member <$> l) ";") as ->.
  { cbn [sample_marshal]. destruct Hrest as [-> | ->].
    - replace (Join (member <$> l) ";" +:+ "") with (Join (member <$> l) ";") by (clear; induction (Join _ _); cbn; congruence).
      by rewrite split_byte_free.
    - unfold nl. rewrite split_byte_app by done. done. }
  rewrite split_join; [|by destruct l|intros x Hx; by apply Hm].
  clear Hne Hm Hline. induction l as [|[k v] l IH]; [done|]. apply Forall_cons in Hl as [[Hk Hv%json_text_word] Hl].
  apply word_free in Hk as (K & _ & _), Hv as (V & _ & _). cbn [fst snd] in *. cbn [fmap list_fmap omap list_omap].
  unfold member at 1. cbn [fst snd]. change (k +:+ ":" +:+ json_text v) with (k +:+ String ":" (json_text v)).
  rewrite split_byte_app, split_byte_free by done. by rewrite <- IH.
Qed.

Lemma first_bytes_all s : ∀ n, String.length s ≤ n → first_bytes n s = s.
Proof. unfold first_bytes. induction s as [|c s IH]; intros [|n] Hn; cbn in *; try done; try lia. by rewrite IH by lia. Qed.

Lemma pretty_go_length k : ∀ x s, (x < 10 ^ N.of_nat k)%N → String.length (pretty_N_go x s) ≤ k + String.length s.
Proof.
  induction k as [|k IH]; intros x s Hx.
  - assert (x = 0%N) as -> by (cbn in Hx; lia). by rewrite pretty_N_go_0.
  - destruct (decide (0 < x)%N) as [Hpos|]; [|assert (x = 0%N) as -> by lia; rewrite pretty_N_go_0; lia].
    rewrite pretty_N_go_step by done. etrans; [apply IH|cbn; lia].
    apply N.Div0.div_lt_upper_bound. by rewrite Nat2N.inj_succ, N.pow_succ_r' in Hx.
Qed.

Lemma FormatInt_length n : (0 < n < 10 ^ 20)%Z → String.length (FormatInt n) ≤ 20.
Proof.
  intros Hn. destruct n as [|p|p]; [lia| |lia]. unfold FormatInt. change (pretty (Zpos p)) with (pretty_N_go (Npos p) "").
  apply (pretty_go_length 20). cbn. lia.
Qed.

Lemma time_text_length t : json_time t → String.length (json_text (JTime t)) ≤ 41.
Proof.
  intros Ht. unfold json_time in Ht. cbn. rewrite !length_app_s. cbn.
  assert (0 ≤ t / Second < 315537897600)%Z by (split; [apply Z.div_pos; unfold Second in *; lia|apply Z.div_lt_upper_bound; unfold Second in *; lia]).
  assert (0 ≤ t mod Second < Second)%Z by (apply Z.mod_pos_bound; unfold Second; lia).
  pose proof (FormatInt_length (t / Second + 1) ltac:(lia)). pose proof (FormatInt_length (t mod Second + 1) ltac:(unfold Second in *; lia)). lia.
Qed.

Lemma time_text_back t : json_time t →
  match split_byte "." (json_text (JTime t)) with
  | [a; b] => a ← ParseInt a; b ← ParseInt b; Some ((a - 1) * Second + (b - 1))%Z
  | _ => None
  end = Some t.
Proof.
  intros Ht. unfold json_time in Ht. cbn [json_text].
  assert (0 ≤ t / Second < 315537897600)%Z by (split; [apply Z.div_pos; unfold Second in *; lia|apply Z.div_lt_upper_bound; unfold Second in *; lia]).
  assert (0 ≤ t mod Second < Second)%Z by (apply Z.mod_pos_bound; unfold Second; lia).
  assert (∀ n, (0 < n)%Z → byte_free "." (FormatInt n) = true) as Hfree.
  { intros n Hn. destruct n as [|p|p]; [lia| |lia]. unfold FormatInt. change (pretty (Zpos p)) with (pretty_N_go (Npos p) "").
    destruct (digits_go_pretty (Npos p) "" eq_refl) as [Hd _]. revert Hd. apply all_bytes_impl. intros c Hc. apply negb_true_iff, Ascii.eqb_neq. by intros ->. }
  change (FormatInt (t / Second + 1) +:+ "." +:+ FormatInt (t mod Second + 1)) with (FormatInt (t / Second + 1) +:+ String "." (FormatInt (t mod Second + 1))).
  rewrite split_byte_app, split_byte_free by (apply Hfree; lia).
  rewrite !ParseInt_FormatInt by (unfold Second in *; lia). cbn [mbind option_bind]. f_equal.
  pose proof (Z.div_mod t Second ltac:(by unfold Second)). lia.
Qed.

Definition or_else {A} (r : option A) (default : A) : result A := Ok (match r with Some x => x | None => default end).

Definition wire_enrolled s := f ← text_of s "fingerprint"; st ← text_of s "state"; Some (mkEnrolled f st).
Definition wire_challenge s :=
  id ← text_of s "challenge_id"; i ← text_of s "installation_id"; m ← text_of s "machine_id"; f ← text_of s "fingerprint";
  n ← text_of s "nonce"; Some (mkChallengeReply id i m f n).
Definition wire_release s :=
  id ← text_of s "challenge_id"; a ← text_of s "algorithm"; ct ← text_of s "ciphertext"; t ← time_of s "credential_expires";
  Some (mkReleaseReply id a ct t).

Lemma marshal_length l :
  String.length (sample_marshal (JObject l)) ≤ foldr (λ p n, 2 + String.length p.1 + String.length (json_text p.2) + n) 0 l.
Proof.
  cbn [sample_marshal]. induction l as [|[k v] l IH]; [done|].
  assert (String.length (member (k, v)) = 1 + String.length k + String.length (json_text v)) as Hmember
    by (unfold member; rewrite !length_app_s; cbn; lia).
  destruct l as [|q l]; [change (Join (member <$> [(k, v)]) ";") with (member (k, v)); cbn [foldr fst snd]; lia|].
  change (Join (member <$> (k, v) :: q :: l) ";") with (member (k, v) +:+ ";" +:+ Join (member <$> q :: l) ";").
  rewrite !length_app_s. change (String.length ";") with 1. cbn [foldr fst snd] in *. lia.
Qed.

Lemma maxResponse_Z : Z.of_nat maxResponse = 262144%Z.
Proof. unfold maxResponse. by rewrite Nat2Z.inj_mul. Qed.

#[local] Opaque maxResponse.

Section Wire.
Context `{RC : ReporterCodec} (Hm : ∀ j, marshal j = sample_marshal j).

Lemma read_back_members l :
  l ≠ [] → Forall (λ p, all_bytes is_word p.1 = true ∧ value_ok p.2) l → String.length (sample_marshal (JObject l)) < maxResponse →
  members (read_back (JObject l)) = (λ p, (p.1, json_text p.2)) <$> l.
Proof.
  intros Hne Hl Hlen. unfold read_back. rewrite Hm, first_bytes_all by (rewrite length_app_s; change (String.length nl) with 1; lia). apply members_marshal; [done|done|by right].
Qed.

Lemma request_members l :
  l ≠ [] → Forall (λ p, all_bytes is_word p.1 = true ∧ value_ok p.2) l → members (marshal (JObject l)) = (λ p, (p.1, json_text p.2)) <$> l.
Proof.
  intros Hne Hl. rewrite Hm. rewrite <- (members_marshal l "") by auto. f_equal. clear. induction (sample_marshal _); cbn; congruence.
Qed.

Ltac wire_length :=
  repeat match goal with Hp : plain _ |- _ => destruct Hp as [_ Hp] end;
  eapply Nat.le_lt_trans; [apply marshal_length|]; cbn [foldr fst snd];
  repeat match goal with |- context [json_text (JTime ?t)] =>
    let H := fresh in assert (String.length (json_text (JTime t)) ≤ 41) as H by (by apply time_text_length); revert H; generalize (json_text (JTime t)); intros ? H end;
  cbn [json_text]; rewrite ?hex_encode_length; cbn [String.length]; pose proof maxResponse_Z; lia.

Lemma json_time_pos t : json_time t → (0 ≤ t)%Z.
Proof. by intros []. Qed.

Lemma wire_enrolled_law iid mid fp state created : plain iid → plain mid → plain fp → plain state →
  wire_enrolled (read_back (enroll_reply iid mid fp state created)) = Some (mkEnrolled fp state).
Proof.
  intros Hi Hmid Hf Hs. unfold wire_enrolled, text_of, member_of, enroll_reply. rewrite !read_back_members; [|done|by repeat constructor|destruct created; wire_length].
  cbn. by rewrite !hex_decode_encode.
Qed.

Lemma wire_challenge_law id iid mid fp nonce expires : plain id → plain iid → plain mid → plain fp → plain nonce → json_time expires →
  wire_challenge (read_back (challenge_reply id iid mid fp nonce expires)) = Some (mkChallengeReply id iid mid fp nonce).
Proof.
  intros Hid Hi Hmid Hf Hn Ht. unfold wire_challenge, text_of, member_of, challenge_reply.
  rewrite !read_back_members; [|done|by repeat constructor; apply json_time_pos|wire_length].
  cbn -[json_text]. cbn [json_text]. by rewrite !hex_decode_encode.
Qed.

Lemma wire_release_law id algorithm ct expires duplicate : plain id → plain algorithm → plain ct → json_time expires →
  wire_release (read_back (release_reply id algorithm ct expires duplicate)) = Some (mkReleaseReply id algorithm ct expires).
Proof.
  intros Hid Ha Hct Ht. unfold wire_release, text_of, time_of, member_of, release_reply.
  rewrite !read_back_members; [|done|by repeat constructor; apply json_time_pos|destruct duplicate; wire_length].
  cbn -[json_text split_byte]. rewrite time_text_back by done. cbn [json_text]. by rewrite !hex_decode_encode.
Qed.
End Wire.

(** *** The codec *)

#[global] Instance queuedEvent_eq_dec : EqDecision queuedEvent.
Proof. solve_decision. Defined.

(** Texts are hexadecimal fields; an event is written when it can be read back. *)
Definition field (s : string) : string := hex_encode s.

Definition queued_text (e : queuedEvent) : string :=
  Join [field (qe_Stage e); field (qe_Source e); field (qe_Message e); field (qe_ErrorCode e);
        FormatInt (qe_ClientTime e / Second); FormatInt (qe_ClientTime e mod Second); field (qe_IdempotencyKey e)] ",".

Definition queued_parse (s : string) : option queuedEvent :=
  match split_byte "," s with
  | [st; src; m; e; t; u; k] =>
    st ← hex_decode st; src ← hex_decode src; m ← hex_decode m; e ← hex_decode e; t ← ParseInt t; u ← ParseInt u; k ← hex_decode k;
    Some (mkQueued st src m e (t * Second + u)%Z k)
  | _ => None
  end.

Definition line_ok (l : string) : bool := byte_free (byte_of 10) l && negb (blank l) && (drop_cr l =? l)%string.

#[local] Arguments line_ok : simpl never.
#[local] Arguments queued_text : simpl never.
#[local] Arguments queued_parse : simpl never.

Definition sample_fingerprint : string := "sha256:" +:+ hex_encode (Artifact.sample_digest "key").
Definition sample_nonce : string := RawURLEncoding_EncodeToString "0123456789abcdef0123456789abcdef".
Definition sample_secret : string := "secret-secret-secret-secret-secret".

Definition sample_codec : ReporterCodec := {|
  marshal := sample_marshal;
  marshal_queued e := if line_ok (queued_text e) && bool_decide (queued_parse (queued_text e) = Some e)
                      then Ok (queued_text e) else Err (Plain "json");
  unmarshal_queued s := match queued_parse s with Some e => Ok e | None => Err (Plain "json") end;
  decode_config s := Ok (mkConfig "http://10.0.0.1" "ins_1" "mach_1" "admin");
  MarshalIndent_config c := Ok (APIBase c);
  decode_enrolled s := or_else (wire_enrolled s) (mkEnrolled sample_fingerprint Boottrust.KeyApproved);
  decode_challenge_reply s := or_else (wire_challenge s) (mkChallengeReply "ch_1" "ins_1" "mach_1" sample_fingerprint sample_nonce);
  decode_release s := or_else (wire_release s) (mkReleaseReply "ch_1" "RSA-OAEP-SHA256" (RawURLEncoding_EncodeToString sample_secret) 0%Z);
  api_error s := ("", "");
  time_Format := FormatInt;
  MarshalPKIXPublicKey k := Ok "key";
  pem_EncodeToMemory s := s |}.

#[global] Instance sample_codec_laws : ReporterCodecLaws sample_codec.
Proof.
  assert (∀ e l, @marshal_queued sample_codec e = Ok l → is_line l ∧ @unmarshal_queued sample_codec l = Ok e) as Hm.
  { intros e l. cbn. destruct (line_ok (queued_text e)) eqn:Hl; [|done]. case_bool_decide as Hp; [|done]. intros [= <-].
    unfold line_ok in Hl. bool_inv. split; [|cbn; by rewrite Hp]. split; [done|]. split; done. }
  split; [by intros e l [? _]%Hm|]. intros e l Hl. destruct (Hm _ _ Hl) as [_ Hu]. exists e. split; [done|]. by exists l.
Qed.

(** ** Schedules *)

Section Schedules.
Context `{Artifact.Crypto} `{ReporterCodec}.

Inductive host_action := Spawns (n : nat) (x : command) | Calls (n : nat) (o : outer) | Ends (n : nat).

Definition host_act (h : host) (x : host_action) : option host :=
  match x with
  | Spawns n x => match h_pool h !! n with None => Some (mkHost (h_disk h) (<[n := process_of x]> (h_pool h)) (h_trace h)) | Some _ => None end
  | Calls n o =>
    match h_pool h !! n with
    | Some (Sys c k) =>
      match perform n c o (h_disk h) with
      | Some (r, d') =>
        if tears_queue c o then None
        else Some (mkHost d' (<[n := k r]> (h_pool h)) (h_trace h ++ [mkCalled n _ c r]))
      | None => None
      end
    | _ => None
    end
  | Ends n =>
    match h_pool h !! n with
    | Some p => if rewrites_queue p then None else Some (mkHost (free_locks n (h_disk h)) (delete n (h_pool h)) (h_trace h))
    | None => None
    end
  end.

Lemma host_act_step h x h' : host_act h x = Some h' → host_step h h'.
Proof.
  destruct h as [d pool trace]. intros Ha. destruct x as [n x|n o|n]; cbn in Ha; destruct (pool !! n) as [p|] eqn:Hn; simplify_eq.
  - by constructor.
  - destruct p as [| |B c k]; try done. destruct (perform n c o d) as [[r d']|] eqn:Hp; [|done]. case_match eqn:Hw; [done|]. simplify_eq.
    by eapply HostCall.
  - destruct (rewrites_queue p) eqn:Hw; simplify_eq. by eapply HostEnd.
Qed.

Definition host_acts (h : host) (l : list host_action) : option host := foldl (λ h x, h ← h; host_act h x) (Some h) l.

Lemma host_acts_None l : foldl (λ h x, h ← h; host_act h x) None l = None.
Proof. by induction l. Qed.

Lemma host_acts_steps l : ∀ h h', host_acts h l = Some h' → rtc host_step h h'.
Proof.
  induction l as [|x l IH]; intros h h'; unfold host_acts; cbn [foldl]; [intros [= <-]; apply rtc_refl|].
  cbn [mbind option_bind]. destruct (host_act h x) as [h1|] eqn:E; [|by rewrite host_acts_None].
  intros Hl. eapply rtc_l; [by eapply host_act_step|]. by apply IH.
Qed.
End Schedules.

(** ** A run *)

#[global] Instance reporter_crypto : Artifact.Crypto := Artifact.sample_crypto.
#[global] Instance reporter_crypto_laws : Artifact.CryptoLaws reporter_crypto := Artifact.sample_crypto_laws.
#[global] Existing Instance sample_codec.

Definition noon : time := ((62135596800 + 1750000000) * Second)%Z.

Definition sample_outer (status : Z) : outer := {|
  o_fails := None; o_partial := 0; o_clock := noon; o_done := false;
  o_http _ := Ok (status, Ok ""); o_key := Ok (Some Artifact.sample_key);
  o_sign d := Ok (Some d); o_decrypt x _ := Ok x; o_sshd := ("", true); o_stat _ := (true, 384%Z);
  o_executable := "/usr/local/lib/aegispxe/aegispxe-reporter" |}.

Definition fresh_host : host := mkHost (mkDisk {[InstallerConfigPath := "{}"; "/dev/tpm0" := ""; "/usr/local/lib/aegispxe/aegispxe-reporter" := "ELF"]} ∅) ∅ [].

(** Two hooks queue an event each; the daemon gets its credential and the first
    event accepted, not the second. *)
Definition hook_steps (n : nat) (stage : string) : list host_action :=
  Spawns n (EventCommand stage "installer" "reached" "") :: repeat (Calls n (sample_outer 200)) 6 ++ [Ends n].

Definition daemon_start : list host_action :=
  Spawns 3 (DaemonCommand 5 InstallerConfigPath) :: repeat (Calls 3 (sample_outer 200)) 22.

Definition queued_and_started : list host_action :=
  hook_steps 1 "INSTALLER_STARTED" ++ hook_steps 2 "DISK_PREPARATION" ++ daemon_start.

(** The second event is refused, the queue emptied, the rest written back. *)
Definition emptied : list host_action := queued_and_started ++ [Calls 3 (sample_outer 503); Calls 3 (sample_outer 200)].
Definition drained : list host_action := emptied ++ repeat (Calls 3 (sample_outer 200)) 2.

(** The whole hand-over runs while the queue is empty. *)
Definition handed_over : list host_action :=
  emptied ++ Spawns 4 (InstallCommand 5 InstallerConfigPath "/target") :: repeat (Calls 4 (sample_outer 200)) 31 ++ [Ends 4].

Definition after_run (l : list host_action) : host := default fresh_host (host_acts fresh_host l).

Definition runs (l : list host_action) : bool := match host_acts fresh_host l with Some _ => true | None => false end.

Lemma after_run_reachable l : runs l = true → host_reachable (after_run l).
Proof.
  unfold runs. destruct (host_acts fresh_host l) as [h|] eqn:Hh; [|done]. intros _. exists fresh_host. split; [|apply (host_acts_steps l); unfold after_run; by rewrite Hh].
  eexists. split; [|done]. by vm_compute.
Qed.

#[local] Opaque host_acts.

Definition accepted_in (trace : list called) (e : queuedEvent) : bool := existsb (λ x, accepts e (e_call x) (e_answer x)) trace.

Lemma accepted_in_spec trace e t : accepted_at trace e t → accepted_in trace e = true.
Proof. intros (x & Hx & Ha). apply existsb_exists. exists x. split; [by eapply list_elem_of_In, list_elem_of_lookup_2|done]. Qed.

(** The hand-over [install-firstboot] takes the queue for drained although an
    event was never delivered: [QueueEmpty] looks at the size of the file
    without its lock, and between emptying the file and writing the rest back
    the size is zero. *)
Definition handover_done (pid : nat) (trace : list called) : bool :=
  existsb (λ x, (e_pid x =? pid)%nat &&
    match e_call x in sys B return B → bool with
    | Symlink _ _ => λ r, match r with Ok _ => true | Err _ => false end
    | _ => λ _, false
    end (e_answer x)) trace.

Lemma handover_can_miss_events :
  ∃ h e, host_reachable h ∧ e ∈ appended (h_trace h) ∧ (∀ t, ¬ accepted_at (h_trace h) e t) ∧
         handover_done 4 (h_trace h) = true ∧ h_pool h !! 4 = None.
Proof.
  exists (after_run handed_over), (mkQueued "DISK_PREPARATION" "installer" "reached" "" noon "reporter:stage:disk_preparation").
  split_and!.
  - apply after_run_reachable. by vm_compute.
  - apply (bool_decide_unpack _). by vm_compute.
  - intros t Ht%accepted_in_spec. vm_compute in Ht. done.
  - by vm_compute.
  - by vm_compute.
Qed.

(** An append that fails after a part of its bytes arrived joins its event with
    the next: the daemon can read neither, nor what is queued behind them. *)
Example torn_line_stops_the_drain :
  let line e := default "" match marshal_queued e with Ok l => Some (l +:+ nl) | Err _ => None end in
  let e := mkQueued "INSTALLER_STARTED" "installer" "reached" "" noon "reporter:stage:installer_started" in
  match decode_queue (line e +:+ line e), decode_queue (first_bytes 40 (line e) +:+ line e +:+ line e) with
  | Ok events, Err _ => bool_decide (events = [e; e])
  | _, _ => false
  end = true.
Proof. by vm_compute. Qed.

Lemma queued_events_arrive_in_order_witness :
  let h := after_run drained in
  host_reachable h ∧ length (appended (h_trace h)) = 2 ∧ locks (h_disk h) !! queuePath = None ∧
  ∃ delivered rest ts,
    appended (h_trace h) = delivered ++ rest ∧
    Forall2 (accepted_at (h_trace h)) delivered ts ∧ StronglySorted lt ts ∧
    (locks (h_disk h) !! queuePath = None →
     decode_queue (queue_text (h_disk h)) = Ok rest ∨
     ∃ l, l ∈ split_byte (byte_of 10) (queue_text (h_disk h)) ∧ maxScanToken ≤ String.length l).
Proof.
  intros h. assert (host_reachable h) as Hh by (apply after_run_reachable; by vm_compute).
  split; [exact Hh|]. split; [by vm_compute|]. split; [by vm_compute|]. exact (queued_events_arrive_in_order h Hh).
Defined.

(** ** Single programs *)

(** The calls of a program under the given answers, and where it stops. *)
Fixpoint drive {A} (p : proc A) (answers : list outer) (d : disk) : list made * proc A :=
  match p, answers with
  | Sys c k, o :: answers =>
    match perform 0 c o d with
    | Some (x, d') => let '(l, p') := drive (k x) answers d' in (mkMade _ c x :: l, p')
    | None => ([], p)
    end
  | _, _ => ([], p)
  end.

Lemma drive_reaches {A} answers : ∀ (p : proc A) d, reaches p (drive p answers d).1 (drive p answers d).2.
Proof.
  induction answers as [|o answers IH]; intros [x| |B c k] d; cbn [drive]; try constructor.
  destruct (perform 0 c o d) as [[x d']|]; [|constructor]. specialize (IH (k x) d').
  destruct (drive (k x) answers d') as [l p']. by constructor.
Qed.

Definition signs {A} (p : proc A) : bool := match p with Sys (TPMSign _) _ => true | _ => false end.
Definition reports_success {A} (p : proc A) : bool :=
  match p with Sys (Exchange q) _ => (Get (h_Header q) "Idempotency-Key" =? "reporter:success")%string | _ => false end.

Lemma signs_inv {A} (p : proc A) : signs p = true → ∃ digest k, p = Sys (TPMSign digest) k.
Proof. destruct p as [x| |B c k]; [done..|]. destruct c; try done. by eexists _, _. Qed.
Lemma reports_success_inv {A} (p : proc A) : reports_success p = true → ∃ q k, p = Sys (Exchange q) k ∧ with_key "reporter:success" q.
Proof. destruct p as [x| |B c k]; [done..|]. destruct c; try done. intros Hk%String.eqb_eq. by eexists _, _. Qed.

(** The daemon until the TPM is asked for a signature. *)
Definition daemon_signs : list made * proc unit :=
  drive (process_of (DaemonCommand 5 InstallerConfigPath)) (repeat (sample_outer 200) 8) (h_disk fresh_host).

Lemma tpm_signs_only_challenges_witness :
  ∃ digest k, daemon_signs.2 = Sys (TPMSign digest) k ∧
  ∃ path c key text, configured path c daemon_signs.1 ∧ own_key key daemon_signs.1 ∧ asked_to_sign c key text daemon_signs.1 ∧
    digest = Artifact.sha256 text.
Proof.
  destruct (signs_inv daemon_signs.2) as (digest & k & Hp); [by vm_compute|]. exists digest, k. split; [exact Hp|].
  apply (tpm_signs_only_challenges (DaemonCommand 5 InstallerConfigPath) daemon_signs.1 digest k). rewrite <- Hp. apply drive_reaches.
Defined.

(** The first boot of an installed system until it reports success. *)
Definition installed_disk : disk :=
  mkDisk (list_to_map [(SystemConfigPath, "{}"); (systemCiphertextPath, sample_secret); ("/dev/tpm0", ""); ("/etc/passwd", "root:x:0" +:+ nl +:+ "admin:x:1000");
    ("/home/admin/.ssh/authorized_keys", "ssh-ed25519 A"); ("/etc/ssh/sshd_config.d/90-aegispxe.conf", "PermitRootLogin no");
    ("/etc/sudoers.d/90-aegispxe-admin", "admin ALL=(ALL) ALL")]) ∅.

Definition first_boot (installed : disk) : list made * proc unit :=
  drive (process_of (FirstBootCommand SystemConfigPath)) (repeat (sample_outer 200) 28) installed.

(** Without the sudo policy there is no report of success. *)
Example unfinished_first_boot :
  reports_success (first_boot installed_disk).2 = true ∧
  reports_success (first_boot (unset_file "/etc/sudoers.d/90-aegispxe-admin" installed_disk)).2 = false.
Proof. by vm_compute. Qed.

Lemma success_is_validated_witness :
  ∃ q k, (first_boot installed_disk).2 = Sys (Exchange q) k ∧ with_key "reporter:success" q ∧
  ∃ c, configured SystemConfigPath c (first_boot installed_disk).1 ∧ first_boot_passed c (first_boot installed_disk).1.
Proof.
  destruct (reports_success_inv (first_boot installed_disk).2) as (q & k & Hp & Hq); [by vm_compute|]. exists q, k. split; [exact Hp|].
  split; [exact Hq|]. apply (success_is_validated SystemConfigPath (first_boot installed_disk).1 q k); [|exact Hq]. rewrite <- Hp. apply drive_reaches.
Defined.

(** ** From the queue to the server *)

(** The fields of a text that [marshal] of the sample codec writes. *)
Definition fields (s : string) : list (string * string) :=
  omap (λ f, match split_byte ":" f with [k; v] => v ← hex_decode v; Some (k, v) | _ => None end) (split_byte ";" s).

Definition field_of (k s : string) : string :=
  default "" (head (snd <$> filter (λ f, f.1 = k) (fields s))).

#[local] Instance delivery_decoders : Decoders := {|
  decode_observation := λ _, Err (Plain "json");
  decode_event s := Ok (mkEventRequest (field_of "stage" s) (field_of "source" s) (field_of "client_time" s)
                          (field_of "message" s) (field_of "error_code" s) ∅);
  decode_log := λ _, Err (Plain "json");
  decode_enroll s := match text_of s "public_key_pem" with Some pem => Ok (mkEnrollRequest pem "") | None => Err (Plain "json") end;
  decode_challenge s := match text_of s "fingerprint" with Some fp => Ok (mkChallengeRequest fp) | None => Err (Plain "json") end;
  decode_prove s :=
    match text_of s "challenge_id", text_of s "signature" with
    | Some id, Some signature => Ok (mkProveRequest id signature)
    | _, _ => Err (Plain "json")
    end;
  time_Parse s := match ParseInt s with Some n => Ok n | None => Err (Plain "time") end |}.

Definition delivery_config : Config := mkConfig "http://10.0.0.1:8090" sample_iid sample_machine_id "ops".
Definition delivery_secret : string := RawURLEncoding_EncodeToString (filled 32 "a").
Definition delivered_events : list queuedEvent :=
  [mkQueued "INSTALLER_STARTED" "installer" "started" "" (5 * Second)%Z "reporter:stage:installer_started";
   mkQueued "DISK_PREPARATION" "installer" "disk" "" (6 * Second)%Z "reporter:stage:disk_preparation"].

(** The answer to the first request of the first turn is lost. *)
Definition delivery_fates (answered : bool) (n : nat) : fate :=
  mkFate (epoch + 1010)%Z id (Some (λ k, at_time (1010 + Z.of_nat k)%Z "b")) (answered || (0 <? n)%nat).

Definition delivery_chip : tpm := mkTPM (λ d, Ok (Some d)) (λ ct _, Ok ct).

(** A listener that passes every path on. *)
Definition every_path (_ : string) : bool := true.

Definition delivery_turn (answered : bool) (queue : list queuedEvent) (db : DB) : option (list queuedEvent * nat * DB) :=
  converse sample_server every_path no_fetch delivery_chip (post_events delivery_config delivery_secret queue) (delivery_fates answered) 0 db.

Definition base : list Lifecycle.Event := installation_history sample_iid db_booted.

(** What is left of the queue and the store after the two turns. *)
Definition delivered : option (list queuedEvent * DB) :=
  '(queue, _, db) ← delivery_turn false delivered_events db_booted;
  '(queue, _, db) ← delivery_turn true queue db; Some (queue, db).

Definition db_delivered : DB := default empty_db (snd <$> delivered).

Definition keys_are (keys : list string) (db : DB) : bool :=
  bool_decide (Lifecycle.IdempotencyKey <$> drop (length base) (installation_history sample_iid db) = keys).

(** The first turn records the first event and keeps both; the second empties
    the queue, and each event has one record. *)
Example delivery_stages :
  match delivery_turn false delivered_events db_booted with
  | Some (queue, _, db) => bool_decide (queue = delivered_events) && keys_are ["reporter:stage:installer_started"] db
  | None => false
  end = true ∧
  match delivered with
  | Some (queue, db) => bool_decide (queue = []) && keys_are ["reporter:stage:installer_started"; "reporter:stage:disk_preparation"] db
  | None => false
  end = true.
Proof. by vm_compute. Qed.

Lemma delivered_turns :
  turns sample_server every_path no_fetch delivery_chip delivery_config delivery_secret delivered_events db_booted [] db_delivered.
Proof.
  destruct (delivery_turn false delivered_events db_booted) as [[[q1 n1] db1]|] eqn:H1; [|by vm_compute in H1].
  destruct (delivery_turn true q1 db1) as [[[q2 n2] db2]|] eqn:H2.
  - assert (delivered = Some (q2, db2)) as Hd by (unfold delivered; rewrite H1; cbn [mbind option_bind]; by rewrite H2).
    assert (q2 = []) as ->.
    { assert (match delivered with Some ([], _) => true | _ => false end = true) as Hq by (by vm_compute).
      rewrite Hd in Hq. by destruct q2. }
    unfold db_delivered. rewrite Hd. cbn [fmap option_fmap option_map snd default].
    eapply (one_turn _ _ _ _ _ _ _ _ q1 n1 db1 _ _ (delivery_fates false) true); [done|exact H1|].
    eapply (one_turn _ _ _ _ _ _ _ _ [] n2 db2 _ _ (delivery_fates true) true); [done|exact H2|]. apply no_turn.
  - assert (match delivered with None => false | _ => true end = true) as Hq by (by vm_compute).
    exfalso. unfold delivered in Hq. rewrite H1 in Hq. cbn [mbind option_bind] in Hq. by rewrite H2 in Hq.
Qed.

#[local] Instance Report_eq_dec : EqDecision Lifecycle.Report.
Proof. solve_decision. Defined.

Definition delivered_understood (e : queuedEvent) : bool :=
  bool_decide (TrimSpace (qe_IdempotencyKey e) = qe_IdempotencyKey e) &&
  match decode_event (marshal (event_payload (qe_Stage e) (qe_Source e) (qe_Message e) (qe_ErrorCode e) (qe_ClientTime e))) with
  | Ok payload =>
    match parseOptionalClientTime (te_ClientTime payload) with
    | Ok t => bool_decide (event_report sample_iid (qe_IdempotencyKey e) payload t = report_of delivery_config e)
    | Err _ => false
    end
  | Err _ => false
  end.

Lemma delivered_events_understood : Forall (understood delivery_config) delivered_events.
Proof.
  assert (forallb delivered_understood delivered_events = true) as Hb by (by vm_compute).
  rewrite forallb_forall in Hb. apply Forall_forall. intros e He%list_elem_of_In%Hb. unfold delivered_understood in He. bool_inv.
  split; [done|]. destruct (decode_event _) as [payload|]; [|done]. destruct (parseOptionalClientTime _) as [t|] eqn:Ht; [|done]. bool_inv.
  by exists payload, t.
Qed.

Lemma delivered_keys_fresh : ∀ r e, r ∈ base → e ∈ delivered_events → Lifecycle.IdempotencyKey r ≠ qe_IdempotencyKey e.
Proof.
  intros r e Hr He. assert (forallb (λ r, forallb (λ e, negb (Lifecycle.IdempotencyKey r =? qe_IdempotencyKey e)%string) delivered_events) base = true) as Hb by (by vm_compute).
  rewrite forallb_forall in Hb. apply list_elem_of_In in Hr. apply Hb in Hr. rewrite forallb_forall in Hr.
  apply list_elem_of_In in He. apply Hr in He. by bool_inv.
Qed.

Lemma delivery_addressed : addressed delivery_config.
Proof.
  split; [by vm_compute|]. unfold client_routes. intros x u Hx Hu. rewrite !elem_of_cons, elem_of_nil in Hx.
  destruct Hx as [->|[->|[->|[->|[->|[]]]]]]; vm_compute in Hu; injection Hu as <-; by vm_compute.
Qed.

Lemma delivery_api : api_exists every_path delivery_config.
Proof.
  unfold api_exists, client_routes. intros x Hx. rewrite !elem_of_cons, elem_of_nil in Hx.
  destruct Hx as [->|[->|[->|[->|[->|[]]]]]]; (eexists; split; [by vm_compute|split; by vm_compute]).
Qed.

Lemma events_are_recorded_once_witness :
  Forall (understood delivery_config) delivered_events ∧
  turns sample_server every_path no_fetch delivery_chip delivery_config delivery_secret delivered_events db_booted [] db_delivered ∧
  ∃ i k records, i ≤ k ∧ k ≤ length delivered_events ∧ [] = drop i delivered_events ∧
    installation_history (InstallationID delivery_config) db_delivered = base ++ records ∧
    Forall2 (record_of delivery_config) records (take k delivered_events).
Proof.
  pose proof delivered_events_understood as Hu. split; [exact Hu|]. pose proof delivered_turns as Ht. split; [exact Ht|].
  apply (events_are_recorded_once sample_server every_path no_fetch delivery_chip delivery_config delivery_secret base delivered_events db_booted [] db_delivered
    delivery_addressed Hu); [|exact delivered_keys_fresh|by vm_compute|exact Ht].
  apply (bool_decide_unpack _). by vm_compute.
Defined.

(** Behind the PXE listener of the server nothing arrives. *)
Example pxe_listener_hides_the_reporter :
  match converse sample_server (λ p, match pxeSurface p with Serves => true | _ => false end) no_fetch delivery_chip
          (post_events delivery_config delivery_secret delivered_events) (delivery_fates true) 0 db_booted with
  | Some (queue, _, db) => bool_decide (queue = delivered_events) && keys_are [] db
  | None => false
  end = true.
Proof. by vm_compute. Qed.

(** A stage that is queued once more, a second later, has the key of the first
    report and another client time: the server refuses it, in this turn and in
    the next, and it holds up what was queued behind it. *)
Definition repeated_queue : list queuedEvent :=
  [mkQueued "INSTALLER_STARTED" "installer" "started" "" (5 * Second)%Z "reporter:stage:installer_started";
   mkQueued "INSTALLER_STARTED" "installer" "started" "" (6 * Second)%Z "reporter:stage:installer_started";
   mkQueued "DISK_PREPARATION" "installer" "disk" "" (7 * Second)%Z "reporter:stage:disk_preparation"].

Example repeated_stage_holds_up_the_queue :
  match ('(queue, _, db) ← delivery_turn true repeated_queue db_booted; '(queue', _, db') ← delivery_turn true queue db; Some (queue, queue', db')) with
  | Some (queue, queue', db') =>
      bool_decide (queue = drop 1 repeated_queue) && bool_decide (queue' = queue) && keys_are ["reporter:stage:installer_started"] db'
  | None => false
  end = true.
Proof. by vm_compute. Qed.

(** The store after the turn whose first answer got lost; the next turn
    delivers the queue. *)
Definition db_interrupted : DB :=
  match delivery_turn false delivered_events db_booted with Some (_, _, db) => db | None => empty_db end.

Lemma interrupted_turn :
  turns sample_server every_path no_fetch delivery_chip delivery_config delivery_secret delivered_events db_booted delivered_events db_interrupted.
Proof.
  destruct (delivery_turn false delivered_events db_booted) as [[[q1 n1] db1]|] eqn:H1; [|by vm_compute in H1].
  unfold db_interrupted. rewrite H1. eapply (one_turn _ _ _ _ _ _ _ _ q1 n1 db1 _ _ (delivery_fates false) false); [done|exact H1|]. apply no_turn.
Qed.

Definition delivery_until : time := (epoch + 1011)%Z.

Definition reliable_fate : fate := mkFate (epoch + 1010)%Z id (Some (λ _, at_time 1010%Z "b")) true.

Lemma reliable_fate_reliable : reliable delivery_config delivery_secret delivery_until reliable_fate.
Proof.
  split; [done|]. split; [by vm_compute|]. split; [done|]. split; [done|]. eexists. split; [done|]. intros j.
  split; [apply at_time_healthy|]. split; [by vm_compute|]. split; apply Z.leb_le; by vm_compute.
Qed.

Definition row_ready (row : CredentialRow) : bool :=
  (cr_secret_sha256 row =? Telemetry.KeyFromSecret delivery_secret)%string
  && match cr_revoked_at row with None => true | Some _ => false end && (delivery_until <=? cr_expires_at row)%Z.

(** [ready] as a computation. *)
Definition is_ready (n : nat) (db : DB) : bool :=
  match specs db !! sample_iid with Some _ => true | None => false end
  && match credential_of sample_iid db with Some _ => true | None => false end
  && forallb (λ p, negb (cr_installation p.2 =? sample_iid)%string || row_ready p.2) (map_to_list (credentials db))
  && (lifecycle_seq db + Z.of_nat n <? max_rowid)%Z && (log_seq db <? max_rowid)%Z && (event_seq db + Z.of_nat n <? max_rowid)%Z.

Lemma is_ready_ready n db : is_ready n db = true → ready delivery_config delivery_secret delivery_until n db.
Proof.
  unfold is_ready. rewrite !andb_true_iff, !Z.ltb_lt, forallb_forall. intros (((((Hs & Hc) & Hall) & ?) & ?) & ?).
  unfold ready, credentialed. change (InstallationID delivery_config) with sample_iid.
  split; [by destruct (specs db !! sample_iid)|]. split; [|done]. split.
  - destruct (credential_of sample_iid db) as [[id row]|] eqn:E; [|done]. apply credential_of_row in E. by exists id, row.
  - intros id row Hrow%elem_of_map_to_list%list_elem_of_In Hi. apply Hall in Hrow. cbn [snd] in Hrow.
    rewrite Hi, String.eqb_refl in Hrow. cbn [negb orb] in Hrow. unfold row_ready in Hrow.
    rewrite !andb_true_iff, String.eqb_eq, Z.leb_le in Hrow. destruct Hrow as ((? & ?) & ?). by destruct (cr_revoked_at row).
Qed.

Lemma interrupted_ready : ready delivery_config delivery_secret delivery_until (length delivered_events) db_interrupted.
Proof. apply is_ready_ready. by vm_compute. Qed.

Lemma delivered_events_deliverable : deliverable delivery_config base delivered_events.
Proof.
  split; [exact delivered_events_understood|]. split; [|split; [apply (bool_decide_unpack _); by vm_compute|]].
  - repeat constructor; (by vm_compute).
  - split; [exact delivered_keys_fresh|]. repeat split; by vm_compute.
Qed.

Lemma reliable_turn_delivers_witness :
  turns sample_server every_path no_fetch delivery_chip delivery_config delivery_secret delivered_events db_booted delivered_events db_interrupted ∧
  ∃ n db2 records, converse sample_server every_path no_fetch delivery_chip (post_events delivery_config delivery_secret delivered_events) (λ _, reliable_fate) 0 db_interrupted
      = Some ([], n, db2) ∧
    installation_history (InstallationID delivery_config) db2 = base ++ records ∧
    Forall2 (record_of delivery_config) records delivered_events.
Proof.
  split; [exact interrupted_turn|].
  apply (reliable_turn_delivers sample_server every_path no_fetch delivery_chip delivery_config delivery_secret delivery_until base delivered_events
    db_booted delivered_events db_interrupted (λ _, reliable_fate) delivery_addressed).
  - exact delivery_api.
  - exact delivered_events_deliverable.
  - by vm_compute.
  - exact interrupted_turn.
  - intros _. exact interrupted_ready.
  - intros _. exact reliable_fate_reliable.
Defined.

(** ** From the TPM to the server *)

#[local] Instance delivery_codec_laws : TrustCodecLaws.
Proof.
  assert (∀ l, (Z.of_nat (foldr (λ p n, 2 + String.length p.1 + String.length (json_text p.2) + n)%nat 0%nat l) ≤ 16384)%Z →
    (len (marshal (JObject l)) ≤ maxBootTrustBody)%Z) as Hlen.
  { intros l Hl. change maxBootTrustBody with 16384%Z. unfold len. pose proof (marshal_length l). cbn [marshal sample_codec]. lia. }
  assert (∀ j, marshal j = sample_marshal j) as Hm by done.
  split.
  - intros pem Hp. split.
    + unfold enroll_request. cbn [decode_enroll delivery_decoders]. unfold text_of, member_of. rewrite (request_members Hm); [|done|by repeat constructor].
      cbn. by rewrite hex_decode_encode.
    + apply Hlen. destruct Hp as [_ Hp]. cbn [foldr fst snd json_text]. rewrite hex_encode_length. cbn [String.length]. lia.
  - intros fp Hp. split.
    + unfold challenge_request. cbn [decode_challenge delivery_decoders]. unfold text_of, member_of. rewrite (request_members Hm); [|done|by repeat constructor].
      cbn. by rewrite hex_decode_encode.
    + apply Hlen. destruct Hp as [_ Hp]. cbn [foldr fst snd json_text]. rewrite hex_encode_length. cbn [String.length]. lia.
  - intros id signature Hi Hs. split.
    + unfold prove_request. cbn [decode_prove delivery_decoders]. unfold text_of, member_of. rewrite (request_members Hm); [|done|by repeat constructor].
      cbn. by rewrite !hex_decode_encode.
    + apply Hlen. destruct Hi as [_ Hi], Hs as [_ Hs]. cbn [foldr fst snd json_text]. rewrite !hex_encode_length. cbn [String.length]. lia.
  - intros. cbn [decode_enrolled sample_codec]. by rewrite (wire_enrolled_law Hm).
  - intros. cbn [decode_challenge_reply sample_codec]. by rewrite (wire_challenge_law Hm).
  - intros. cbn [decode_release sample_codec]. by rewrite (wire_release_law Hm).
Qed.

(** The store in which the operator has approved the key of the sample machine,
    once the installer has booted. *)
Definition db_awaiting : DB :=
  after db_approved 1006%Z (AppendLifecycleEvent_ (sample_report Lifecycle.StagePXEBooted Lifecycle.SourceServer "server:pxe") "req-7").

Definition delivery_key : TPMKey := mkTPMKey Artifact.sample_key sample_key_text Sample.sample_fingerprint.
Definition awaiting_base : list Lifecycle.Event := installation_history sample_iid db_awaiting.

Lemma delivery_commissioned : commissioned delivery_chip delivery_config delivery_key.
Proof.
  split.
  - by vm_compute.
  - by vm_compute.
  - unfold plain. split_and!; try apply Nat.leb_le; by vm_compute.
  - by vm_compute.
  - split.
    + intros digest Hd. exists digest. rewrite Hd. split; [done|]. split; [apply String.eqb_refl|lia].
    + intros seed m Hm. by eexists.
    + intros seed m ct Hm [= <-]. split; [done|]. lia.
Qed.

Definition spec_in (db : DB) : Installation.Spec := default sample_spec (specs db !! sample_iid).

(** [enrollable] as a computation. *)
Definition is_enrollable (m : nat) (db : DB) : bool :=
  match specs db !! sample_iid with
  | Some s => (Installation.MachineID s =? sample_machine_id)%string
              && match credentials db !! Installation.LifecycleCredentialID s with None => true | Some _ => false end
  | None => false
  end
  && match StoreInstallations.assignment_of sample_iid db with Some x => negb (Assignment.a_State x =? Assignment.StateCancelled)%string | None => false end
  && match machines db !! sample_machine_id with Some m => (Machine.m_Policy m =? Machine.PolicyProvision)%string | None => false end
  && match trust_keys db !! Sample.sample_fingerprint with
     | Some k => (Boottrust.k_Fingerprint k =? Sample.sample_fingerprint)%string && (Boottrust.k_MachineID k =? sample_machine_id)%string
                 && (Boottrust.k_State k =? Boottrust.KeyApproved)%string && (Boottrust.k_PublicKeyPEM k =? TrimSpace sample_key_text)%string
     | None => false
     end
  && forallb (λ p, negb (cr_installation p.2 =? sample_iid)%string) (map_to_list (credentials db))
  && (lifecycle_seq db + Z.of_nat m <? max_rowid)%Z && (log_seq db <? max_rowid)%Z && (event_seq db + Z.of_nat m + 1 <? max_rowid)%Z.

Lemma is_enrollable_enrollable m db : is_enrollable m db = true → enrollable delivery_config delivery_key (spec_in db) m db.
Proof.
  unfold is_enrollable. rewrite !andb_true_iff, !Z.ltb_lt, forallb_forall. intros (((((((Hs & Hx) & Hm) & Hk) & Hc) & ?) & ?) & ?).
  unfold enrollable, spec_in. change (InstallationID delivery_config) with sample_iid. change (MachineID delivery_config) with sample_machine_id.
  change (fingerprint delivery_key) with Sample.sample_fingerprint. change (publicPEM delivery_key) with sample_key_text.
  destruct (specs db !! sample_iid) as [s|] eqn:Es; [|done]. apply andb_true_iff in Hs as [Hs1%String.eqb_eq Hs2]. change (default sample_spec (Some s)) with s.
  split; [split|split; [split|done]].
  - done.
  - destruct (StoreInstallations.assignment_of sample_iid db) as [x|]; [|done]. exists x. split; [done|]. by apply String.eqb_neq, negb_true_iff.
  - destruct (machines db !! sample_machine_id) as [x|]; [|done]. exists x. split; [done|]. by apply String.eqb_eq.
  - destruct (trust_keys db !! Sample.sample_fingerprint) as [k|]; [|done]. exists k. rewrite !andb_true_iff, !String.eqb_eq in Hk. naive_solver.
  - by destruct (credentials db !! Installation.LifecycleCredentialID s).
  - intros cid row Hrow%elem_of_map_to_list%list_elem_of_In. apply Hc in Hrow. by apply String.eqb_neq, negb_true_iff.
Qed.

Lemma awaiting_enrollable : enrollable delivery_config delivery_key (spec_in db_awaiting) (length delivered_events) db_awaiting.
Proof. apply is_enrollable_enrollable. by vm_compute. Qed.

Definition trust_start : time := (epoch + 1009)%Z.

Lemma reliable_fate_steady s : steady delivery_config delivery_key s trust_start reliable_fate.
Proof.
  split; [done|by vm_compute|intros db; apply undisturbed_refl|]. eexists. split; [done|]. intros j.
  split; [apply at_time_healthy|]. split; [intros k n x [= <-]; apply filled_length|].
  split; [by vm_compute|]. split; apply Z.leb_le; by vm_compute.
Qed.

Lemma reliable_fate_draws db :
  challenges db !! ("btc_" +:+ hex_encode (filled 12 "b")) = None → draws_fresh reliable_fate db.
Proof.
  intros Hf env j Henv t raw Hraw.
  assert (env = λ _, at_time 1010%Z "b") as -> by (change (Some (λ _ : nat, at_time 1010%Z "b") = Some env) in Henv; congruence).
  assert (raw = filled 12 "b") as -> by (change (Some (filled 12 "b") = Some raw) in Hraw; congruence). exact Hf.
Qed.

Lemma awaiting_fresh : draws_fresh reliable_fate db_awaiting.
Proof. apply reliable_fate_draws. by vm_compute. Qed.

Lemma awaiting_deliverable : deliverable delivery_config awaiting_base delivered_events.
Proof.
  assert (forallb (λ r, forallb (λ e, negb (Lifecycle.IdempotencyKey r =? qe_IdempotencyKey e)%string) delivered_events) awaiting_base = true) as Hb by (by vm_compute).
  destruct delivered_events_deliverable as (Hu & Ha & Hn & _ & _). split; [exact Hu|]. split; [exact Ha|]. split; [exact Hn|]. split.
  - intros r e Hr He. rewrite forallb_forall in Hb. apply list_elem_of_In in Hr. apply Hb in Hr. rewrite forallb_forall in Hr.
    apply list_elem_of_In in He. apply Hr in He. by apply String.eqb_neq, negb_true_iff.
  - repeat split; by vm_compute.
Qed.


(** The answer to the third request, which carries the credential, is lost;
    later requests draw other challenges. *)
Definition lost_release (n : nat) : fate :=
  mkFate (epoch + 1010)%Z id (Some (λ _, at_time 1010%Z (if (n <? 3)%nat then "b" else "c"))) (negb (n =? 2)%nat).

Definition acquire (fates : nat → fate) (n : nat) (db : DB) : option (result CredentialMaterial * nat * DB) :=
  converse sample_server every_path no_fetch delivery_chip (AcquireCredential delivery_config delivery_key) fates n db.

(** The server has then released the credential, and refuses it to every later
    challenge, so that the client does not get it any more. *)
Example lost_release_is_final :
  match acquire lost_release 0 db_awaiting with
  | Some (Err _, n, db) =>
      bool_decide (is_Some (credential_of sample_iid db))
      && match acquire lost_release n db with
         | Some (Err (Plain e), _, db') => (e =? "AegisPXE API returned HTTP 409")%string && bool_decide (size (challenges db') = 2)
         | _ => false
         end
  | _ => false
  end = true.
Proof. by vm_compute. Qed.
